(** * claude-orchestrator: durable store, dispatch ledger and tools

    A shallow embedding of [src/storage.ts], [src/util.ts],
    [src/types.ts], [src/tools/dispatch.ts] and of the tools over the
    typed stores ([teams.ts], [reminders.ts], [learning.ts],
    [context.ts], [workflow.ts]), and the properties of the program
    stated over it.  The embedding comes first (modules [Numeral],
    [JSON], [Storage], [Raising], [Dispatch], [Tool], [Teams],
    [Reminders], [Learning], [Context], [Workflow], [Samples]), the
    properties after it (modules [NumeralFacts] to [WorkflowFacts]).
    The prompt templates of the dispatcher and the server loop are not
    modelled.

    Conventions of the model.
    - A JavaScript string is a [string]; every [ascii] stands for one
      code unit, so the alphabet is U+0000..U+00FF.  A file holds the
      string that [readFileSync(_, "utf-8")] returns.
    - A JavaScript number is a [Z]: the stores hold versions, pids,
      exit codes and counts.  Fractions and exponents are outside the
      values of the model; [JSON.valid] recognises the whole grammar,
      so that [JSON.parse_text] tells a text that is no JSON from one
      that the model does not hold.
    - The file system has no permissions and no quota.
      [writeFileSync], [mkdirSync] and [renameSync] are the calls as
      they return; [write_error] and [mkdir_error] say when a call
      throws instead: a directory that is missing, a file in the
      place of a directory.  [Raising] holds [ensureStorageDir] and
      [readStore] with these failures, and [cancel_dispatch] writes
      its marker with them.  What the code guards against (a missing
      file, an unreadable or unparsable file, a process that cannot be
      signalled, a spawn that throws) is explicit, as [option] or as
      a sum.
    - A handler runs to completion without yielding, so it is a
      function from the world before the call to its result and the
      world after it.  A handler that can throw answers with an
      [outcome]: what it returned, or what it threw.
    - TypeScript types are taken at their word in [Storage] and in
      the tools: a store file that parses to JSON of another shape
      than the type of its store is read as an unreadable file.
      [Raising.readStore] is the function on whatever the file
      holds.
    - An object that is used as a map ([Record<string, _>]) is the
      list of its own properties in the order of the file; a lookup
      under a name that every object inherits finds what is
      inherited.  Names that are array indices, which an engine
      lists first, are outside the model.
    - The signals that [cancel_dispatch] sends are part of its
      result; what they do to the processes is left to the
      environment. *)

From Stdlib Require Import ZArith NArith String Ascii List Lia Bool DecimalN.
From stdpp Require Import gmap strings list fin_maps.

(** ** Characters and text *)

Definition dquote : ascii := "034"%char.
Definition newline : ascii := "010"%char.
Definition backslash : ascii := "092"%char.

Definition str1 (c : ascii) : string := String c EmptyString.

(** [s.length] *)
Definition slen (s : string) : Z := Z.of_nat (String.length s).

Fixpoint take_str (n : nat) (s : string) : string :=
  match n, s with
  | S n', String c r => String c (take_str n' r)
  | _, _ => EmptyString
  end.

(** [s.slice(0, n)] for [0 <= n]. *)
Definition str_slice0 (n : Z) (s : string) : string :=
  take_str (Z.to_nat n) s.

Fixpoint is_prefix (p s : string) : bool :=
  match p, s with
  | EmptyString, _ => true
  | String a p', String b s' => Ascii.eqb a b && is_prefix p' s'
  | String _ _, EmptyString => false
  end.

(** [hay.includes(needle)] *)
Fixpoint includes (needle hay : string) : bool :=
  is_prefix needle hay ||
  match hay with
  | EmptyString => false
  | String _ r => includes needle r
  end.

(** The capital letters of the alphabet: A to Z, and U+00C0 to U+00DE
    without the multiplication sign. *)
Definition lower_char (c : ascii) : ascii :=
  let n := N_of_ascii c in
  if ((65 <=? n) && (n <=? 90) ||
      (192 <=? n) && (n <=? 222) && negb (n =? 215))%N
  then ascii_of_N (n + 32) else c.

(** [s.toLowerCase()] *)
Fixpoint toLowerCase (s : string) : string :=
  match s with
  | EmptyString => EmptyString
  | String c r => String (lower_char c) (toLowerCase r)
  end.

(** The white space that [String.prototype.trim] strips, within the
    alphabet: TAB, LF, VT, FF, CR, SP and NBSP. *)
Definition is_js_space (c : ascii) : bool :=
  let n := N_of_ascii c in
  ((9 <=? n) && (n <=? 13) || (n =? 32) || (n =? 160))%N.

Fixpoint trim_start (s : string) : string :=
  match s with
  | String c r => if is_js_space c then trim_start r else s
  | EmptyString => EmptyString
  end.

(** Drops the trailing white space: a character is kept when it is not
    a space or when something is kept after it. *)
Fixpoint trim_end (s : string) : string :=
  match s with
  | EmptyString => EmptyString
  | String c r =>
      match trim_end r with
      | EmptyString => if is_js_space c then EmptyString else str1 c
      | r' => String c r'
      end
  end.

(** [s.trim()] *)
Definition trim (s : string) : string := trim_end (trim_start s).

(** Whether a string is white space throughout. *)
Definition all_space (s : string) : bool :=
  forallb is_js_space (list_ascii_of_string s).

(** [parts.join(sep)] *)
Fixpoint join_with (sep : string) (parts : list string) : string :=
  match parts with
  | [] => EmptyString
  | [p] => p
  | p :: rest => p +:+ sep +:+ join_with sep rest
  end.

(** ** Decimal numerals *)

Module Numeral.

Import Decimal.

Fixpoint emit_uint (u : uint) (k : string) : string :=
  match u with
  | Nil => k
  | D0 u => String "0" (emit_uint u k)
  | D1 u => String "1" (emit_uint u k)
  | D2 u => String "2" (emit_uint u k)
  | D3 u => String "3" (emit_uint u k)
  | D4 u => String "4" (emit_uint u k)
  | D5 u => String "5" (emit_uint u k)
  | D6 u => String "6" (emit_uint u k)
  | D7 u => String "7" (emit_uint u k)
  | D8 u => String "8" (emit_uint u k)
  | D9 u => String "9" (emit_uint u k)
  end.

Definition digit_of (c : ascii) : option (uint -> uint) :=
  match N_of_ascii c with
  | 48%N => Some D0 | 49%N => Some D1 | 50%N => Some D2 | 51%N => Some D3
  | 52%N => Some D4 | 53%N => Some D5 | 54%N => Some D6 | 55%N => Some D7
  | 56%N => Some D8 | 57%N => Some D9
  | _ => None
  end.

Definition is_digit (c : ascii) : bool :=
  match digit_of c with Some _ => true | None => false end.

(** The longest run of digits at the head of [s]. *)
Fixpoint lex_digits (s : string) : uint * string :=
  match s with
  | EmptyString => (Nil, EmptyString)
  | String c r =>
      match digit_of c with
      | Some d => let '(u, r') := lex_digits r in (d u, r')
      | None => (Nil, s)
      end
  end.

(** [String(n)] for an integer [n]. *)
Definition emit_Z (n : Z) (k : string) : string :=
  match n with
  | Z0 => String "0" k
  | Zpos p => emit_uint (Pos.to_uint p) k
  | Zneg p => String "-" (emit_uint (Pos.to_uint p) k)
  end.

Definition string_of_Z (n : Z) : string := emit_Z n EmptyString.

(** A JSON integer literal: an optional minus sign, then [0] or a
    run of digits that does not start with [0]. *)
Definition lex_int (s : string) : option (Z * string) :=
  let '(neg, body) :=
    match s with
    | String c r => if Ascii.eqb c "-" then (true, r) else (false, s)
    | EmptyString => (false, s)
    end in
  let '(u, rest) := lex_digits body in
  if uint_beq (unorm u) u
  then let m := Z.of_N (N.of_uint u) in
       Some (if neg then Z.opp m else m, rest)
  else None.

(** What may follow a numeral without being read as part of it. *)
Definition no_digit_ahead (s : string) : Prop :=
  match s with
  | EmptyString => True
  | String c _ => is_digit c = false
  end.

End Numeral.
(** ** JSON text

  [JSON.stringify(v, null, 2)] and [JSON.parse] of the runtime, on
  the values the stores hold.  The printer writes in front of a
  continuation, the parser returns what it has not read. *)

Module JSON.

Unset Elimination Schemes.
Inductive json : Type :=
| JNull
| JBool (b : bool)
| JNum (n : Z)
| JStr (s : string)
| JArr (xs : list json)
| JObj (ms : list (string * json)).
Set Elimination Schemes.

(** *** String literals *)

Definition hex_digit (n : N) : ascii :=
  if (n <? 10)%N then ascii_of_N (48 + n) else ascii_of_N (87 + n).

Definition hex_val (c : ascii) : option N :=
  let n := N_of_ascii c in
  if ((48 <=? n) && (n <=? 57))%N then Some (n - 48)%N
  else if ((97 <=? n) && (n <=? 102))%N then Some (n - 87)%N
  else if ((65 <=? n) && (n <=? 70))%N then Some (n - 55)%N
  else None.

(** QuoteJSONString, one code unit at a time. *)
Definition emit_char (c : ascii) (k : string) : string :=
  let n := N_of_ascii c in
  if (n =? 34)%N then String backslash (String dquote k)
  else if (n =? 92)%N then String backslash (String backslash k)
  else if (n =? 8)%N then String backslash (String "b" k)
  else if (n =? 12)%N then String backslash (String "f" k)
  else if (n =? 10)%N then String backslash (String "n" k)
  else if (n =? 13)%N then String backslash (String "r" k)
  else if (n =? 9)%N then String backslash (String "t" k)
  else if (n <? 32)%N then
    String backslash (String "u" (String "0" (String "0"
      (String (hex_digit (n / 16)) (String (hex_digit (n mod 16)) k)))))
  else String c k.

Fixpoint emit_chars (s : string) (k : string) : string :=
  match s with
  | EmptyString => k
  | String c r => emit_char c (emit_chars r k)
  end.

Definition emit_string (s : string) (k : string) : string :=
  String dquote (emit_chars s (String dquote k)).

Definition simple_escape (e : ascii) : option ascii :=
  let n := N_of_ascii e in
  if (n =? 34)%N then Some dquote
  else if (n =? 92)%N then Some backslash
  else if (n =? 47)%N then Some "/"%char
  else if (n =? 98)%N then Some "008"%char
  else if (n =? 102)%N then Some "012"%char
  else if (n =? 110)%N then Some newline
  else if (n =? 114)%N then Some "013"%char
  else if (n =? 116)%N then Some "009"%char
  else None.

(** [\uXXXX]; a code unit above U+00FF is outside the alphabet. *)
Definition unicode_escape (h1 h2 h3 h4 : ascii) : option ascii :=
  match hex_val h1, hex_val h2, hex_val h3, hex_val h4 with
  | Some a, Some b, Some c, Some d =>
      let n := (4096 * a + 256 * b + 16 * c + d)%N in
      if (n <? 256)%N then Some (ascii_of_N n) else None
  | _, _, _, _ => None
  end.

Definition push_char (c : ascii) (o : option (string * string))
  : option (string * string) :=
  match o with
  | Some (t, r) => Some (String c t, r)
  | None => None
  end.

(** The body of a string literal, after its opening quote. *)
Fixpoint lex_string (s : string) : option (string * string) :=
  match s with
  | EmptyString => None
  | String c r =>
      if Ascii.eqb c dquote then Some (EmptyString, r)
      else if Ascii.eqb c backslash then
        match r with
        | EmptyString => None
        | String e r1 =>
            if Ascii.eqb e "u" then
              match r1 with
              | String h1 (String h2 (String h3 (String h4 r2))) =>
                  match unicode_escape h1 h2 h3 h4 with
                  | Some x => push_char x (lex_string r2)
                  | None => None
                  end
              | _ => None
              end
            else
              match simple_escape e with
              | Some x => push_char x (lex_string r1)
              | None => None
              end
        end
      else if (N_of_ascii c <? 32)%N then None
      else push_char c (lex_string r)
  end.

(** *** Values *)

Fixpoint emit_indent (n : nat) (k : string) : string :=
  match n with
  | O => k
  | S n' => String " " (emit_indent n' k)
  end.

Definition emit_break (n : nat) (k : string) : string :=
  String newline (emit_indent n k).

Section Items.
Variable emit_elem : json -> string -> string.
Variable ind : nat.

(** The elements after the first, each behind its comma, and the
    closing bracket on a line of its own. *)
Fixpoint emit_items (l : list json) (k : string) : string :=
  match l with
  | [] => emit_break ind (String "]" k)
  | y :: l' =>
      String "," (emit_break (S (S ind)) (emit_elem y (emit_items l' k)))
  end.

Definition emit_member (m : string * json) (k : string) : string :=
  emit_string (fst m) (String ":" (String " " (emit_elem (snd m) k))).

Fixpoint emit_members (l : list (string * json)) (k : string) : string :=
  match l with
  | [] => emit_break ind (String "}" k)
  | m :: l' =>
      String "," (emit_break (S (S ind)) (emit_member m (emit_members l' k)))
  end.
End Items.

(** [v] printed at indentation [ind], in front of [k]. *)
Fixpoint emit (ind : nat) (v : json) (k : string) {struct v} : string :=
  match v with
  | JNull => String "n" (String "u" (String "l" (String "l" k)))
  | JBool true => String "t" (String "r" (String "u" (String "e" k)))
  | JBool false =>
      String "f" (String "a" (String "l" (String "s" (String "e" k))))
  | JNum n => Numeral.emit_Z n k
  | JStr s => emit_string s k
  | JArr [] => String "[" (String "]" k)
  | JArr (x :: xs) =>
      String "[" (emit_break (S (S ind))
        (emit (S (S ind)) x (emit_items (emit (S (S ind))) ind xs k)))
  | JObj [] => String "{" (String "}" k)
  | JObj (m :: ms) =>
      String "{" (emit_break (S (S ind))
        (emit_member (emit (S (S ind))) m
           (emit_members (emit (S (S ind))) ind ms k)))
  end.

(** [JSON.stringify(v, null, 2)] *)
Definition stringify (v : json) : string := emit 0 v EmptyString.

Definition is_json_ws (c : ascii) : bool :=
  let n := N_of_ascii c in
  ((n =? 32) || (n =? 9) || (n =? 10) || (n =? 13))%N.

Fixpoint skip_ws (s : string) : string :=
  match s with
  | EmptyString => EmptyString
  | String c r => if is_json_ws c then skip_ws r else s
  end.

Fixpoint strip_prefix (p s : string) : option string :=
  match p, s with
  | EmptyString, _ => Some s
  | String a p', String b s' =>
      if Ascii.eqb a b then strip_prefix p' s' else None
  | String _ _, EmptyString => None
  end.

Definition expect (lit : string) (v : json) (s : string)
  : option (json * string) :=
  match strip_prefix lit s with
  | Some r => Some (v, r)
  | None => None
  end.

(** [obj[k] = v]: an own property keeps its place, a new one goes
    last. *)
Fixpoint set_field (k : string) (v : json) (ms : list (string * json))
  : list (string * json) :=
  match ms with
  | [] => [(k, v)]
  | (k', v') :: r =>
      if String.eqb k' k then (k', v) :: r else (k', v') :: set_field k v r
  end.

(** [obj[k]], own properties only. *)
Fixpoint get_field (k : string) (ms : list (string * json)) : option json :=
  match ms with
  | [] => None
  | (k', v) :: r => if String.eqb k' k then Some v else get_field k r
  end.

(** The object that [JSON.parse] builds from the members in the order
    of the text: of two members with one name the later wins. *)
Definition mk_object (raw : list (string * json)) : list (string * json) :=
  fold_left (fun acc m => set_field (fst m) (snd m) acc) raw [].

Fixpoint parse_value (fuel : nat) (s : string) {struct fuel}
  : option (json * string) :=
  match fuel with
  | O => None
  | S f =>
      match skip_ws s with
      | EmptyString => None
      | String c r =>
          if Numeral.is_digit c || Ascii.eqb c "-" then
            match Numeral.lex_int (String c r) with
            | Some (n, r') => Some (JNum n, r')
            | None => None
            end
          else if Ascii.eqb c dquote then
            match lex_string r with
            | Some (t, r') => Some (JStr t, r')
            | None => None
            end
          else if Ascii.eqb c "n" then expect "ull" JNull r
          else if Ascii.eqb c "t" then expect "rue" (JBool true) r
          else if Ascii.eqb c "f" then expect "alse" (JBool false) r
          else if Ascii.eqb c "[" then
            match skip_ws r with
            | EmptyString => None
            | String c' r' =>
                if Ascii.eqb c' "]" then Some (JArr [], r')
                else match parse_elems f r with
                     | Some (xs, r'') => Some (JArr xs, r'')
                     | None => None
                     end
            end
          else if Ascii.eqb c "{" then
            match skip_ws r with
            | EmptyString => None
            | String c' r' =>
                if Ascii.eqb c' "}" then Some (JObj [], r')
                else match parse_members f r with
                     | Some (ms, r'') => Some (JObj (mk_object ms), r'')
                     | None => None
                     end
            end
          else None
      end
  end
with parse_elems (fuel : nat) (s : string) {struct fuel}
  : option (list json * string) :=
  match fuel with
  | O => None
  | S f =>
      match parse_value f s with
      | None => None
      | Some (v, r) =>
          match skip_ws r with
          | EmptyString => None
          | String c r' =>
              if Ascii.eqb c "," then
                match parse_elems f r' with
                | Some (vs, r'') => Some (v :: vs, r'')
                | None => None
                end
              else if Ascii.eqb c "]" then Some ([v], r')
              else None
          end
      end
  end
with parse_members (fuel : nat) (s : string) {struct fuel}
  : option (list (string * json) * string) :=
  match fuel with
  | O => None
  | S f =>
      match skip_ws s with
      | EmptyString => None
      | String q r0 =>
          if Ascii.eqb q dquote then
            match lex_string r0 with
            | None => None
            | Some (key, r1) =>
                match skip_ws r1 with
                | EmptyString => None
                | String c r2 =>
                    if Ascii.eqb c ":" then
                      match parse_value f r2 with
                      | None => None
                      | Some (v, r3) =>
                          match skip_ws r3 with
                          | EmptyString => None
                          | String d r4 =>
                              if Ascii.eqb d "," then
                                match parse_members f r4 with
                                | Some (ms, r5) => Some ((key, v) :: ms, r5)
                                | None => None
                                end
                              else if Ascii.eqb d "}" then
                                Some ([(key, v)], r4)
                              else None
                          end
                      end
                    else None
                end
            end
          else None
      end
  end.

(** [JSON.parse(s)]; [None] stands for the SyntaxError. *)
Definition parse (s : string) : option json :=
  match parse_value (S (String.length s)) s with
  | Some (v, r) =>
      match skip_ws r with
      | EmptyString => Some v
      | String _ _ => None
      end
  | None => None
  end.

(** *** The grammar

    [JSON.parse] reads every text of the grammar.  [parse] above
    reads those whose numbers are integers and whose escapes stay
    within the alphabet; [valid] recognises the grammar, so that a
    text is known to be no JSON, not only to be unread. *)

(** A run of digits, not empty. *)
Definition skip_digits (s : string) : option string :=
  match s with
  | String c r =>
      if Numeral.is_digit c then Some (snd (Numeral.lex_digits r)) else None
  | EmptyString => None
  end.

(** [0], or a run of digits that does not start with [0]. *)
Definition skip_int (s : string) : option string :=
  match s with
  | String c r => if Ascii.eqb c "0" then Some r else skip_digits s
  | EmptyString => None
  end.

Definition skip_fraction (s : string) : option string :=
  match s with
  | String c r => if Ascii.eqb c "." then skip_digits r else Some s
  | EmptyString => Some s
  end.

Definition skip_exponent (s : string) : option string :=
  match s with
  | String c r =>
      if Ascii.eqb c "e" || Ascii.eqb c "E" then
        match r with
        | String g r' =>
            if Ascii.eqb g "+" || Ascii.eqb g "-" then skip_digits r'
            else skip_digits r
        | EmptyString => None
        end
      else Some s
  | EmptyString => Some s
  end.

(** A number: sign, integer part, fraction, exponent. *)
Definition skip_number (s : string) : option string :=
  let body :=
    match s with
    | String c r => if Ascii.eqb c "-" then r else s
    | EmptyString => s
    end in
  r1 ← skip_int body;
  r2 ← skip_fraction r1;
  skip_exponent r2.

Definition is_hex (c : ascii) : bool :=
  match hex_val c with Some _ => true | None => false end.

(** The body of a string literal, after its opening quote; an escape
    [\uXXXX] names any code unit. *)
Fixpoint skip_string (s : string) : option string :=
  match s with
  | EmptyString => None
  | String c r =>
      if Ascii.eqb c dquote then Some r
      else if Ascii.eqb c backslash then
        match r with
        | EmptyString => None
        | String e r1 =>
            if Ascii.eqb e "u" then
              match r1 with
              | String h1 (String h2 (String h3 (String h4 r2))) =>
                  if is_hex h1 && is_hex h2 && is_hex h3 && is_hex h4
                  then skip_string r2 else None
              | _ => None
              end
            else
              match simple_escape e with
              | Some _ => skip_string r1
              | None => None
              end
        end
      else if (N_of_ascii c <? 32)%N then None
      else skip_string r
  end.

(** What follows a value, elements up to the closing bracket and
    members up to the closing brace. *)
Fixpoint skip_value (fuel : nat) (s : string) {struct fuel} : option string :=
  match fuel with
  | O => None
  | S f =>
      match skip_ws s with
      | EmptyString => None
      | String c r =>
          if Numeral.is_digit c || Ascii.eqb c "-" then skip_number (String c r)
          else if Ascii.eqb c dquote then skip_string r
          else if Ascii.eqb c "n" then strip_prefix "ull" r
          else if Ascii.eqb c "t" then strip_prefix "rue" r
          else if Ascii.eqb c "f" then strip_prefix "alse" r
          else if Ascii.eqb c "[" then
            match skip_ws r with
            | EmptyString => None
            | String c' r' =>
                if Ascii.eqb c' "]" then Some r' else skip_elems f r
            end
          else if Ascii.eqb c "{" then
            match skip_ws r with
            | EmptyString => None
            | String c' r' =>
                if Ascii.eqb c' "}" then Some r' else skip_members f r
            end
          else None
      end
  end
with skip_elems (fuel : nat) (s : string) {struct fuel} : option string :=
  match fuel with
  | O => None
  | S f =>
      match skip_value f s with
      | None => None
      | Some r =>
          match skip_ws r with
          | EmptyString => None
          | String c r' =>
              if Ascii.eqb c "," then skip_elems f r'
              else if Ascii.eqb c "]" then Some r'
              else None
          end
      end
  end
with skip_members (fuel : nat) (s : string) {struct fuel} : option string :=
  match fuel with
  | O => None
  | S f =>
      match skip_ws s with
      | EmptyString => None
      | String q r0 =>
          if Ascii.eqb q dquote then
            match skip_string r0 with
            | None => None
            | Some r1 =>
                match skip_ws r1 with
                | EmptyString => None
                | String c r2 =>
                    if Ascii.eqb c ":" then
                      match skip_value f r2 with
                      | None => None
                      | Some r3 =>
                          match skip_ws r3 with
                          | EmptyString => None
                          | String d r4 =>
                              if Ascii.eqb d "," then skip_members f r4
                              else if Ascii.eqb d "}" then Some r4
                              else None
                          end
                      end
                    else None
                end
            end
          else None
      end
  end.

(** What may follow an integer without making a longer number of
    it. *)
Definition ends_number (s : string) : Prop :=
  match s with
  | EmptyString => True
  | String c _ =>
      Ascii.eqb c "." = false /\ Ascii.eqb c "e" = false /\
      Ascii.eqb c "E" = false
  end.

(** The text is JSON: [JSON.parse] does not throw on it. *)
Definition valid (s : string) : bool :=
  match skip_value (S (String.length s)) s with
  | Some r =>
      match skip_ws r with
      | EmptyString => true
      | String _ _ => false
      end
  | None => false
  end.

(** What [JSON.parse] makes of a text: a value of the model, a value
    that the model does not hold (a fraction, an exponent, a code unit
    above U+00FF), or the SyntaxError. *)
Inductive parsed : Type :=
| Value (v : json)
| Beyond
| Invalid.

Definition parse_text (s : string) : parsed :=
  match parse s with
  | Some v => Value v
  | None => if valid s then Beyond else Invalid
  end.

(** The text starts an object or an array. *)
Definition opens_container (s : string) : bool :=
  match skip_ws s with
  | String c _ => Ascii.eqb c "{" || Ascii.eqb c "["
  | EmptyString => false
  end.

(** *** Well-formed values and their size *)

Definition keys (ms : list (string * json)) : list string := map fst ms.

Fixpoint distinct (l : list string) : bool :=
  match l with
  | [] => true
  | k :: r => negb (existsb (String.eqb k) r) && distinct r
  end.

(** A JavaScript object has no two properties of one name. *)
Fixpoint wf (v : json) : bool :=
  match v with
  | JArr xs => forallb wf xs
  | JObj ms => distinct (keys ms) && forallb (fun m => wf (snd m)) ms
  | _ => true
  end.

(** Fuel that reads [v] back. *)
Fixpoint sz (v : json) : nat :=
  match v with
  | JArr xs => S (list_sum (map (fun x => S (sz x)) xs))
  | JObj ms => S (list_sum (map (fun m => S (sz (snd m))) ms))
  | _ => 1
  end.

(** *** What the round trip asks *)

(** The first character of a printed value: not white space, not a
    closing bracket. *)
Definition value_ahead (s : string) : Prop :=
  match s with
  | EmptyString => False
  | String c _ =>
      is_json_ws c = false /\ Ascii.eqb c "]" = false /\
      Ascii.eqb c "}" = false
  end.

(** What the round trip asks of one value. *)
Definition reads_back (v : json) : Prop :=
  forall ind k fuel,
    wf v = true -> sz v <= fuel -> Numeral.no_digit_ahead k ->
    parse_value fuel (emit ind v k) = Some (v, k).

End JSON.

(** ** The world of the controller

    Files and directories, the process table, and what the environment
    answers during one handler call: the clock, the random bytes and
    the outcome of a spawn.  Every write is logged, in order. *)

Inductive proc_state : Type :=
| Signalable   (** the controller may signal it *)
| Foreign.     (** it exists, under another user *)

Inductive kill_error : Type := ESRCH | EPERM.

(** What [spawn] does.  It returns a child, with a pid when the
    process was made and without one when it was not: a fork or an
    exec that the system refuses (EAGAIN, EMFILE, ENFILE, ENOENT,
    EACCES) is told by an [error] event of the child, after [spawn]
    has returned.  Any other failure (E2BIG, ENOMEM, an argument of
    the wrong type) is thrown by [spawn] itself. *)
Inductive spawn_outcome : Type :=
| Spawned (pid : option Z)
| SpawnThrows (message : string).

Inductive event : Type :=
| EvMkdir (path : string)
| EvWriteFile (path content : string)
| EvFsync (path : string)
| EvRename (src dst : string)
| EvSpawn (command : string) (argv : list string) (env : list (string * string)).

Record World : Type := mkWorld {
  w_home : string;                  (** [homedir()] *)
  w_files : gmap string string;
  w_dirs : gset string;
  w_procs : gmap Z proc_state;
  w_now : string;                   (** [new Date().toISOString()] *)
  w_random : N;                     (** [randomBytes(4)], big endian *)
  w_spawn : spawn_outcome;
  w_trace : list event              (** oldest first *)
}.

Definition with_files (f : gmap string string) (w : World) : World :=
  mkWorld (w_home w) f (w_dirs w) (w_procs w) (w_now w) (w_random w)
          (w_spawn w) (w_trace w).

Definition with_dirs (d : gset string) (w : World) : World :=
  mkWorld (w_home w) (w_files w) d (w_procs w) (w_now w) (w_random w)
          (w_spawn w) (w_trace w).

Definition with_procs (p : gmap Z proc_state) (w : World) : World :=
  mkWorld (w_home w) (w_files w) (w_dirs w) p (w_now w) (w_random w)
          (w_spawn w) (w_trace w).

Definition log (e : event) (w : World) : World :=
  mkWorld (w_home w) (w_files w) (w_dirs w) (w_procs w) (w_now w)
          (w_random w) (w_spawn w) (w_trace w ++ [e]).

(** [path.join(...parts)], on segments that need no normalisation. *)
Definition path_join (parts : list string) : string :=
  join_with (str1 "/") parts.

Definition existsSync (p : string) (w : World) : bool :=
  match w_files w !! p with
  | Some _ => true
  | None => bool_decide (p ∈ w_dirs w)
  end.

(** [readFileSync(p, "utf-8")]; [None] when it throws: no such file,
    or a directory. *)
Definition readFileSync (p : string) (w : World) : option string :=
  w_files w !! p.

Definition writeFileSync (p content : string) (w : World) : World :=
  log (EvWriteFile p content) (with_files (<[p := content]> (w_files w)) w).

(** [mkdirSync(p, { recursive: true })] *)
Definition mkdirSync (p : string) (w : World) : World :=
  log (EvMkdir p) (with_dirs ({[p]} ∪ w_dirs w) w).

(** [openSync], [fsyncSync], [closeSync]: nothing a reader can see. *)
Definition fsync (p : string) (w : World) : World := log (EvFsync p) w.

(** [renameSync(src, dst)] of a file; the code renames what it has
    just written. *)
Definition renameSync (src dst : string) (w : World) : World :=
  match w_files w !! src with
  | Some c =>
      log (EvRename src dst)
          (with_files (<[dst := c]> (delete src (w_files w))) w)
  | None => w
  end.

(** [process.kill(pid, 0)] *)
Definition kill0 (pid : Z) (w : World) : kill_error + unit :=
  match w_procs w !! pid with
  | Some Signalable => inr tt
  | Some Foreign => inl EPERM
  | None => inl ESRCH
  end.

(** The pid denotes a process of the system. *)
Definition process_exists (pid : Z) (w : World) : Prop :=
  is_Some (w_procs w !! pid).

(** *** Where the file system refuses

    [writeFileSync] and [mkdirSync] above are the calls that return.
    Whether a call returns is read from what the world holds: a
    directory is there when the world lists it or holds something
    below it, and a file in the place of a directory is in the way.
    Permissions and quota stay outside the model. *)

Inductive fs_error : Type := ENOENT | ENOTDIR | EISDIR | EEXIST.

(** What precedes the last slash of [p], when [p] has a slash. *)
Fixpoint before_last_slash (p : string) : option string :=
  match p with
  | EmptyString => None
  | String c r =>
      match before_last_slash r with
      | Some d => Some (String c d)
      | None => if Ascii.eqb c "/" then Some EmptyString else None
      end
  end.

(** [path.dirname(p)], for a path that does not end with a slash. *)
Definition dirname (p : string) : string :=
  match before_last_slash p with
  | Some EmptyString => "/"
  | Some d => d
  | None => "."
  end.

(** The directories that [p] lies in, the nearest first; the root and
    the working directory, which are always there, are left out. *)
Fixpoint ancestors_within (fuel : nat) (p : string) : list string :=
  match fuel with
  | O => []
  | S f =>
      match before_last_slash p with
      | Some EmptyString | None => []
      | Some d => d :: ancestors_within f d
      end
  end.

Definition ancestors (p : string) : list string :=
  ancestors_within (String.length p) p.

Definition is_file (p : string) (w : World) : bool :=
  match w_files w !! p with
  | Some _ => true
  | None => false
  end.

Definition lies_below (d q : string) : bool := is_prefix (d +:+ "/") q.

Definition is_directory (d : string) (w : World) : bool :=
  String.eqb d "/" || String.eqb d "." || bool_decide (d ∈ w_dirs w) ||
  existsb (lies_below d)
    ((map_to_list (w_files w)).*1 ++ elements (w_dirs w)).

(** When [mkdirSync(p, { recursive: true })] throws. *)
Definition mkdir_error (p : string) (w : World) : option fs_error :=
  if is_file p w then Some EEXIST
  else if existsb (fun a => is_file a w) (ancestors p) then Some ENOTDIR
  else None.

(** When [writeFileSync(p, _)] throws. *)
Definition write_error (p : string) (w : World) : option fs_error :=
  if is_directory p w then Some EISDIR
  else if existsb (fun a => is_file a w) (ancestors p) then Some ENOTDIR
  else if is_directory (dirname p) w then None
  else Some ENOENT.

(** ** src/util.ts *)

Fixpoint hex_digits (n : nat) (x : N) (k : string) : string :=
  match n with
  | O => k
  | S n' => hex_digits n' (x / 16)%N (String (JSON.hex_digit (x mod 16)%N) k)
  end.

(** [randomBytes(4).toString("hex")] *)
Definition random_hex (w : World) : string :=
  hex_digits 8 (w_random w) EmptyString.

Definition genId (prefix : string) (w : World) : string :=
  prefix +:+ "_" +:+ random_hex w.

Definition nowISO (w : World) : string := w_now w.

(** The digits of [toString("hex")]. *)
Definition hex_alphabet : list ascii := list_ascii_of_string "0123456789abcdef".

(** [{ content: [{ type: "text", text }], isError? }] *)
Record ToolResult : Type := mkResult {
  content : list string;
  isError : bool
}.

Definition ok (text : string) : ToolResult := mkResult [text] false.
Definition err (text : string) : ToolResult := mkResult [text] true.

(** ** src/storage.ts *)

Module Storage.

Import JSON.

(** What a [try] block may throw. *)
Inductive exn : Type := FsError | SyntaxError | TypeError.

(** [T extends Versioned]: a document type is a type of JSON objects.
    [to_json] is the object that [JSON.stringify] sees, [of_json] the
    cast [as T] of a parsed object.  The cast is unchecked in the
    source; here an object outside [T] has no image, and [readStore]
    answers it like a [TypeError]. *)
Class Document (T : Type) : Type := {
  to_json : T -> list (string * json);
  of_json : list (string * json) -> option T
}.

(** Any JSON object is a document. *)
#[export] Instance object_document : Document (list (string * json)) :=
  {| to_json := fun ms => ms; of_json := fun ms => Some ms |}.

Definition STORAGE_DIR (w : World) : string :=
  path_join [w_home w; ".claude"; "orchestrator"]%string.

Definition ensureStorageDir (w : World) : World :=
  if negb (existsSync (STORAGE_DIR w) w)
  then mkdirSync (STORAGE_DIR w) w
  else w.

Definition storagePath (filename : string) (w : World) : string :=
  path_join [STORAGE_DIR w; filename].

Definition atomicWrite {T} `{Document T} (filename : string) (data : T)
    (w : World) : World :=
  let w1 := ensureStorageDir w in
  let target := storagePath filename w1 in
  let tmp := target +:+ ".tmp" in
  let json := stringify (JObj (to_json data)) in
  let w2 := writeFileSync tmp json w1 in
  let w3 := fsync tmp w2 in
  renameSync tmp target w3.

(** [a !== b] on what a field may hold ([None] is [undefined]); two
    arrays or two objects are never the same reference here. *)
Definition strict_neq (a b : option json) : bool :=
  match a, b with
  | None, None => false
  | Some JNull, Some JNull => false
  | Some (JBool x), Some (JBool y) => negb (Bool.eqb x y)
  | Some (JNum x), Some (JNum y) => negb (x =? y)%Z
  | Some (JStr x), Some (JStr y) => negb (String.eqb x y)
  | _, _ => true
  end.

Fixpoint remove_field (k : string) (ms : list (string * json))
  : list (string * json) :=
  match ms with
  | [] => []
  | (k', v) :: r =>
      if String.eqb k' k then remove_field k r else (k', v) :: remove_field k r
  end.

(** [obj[k] = v]; a property set to [undefined] is one that no reader
    of the object and no [JSON.stringify] sees. *)
Definition assign_field (k : string) (v : option json)
    (ms : list (string * json)) : list (string * json) :=
  match v with
  | Some x => set_field k x ms
  | None => remove_field k ms
  end.

(** The schema version check of [readStore]. *)
Definition accept_version (expected : option json)
    (parsed : list (string * json)) : list (string * json) :=
  if strict_neq (get_field "schema_version" parsed) expected
  then assign_field "schema_version" expected parsed
  else parsed.

(** The [try] block of [readStore].  On [null] the property read
    throws; on a number, a string or a boolean the assignment of the
    version throws, the module being strict code.  An array is no
    document either. *)
Definition read_parsed {T} `{Document T} (target : string)
    (defaultValue : T) (w : World) : exn + T :=
  match readFileSync target w with
  | None => inl FsError
  | Some raw =>
      match parse raw with
      | None => inl SyntaxError
      | Some (JObj ms) =>
          let expected := get_field "schema_version" (to_json defaultValue) in
          match of_json (accept_version expected ms) with
          | Some parsed => inr parsed
          | None => inl TypeError
          end
      | Some _ => inl TypeError
      end
  end.

Definition readStore {T} `{Document T} (filename : string)
    (defaultValue : T) (w : World) : T * World :=
  let w1 := ensureStorageDir w in
  let target := storagePath filename w1 in
  if negb (existsSync target w1) then (defaultValue, w1)
  else
    match read_parsed target defaultValue w1 with
    | inr parsed => (parsed, w1)
    | inl _ => (defaultValue, w1)
    end.

Definition updateStore {T} `{Document T} (filename : string)
    (defaultValue : T) (updater : T -> T) (w : World) : T * World :=
  let '(current, w1) := readStore filename defaultValue w in
  let updated := updater current in
  (updated, atomicWrite filename updated w1).

(** What [readStore] makes of the backing file: [None] is no file. *)
Definition load {T} `{Document T} (defaultValue : T) (file : option string)
  : T :=
  match file with
  | None => defaultValue
  | Some raw =>
      match parse raw with
      | Some (JObj ms) =>
          match of_json (accept_version
                   (get_field "schema_version" (to_json defaultValue)) ms) with
          | Some parsed => parsed
          | None => defaultValue
          end
      | _ => defaultValue
      end
  end.

(** [getStorageDir()] *)
Definition getStorageDir (w : World) : string * World :=
  (STORAGE_DIR w, ensureStorageDir w).

(** Where a crash may stop [atomicWrite]: once the directory is
    ensured, while the temporary file is written, once it is written,
    once it is synced.  The rename is the step that is left. *)
Inductive write_point : Type :=
| Ensured
| Writing (k : nat)
| Written
| Synced.

(** The world that a crash at the point leaves.  [writeFileSync]
    empties the file and fills it: a crash while it writes leaves the
    first [k] characters of the text, for some [k]. *)
Definition crashed_atomicWrite {T} `{Document T} (filename : string)
    (data : T) (point : write_point) (w : World) : World :=
  let w1 := ensureStorageDir w in
  let target := storagePath filename w1 in
  let tmp := target +:+ ".tmp" in
  let json := stringify (JObj (to_json data)) in
  match point with
  | Ensured => w1
  | Writing k => with_files (<[tmp := take_str k json]> (w_files w1)) w1
  | Written => writeFileSync tmp json w1
  | Synced => fsync tmp (writeFileSync tmp json w1)
  end.

End Storage.

(** ** src/storage.ts, where a call may throw

    [Storage] above holds the functions as they run when the file
    system lets every call return, on documents of their type.  Here
    are [ensureStorageDir] and [readStore] with the calls that throw,
    on whatever the backing file holds: [readStore] calls
    [ensureStorageDir] before its [try], and casts what it has parsed
    without a check. *)

Module Raising.

Import JSON Storage.

(** [mkdirSync(p, { recursive: true })] *)
Definition mkdirSync (p : string) (w : World) : fs_error + World :=
  match mkdir_error p w with
  | Some e => inl e
  | None => inr (mkdirSync p w)
  end.

(** [writeFileSync(p, content, "utf-8")] *)
Definition writeFileSync (p content : string) (w : World)
  : fs_error + World :=
  match write_error p w with
  | Some e => inl e
  | None => inr (writeFileSync p content w)
  end.

Definition ensureStorageDir (w : World) : fs_error + World :=
  if negb (existsSync (STORAGE_DIR w) w)
  then mkdirSync (STORAGE_DIR w) w
  else inr w.

(** The version check on a parsed value.  The property of [null]
    cannot be read.  On a number, a string or a boolean the property
    reads as [undefined]; setting it throws in strict code and does
    nothing otherwise.  On an array it is set beside the elements,
    where [JSON.stringify] does not see it.  [strict] says whether
    the code runs as strict code: the module that the source is does,
    the script that the build makes of it for node need not. *)
Definition version_checked (strict : bool) (expected : option json)
    (v : json) : exn + json :=
  match v with
  | JNull => inl TypeError
  | JObj ms => inr (JObj (accept_version expected ms))
  | JArr xs => inr (JArr xs)
  | JBool _ | JNum _ | JStr _ =>
      if strict && strict_neq None expected then inl TypeError else inr v
  end.

(** What the [try] block of [readStore] returns for the text of the
    backing file; [inr None] is a value that the model does not
    hold. *)
Definition read_text (strict : bool) (expected : option json)
    (raw : string) : exn + option json :=
  match parse_text raw with
  | Invalid => inl SyntaxError
  | Value v =>
      match version_checked strict expected v with
      | inr v' => inr (Some v')
      | inl e => inl e
      end
  | Beyond =>
      if opens_container raw then inr None
      else if strict && strict_neq None expected then inl TypeError
      else inr None
  end.

(** [readStore(filename, defaultValue)]: the error that is thrown, or
    the value that is returned ([None]: one that the model does not
    hold) and the world. *)
Definition readStore (strict : bool) (filename : string)
    (defaultValue : list (string * json)) (w : World)
  : fs_error + (option json * World) :=
  match ensureStorageDir w with
  | inl e => inl e
  | inr w1 =>
      let target := storagePath filename w1 in
      if negb (existsSync target w1) then inr (Some (JObj defaultValue), w1)
      else
        match readFileSync target w1 with
        | None => inr (Some (JObj defaultValue), w1)
        | Some raw =>
            match read_text strict
                    (get_field "schema_version" defaultValue) raw with
            | inr v => inr (v, w1)
            | inl _ => inr (Some (JObj defaultValue), w1)
            end
        end
  end.

End Raising.

(** ** src/types.ts and src/tools/dispatch.ts *)

Module Dispatch.

Import JSON Storage.

(** [quoted s] is [s] between double quotes. *)
Definition quoted (s : string) : string :=
  String dquote (s +:+ str1 dquote).

Definition is_empty (s : string) : bool :=
  match s with EmptyString => true | String _ _ => false end.

(** *** Types *)

(** ["codex" | "gemini"] *)
Inductive Model : Type := codex | gemini.

Definition model_name (m : Model) : string :=
  match m with codex => "codex" | gemini => "gemini" end.

Definition model_of_name (s : string) : option Model :=
  if String.eqb s "codex" then Some codex
  else if String.eqb s "gemini" then Some gemini
  else None.

Record Options : Type := mkOptions {
  yolo : option bool;
  timeout : option Z;
  workdir : option string;
  follow_up : option bool
}.

(** [{}] *)
Definition no_options : Options := mkOptions None None None None.

(** [DispatchStatus] is a string: a marker file may hold anything. *)
Record DispatchTask : Type := mkTask {
  id : string;
  model : Model;
  prompt : string;
  options : option Options;
  session_dir : string;
  output_file : string;
  status : string;
  pid : option Z;
  exit_code : option Z;
  duration_s : option Z;
  output : option string;
  created_at : string;
  completed_at : option string;
  error : option string
}.

Record DispatchesStore : Type := mkStore {
  schema_version : Z;
  tasks : list DispatchTask
}.

Definition with_tasks (ts : list DispatchTask) (s : DispatchesStore)
  : DispatchesStore := mkStore (schema_version s) ts.

(** The four terminal statuses; [created] and [running] are not. *)
Definition is_terminal (st : string) : bool :=
  String.eqb st "completed" || String.eqb st "failed" ||
  String.eqb st "cancelled" || String.eqb st "timeout".

Definition is_active (st : string) : bool :=
  String.eqb st "running" || String.eqb st "created".

(** *** The ledger as JSON *)

Definition opt_member (k : string) (o : option json)
    (rest : list (string * json)) : list (string * json) :=
  match o with
  | Some j => (k, j) :: rest
  | None => rest
  end.

Definition options_to_json (o : Options) : json :=
  JObj (opt_member "yolo" (JBool <$> yolo o)
       (opt_member "timeout" (JNum <$> timeout o)
       (opt_member "workdir" (JStr <$> workdir o)
       (opt_member "follow_up" (JBool <$> follow_up o) [])))).

Definition task_members (t : DispatchTask) : list (string * json) :=
  ("id", JStr (id t)) ::
  ("model", JStr (model_name (model t))) ::
  ("prompt", JStr (prompt t)) ::
  opt_member "options" (options_to_json <$> options t) (
  ("session_dir", JStr (session_dir t)) ::
  ("output_file", JStr (output_file t)) ::
  ("status", JStr (status t)) ::
  opt_member "pid" (JNum <$> pid t) (
  opt_member "exit_code" (JNum <$> exit_code t) (
  opt_member "duration_s" (JNum <$> duration_s t) (
  opt_member "output" (JStr <$> output t) (
  ("created_at", JStr (created_at t)) ::
  opt_member "completed_at" (JStr <$> completed_at t) (
  opt_member "error" (JStr <$> error t) [])))))).

Definition task_to_json (t : DispatchTask) : json := JObj (task_members t).

Definition store_to_json (s : DispatchesStore) : list (string * json) :=
  [("schema_version", JNum (schema_version s));
   ("tasks", JArr (map task_to_json (tasks s)))].

Definition as_str (j : json) : option string :=
  match j with JStr s => Some s | _ => None end.

Definition as_num (j : json) : option Z :=
  match j with JNum n => Some n | _ => None end.

Definition as_bool (j : json) : option bool :=
  match j with JBool b => Some b | _ => None end.

Definition as_model (j : json) : option Model :=
  match j with JStr s => model_of_name s | _ => None end.

(** A field that the type declares. *)
Definition required {A} (dec : json -> option A) (k : string)
    (ms : list (string * json)) : option A :=
  match get_field k ms with
  | Some j => dec j
  | None => None
  end.

(** A field that the type declares with [?]. *)
Definition optional {A} (dec : json -> option A) (k : string)
    (ms : list (string * json)) : option (option A) :=
  match get_field k ms with
  | Some j => match dec j with Some a => Some (Some a) | None => None end
  | None => Some None
  end.

Definition options_of_json (j : json) : option Options :=
  match j with
  | JObj ms =>
      y ← optional as_bool "yolo" ms;
      t ← optional as_num "timeout" ms;
      d ← optional as_str "workdir" ms;
      f ← optional as_bool "follow_up" ms;
      Some (mkOptions y t d f)
  | _ => None
  end.

Definition task_of_json (j : json) : option DispatchTask :=
  match j with
  | JObj ms =>
      i ← required as_str "id" ms;
      m ← required as_model "model" ms;
      p ← required as_str "prompt" ms;
      o ← optional options_of_json "options" ms;
      sd ← required as_str "session_dir" ms;
      ofile ← required as_str "output_file" ms;
      st ← required as_str "status" ms;
      pi ← optional as_num "pid" ms;
      ec ← optional as_num "exit_code" ms;
      du ← optional as_num "duration_s" ms;
      ou ← optional as_str "output" ms;
      ca ← required as_str "created_at" ms;
      co ← optional as_str "completed_at" ms;
      er ← optional as_str "error" ms;
      Some (mkTask i m p o sd ofile st pi ec du ou ca co er)
  | _ => None
  end.

Fixpoint tasks_of_json (l : list json) : option (list DispatchTask) :=
  match l with
  | [] => Some []
  | j :: r =>
      t ← task_of_json j;
      ts ← tasks_of_json r;
      Some (t :: ts)
  end.

Definition store_of_json (ms : list (string * json))
  : option DispatchesStore :=
  v ← required as_num "schema_version" ms;
  match get_field "tasks" ms with
  | Some (JArr l) => ts ← tasks_of_json l; Some (mkStore v ts)
  | _ => None
  end.

#[export] Instance dispatches_document : Document DispatchesStore :=
  {| to_json := store_to_json; of_json := store_of_json |}.

(** *** Constants *)

Definition FILE : string := "dispatches.json".
Definition DEFAULT : DispatchesStore := mkStore 1 [].

Definition ORCHESTRATION (w : World) : string :=
  path_join [w_home w; ".claude"; "orchestration"]%string.

Definition BRIDGE_CONFIG_PATH (w : World) : string :=
  path_join [ORCHESTRATION w; "bridge-config.json"]%string.

Definition WRAPPER_PATH (w : World) : string :=
  path_join [ORCHESTRATION w; "templates"; "dispatch-wrapper.sh"]%string.

Definition SESSION_BASE (w : World) : string :=
  path_join [ORCHESTRATION w; "sessions"]%string.

(** The Ledger as the handlers read it. *)
Definition ledger (w : World) : DispatchesStore :=
  fst (readStore FILE DEFAULT w).

(** *** Helpers *)

(** ToBoolean *)
Definition truthy (j : json) : bool :=
  match j with
  | JNull => false
  | JBool b => b
  | JNum n => negb (n =? 0)%Z
  | JStr s => negb (is_empty s)
  | JArr _ | JObj _ => true
  end.

Definition truthy_opt (o : option json) : bool :=
  match o with Some j => truthy j | None => false end.

(** [j[k]] for a name [k] that is no index and no built-in property. *)
Definition member_of (j : json) (k : string) : option json :=
  match j with
  | JObj ms => get_field k ms
  | _ => None
  end.

Definition index_names (n : nat) : list string :=
  map (fun i => Numeral.string_of_Z (Z.of_nat i)) (seq 0 n).

(** [Object.keys(j)] *)
Definition object_keys (j : json) : list string :=
  match j with
  | JObj ms => keys ms
  | JArr xs => index_names (length xs)
  | JStr s => index_names (String.length s)
  | _ => []
  end.

Definition readBridgeConfig (w : World) : option json :=
  if negb (existsSync (BRIDGE_CONFIG_PATH w) w) then None
  else match readFileSync (BRIDGE_CONFIG_PATH w) w with
       | Some raw => parse raw
       | None => None
       end.

Definition markerPath (sessionDir taskId : string) : string :=
  path_join [sessionDir; ".task-" +:+ taskId +:+ ".state"].

Definition writeMarker (sessionDir taskId st : string) (w : World) : World :=
  writeFileSync (markerPath sessionDir taskId) st w.

Definition readMarker (sessionDir taskId : string) (w : World)
  : option string :=
  if negb (existsSync (markerPath sessionDir taskId) w) then None
  else match readFileSync (markerPath sessionDir taskId) w with
       | Some s => Some (trim s)
       | None => None
       end.

Definition isProcessAlive (p : Z) (w : World) : bool :=
  match kill0 p w with
  | inr _ => true
  | inl _ => false
  end.

Definition truncated_mark : string := String newline "...[truncated]".

Definition readOutputFile (path : string) (w : World) : option string :=
  if negb (existsSync path w) then None
  else match readFileSync path w with
       | Some content =>
           Some (if (50000 <? slen content)%Z
                 then str_slice0 50000 content +:+ truncated_mark
                 else content)
       | None => None
       end.

(** [t.pid && isProcessAlive(t.pid)] *)
Definition pid_alive (t : DispatchTask) (w : World) : bool :=
  match pid t with
  | Some p => negb (p =? 0)%Z && isProcessAlive p w
  | None => false
  end.

(** *** Startup recovery *)

Definition orphan_error : string :=
  "Orphaned task recovered on startup (process not alive)".

(** [marker === "completed" || marker === "failed"] *)
Definition settled_marker (marker : option string) : option string :=
  match marker with
  | Some m =>
      if String.eqb m "completed" || String.eqb m "failed" then Some m
      else None
  | None => None
  end.

(** The callback of [s.tasks.map] in [recoverOrphanedTasks]. *)
Definition recover_task (w : World) (t : DispatchTask) : DispatchTask :=
  if negb (String.eqb (status t) "running") &&
     negb (String.eqb (status t) "created") then t
  else
    match settled_marker (readMarker (session_dir t) (id t) w) with
    | Some m =>
        mkTask (id t) (model t) (prompt t) (options t) (session_dir t)
          (output_file t) m (pid t) (exit_code t) (duration_s t)
          (if String.eqb m "completed"
           then readOutputFile (output_file t) w else None)
          (created_at t) (Some (nowISO w))
          (if String.eqb m "failed"
           then Some "Recovered from orphaned state"%string else None)
    | None =>
        if pid_alive t w then t
        else
          mkTask (id t) (model t) (prompt t) (options t) (session_dir t)
            (output_file t) "failed" (pid t) (exit_code t) (duration_s t)
            (output t) (created_at t) (Some (nowISO w)) (Some orphan_error)
    end.

Definition recoverOrphanedTasks (w : World) : World :=
  let '(store, w1) := readStore FILE DEFAULT w in
  let running := List.filter (fun t => is_active (status t)) (tasks store) in
  if (length running =? 0)%nat then w1
  else
    snd (updateStore FILE DEFAULT
           (fun s => with_tasks (map (recover_task w1) (tasks s)) s) w1).

(** *** dispatch *)

Record DispatchArgs : Type := mkDispatchArgs {
  arg_model : option Model;
  arg_prompt : option string;
  arg_options : option Options
}.

Definition flag (o : option bool) : bool :=
  match o with Some b => b | None => false end.

Definition unknown_model_error (m : Model) (models : json) : string :=
  "Unknown model " +:+ quoted (model_name m) +:+ ". Available: " +:+
  join_with ", " (object_keys models).

(** The check against the bridge config; [Some msg] rejects. *)
Definition validate_model (m : Model) (w : World) : option string :=
  match readBridgeConfig w with
  | Some config =>
      if truthy config then
        match member_of config "models" with
        | Some models =>
            if truthy models &&
               negb (truthy_opt (member_of models (model_name m)))
            then Some (unknown_model_error m models)
            else None
        | None => None
        end
      else None
  | None => None
  end.

Definition wrapper_argv (m : Model) (sessionDir outputFile p : string)
    (o : Options) (w : World) : list string :=
  [WRAPPER_PATH w; model_name m; sessionDir;
   match workdir o with
   | Some d => if is_empty d then w_home w else d
   | None => w_home w
   end;
   p] ++
  (if flag (yolo o) then ["--yolo"%string] else []) ++
  match timeout o with
  | Some n => if (n =? 0)%Z then []
              else ["--timeout"%string; Numeral.string_of_Z n]
  | None => []
  end ++
  (if flag (follow_up o) then ["--follow-up"%string] else []) ++
  ["--output"%string; outputFile].

(** [spawn("bash", argv, { detached, stdio, env })]: the variables
    listed are those added to [process.env]. *)
Definition spawn (argv : list string) (env : list (string * string))
    (w : World) : spawn_outcome * World :=
  let w1 := log (EvSpawn "bash" argv env) w in
  match w_spawn w with
  | Spawned (Some p) =>
      (Spawned (Some p), with_procs (<[p := Signalable]> (w_procs w1)) w1)
  | other => (other, w1)
  end.

Definition show_pid (p : option Z) : string :=
  match p with
  | Some n => Numeral.string_of_Z n
  | None => "undefined"
  end.

(** [code === 0], [code ?? 1] and [`${code}`] of the exit watcher; the
    code is [null] when a signal ended the process. *)
Definition exit_status (code : option Z) : string :=
  match code with
  | Some 0%Z => "completed"
  | _ => "failed"
  end.

Definition show_code (code : option Z) : string :=
  match code with
  | Some n => Numeral.string_of_Z n
  | None => "null"
  end.

(** [s.tasks.map((t) => t.id === taskId ? f(t) : t)] *)
Definition update_rows (taskId : string) (f : DispatchTask -> DispatchTask)
    (s : DispatchesStore) : DispatchesStore :=
  with_tasks
    (map (fun t => if String.eqb (id t) taskId then f t else t) (tasks s)) s.

(** The [exit] listener that [dispatch] installs on the child. *)
Definition on_exit (taskId sessionDir outputFile : string)
    (code : option Z) (w : World) : World :=
  let finalStatus := exit_status code in
  let w1 := writeMarker sessionDir taskId finalStatus w in
  snd (updateStore FILE DEFAULT
         (update_rows taskId (fun t =>
            mkTask (id t) (model t) (prompt t) (options t)
              (session_dir t) (output_file t) finalStatus (pid t)
              (Some (match code with Some c => c | None => 1%Z end))
              (duration_s t)
              (if String.eqb finalStatus "completed"
               then readOutputFile outputFile w1 else None)
              (created_at t) (Some (nowISO w1))
              (if String.eqb finalStatus "failed"
               then Some ("Process exited with code " +:+ show_code code)
               else None)))
         w1).

Definition stored_prompt (p : string) : string :=
  if (500 <? slen p)%Z then str_slice0 497 p +:+ "..." else p.

(** [join(SESSION_BASE, genId("dsp"))] *)
Definition new_session (w : World) : string :=
  path_join [SESSION_BASE w; genId "dsp" w].

Definition prompt_path (sessionDir : string) : string :=
  path_join [sessionDir; "prompt.txt"%string].

Definition output_path (sessionDir : string) (m : Model) : string :=
  path_join [sessionDir; model_name m +:+ "-turn-0001.md"].

(** The handler from the session directory to the marker: the
    directory, the prompt file, the row in memory, the spawn and, with
    a child, the [running] marker.  The row is the one to save. *)
Definition launch (m : Model) (p : string) (o : Options) (w : World)
  : DispatchTask * World :=
  let taskId := genId "dsp" w in
  let sessionDir := new_session w in
  let w1 := mkdirSync sessionDir w in
  let outputFile := output_path sessionDir m in
  let promptFile := prompt_path sessionDir in
  let w2 := writeFileSync promptFile p w1 in
  let task :=
    mkTask taskId m (stored_prompt p) (Some o) sessionDir outputFile
           "created" None None None None (nowISO w2) None None in
  let argv := wrapper_argv m sessionDir outputFile p o w2 in
  let env := [("ORCH_TASK_ID", taskId);
              ("ORCH_SESSION_DIR", sessionDir);
              ("ORCH_PROMPT", p);
              ("ORCH_PROMPT_FILE", promptFile)]%string in
  match spawn argv env w2 with
  | (Spawned child_pid, w3) =>
      (mkTask (id task) (model task) (prompt task) (options task)
              (session_dir task) (output_file task) "running" child_pid
              (exit_code task) (duration_s task) (output task)
              (created_at task) (completed_at task) (error task),
       writeMarker sessionDir taskId "running" w3)
  | (SpawnThrows message, w3) =>
      (mkTask (id task) (model task) (prompt task) (options task)
              (session_dir task) (output_file task) "failed" (pid task)
              (exit_code task) (duration_s task) (output task)
              (created_at task) (completed_at task)
              (Some ("Failed to spawn: " +:+ message)),
       w3)
  end.

(** The row that [launch] returns, by the outcome of the spawn. *)
Definition launched_row (m : Model) (p : string) (o : Options) (w : World)
  : DispatchTask :=
  match w_spawn w with
  | Spawned child =>
      mkTask (genId "dsp" w) m (stored_prompt p) (Some o) (new_session w)
             (output_path (new_session w) m) "running" child None None None
             (nowISO w) None None
  | SpawnThrows message =>
      mkTask (genId "dsp" w) m (stored_prompt p) (Some o) (new_session w)
             (output_path (new_session w) m) "failed" None None None None
             (nowISO w) None (Some ("Failed to spawn: " +:+ message))
  end.

(** What [dispatch] answers once the row is saved.  The dash of the
    message is held as its bytes. *)
Definition dispatch_reply (task : DispatchTask) : ToolResult :=
  if String.eqb (status task) "failed" then
    err ("Dispatch failed: " +:+
         match error task with Some e => e | None => "undefined" end)
  else
    ok ("Dispatched to " +:+ model_name (model task) +:+ " — task_id: **" +:+
        id task +:+ "** (PID: " +:+ show_pid (pid task) +:+ ")" +:+
        String newline ("Session: " +:+ session_dir task)).

Definition dispatch (args : DispatchArgs) (w : World) : ToolResult * World :=
  match arg_model args, arg_prompt args with
  | Some m, Some p =>
      if is_empty p then (err "model and prompt are required", w)
      else
      let o := match arg_options args with Some o => o | None => no_options end in
      match validate_model m w with
      | Some msg => (err msg, w)
      | None =>
          if negb (existsSync (WRAPPER_PATH w) w) then
            (err ("Dispatch wrapper not found at " +:+ WRAPPER_PATH w), w)
          else
            let '(task, w3) := launch m p o w in
            let '(_, w4) :=
              updateStore FILE DEFAULT
                (fun s => with_tasks (tasks s ++ [task]) s) w3 in
            (dispatch_reply task, w4)
      end
  | _, _ => (err "model and prompt are required", w)
  end.

(** *** get_dispatch_result *)

(** [s.tasks.find((t) => t.id === taskId)] *)
Definition find_task (taskId : string) (s : DispatchesStore)
  : option DispatchTask :=
  List.find (fun t => String.eqb (id t) taskId) (tasks s).

Definition display (s : string) : string :=
  if (2000 <? slen s)%Z then str_slice0 1997 s +:+ "..." else s.

Definition nonempty (o : option string) : option string :=
  match o with
  | Some s => if is_empty s then None else Some s
  | None => None
  end.

(** The text that [get_dispatch_result] returns for a row. *)
Definition report (task : DispatchTask) (w : World) : string :=
  let lines :=
    ["**Task**: " +:+ id task;
     "**Model**: " +:+ model_name (model task);
     "**Status**: " +:+ status task;
     "**Created**: " +:+ created_at task] ++
    match nonempty (completed_at task) with
    | Some c => ["**Completed**: " +:+ c]
    | None => []
    end ++
    match duration_s task with
    | Some d => ["**Duration**: " +:+ Numeral.string_of_Z d +:+ "s"]
    | None => []
    end ++
    match exit_code task with
    | Some c => ["**Exit code**: " +:+ Numeral.string_of_Z c]
    | None => []
    end ++
    match nonempty (error task) with
    | Some e => ["**Error**: " +:+ e]
    | None => []
    end ++
    match nonempty (output task) with
    | Some out =>
        [String newline ("**Output**:" +:+ String newline (display out))]
    | None =>
        if String.eqb (status task) "completed" &&
           negb (is_empty (output_file task)) then
          match nonempty (readOutputFile (output_file task) w) with
          | Some fresh =>
              [String newline
                 ("**Output**:" +:+ String newline (display fresh))]
          | None => ["**Output file**: " +:+ output_file task]
          end
        else []
    end in
  join_with (str1 newline) lines.

Definition not_found (taskId : string) : ToolResult :=
  err ("Task " +:+ quoted taskId +:+ " not found").

(** [marker && marker !== "running"] *)
Definition foreign_marker (marker : option string) : option string :=
  match marker with
  | Some m => if is_empty m || String.eqb m "running" then None else Some m
  | None => None
  end.

(** [task.pid && !isProcessAlive(task.pid)] *)
Definition pid_dead (t : DispatchTask) (w : World) : bool :=
  match pid t with
  | Some p => negb (p =? 0)%Z && negb (isProcessAlive p w)
  | None => false
  end.

(** [store = readStore(...); task = store.tasks.find(...)!] *)
Definition refetch (taskId : string) (task : DispatchTask) (w : World)
  : DispatchTask * World :=
  let '(store, w1) := readStore FILE DEFAULT w in
  (match find_task taskId store with Some t => t | None => task end, w1).

(** The reconciliation step of [get_dispatch_result], for the row that
    [find] returned: the row to report and the world after. *)
Definition reconcile (taskId : string) (task : DispatchTask) (w : World)
  : DispatchTask * World :=
  if String.eqb (status task) "running" then
    match foreign_marker (readMarker (session_dir task) (id task) w) with
    | Some marker =>
        let out := if String.eqb marker "completed"
                   then readOutputFile (output_file task) w else None in
        refetch taskId task
          (snd (updateStore FILE DEFAULT
                  (update_rows taskId (fun t =>
                     mkTask (id t) (model t) (prompt t) (options t)
                       (session_dir t) (output_file t) marker (pid t)
                       (exit_code t) (duration_s t) out (created_at t)
                       (Some (nowISO w)) (error t)))
                  w))
    | None =>
        if pid_dead task w then
          let out := readOutputFile (output_file task) w in
          let st := match nonempty out with
                    | Some _ => "completed"
                    | None => "failed"
                    end%string in
          refetch taskId task
            (snd (updateStore FILE DEFAULT
                    (update_rows taskId (fun t =>
                       mkTask (id t) (model t) (prompt t) (options t)
                         (session_dir t) (output_file t) st (pid t)
                         (exit_code t) (duration_s t) out (created_at t)
                         (Some (nowISO w))
                         (if String.eqb st "failed"
                          then Some "Process exited without marker"%string
                          else None)))
                    w))
        else (task, w)
    end
  else (task, w).

Definition get_dispatch_result (task_id : option string) (w : World)
  : ToolResult * World :=
  match nonempty task_id with
  | None => (err "task_id is required", w)
  | Some taskId =>
      let '(store, w1) := readStore FILE DEFAULT w in
      match find_task taskId store with
      | None => (not_found taskId, w1)
      | Some task =>
          let '(task', w2) := reconcile taskId task w1 in
          (ok (report task' w2), w2)
      end
  end.

(** *** retry_dispatch *)

Definition retry_dispatch (task_id : option string) (w : World)
  : ToolResult * World :=
  match nonempty task_id with
  | None => (err "task_id is required", w)
  | Some taskId =>
      let '(store, w1) := readStore FILE DEFAULT w in
      match find_task taskId store with
      | None => (not_found taskId, w1)
      | Some task =>
          if negb (String.eqb (status task) "failed") &&
             negb (String.eqb (status task) "cancelled") then
            (err ("Task " +:+ quoted taskId +:+ " is " +:+ status task +:+
                  ", can only retry failed/cancelled tasks"), w1)
          else
            dispatch (mkDispatchArgs (Some (model task)) (Some (prompt task))
                        (Some (match options task with
                               | Some o => o
                               | None => no_options
                               end))) w1
      end
  end.

(** *** list_dispatches *)

(** [args.limit]: a number, as the schema asks, or one of the other
    values that are falsy: [NaN], [null], [false] and the empty
    string.  A limit that is truthy and no number is outside the
    model. *)
Inductive limit_arg : Type :=
| Limit (n : Z)
| LimitNaN
| LimitNull
| LimitFalse
| LimitEmpty.

Record ListArgs : Type := mkListArgs {
  list_model : option string;
  list_status : option string;
  list_limit : option limit_arg
}.

(** [!args.limit] *)
Definition no_limit (limit : option limit_arg) : bool :=
  match limit with
  | Some (Limit n) => (n =? 0)%Z
  | _ => true
  end.

(** [(args.limit as number) || 20] *)
Definition effective_limit (limit : option Z) : Z :=
  match limit with
  | Some n => if (n =? 0)%Z then 20%Z else n
  | None => 20%Z
  end.

(** [(args.limit as number) || 20] of [list_dispatches] *)
Definition given_limit (limit : option limit_arg) : Z :=
  match limit with
  | Some (Limit n) => effective_limit (Some n)
  | _ => 20%Z
  end.

(** [l.slice(0, n)] *)
Definition slice0 {A} (n : Z) (l : list A) : list A :=
  if (n <? 0)%Z
  then firstn (Z.to_nat (Z.max (Z.of_nat (length l) + n) 0)) l
  else firstn (Z.to_nat n) l.

(** The rows that pass the filters of [list_dispatches], newest
    first. *)
Definition filtered (args : ListArgs) (s : DispatchesStore)
  : list DispatchTask :=
  let all := rev (tasks s) in
  let by_model :=
    match nonempty (list_model args) with
    | Some m => List.filter (fun t => String.eqb (model_name (model t)) m) all
    | None => all
    end in
  match nonempty (list_status args) with
  | Some st => List.filter (fun t => String.eqb (status t) st) by_model
  | None => by_model
  end.

(** The rows that [list_dispatches] shows. *)
Definition listed (args : ListArgs) (s : DispatchesStore)
  : list DispatchTask :=
  slice0 (given_limit (list_limit args)) (filtered args s).

Definition list_line (t : DispatchTask) : string :=
  let p := if (60 <? slen (prompt t))%Z
           then str_slice0 57 (prompt t) +:+ "..." else prompt t in
  "- **" +:+ id t +:+ "** [" +:+ model_name (model t) +:+ "] " +:+
  status t +:+ " — " +:+ quoted p +:+ " _(" +:+ created_at t +:+ ")_".

(** The last line of the list: how many rows are shown, of how
    many. *)
Definition list_footer (shown total : nat) : string :=
  String newline
    ("_Showing " +:+ Numeral.string_of_Z (Z.of_nat shown) +:+ " of " +:+
     Numeral.string_of_Z (Z.of_nat total) +:+ " total dispatches_").

Definition list_dispatches (args : ListArgs) (w : World)
  : ToolResult * World :=
  let '(store, w1) := readStore FILE DEFAULT w in
  let shown := listed args store in
  if (length shown =? 0)%nat then (ok "No dispatch tasks found", w1)
  else
    (ok (join_with (str1 newline)
           (map list_line shown ++
            [list_footer (length shown) (length (tasks store))])),
     w1).

(** *** cancel_dispatch *)

(** [process.kill(target, "SIGTERM")]: the checks are those of the
    probe.  A negative target names a process group; the child of a
    detached spawn leads a group of its own, known by its pid. *)
Definition kill_term (target : Z) (w : World) : kill_error + unit :=
  kill0 (Z.abs target) w.

(** The targets that [cancel_dispatch] signals, in order: the group of
    the worker, then the worker alone when the group could not be
    signalled.  What the signal does to its target is the target's
    business: the process table is left to the environment. *)
Definition cancel_signals (task : DispatchTask) (w : World) : list Z :=
  match pid task with
  | Some p =>
      if (p =? 0)%Z then []
      else match kill_term (- p) w with
           | inr _ => [(- p)%Z]
           | inl _ => [(- p)%Z; p]
           end
  | None => []
  end.

(** The handler answers or throws, and names the signals it has sent.
    It throws what [writeMarker] throws: the marker is written with
    [writeFileSync], outside any [try], and the session directory of
    the row may not be there. *)
Definition cancel_dispatch (task_id : option string) (w : World)
  : ((fs_error + ToolResult) * list Z) * World :=
  match nonempty task_id with
  | None => ((inr (err "task_id is required"), []), w)
  | Some taskId =>
      let '(store, w1) := readStore FILE DEFAULT w in
      match find_task taskId store with
      | None => ((inr (not_found taskId), []), w1)
      | Some task =>
          if negb (String.eqb (status task) "running") &&
             negb (String.eqb (status task) "created") then
            ((inr (err ("Task " +:+ quoted taskId +:+ " is " +:+
                        status task +:+ ", cannot cancel")), []), w1)
          else
            let sent := cancel_signals task w1 in
            match Raising.writeFileSync
                    (markerPath (session_dir task) taskId) "cancelled" w1 with
            | inl e => ((inl e, sent), w1)
            | inr w2 =>
                let '(_, w3) :=
                  updateStore FILE DEFAULT
                    (update_rows taskId (fun t =>
                       mkTask (id t) (model t) (prompt t) (options t)
                         (session_dir t) (output_file t) "cancelled" (pid t)
                         (exit_code t) (duration_s t) (output t)
                         (created_at t) (Some (nowISO w2)) (error t)))
                    w2 in
                ((inr (ok ("Task " +:+ quoted taskId +:+ " cancelled")), sent),
                 w3)
            end
      end
  end.

(** The variables that [dispatch] adds to the environment of the
    worker. *)
Definition worker_env (taskId sessionDir p : string)
  : list (string * string) :=
  [("ORCH_TASK_ID", taskId); ("ORCH_SESSION_DIR", sessionDir);
   ("ORCH_PROMPT", p); ("ORCH_PROMPT_FILE", prompt_path sessionDir)]%string.

(** *** Reconciliation as a step relation *)

(** One step is the startup scan, a [get_dispatch_result] call, or a
    move of the environment (markers, outputs, processes, the clock)
    that leaves the ledger file alone. *)
Inductive reconcile_step : World -> World -> Prop :=
| scan_step (w : World) :
    reconcile_step w (recoverOrphanedTasks w)
| query_step (w : World) (task_id : option string) :
    reconcile_step w (snd (get_dispatch_result task_id w))
| world_step (w w' : World) :
    w_home w' = w_home w ->
    w_files w' !! storagePath FILE w = w_files w !! storagePath FILE w ->
    reconcile_step w w'.

(** The event puts a file at [path]. *)
Definition touches (path : string) (e : event) : bool :=
  match e with
  | EvWriteFile p _ => String.eqb p path
  | EvRename _ dst => String.eqb dst path
  | _ => false
  end.

Definition is_spawn (e : event) : bool :=
  match e with
  | EvSpawn _ _ _ => true
  | _ => false
  end.

(** The prompt that each spawn of a trace passes as its fifth
    argument. *)
Fixpoint spawned_prompts (tr : list event) : list (option string) :=
  match tr with
  | [] => []
  | EvSpawn _ argv _ :: r => nth_error argv 4 :: spawned_prompts r
  | _ :: r => spawned_prompts r
  end.

(** The files after an event. *)
Definition apply_event (e : event) (files : gmap string string)
  : gmap string string :=
  match e with
  | EvWriteFile p c => <[p := c]> files
  | EvRename src dst =>
      match files !! src with
      | Some c => <[dst := c]> (delete src files)
      | None => files
      end
  | _ => files
  end.

(** The files after the events of a trace, in order: what is on the
    disk between two of them is what another process finds. *)
Definition replay (es : list event) (files : gmap string string)
  : gmap string string :=
  fold_left (fun f e => apply_event e f) es files.

(** [w'] comes from [w] by the events [es]: they are what its trace
    has gained, and its files are those of [w] after them. *)
Definition follows (w w' : World) (es : list event) : Prop :=
  w_trace w' = w_trace w ++ es /\ w_files w' = replay es (w_files w) /\
  w_home w' = w_home w.

(** An event that leaves the file at [path] as it is. *)
Definition leaves (path : string) (e : event) : Prop :=
  forall f, apply_event e f !! path = f !! path.

(** The Ledger as a reader finds it among [files], in the home of
    [w]. *)
Definition ledger_among (files : gmap string string) (w : World)
  : DispatchesStore :=
  load DEFAULT (files !! storagePath FILE w).

(** The events of a trace that precede its first spawn. *)
Fixpoint before_spawn (tr : list event) : list event :=
  match tr with
  | [] => []
  | e :: r => if is_spawn e then [] else e :: before_spawn r
  end.

End Dispatch.

(** ** What the tools share *)

Module Tool.

Import JSON Storage.

(** A handler returns a result or throws; what it throws is answered
    by the server with an error of its own. *)
Inductive outcome : Type :=
| Returned (r : ToolResult)
| Thrown (e : exn).

(** The helpers that the dispatch tools share with the others. *)
Abbreviation quoted := Dispatch.quoted (only parsing).
Abbreviation is_empty := Dispatch.is_empty (only parsing).
Abbreviation nonempty := Dispatch.nonempty (only parsing).
Abbreviation opt_member := Dispatch.opt_member (only parsing).
Abbreviation required := Dispatch.required (only parsing).
Abbreviation optional := Dispatch.optional (only parsing).
Abbreviation as_str := Dispatch.as_str (only parsing).
Abbreviation as_num := Dispatch.as_num (only parsing).
Abbreviation as_bool := Dispatch.as_bool (only parsing).

(** [lines.join("\n")] *)
Definition unlines (l : list string) : string := join_with (str1 newline) l.

(** [l.slice(0, limit)] with [limit = (args.limit as number) || 20] *)
Definition page {A} (limit : option Z) (l : list A) : list A :=
  Dispatch.slice0 (Dispatch.effective_limit limit) l.

(** *** Objects used as maps

    A [Record<string, X>] is held as the list of its own properties in
    their order; a name that is an array index would come first in the
    runtime's order, which no property stated below depends on. *)

(** The own property of a name. *)
Fixpoint assoc {A} (k : string) (r : list (string * A)) : option A :=
  match r with
  | [] => None
  | (k', x) :: r' => if String.eqb k' k then Some x else assoc k r'
  end.

(** [{ ...r, [k]: x }] *)
Fixpoint set_prop {A} (k : string) (x : A) (r : list (string * A))
  : list (string * A) :=
  match r with
  | [] => [(k, x)]
  | (k', x') :: r' =>
      if String.eqb k' k then (k', x) :: r' else (k', x') :: set_prop k x r'
  end.

(** [const { [k]: _, ...rest } = r] *)
Fixpoint remove_prop {A} (k : string) (r : list (string * A))
  : list (string * A) :=
  match r with
  | [] => []
  | (k', x) :: r' =>
      if String.eqb k' k then remove_prop k r' else (k', x) :: remove_prop k r'
  end.

(** The properties that every object inherits from [Object.prototype]:
    functions, and under [__proto__] the prototype itself. *)
Definition inherited_names : list string :=
  ["constructor"; "__defineGetter__"; "__defineSetter__"; "hasOwnProperty";
   "__lookupGetter__"; "__lookupSetter__"; "isPrototypeOf";
   "propertyIsEnumerable"; "toString"; "valueOf"; "__proto__";
   "toLocaleString"]%string.

Definition inherited (k : string) : bool :=
  existsb (String.eqb k) inherited_names.

(** What [r[k]] finds. *)
Inductive property (A : Type) : Type :=
| Own (x : A)
| Inherited
| Absent.
Arguments Own {A} x.
Arguments Inherited {A}.
Arguments Absent {A}.

Definition lookup_prop {A} (k : string) (r : list (string * A)) : property A :=
  match assoc k r with
  | Some x => Own x
  | None => if inherited k then Inherited else Absent
  end.

(** *** Decoders *)

Section Decoders.
Context {A : Type} (dec : json -> option A).

Fixpoint list_of_json (l : list json) : option (list A) :=
  match l with
  | [] => Some []
  | j :: r =>
      x ← dec j;
      xs ← list_of_json r;
      Some (x :: xs)
  end.

Fixpoint record_of_json (ms : list (string * json))
  : option (list (string * A)) :=
  match ms with
  | [] => Some []
  | (k, j) :: r =>
      x ← dec j;
      xs ← record_of_json r;
      Some ((k, x) :: xs)
  end.

Definition as_list (j : json) : option (list A) :=
  match j with JArr l => list_of_json l | _ => None end.

Definition as_record (j : json) : option (list (string * A)) :=
  match j with JObj ms => record_of_json ms | _ => None end.

End Decoders.

Definition record_to_json {A} (enc : A -> json) (r : list (string * A))
  : json :=
  JObj (map (fun m => (fst m, enc (snd m))) r).

End Tool.

(** ** src/tools/teams.ts *)

Module Teams.

Import JSON Storage Tool.

Record TeamAgent : Type := mkAgent {
  name : string;
  role : string;
  model : option string
}.

Record Team : Type := mkTeam {
  id : string;
  goal : string;
  agents : list TeamAgent;
  status : string;
  created_at : string;
  completed_at : option string
}.

Record TeamsStore : Type := mkStore {
  schema_version : Z;
  teams : list Team
}.

Definition with_teams (ts : list Team) (s : TeamsStore) : TeamsStore :=
  mkStore (schema_version s) ts.

Definition agent_to_json (a : TeamAgent) : json :=
  JObj (("name", JStr (name a)) :: ("role", JStr (role a)) ::
        opt_member "model" (JStr <$> model a) []).

Definition team_to_json (t : Team) : json :=
  JObj (("id", JStr (id t)) :: ("goal", JStr (goal t)) ::
        ("agents", JArr (map agent_to_json (agents t))) ::
        ("status", JStr (status t)) :: ("created_at", JStr (created_at t)) ::
        opt_member "completed_at" (JStr <$> completed_at t) []).

Definition store_to_json (s : TeamsStore) : list (string * json) :=
  [("schema_version", JNum (schema_version s));
   ("teams", JArr (map team_to_json (teams s)))].

Definition agent_of_json (j : json) : option TeamAgent :=
  match j with
  | JObj ms =>
      n ← required as_str "name" ms;
      r ← required as_str "role" ms;
      m ← optional as_str "model" ms;
      Some (mkAgent n r m)
  | _ => None
  end.

Definition team_of_json (j : json) : option Team :=
  match j with
  | JObj ms =>
      i ← required as_str "id" ms;
      g ← required as_str "goal" ms;
      a ← required (as_list agent_of_json) "agents" ms;
      st ← required as_str "status" ms;
      ca ← required as_str "created_at" ms;
      co ← optional as_str "completed_at" ms;
      Some (mkTeam i g a st ca co)
  | _ => None
  end.

Definition store_of_json (ms : list (string * json)) : option TeamsStore :=
  v ← required as_num "schema_version" ms;
  ts ← required (as_list team_of_json) "teams" ms;
  Some (mkStore v ts).

#[export] Instance teams_document : Document TeamsStore :=
  {| to_json := store_to_json; of_json := store_of_json |}.

Definition FILE : string := "teams.json".
Definition DEFAULT : TeamsStore := mkStore 1 [].

(** The store as the handlers read it. *)
Definition store (w : World) : TeamsStore := fst (readStore FILE DEFAULT w).

(** One agent of a list, behind [lead]. *)
Definition agent_line (lead : string) (a : TeamAgent) : string :=
  lead +:+ "**" +:+ name a +:+ "** (" +:+ role a +:+ ")" +:+
  match nonempty (model a) with
  | Some m => " [" +:+ m +:+ "]"
  | None => ""
  end.

Definition find_team (teamId : string) (s : TeamsStore) : option Team :=
  List.find (fun t => String.eqb (id t) teamId) (teams s).

Definition create_team (arg_goal : option string)
    (arg_agents : option (list TeamAgent)) (w : World) : ToolResult * World :=
  match nonempty arg_goal, arg_agents with
  | Some g, Some (a :: rest) =>
      let team := mkTeam (genId "team" w) g (a :: rest) "active" (nowISO w)
                    None in
      let '(_, w1) :=
        updateStore FILE DEFAULT
          (fun s => with_teams (teams s ++ [team]) s) w in
      (ok (unlines
             ["Team " +:+ quoted (id team) +:+ " created";
              "**Goal**: " +:+ g;
              "**Agents**:";
              unlines (map (agent_line "- ") (a :: rest));
              "";
              "Use Claude's TeamCreate/Task tools to spawn agents, then track progress with get_team_status."]%string),
       w1)
  | _, _ => (err "goal and agents[] are required", w)
  end.

(** One team of the answer of [get_team_status]; the dash is held as
    its bytes. *)
Definition team_section (t : Team) : string :=
  unlines ["### " +:+ id t +:+ " — " +:+ status t;
           "**Goal**: " +:+ goal t;
           "**Created**: " +:+ created_at t;
           "**Agents**:";
           unlines (map (agent_line "  - ") (agents t))]%string.

Definition get_team_status (team_id : option string) (w : World)
  : ToolResult * World :=
  let '(s, w1) := readStore FILE DEFAULT w in
  let shown :=
    match nonempty team_id with
    | Some teamId =>
        match find_team teamId s with
        | Some t => inr [t]
        | None => inl teamId
        end
    | None => inr (List.filter (fun t => String.eqb (status t) "active") (teams s))
    end in
  match shown with
  | inl teamId => (err ("Team " +:+ quoted teamId +:+ " not found"), w1)
  | inr [] => (ok "No active teams", w1)
  | inr ts =>
      (ok (join_with (String newline (str1 newline)) (map team_section ts)), w1)
  end.


End Teams.

(** ** src/tools/reminders.ts *)

Module Reminders.

Import JSON Storage Tool.

Record ReminderTrigger : Type := mkTrigger {
  type : string;
  value : option string
}.

Record Reminder : Type := mkReminder {
  id : string;
  trigger : ReminderTrigger;
  message : string;
  context : option string;
  created_at : string;
  fired_count : Z;
  last_fired_at : option string
}.

Record RemindersStore : Type := mkStore {
  schema_version : Z;
  reminders : list Reminder
}.

Definition with_reminders (rs : list Reminder) (s : RemindersStore)
  : RemindersStore := mkStore (schema_version s) rs.

Definition trigger_to_json (t : ReminderTrigger) : json :=
  JObj (("type", JStr (type t)) :: opt_member "value" (JStr <$> value t) []).

Definition reminder_to_json (r : Reminder) : json :=
  JObj (("id", JStr (id r)) ::
        ("trigger", trigger_to_json (trigger r)) ::
        ("message", JStr (message r)) ::
        opt_member "context" (JStr <$> context r) (
        ("created_at", JStr (created_at r)) ::
        ("fired_count", JNum (fired_count r)) ::
        opt_member "last_fired_at" (JStr <$> last_fired_at r) [])).

Definition store_to_json (s : RemindersStore) : list (string * json) :=
  [("schema_version", JNum (schema_version s));
   ("reminders", JArr (map reminder_to_json (reminders s)))].

Definition trigger_of_json (j : json) : option ReminderTrigger :=
  match j with
  | JObj ms =>
      t ← required as_str "type" ms;
      v ← optional as_str "value" ms;
      Some (mkTrigger t v)
  | _ => None
  end.

Definition reminder_of_json (j : json) : option Reminder :=
  match j with
  | JObj ms =>
      i ← required as_str "id" ms;
      t ← required trigger_of_json "trigger" ms;
      m ← required as_str "message" ms;
      c ← optional as_str "context" ms;
      ca ← required as_str "created_at" ms;
      n ← required as_num "fired_count" ms;
      l ← optional as_str "last_fired_at" ms;
      Some (mkReminder i t m c ca n l)
  | _ => None
  end.

Definition store_of_json (ms : list (string * json))
  : option RemindersStore :=
  v ← required as_num "schema_version" ms;
  rs ← required (as_list reminder_of_json) "reminders" ms;
  Some (mkStore v rs).

#[export] Instance reminders_document : Document RemindersStore :=
  {| to_json := store_to_json; of_json := store_of_json |}.

Definition FILE : string := "reminders.json".
Definition DEFAULT : RemindersStore := mkStore 1 [].

(** The store as the handlers read it. *)
Definition store (w : World) : RemindersStore :=
  fst (readStore FILE DEFAULT w).

(** [type], and [="value"] behind it when there is a value. *)
Definition trigger_text (t : ReminderTrigger) : string :=
  type t +:+
  match nonempty (value t) with
  | Some v => "=" +:+ quoted v
  | None => ""
  end.

Definition set_reminder (arg_trigger : option ReminderTrigger)
    (arg_message arg_context : option string) (w : World)
  : ToolResult * World :=
  match arg_trigger, nonempty arg_message with
  | Some t, Some m =>
      if is_empty (type t) then (err "trigger and message are required", w)
      else
        let reminder :=
          mkReminder (genId "rem" w) t m arg_context (nowISO w) 0 None in
        let '(_, w1) :=
          updateStore FILE DEFAULT
            (fun s => with_reminders (reminders s ++ [reminder]) s) w in
        (ok ("Reminder " +:+ quoted (id reminder) +:+ " created (trigger: " +:+
             trigger_text t +:+ ")"),
         w1)
  | _, _ => (err "trigger and message are required", w)
  end.

(** The reminders of one trigger type, or all of them. *)
Definition of_type (filter : option string) (rs : list Reminder)
  : list Reminder :=
  match nonempty filter with
  | Some f => List.filter (fun r => String.eqb (type (trigger r)) f) rs
  | None => rs
  end.

(** Whether a reminder fires on a context, given in lower case:
    [always] does; [keyword] and [event] do when they have a value and
    the context contains it, in lower case. *)
Definition fires (ctx : string) (r : Reminder) : bool :=
  String.eqb (type (trigger r)) "always" ||
  match nonempty (value (trigger r)) with
  | Some v =>
      (String.eqb (type (trigger r)) "keyword" ||
       String.eqb (type (trigger r)) "event") &&
      includes (toLowerCase v) ctx
  | None => false
  end.

(** The callback of [s.reminders.map] that counts the firing. *)
Definition fire (matched : list Reminder) (now : string) (r : Reminder)
  : Reminder :=
  if existsb (fun x => String.eqb (id x) (id r)) matched
  then mkReminder (id r) (trigger r) (message r) (context r) (created_at r)
         (fired_count r + 1) (Some now)
  else r.

Definition reminder_line (r : Reminder) : string :=
  "- **" +:+ id r +:+ "** [" +:+ trigger_text (trigger r) +:+ "] " +:+
  message r +:+ " _(fired " +:+ Numeral.string_of_Z (fired_count r) +:+ "x)_".

Definition list_reminders (arg_filter arg_context : option string)
    (arg_limit : option Z) (w : World) : ToolResult * World :=
  let '(s, w1) := readStore FILE DEFAULT w in
  let by_type := of_type arg_filter (reminders s) in
  let '(results, w2) :=
    match nonempty arg_context with
    | Some c =>
        let ctx := toLowerCase c in
        let now := nowISO w1 in
        let matched := List.filter (fires ctx) by_type in
        (matched,
         if (0 <? length matched)%nat then
           snd (updateStore FILE DEFAULT
                  (fun s => with_reminders
                              (map (fire matched now) (reminders s)) s)
                  w1)
         else w1)
    | None => (by_type, w1)
    end in
  match page arg_limit results with
  | [] =>
      (ok (match nonempty arg_context with
           | Some _ => "No matching reminders for this context"
           | None => "No reminders set"
           end), w2)
  | shown => (ok (unlines (map reminder_line shown)), w2)
  end.

Definition find_reminder (i : string) (s : RemindersStore) : option Reminder :=
  List.find (fun r => String.eqb (id r) i) (reminders s).

Definition dismiss_reminder (arg_id : option string) (w : World)
  : ToolResult * World :=
  match nonempty arg_id with
  | None => (err "id is required", w)
  | Some i =>
      let '(s, w1) := readStore FILE DEFAULT w in
      match find_reminder i s with
      | None => (err ("Reminder " +:+ quoted i +:+ " not found"), w1)
      | Some _ =>
          let '(_, w2) :=
            updateStore FILE DEFAULT
              (fun s => with_reminders
                          (List.filter (fun r => negb (String.eqb (id r) i))
                             (reminders s)) s)
              w1 in
          (ok ("Reminder " +:+ quoted i +:+ " dismissed"), w2)
      end
  end.

End Reminders.

(** ** src/tools/learning.ts *)

Module Learning.

Import JSON Storage Tool.

Record Learning : Type := mkLearning {
  id : string;
  observation : string;
  created_at : string;
  folded : bool
}.

(** [{ observations: Learning[] }] *)
Record Skill : Type := mkSkill {
  observations : list Learning
}.

Record LearningsStore : Type := mkStore {
  schema_version : Z;
  skills : list (string * Skill)
}.

Definition with_skills (sk : list (string * Skill)) (s : LearningsStore)
  : LearningsStore := mkStore (schema_version s) sk.

Definition learning_to_json (l : Learning) : json :=
  JObj [("id", JStr (id l)); ("observation", JStr (observation l));
        ("created_at", JStr (created_at l)); ("folded", JBool (folded l))].

Definition skill_to_json (sk : Skill) : json :=
  JObj [("observations", JArr (map learning_to_json (observations sk)))].

Definition store_to_json (s : LearningsStore) : list (string * json) :=
  [("schema_version", JNum (schema_version s));
   ("skills", record_to_json skill_to_json (skills s))].

Definition learning_of_json (j : json) : option Learning :=
  match j with
  | JObj ms =>
      i ← required as_str "id" ms;
      o ← required as_str "observation" ms;
      c ← required as_str "created_at" ms;
      f ← required as_bool "folded" ms;
      Some (mkLearning i o c f)
  | _ => None
  end.

Definition skill_of_json (j : json) : option Skill :=
  match j with
  | JObj ms =>
      obs ← required (as_list learning_of_json) "observations" ms;
      Some (mkSkill obs)
  | _ => None
  end.

Definition store_of_json (ms : list (string * json))
  : option LearningsStore :=
  v ← required as_num "schema_version" ms;
  sk ← required (as_record skill_of_json) "skills" ms;
  Some (mkStore v sk).

#[export] Instance learnings_document : Document LearningsStore :=
  {| to_json := store_to_json; of_json := store_of_json |}.

Definition FILE : string := "learnings.json".
Definition DEFAULT : LearningsStore := mkStore 1 [].

Definition SKILLS_DIR (w : World) : string :=
  path_join [w_home w; ".claude"; "skills"]%string.

(** The store as the handlers read it. *)
Definition store (w : World) : LearningsStore :=
  fst (readStore FILE DEFAULT w).

(** [store.skills[skill]?.observations ?? []]: what is inherited under
    the name has no observations. *)
Definition existing (skill : string) (s : LearningsStore) : list Learning :=
  match lookup_prop skill (skills s) with
  | Own sk => observations sk
  | Inherited | Absent => []
  end.

Definition note_learning (arg_skill arg_observation : option string)
    (w : World) : ToolResult * World :=
  match nonempty arg_skill, nonempty arg_observation with
  | Some skill, Some obs =>
      let learning := mkLearning (genId "lrn" w) obs (nowISO w) false in
      let '(_, w1) :=
        updateStore FILE DEFAULT
          (fun s =>
             with_skills
               (set_prop skill (mkSkill (existing skill s ++ [learning]))
                  (skills s)) s)
          w in
      (ok ("Learning " +:+ quoted (id learning) +:+ " recorded for skill " +:+
           quoted skill), w1)
  | _, _ => (err "skill and observation are required", w)
  end.

Definition learning_line (o : Learning) : string :=
  "- **" +:+ id o +:+ "**" +:+ (if folded o then " [folded]" else "") +:+
  ": " +:+ observation o +:+ " _(" +:+ created_at o +:+ ")_".

(** One skill of the answer of [get_learnings]. *)
Definition skill_section (limit : option Z) (name : string) (data : Skill)
  : string :=
  let obs := page limit (observations data) in
  let remaining :=
    (Z.of_nat (length (observations data)) - Z.of_nat (length obs))%Z in
  let lines :=
    map learning_line obs ++
    (if (0 <? remaining)%Z
     then ["  _...and " +:+ Numeral.string_of_Z remaining +:+ " more_"]
     else []) in
  "### " +:+ name +:+ " (" +:+
  Numeral.string_of_Z (Z.of_nat (length (observations data))) +:+
  " learnings)" +:+ String newline (unlines lines).

(** The loop of [get_learnings] over the names: a name that the store
    does not own is skipped, unless something is inherited under it,
    whose observations cannot be sliced. *)
Fixpoint sections (limit : option Z) (sk : list (string * Skill))
    (names : list string) : exn + list string :=
  match names with
  | [] => inr []
  | name :: rest =>
      match lookup_prop name sk with
      | Own data =>
          match sections limit sk rest with
          | inr l => inr (skill_section limit name data :: l)
          | inl e => inl e
          end
      | Inherited => inl TypeError
      | Absent => sections limit sk rest
      end
  end.

Definition get_learnings (arg_skill : option string) (arg_limit : option Z)
    (w : World) : outcome * World :=
  let '(s, w1) := readStore FILE DEFAULT w in
  match skills s with
  | [] => (Returned (ok "No learnings recorded yet"), w1)
  | _ =>
      let names :=
        match nonempty arg_skill with
        | Some skill => [skill]
        | None => map fst (skills s)
        end in
      match sections arg_limit (skills s) names with
      | inl e => (Thrown e, w1)
      | inr [] =>
          (Returned
             (ok (match nonempty arg_skill with
                  | Some skill => "No learnings for " +:+ quoted skill
                  | None => "No learnings recorded"
                  end)), w1)
      | inr l => (Returned (ok (join_with (String newline (str1 newline)) l)), w1)
      end
  end.

(** The callback of [data.observations.map] in [fold_learnings]. *)
Definition fold (unfolded : list Learning) (o : Learning) : Learning :=
  if existsb (fun u => String.eqb (id u) (id o)) unfolded
  then mkLearning (id o) (observation o) (created_at o) true
  else o.

(** The text that [fold_learnings] answers; the dash is held as its
    bytes. *)
Definition suggestion (skill skillPath currentSkillMd : string)
    (unfolded : list Learning) : string :=
  unlines
    ["## Suggested additions for " +:+ skill +:+ "/SKILL.md";
     "";
     if is_empty currentSkillMd
     then "No SKILL.md found at " +:+ skillPath +:+ " — create one"
     else "Current SKILL.md path: " +:+ skillPath;
     "";
     "### Learnings to incorporate:";
     "";
     unlines (map (fun o => "- " +:+ observation o) unfolded);
     "";
     "---";
     Numeral.string_of_Z (Z.of_nat (length unfolded)) +:+
     " unfolded observation(s). After applying, these will be marked as folded."
    ]%string.

Definition fold_learnings (arg_skill : option string) (w : World)
  : outcome * World :=
  match nonempty arg_skill with
  | None => (Returned (err "skill is required"), w)
  | Some skill =>
      let '(s, w1) := readStore FILE DEFAULT w in
      match lookup_prop skill (skills s) with
      | Absent =>
          (Returned (err ("No learnings for skill " +:+ quoted skill)), w1)
      | Inherited => (Thrown TypeError, w1)
      | Own data =>
          match List.filter (fun o => negb (folded o)) (observations data) with
          | [] =>
              (Returned (ok ("All learnings for " +:+ quoted skill +:+
                             " are already folded")), w1)
          | unfolded =>
              let skillPath := path_join [SKILLS_DIR w1; skill; "SKILL.md"]%string in
              let current :=
                if existsSync skillPath w1 then readFileSync skillPath w1
                else Some ""%string in
              match current with
              | None => (Thrown FsError, w1)
              | Some currentSkillMd =>
                  let '(_, w2) :=
                    updateStore FILE DEFAULT
                      (fun s =>
                         with_skills
                           (set_prop skill
                              (mkSkill (map (fold unfolded) (observations data)))
                              (skills s)) s)
                      w1 in
                  (Returned (ok (suggestion skill skillPath currentSkillMd
                                   unfolded)), w2)
              end
          end
      end
  end.

End Learning.

(** ** src/tools/context.ts *)

Module Context.

Import JSON Storage Tool.

(** [JSON.stringify(v)], without indentation. *)
Fixpoint compact (v : json) (k : string) {struct v} : string :=
  match v with
  | JNull => "null" +:+ k
  | JBool true => "true" +:+ k
  | JBool false => "false" +:+ k
  | JNum n => Numeral.emit_Z n k
  | JStr s => emit_string s k
  | JArr [] => "[]" +:+ k
  | JArr (x :: xs) =>
      String "["
        (compact x
           ((fix items (l : list json) : string :=
               match l with
               | [] => String "]" k
               | y :: l' => String "," (compact y (items l'))
               end) xs))
  | JObj [] => "{}" +:+ k
  | JObj (m :: ms) =>
      String "{"
        (emit_string (fst m)
           (String ":"
              (compact (snd m)
                 ((fix members (l : list (string * json)) : string :=
                     match l with
                     | [] => String "}" k
                     | y :: l' =>
                         String ","
                           (emit_string (fst y)
                              (String ":" (compact (snd y) (members l'))))
                     end) ms))))
  end.

(** [value] is any value of JSON, or [undefined] when [set_context] was
    called without one. *)
Record ContextEntry : Type := mkEntry {
  value : option json;
  set_at : string
}.

Record ContextStore : Type := mkStore {
  schema_version : Z;
  entries : list (string * ContextEntry)
}.

(** The values of the entries have no two properties of one name. *)
Definition values_wf (es : list (string * ContextEntry)) : Prop :=
  forall k e v, In (k, e) es -> value e = Some v -> wf v = true.

Definition with_entries (es : list (string * ContextEntry)) (s : ContextStore)
  : ContextStore := mkStore (schema_version s) es.

Definition entry_members (e : ContextEntry) : list (string * json) :=
  opt_member "value" (value e) [("set_at", JStr (set_at e))].

Definition entry_to_json (e : ContextEntry) : json := JObj (entry_members e).

Definition store_to_json (s : ContextStore) : list (string * json) :=
  [("schema_version", JNum (schema_version s));
   ("entries", record_to_json entry_to_json (entries s))].

Definition entry_of_json (j : json) : option ContextEntry :=
  match j with
  | JObj ms =>
      s ← required as_str "set_at" ms;
      Some (mkEntry (get_field "value" ms) s)
  | _ => None
  end.

Definition store_of_json (ms : list (string * json)) : option ContextStore :=
  v ← required as_num "schema_version" ms;
  es ← required (as_record entry_of_json) "entries" ms;
  Some (mkStore v es).

#[export] Instance context_document : Document ContextStore :=
  {| to_json := store_to_json; of_json := store_of_json |}.

Definition FILE : string := "context.json".
Definition DEFAULT : ContextStore := mkStore 1 [].

(** The store as the handlers read it. *)
Definition store (w : World) : ContextStore := fst (readStore FILE DEFAULT w).

Definition set_context (arg_key : option string) (arg_value : option json)
    (w : World) : ToolResult * World :=
  match nonempty arg_key with
  | None => (err "key is required", w)
  | Some key =>
      let '(_, w1) :=
        updateStore FILE DEFAULT
          (fun s =>
             with_entries
               (set_prop key (mkEntry arg_value (nowISO w)) (entries s)) s)
          w in
      (ok ("Context " +:+ quoted key +:+ " set"), w1)
  end.

Definition no_entry (key : string) : ToolResult :=
  err ("No context entry for " +:+ quoted key).

(** One line of the summary; an entry without a value has nothing
    whose length could be taken. *)
Definition summary_line (k : string) (e : ContextEntry) : option string :=
  match value e with
  | None => None
  | Some j =>
      let val := match j with
                 | JStr s => s
                 | _ => compact j ""
                 end in
      let shown := if (80 <? slen val)%Z
                   then str_slice0 77 val +:+ "..." else val in
      Some ("- **" +:+ k +:+ "**: " +:+ shown +:+ " _(set " +:+ set_at e +:+
            ")_")
  end.

Fixpoint summary (es : list (string * ContextEntry)) : option (list string) :=
  match es with
  | [] => Some []
  | (k, e) :: rest =>
      l ← summary_line k e;
      ls ← summary rest;
      Some (l :: ls)
  end.

Definition get_context (arg_key : option string) (w : World)
  : outcome * World :=
  let '(s, w1) := readStore FILE DEFAULT w in
  match nonempty arg_key with
  | Some key =>
      match lookup_prop key (entries s) with
      | Absent => (Returned (no_entry key), w1)
      | Own entry =>
          (Returned
             (ok (stringify (JObj (("key", JStr key) :: entry_members entry)))),
           w1)
      | Inherited =>
          (Returned (ok (stringify (JObj [("key", JStr key)]))), w1)
      end
  | None =>
      match entries s with
      | [] => (Returned (ok "No context entries stored"), w1)
      | es =>
          match summary es with
          | Some ls => (Returned (ok (unlines ls)), w1)
          | None => (Thrown TypeError, w1)
          end
      end
  end.

Definition clear_context (arg_key : option string) (w : World)
  : ToolResult * World :=
  match nonempty arg_key with
  | None => (err "key is required", w)
  | Some key =>
      let '(s, w1) := readStore FILE DEFAULT w in
      match lookup_prop key (entries s) with
      | Absent => (no_entry key, w1)
      | Own _ | Inherited =>
          let rest := remove_prop key (entries s) in
          let '(_, w2) :=
            updateStore FILE DEFAULT (fun s => with_entries rest s) w1 in
          (ok ("Context " +:+ quoted key +:+ " cleared"), w2)
      end
  end.

End Context.

(** ** src/tools/workflow.ts *)

Module Workflow.

Import JSON Storage Tool.

(** [WorkflowStep] *)
Module Step.
Record t : Type := make {
  description : string;
  status : string;
  notes : option string;
  completed_at : option string
}.
End Step.

(** [WorkflowTemplate] *)
Module Template.
Record t : Type := make {
  name : string;
  steps : list string
}.
End Template.

(** [name] is what [start_workflow] was given, which may be nothing. *)
Record ActiveWorkflow : Type := mkActive {
  name : option string;
  current_step : Z;
  steps : list Step.t;
  started_at : string;
  completed_at : option string
}.

Record WorkflowsStore : Type := mkStore {
  schema_version : Z;
  templates : list (string * Template.t);
  active : option ActiveWorkflow
}.

Definition with_templates (ts : list (string * Template.t))
    (s : WorkflowsStore) : WorkflowsStore :=
  mkStore (schema_version s) ts (active s).

Definition with_active (a : ActiveWorkflow) (s : WorkflowsStore)
  : WorkflowsStore :=
  mkStore (schema_version s) (templates s) (Some a).

(** *** The store as JSON *)

Definition step_to_json (s : Step.t) : json :=
  JObj (("description", JStr (Step.description s)) ::
        ("status", JStr (Step.status s)) ::
        opt_member "notes" (JStr <$> Step.notes s) (
        opt_member "completed_at" (JStr <$> Step.completed_at s) [])).

Definition template_to_json (t : Template.t) : json :=
  JObj [("name", JStr (Template.name t));
        ("steps", JArr (map JStr (Template.steps t)))].

Definition active_members (steps_json : json) (a : ActiveWorkflow)
  : list (string * json) :=
  opt_member "name" (JStr <$> name a) (
  ("current_step", JNum (current_step a)) ::
  ("steps", steps_json) ::
  ("started_at", JStr (started_at a)) ::
  opt_member "completed_at" (JStr <$> completed_at a) []).

Definition active_to_json (a : ActiveWorkflow) : json :=
  JObj (active_members (JArr (map step_to_json (steps a))) a).

Definition store_members (active_json : option json) (s : WorkflowsStore)
  : list (string * json) :=
  ("schema_version", JNum (schema_version s)) ::
  ("templates", record_to_json template_to_json (templates s)) ::
  opt_member "active" active_json [].

Definition store_to_json (s : WorkflowsStore) : list (string * json) :=
  store_members (active_to_json <$> active s) s.

Definition step_of_json (j : json) : option Step.t :=
  match j with
  | JObj ms =>
      d ← required as_str "description" ms;
      st ← required as_str "status" ms;
      n ← optional as_str "notes" ms;
      c ← optional as_str "completed_at" ms;
      Some (Step.make d st n c)
  | _ => None
  end.

Definition template_of_json (j : json) : option Template.t :=
  match j with
  | JObj ms =>
      n ← required as_str "name" ms;
      st ← required (as_list as_str) "steps" ms;
      Some (Template.make n st)
  | _ => None
  end.

Definition active_of_json (j : json) : option ActiveWorkflow :=
  match j with
  | JObj ms =>
      n ← optional as_str "name" ms;
      c ← required as_num "current_step" ms;
      st ← required (as_list step_of_json) "steps" ms;
      sa ← required as_str "started_at" ms;
      co ← optional as_str "completed_at" ms;
      Some (mkActive n c st sa co)
  | _ => None
  end.

Definition store_of_json (ms : list (string * json))
  : option WorkflowsStore :=
  v ← required as_num "schema_version" ms;
  ts ← required (as_record template_of_json) "templates" ms;
  a ← optional active_of_json "active" ms;
  Some (mkStore v ts a).

#[export] Instance workflows_document : Document WorkflowsStore :=
  {| to_json := store_to_json; of_json := store_of_json |}.

(** *** Constants *)

Definition FILE : string := "workflows.json".

Definition BUILTIN_TEMPLATES : list (string * list string) :=
  [("new-skill",
    ["Gather examples and requirements";
     "Plan skill structure and SKILL.md";
     "Create skill directory and files";
     "Write SKILL.md with instructions";
     "Test the skill end-to-end";
     "Push to GitHub"]);
   ("multi-model-critique",
    ["Draft the artifact to review";
     "Dispatch to Codex for critical review";
     "Dispatch to Gemini for parallel review";
     "Synthesize feedback from both models";
     "Revise artifact with feedback"]);
   ("publish-to-github",
    ["Verify all changes are committed";
     "Run tests and verify passing";
     "Create GitHub repo if needed";
     "Push to remote";
     "Update MEMORY.md with new entry"])]%string.

Definition DEFAULT : WorkflowsStore :=
  mkStore 1
    (map (fun e => (fst e, Template.make (fst e) (snd e))) BUILTIN_TEMPLATES)
    None.

(** The store as the handlers read it. *)
Definition store (w : World) : WorkflowsStore :=
  fst (readStore FILE DEFAULT w).

(** [`${x}`] for what may be [undefined]. *)
Definition show (o : option string) : string :=
  match o with Some s => s | None => "undefined" end.

Definition show_Z (n : Z) : string := Numeral.string_of_Z n.

(** [Object.keys(store.templates).join(", ")] *)
Definition template_names (s : WorkflowsStore) : string :=
  join_with ", " (map fst (templates s)).

(** A workflow that is there and has no time of completion. *)
Definition running (s : WorkflowsStore) : option ActiveWorkflow :=
  match active s with
  | Some a =>
      match nonempty (completed_at a) with
      | Some _ => None
      | None => Some a
      end
  | None => None
  end.

(** *** define_workflow *)

Definition define_workflow (arg_name : option string)
    (arg_steps : option (list string)) (w : World) : ToolResult * World :=
  match nonempty arg_name, arg_steps with
  | Some n, Some (d :: ds) =>
      let '(_, w1) :=
        updateStore FILE DEFAULT
          (fun s =>
             with_templates
               (set_prop n (Template.make n (d :: ds)) (templates s)) s)
          w in
      (ok ("Workflow template " +:+ quoted n +:+ " defined with " +:+
           show_Z (Z.of_nat (length (d :: ds))) +:+ " steps"), w1)
  | _, _ => (err "name and steps[] are required", w)
  end.

(** *** start_workflow *)

(** The steps of a workflow that starts: the first in progress, the
    others pending. *)
Definition fresh_steps (first : string) (rest : list string) : list Step.t :=
  Step.make first "in_progress" None None ::
  map (fun d => Step.make d "pending" None None) rest.

(** [steps.map((s, i) => `${i + 1}. ${s}`)] from the number [i]. *)
Fixpoint numbered (i : Z) (l : list string) : list string :=
  match l with
  | [] => []
  | s :: r => (show_Z (i + 1) +:+ ". " +:+ s) :: numbered (i + 1) r
  end.

(** How [start_workflow] resolves its steps: the custom ones when
    there are some, else those of the template of the name.  What is
    inherited under the name has no steps to map over. *)
Inductive resolved : Type :=
| Steps (l : list string)
| NoSteps         (** [steps] is [undefined] *)
| NoTemplate.

Definition resolve (arg_name : option string) (custom : option (list string))
    (s : WorkflowsStore) : resolved :=
  match custom with
  | Some (d :: ds) => Steps (d :: ds)
  | _ =>
      match lookup_prop (show arg_name) (templates s) with
      | Own t => Steps (Template.steps t)
      | Inherited => NoSteps
      | Absent => NoTemplate
      end
  end.

(** The dash of the messages is held as its bytes. *)
Definition start_workflow (arg_name : option string)
    (arg_steps : option (list string)) (w : World) : outcome * World :=
  let '(s, w1) := readStore FILE DEFAULT w in
  match running s with
  | Some a =>
      (Returned
         (err ("Workflow " +:+ quoted (show (name a)) +:+
               " is already active (step " +:+ show_Z (current_step a + 1) +:+
               "/" +:+ show_Z (Z.of_nat (length (steps a))) +:+
               "). Complete or advance it first.")), w1)
  | None =>
      match resolve arg_name arg_steps s with
      | NoTemplate =>
          (Returned
             (err ("No template " +:+ quoted (show arg_name) +:+
                   " found. Available: " +:+ template_names s +:+
                   ". Or provide custom steps[].")), w1)
      | NoSteps => (Thrown TypeError, w1)
      | Steps [] => (Thrown TypeError, w1)
      | Steps (d :: ds) =>
          let a := mkActive arg_name 0 (fresh_steps d ds) (nowISO w1) None in
          let '(_, w2) := updateStore FILE DEFAULT (with_active a) w1 in
          (Returned
             (ok (unlines
                    ["Workflow " +:+ quoted (show arg_name) +:+ " started:";
                     unlines (numbered 0 (d :: ds));
                     "";
                     "Current: Step 1 — " +:+ d]%string)), w2)
      end
  end.

(** *** get_workflow_status *)

Definition icon (st : string) : string :=
  if String.eqb st "completed" then "[x]"
  else if String.eqb st "in_progress" then "[>]"
  else if String.eqb st "skipped" then "[-]"
  else "[ ]".

Fixpoint status_lines (i : Z) (l : list Step.t) : list string :=
  match l with
  | [] => []
  | s :: r =>
      (icon (Step.status s) +:+ " " +:+ show_Z (i + 1) +:+ ". " +:+
       Step.description s +:+
       match nonempty (Step.notes s) with
       | Some n => " — " +:+ n
       | None => ""
       end) :: status_lines (i + 1) r
  end.

Definition completed_count (l : list Step.t) : Z :=
  Z.of_nat (length (List.filter
                      (fun s => String.eqb (Step.status s) "completed") l)).

Definition get_workflow_status (w : World) : ToolResult * World :=
  let '(s, w1) := readStore FILE DEFAULT w in
  match active s with
  | None =>
      (ok ("No active workflow. Available templates: " +:+ template_names s),
       w1)
  | Some a =>
      let total := show_Z (Z.of_nat (length (steps a))) in
      let progress :=
        match nonempty (completed_at a) with
        | Some _ => "Completed"
        | None => "Step " +:+ show_Z (current_step a + 1) +:+ "/" +:+ total
        end in
      (ok ("**" +:+ show (name a) +:+ "** — " +:+ progress +:+ " (" +:+
           show_Z (completed_count (steps a)) +:+ "/" +:+ total +:+ " done)" +:+
           String newline (String newline
             (unlines (status_lines 0 (steps a))))),
       w1)
  end.

(** *** advance_step *)

(** [{ ...s, status: "completed", notes, completed_at }] *)
Definition complete_step (arg_notes : option string) (now : string)
    (s : Step.t) : Step.t :=
  Step.make (Step.description s) "completed" arg_notes (Some now).

(** [{ ...s, status: "in_progress" }] *)
Definition begin_step (s : Step.t) : Step.t :=
  Step.make (Step.description s) "in_progress" (Step.notes s)
            (Step.completed_at s).

(** [steps[i] = f(steps[i])] for an index of the array. *)
Definition at_index (i : nat) (f : Step.t -> Step.t) (l : list Step.t)
  : list Step.t := alter f i l.

Definition advanced_reply (current n : Z) (next : string) : ToolResult :=
  ok ("Step " +:+ show_Z (current + 1) +:+ " completed. Now on step " +:+
      show_Z (current + 2) +:+ "/" +:+ show_Z n +:+ ": " +:+ next).

Definition completed_reply (a : ActiveWorkflow) (n : Z) : ToolResult :=
  ok ("Workflow " +:+ quoted (show (name a)) +:+ " completed! All " +:+
      show_Z n +:+ " steps done.").

(** The array that an assignment beyond its end leaves: the steps,
    holes that are written as [null], and what was assigned, a step
    without a description. *)
Definition sparse_steps (arg_notes : option string) (now : string)
    (current : Z) (l : list Step.t) : json :=
  JArr (map step_to_json l ++
        repeat JNull (Z.to_nat current - length l) ++
        [JObj (("status", JStr "completed") ::
               opt_member "notes" (JStr <$> arg_notes)
                 [("completed_at", JStr now)])]).

(** The numbers that index an array; an assignment under another
    number makes a property that is no element and is not written. *)
Definition is_index (i : Z) : bool :=
  ((0 <=? i) && (i <? 4294967295))%Z.

Definition advance_step (arg_notes : option string) (w : World)
  : ToolResult * World :=
  let '(s, w1) := readStore FILE DEFAULT w in
  match active s with
  | None => (err "No active workflow", w1)
  | Some a =>
      match nonempty (completed_at a) with
      | Some _ => (err "Workflow already completed", w1)
      | None =>
          let n := Z.of_nat (length (steps a)) in
          let current := current_step a in
          let now := nowISO w1 in
          if is_index current && (n <=? current)%Z then
            (* the array is extended: what is written is no store of
               the type, and is written as the object it is *)
            let '(s2, w2) := readStore FILE DEFAULT w1 in
            let a' := mkActive (name a) current (steps a) (started_at a)
                        (Some now) in
            let written :=
              store_members
                (Some (JObj (active_members
                               (sparse_steps arg_notes now current (steps a))
                               a')))
                s2 in
            (completed_reply a (current + 1), atomicWrite FILE written w2)
          else
            let done :=
              if is_index current
              then at_index (Z.to_nat current) (complete_step arg_notes now)
                     (steps a)
              else steps a in
            if (current + 1 <? n)%Z then
              let steps' :=
                if is_index (current + 1)
                then at_index (Z.to_nat (current + 1)) begin_step done
                else done in
              let next :=
                if is_index (current + 1)
                then show (Step.description <$>
                           steps' !! Z.to_nat (current + 1))
                else "undefined" in
              let a' := mkActive (name a) (current + 1) steps' (started_at a)
                          (completed_at a) in
              let '(_, w2) := updateStore FILE DEFAULT (with_active a') w1 in
              (advanced_reply current n next, w2)
            else
              let a' := mkActive (name a) current done (started_at a)
                          (Some now) in
              let '(_, w2) := updateStore FILE DEFAULT (with_active a') w1 in
              (completed_reply a n, w2)
      end
  end.

(** *** A workflow on its way *)

(** The first [k] steps are completed, the next one is in progress,
    the others are pending, and the workflow has no time of
    completion. *)
Definition on_track (k : nat) (a : ActiveWorkflow) : Prop :=
  current_step a = Z.of_nat k /\
  (exists pending,
     map Step.status (steps a)
     = repeat "completed"%string k ++
       "in_progress"%string :: repeat "pending"%string pending) /\
  nonempty (completed_at a) = None.

End Workflow.

(** ** Sample worlds *)

Module Samples.

Import JSON Storage Dispatch.

Definition bare : World :=
  mkWorld "/home/u" ∅ ∅ ∅ "2026-02-09T10:00:00.000Z" 3735928559
          (Spawned (Some 4242%Z)) [].

Definition job_id : string := "dsp_0badcafe".

Definition session : string := path_join [SESSION_BASE bare; job_id].

Definition artifact : string := path_join [session; "codex-turn-0001.md"]%string.

Definition job (st : string) (p : option Z) : DispatchTask :=
  mkTask job_id codex "say hi" (Some no_options) session artifact st p
         None None None "2026-02-09T09:00:00.000Z" None None.

(** A world whose ledger holds [rows]. *)
Definition seeded (rows : list DispatchTask) : World :=
  atomicWrite FILE (mkStore 1 rows) bare.

(** A running row, no marker, no process. *)
Definition orphan_world : World := seeded [job "running" (Some 4242%Z)].

(** The same with a marker. *)
Definition marked (m : string) : World := writeMarker session job_id m orphan_world.

(** The worker lives under another user. *)
Definition foreign_world : World :=
  with_procs {[4242%Z := Foreign]} orphan_world.

(** The marker says [completed], the artifact says hello. *)
Definition hello_world : World :=
  writeFileSync artifact "hello" (marked "completed").

(** The wrapper is installed. *)
Definition installed (w : World) : World :=
  with_files (<[WRAPPER_PATH w := "#!/bin/bash"%string]> (w_files w)) w.

Definition say_hi : DispatchArgs :=
  mkDispatchArgs (Some codex) (Some "say hi"%string) None.

Definition throwing (message : string) (w : World) : World :=
  mkWorld (w_home w) (w_files w) (w_dirs w) (w_procs w) (w_now w)
          (w_random w) (SpawnThrows message) (w_trace w).

Definition rolled (n : N) (w : World) : World :=
  mkWorld (w_home w) (w_files w) (w_dirs w) (w_procs w) (w_now w) n
          (w_spawn w) (w_trace w).

(** The fork is refused: the child has no pid. *)
Definition refused (w : World) : World :=
  mkWorld (w_home w) (w_files w) (w_dirs w) (w_procs w) (w_now w)
          (w_random w) (Spawned None) (w_trace w).

(** A file where the directory [~/.claude] is to be. *)
Definition blocked : World :=
  with_files {[path_join [w_home bare; ".claude"%string] := ""%string]} bare.

(** The session directory of the job is there. *)
Definition housed (w : World) : World :=
  with_dirs ({[session]} ∪ w_dirs w) w.

Fixpoint repeat_char (c : ascii) (n : nat) : string :=
  match n with
  | O => EmptyString
  | S n' => String c (repeat_char c n')
  end.

(** A prompt of 501 characters. *)
Definition long_prompt : string := repeat_char "x" 501.

End Samples.

(** * Properties *)

(** ** Numerals are read back *)

Module NumeralFacts.

Import Decimal Numeral.

Lemma lex_digits_emit (u : uint) (k : string) :
  no_digit_ahead k -> lex_digits (emit_uint u k) = (u, k).
Proof.
  intros Hk.
  induction u as [|u IH|u IH|u IH|u IH|u IH|u IH|u IH|u IH|u IH|u IH];
    cbn; try (rewrite IH; reflexivity).
  destruct k as [|c r]; [reflexivity|].
  cbn in Hk. unfold is_digit in Hk. cbn.
  destruct (digit_of c); [discriminate | reflexivity].
Qed.

Lemma uint_beq_refl (u : uint) : uint_beq u u = true.
Proof. now apply internal_uint_dec_lb. Qed.

Lemma unorm_pos_to_uint (p : positive) :
  unorm (Pos.to_uint p) = Pos.to_uint p.
Proof.
  change (Pos.to_uint p) with (N.to_uint (Npos p)).
  rewrite <- (Unsigned.of_to (Npos p)) at 2.
  now rewrite Unsigned.to_of.
Qed.

Lemma of_pos_to_uint (p : positive) :
  Z.of_N (N.of_uint (Pos.to_uint p)) = Zpos p.
Proof.
  change (Pos.to_uint p) with (N.to_uint (Npos p)).
  now rewrite Unsigned.of_to.
Qed.

Lemma pos_to_uint_head (p : positive) (k : string) :
  exists c r, emit_uint (Pos.to_uint p) k = String c r /\
              is_digit c = true /\ Ascii.eqb c "-" = false.
Proof.
  pose proof (unorm_pos_to_uint p) as Hn.
  destruct (Pos.to_uint p) as [|u|u|u|u|u|u|u|u|u|u] eqn:E; cbn;
    try (eexists _, _; split; [reflexivity | split; reflexivity]).
  exfalso. pose proof (of_pos_to_uint p) as H. rewrite E in H.
  cbn in H. discriminate.
Qed.

(** Reading back a printed integer gives the integer. *)
Lemma lex_int_emit (n : Z) (k : string) :
  no_digit_ahead k -> lex_int (emit_Z n k) = Some (n, k).
Proof.
  intros Hk. destruct n as [|p|p]; unfold lex_int, emit_Z.
  - cbn. destruct k as [|c r]; [reflexivity|].
    cbn in Hk. unfold is_digit in Hk. cbn.
    destruct (digit_of c); [discriminate | reflexivity].
  - destruct (pos_to_uint_head p k) as (c & r & E & _ & Hm).
    rewrite E, Hm, <- E, (lex_digits_emit _ _ Hk).
    now rewrite unorm_pos_to_uint, uint_beq_refl, of_pos_to_uint.
  - cbv beta iota. rewrite Ascii.eqb_refl, (lex_digits_emit _ _ Hk).
    now rewrite unorm_pos_to_uint, uint_beq_refl, of_pos_to_uint.
Qed.

Lemma emit_uint_length (u : Decimal.uint) (k : string) :
  String.length k <= String.length (emit_uint u k).
Proof. induction u; cbn; lia. Qed.

Lemma emit_Z_length (n : Z) (k : string) :
  String.length k < String.length (emit_Z n k).
Proof.
  destruct n as [|p|p]; cbn.
  - lia.
  - pose proof (of_pos_to_uint p) as H.
    destruct (Pos.to_uint p) as [|u|u|u|u|u|u|u|u|u|u]; cbn in *;
      try discriminate H;
      pose proof (emit_uint_length u k); lia.
  - pose proof (emit_uint_length (Pos.to_uint p) k). lia.
Qed.

End NumeralFacts.

(** ** JSON text is read back *)

Module JSONFacts.

Import JSON.

Lemma json_ind (P : json -> Prop) :
  P JNull ->
  (forall b, P (JBool b)) ->
  (forall n, P (JNum n)) ->
  (forall s, P (JStr s)) ->
  (forall xs, Forall P xs -> P (JArr xs)) ->
  (forall ms, Forall (fun m => P (snd m)) ms -> P (JObj ms)) ->
  forall v, P v.
Proof.
  intros Hnull Hbool Hnum Hstr Harr Hobj.
  fix IH 1. intros [ |b|n|s|xs|ms].
  - exact Hnull.
  - apply Hbool.
  - apply Hnum.
  - apply Hstr.
  - apply Harr. induction xs as [|x xs IHxs]; constructor; [apply IH | exact IHxs].
  - apply Hobj. induction ms as [|m ms IHms]; constructor; [apply IH | exact IHms].
Qed.

Lemma lex_string_emit_char (c : ascii) (k : string) :
  lex_string (emit_char c k) = push_char c (lex_string k).
Proof.
  destruct c as [[] [] [] [] [] [] [] []]; reflexivity.
Qed.

Lemma lex_string_emit_chars (s k : string) :
  lex_string (emit_chars s (String dquote k)) = Some (s, k).
Proof.
  induction s as [|c s IH]; [reflexivity|].
  cbn [emit_chars]. now rewrite lex_string_emit_char, IH.
Qed.

Lemma skip_ws_indent (n : nat) (k : string) :
  skip_ws (emit_indent n k) = skip_ws k.
Proof. induction n as [|n IH]; [reflexivity | exact IH]. Qed.

Lemma skip_ws_break (n : nat) (k : string) :
  skip_ws (emit_break n k) = skip_ws k.
Proof. apply skip_ws_indent. Qed.

Lemma parse_value_break (f n : nat) (s : string) :
  parse_value f (emit_break n s) = parse_value f s.
Proof. destruct f; [reflexivity|]. cbn [parse_value]. now rewrite skip_ws_break. Qed.

Lemma parse_elems_break (f n : nat) (s : string) :
  parse_elems f (emit_break n s) = parse_elems f s.
Proof. destruct f; [reflexivity|]. cbn [parse_elems]. now rewrite parse_value_break. Qed.

Lemma parse_members_break (f n : nat) (s : string) :
  parse_members f (emit_break n s) = parse_members f s.
Proof. destruct f; [reflexivity|]. cbn [parse_members]. now rewrite skip_ws_break. Qed.

Lemma digit_not_special (c : ascii) :
  Numeral.is_digit c = true ->
  is_json_ws c = false /\ Ascii.eqb c "]" = false /\ Ascii.eqb c "}" = false.
Proof.
  destruct c as [[] [] [] [] [] [] [] []]; cbn; intros H;
    try discriminate H; repeat split.
Qed.

Lemma emit_value_ahead (ind : nat) (v : json) (k : string) :
  value_ahead (emit ind v k).
Proof.
  destruct v as [ |[]|n|s|[|x xs]|[|m ms]]; cbn; try (repeat split; fail).
  destruct n as [|p|p]; cbn; try (repeat split; fail).
  destruct (NumeralFacts.pos_to_uint_head p k) as (c & r & E & Hd & _).
  rewrite E. now apply digit_not_special.
Qed.

Lemma skip_ws_value (s : string) : value_ahead s -> skip_ws s = s.
Proof. destruct s as [|c r]; [intros []|]. intros (H & _). cbn. now rewrite H. Qed.

Lemma parse_value_num (f : nat) (n : Z) (k : string) :
  Numeral.no_digit_ahead k ->
  parse_value (S f) (Numeral.emit_Z n k) = Some (JNum n, k).
Proof.
  intros Hk. pose proof (NumeralFacts.lex_int_emit n k Hk) as Hlex.
  assert (exists c r, Numeral.emit_Z n k = String c r /\
            is_json_ws c = false /\
            (Numeral.is_digit c || Ascii.eqb c "-") = true)
    as (c & r & E & Hws & Hd).
  { destruct n as [|p|p]; cbn.
    - eexists _, _; repeat split.
    - destruct (NumeralFacts.pos_to_uint_head p k) as (c & r & E & Hd & _).
      exists c, r. split; [exact E|]. split.
      + now apply digit_not_special.
      + now rewrite Hd.
    - eexists _, _; repeat split. }
  rewrite E in *. cbn [parse_value skip_ws]. now rewrite Hws, Hd, Hlex.
Qed.

Lemma items_no_digit emit_elem ind xs k :
  Numeral.no_digit_ahead (emit_items emit_elem ind xs k).
Proof. destruct xs; reflexivity. Qed.

Lemma members_no_digit emit_elem ind ms k :
  Numeral.no_digit_ahead (emit_members emit_elem ind ms k).
Proof. destruct ms; reflexivity. Qed.

Lemma skip_ws_keep (c : ascii) (r : string) :
  is_json_ws c = false -> skip_ws (String c r) = String c r.
Proof. intros H. cbn [skip_ws]. now rewrite H. Qed.

Ltac step_char :=
  rewrite skip_ws_keep by reflexivity; cbv beta iota;
  repeat match goal with
    | |- context [Numeral.is_digit (Ascii ?a ?b ?c ?d ?e ?f ?g ?h)] =>
        first [ change (Numeral.is_digit (Ascii a b c d e f g h)) with false
              | change (Numeral.is_digit (Ascii a b c d e f g h)) with true ]
    | |- context [Ascii.eqb ?a ?b] =>
        first [ change (Ascii.eqb a b) with true
              | change (Ascii.eqb a b) with false ]
    end;
  cbn [orb]; cbv beta iota.

Lemma parse_elems_items (xs : list json) :
  Forall reads_back xs ->
  forall x ind k fuel,
    reads_back x -> wf x = true -> forallb wf xs = true ->
    list_sum (map (fun y => S (sz y)) (x :: xs)) <= fuel ->
    parse_elems fuel
      (emit (S (S ind)) x (emit_items (emit (S (S ind))) ind xs k))
    = Some (x :: xs, k).
Proof.
  induction 1 as [|y ys Hy Hys IH]; intros x ind k fuel Hx Wx Wxs Hfuel;
    simpl in Hfuel;
    (destruct fuel as [|f]; [lia|]); cbn [parse_elems].
  - rewrite (Hx _ _ f Wx) by (lia || reflexivity).
    cbn [emit_items]. rewrite skip_ws_break. now step_char.
  - cbn [forallb] in Wxs. apply andb_prop in Wxs as [Wy Wys].
    rewrite (Hx _ _ f Wx) by (lia || reflexivity).
    cbn [emit_items]. step_char.
    rewrite parse_elems_break, (IH y ind k f Hy Wy Wys); [reflexivity|].
    simpl. lia.
Qed.

Lemma distinct_not_in (k : string) (l : list string) :
  existsb (String.eqb k) l = false -> ~ In k l.
Proof.
  induction l as [|a l IH]; cbn; [tauto|].
  intros H. apply orb_false_elim in H as [Ha Hl].
  intros [->|Hin]; [|now apply IH].
  now rewrite String.eqb_refl in Ha.
Qed.

Lemma set_field_fresh (k : string) (v : json) (acc : list (string * json)) :
  ~ In k (keys acc) -> set_field k v acc = acc ++ [(k, v)].
Proof.
  induction acc as [|[k' v'] acc IH]; cbn; [reflexivity|].
  intros Hn. destruct (String.eqb_spec k' k) as [->|Hne]; [tauto|].
  rewrite IH; tauto.
Qed.

Lemma mk_object_from (ms acc : list (string * json)) :
  distinct (keys (acc ++ ms)) = true ->
  fold_left (fun a m => set_field (fst m) (snd m) a) ms acc = acc ++ ms.
Proof.
  revert acc. induction ms as [|[k v] ms IH]; intros acc Hd; cbn.
  - now rewrite app_nil_r.
  - replace (acc ++ (k, v) :: ms) with ((acc ++ [(k, v)]) ++ ms) in *
      by now rewrite <- app_assoc.
    rewrite set_field_fresh; [now apply IH|].
    clear IH. unfold keys in *. rewrite !map_app in Hd. cbn in Hd.
    induction acc as [|[k' v'] acc IHa]; cbn in *; [tauto|].
    apply andb_prop in Hd as [Hk' Hd]. intros [->|Hin]; [|now apply IHa].
    apply negb_true_iff, distinct_not_in in Hk'. apply Hk'.
    rewrite <- app_assoc. apply in_or_app. right. now left.
Qed.

Lemma mk_object_distinct (ms : list (string * json)) :
  distinct (keys ms) = true -> mk_object ms = ms.
Proof. intros H. now apply (mk_object_from ms []). Qed.

Lemma parse_value_space (f : nat) (s : string) :
  parse_value f (String " " s) = parse_value f s.
Proof. destruct f; reflexivity. Qed.

Lemma parse_members_members (ms : list (string * json)) :
  Forall (fun m => reads_back (snd m)) ms ->
  forall m ind k fuel,
    reads_back (snd m) -> wf (snd m) = true ->
    forallb (fun m => wf (snd m)) ms = true ->
    list_sum (map (fun y => S (sz (snd y))) (m :: ms)) <= fuel ->
    parse_members fuel
      (emit_member (emit (S (S ind))) m
         (emit_members (emit (S (S ind))) ind ms k))
    = Some (m :: ms, k).
Proof.
  induction 1 as [|y ys Hy Hys IH]; intros [key x] ind k fuel Hx Wx Wxs Hfuel;
    simpl in Hfuel, Hx, Wx;
    (destruct fuel as [|f]; [lia|]); cbn [parse_members];
    unfold emit_member at 1; cbn [fst snd]; unfold emit_string;
    step_char; rewrite lex_string_emit_chars; step_char.
  - rewrite parse_value_space, (Hx _ _ f Wx) by (lia || reflexivity).
    cbn [emit_members]. rewrite skip_ws_break. now step_char.
  - cbn [forallb] in Wxs. apply andb_prop in Wxs as [Wy Wys].
    rewrite parse_value_space, (Hx _ _ f Wx) by (lia || reflexivity).
    cbn [emit_members]. step_char.
    rewrite parse_members_break, (IH y ind k f Hy Wy Wys); [reflexivity|].
    simpl. lia.
Qed.

Lemma wf_members_keys (ms : list (string * json)) :
  wf (JObj ms) = true ->
  distinct (keys ms) = true /\ forallb (fun m => wf (snd m)) ms = true.
Proof. cbn [wf]. intros H. now apply andb_prop in H. Qed.

(** Every well-formed value is read back from its text. *)
Lemma reads_back_all (v : json) : reads_back v.
Proof.
  induction v as [ |b|n|s|xs IH|ms IH] using json_ind;
    intros ind k fuel W Hfuel Hk;
    (destruct fuel as [|f]; [cbn in Hfuel; lia|]).
  - reflexivity.
  - destruct b; reflexivity.
  - now apply parse_value_num.
  - cbn [emit parse_value]. unfold emit_string. step_char.
    now rewrite lex_string_emit_chars.
  - destruct xs as [|x xs]; [reflexivity|].
    cbn [emit parse_value]. step_char.
    rewrite skip_ws_break.
    pose proof (emit_value_ahead (S (S ind)) x
                  (emit_items (emit (S (S ind))) ind xs k)) as Hv.
    rewrite (skip_ws_value _ Hv).
    destruct (emit (S (S ind)) x _) as [|c r] eqn:E; [destruct Hv|].
    destruct Hv as (_ & -> & _). rewrite <- E.
    cbn [wf forallb] in W. apply andb_prop in W as [Wx Wxs].
    inversion IH as [|? ? Hx Hxs]; subst.
    rewrite parse_elems_break, (parse_elems_items xs Hxs x ind k f Hx Wx Wxs);
      [reflexivity|].
    cbn [sz] in Hfuel. lia.
  - destruct ms as [|m ms]; [reflexivity|].
    apply wf_members_keys in W as [Wk W].
    cbn [emit parse_value]. step_char.
    rewrite skip_ws_break. unfold emit_member at 1, emit_string at 1.
    step_char. fold (emit_string (fst m)
      (String ":" (String " " (emit (S (S ind)) (snd m)
         (emit_members (emit (S (S ind))) ind ms k))))).
    fold (emit_member (emit (S (S ind))) m
            (emit_members (emit (S (S ind))) ind ms k)).
    cbn [forallb] in W. apply andb_prop in W as [Wx Wxs].
    inversion IH as [|? ? Hx Hxs]; subst.
    rewrite parse_members_break,
      (parse_members_members ms Hxs m ind k f Hx Wx Wxs).
    + now rewrite mk_object_distinct.
    + cbn [sz] in Hfuel. lia.
Qed.

Lemma emit_indent_length (n : nat) (k : string) :
  String.length (emit_indent n k) = n + String.length k.
Proof. induction n as [|n IH]; cbn; [reflexivity | now rewrite IH]. Qed.

Lemma emit_break_length (n : nat) (k : string) :
  String.length (emit_break n k) = S (n + String.length k).
Proof. unfold emit_break. cbn. now rewrite emit_indent_length. Qed.

Lemma emit_char_length (c : ascii) (k : string) :
  String.length k < String.length (emit_char c k).
Proof.
  destruct c as [[] [] [] [] [] [] [] []];
    match goal with
    | |- context [emit_char ?c k] =>
        let t := eval cbv in (emit_char c k) in change (emit_char c k) with t
    end; cbn [String.length]; lia.
Qed.

Lemma emit_chars_length (s k : string) :
  String.length k <= String.length (emit_chars s k).
Proof.
  induction s as [|c s IH]; cbn [emit_chars]; [lia|].
  pose proof (emit_char_length c (emit_chars s k)). lia.
Qed.

Lemma emit_string_length (s k : string) :
  2 + String.length k <= String.length (emit_string s k).
Proof.
  unfold emit_string. cbn [String.length].
  pose proof (emit_chars_length s (String dquote k)) as H.
  cbn [String.length] in H. lia.
Qed.

Lemma list_sum_cons (a : nat) (l : list nat) :
  list_sum (a :: l) = a + list_sum l.
Proof. reflexivity. Qed.

Lemma emit_length (v : json) :
  forall ind k, sz v + String.length k <= String.length (emit ind v k).
Proof.
  induction v as [ |b|n|s|xs IH|ms IH] using json_ind; intros ind k.
  - cbn. lia.
  - destruct b; cbn; lia.
  - cbn [emit sz]. pose proof (NumeralFacts.emit_Z_length n k). lia.
  - cbn [emit sz]. pose proof (emit_string_length s k). lia.
  - destruct xs as [|x xs]; [cbn; lia|].
    inversion IH as [|? ? Hx Hxs]; subst.
    cbn [emit String.length]. rewrite emit_break_length.
    specialize (Hx (S (S ind)) (emit_items (emit (S (S ind))) ind xs k)).
    assert (list_sum (map (fun y => S (sz y)) xs) + String.length k
            <= String.length (emit_items (emit (S (S ind))) ind xs k)) as Hit.
    { clear Hx IH. induction Hxs as [|y ys Hy Hys IHys];
        cbn [emit_items String.length]; rewrite emit_break_length.
      - cbn. lia.
      - specialize (Hy (S (S ind)) (emit_items (emit (S (S ind))) ind ys k)).
        cbn [map]. rewrite list_sum_cons. lia. }
    change (sz (JArr (x :: xs))) with
      (S (S (sz x) + list_sum (map (fun y => S (sz y)) xs))). lia.
  - destruct ms as [|m ms]; [cbn; lia|].
    inversion IH as [|? ? Hx Hxs]; subst.
    cbn [emit String.length]. rewrite emit_break_length.
    unfold emit_member at 1.
    pose proof (emit_string_length (fst m)
      (String ":" (String " " (emit (S (S ind)) (snd m)
         (emit_members (emit (S (S ind))) ind ms k))))) as Hs.
    cbn [String.length] in Hs.
    specialize (Hx (S (S ind)) (emit_members (emit (S (S ind))) ind ms k)).
    assert (list_sum (map (fun y => S (sz (snd y))) ms) + String.length k
            <= String.length (emit_members (emit (S (S ind))) ind ms k)) as Hit.
    { clear Hx Hs IH. induction Hxs as [|y ys Hy Hys IHys];
        cbn [emit_members String.length]; rewrite emit_break_length.
      - cbn. lia.
      - unfold emit_member at 1.
        pose proof (emit_string_length (fst y)
          (String ":" (String " " (emit (S (S ind)) (snd y)
             (emit_members (emit (S (S ind))) ind ys k))))) as Hs.
        cbn [String.length] in Hs.
        specialize (Hy (S (S ind)) (emit_members (emit (S (S ind))) ind ys k)).
        cbn [map]. rewrite list_sum_cons. lia. }
    change (sz (JObj (m :: ms))) with
      (S (S (sz (snd m)) + list_sum (map (fun y => S (sz (snd y))) ms))). lia.
Qed.

(** [JSON.parse(JSON.stringify(v, null, 2))] is [v]. *)
Theorem parse_stringify (v : json) :
  wf v = true -> parse (stringify v) = Some v.
Proof.
  intros W. unfold parse, stringify.
  rewrite (reads_back_all v 0 EmptyString _ W); [reflexivity| |exact I].
  pose proof (emit_length v 0 EmptyString). lia.
Qed.

End JSONFacts.

(** ** The durable store *)

Module StorageFacts.

Import JSON Storage.

Lemma ensureStorageDir_files (w : World) :
  w_files (ensureStorageDir w) = w_files w.
Proof. unfold ensureStorageDir. now destruct (negb _). Qed.

Lemma ensureStorageDir_home (w : World) :
  w_home (ensureStorageDir w) = w_home w.
Proof. unfold ensureStorageDir. now destruct (negb _). Qed.

Lemma ensureStorageDir_procs (w : World) :
  w_procs (ensureStorageDir w) = w_procs w.
Proof. unfold ensureStorageDir. now destruct (negb _). Qed.

Lemma ensureStorageDir_now (w : World) :
  w_now (ensureStorageDir w) = w_now w.
Proof. unfold ensureStorageDir. now destruct (negb _). Qed.

Lemma storagePath_ensure (n : string) (w : World) :
  storagePath n (ensureStorageDir w) = storagePath n w.
Proof.
  unfold storagePath, STORAGE_DIR. now rewrite ensureStorageDir_home.
Qed.

Lemma readStore_snd {T} `{Document T} (n : string) (d : T) (w : World) :
  snd (readStore n d w) = ensureStorageDir w.
Proof.
  unfold readStore. destruct (negb _); [reflexivity|].
  now destruct (read_parsed _ _ _).
Qed.

(** [readStore] depends on the content of the backing file only. *)
Lemma readStore_fst {T} `{Document T} (n : string) (d : T) (w : World) :
  fst (readStore n d w) = load d (w_files w !! storagePath n w).
Proof.
  unfold readStore, read_parsed, readFileSync, existsSync.
  rewrite storagePath_ensure, ensureStorageDir_files.
  destruct (w_files w !! storagePath n w) as [raw|]; cbn.
  - destruct (parse raw) as [[ | | | | |ms]|]; try reflexivity.
    now destruct (of_json _).
  - now destruct (bool_decide _).
Qed.

Lemma atomicWrite_target {T} `{Document T} (n : string) (t : T) (w : World) :
  w_files (atomicWrite n t w) !! storagePath n w
  = Some (stringify (JObj (to_json t))).
Proof.
  unfold atomicWrite, renameSync, fsync, writeFileSync.
  rewrite storagePath_ensure. cbn.
  rewrite lookup_insert_eq. cbn. now rewrite lookup_insert_eq.
Qed.

Lemma atomicWrite_home {T} `{Document T} (n : string) (t : T) (w : World) :
  w_home (atomicWrite n t w) = w_home w.
Proof.
  unfold atomicWrite, renameSync, fsync, writeFileSync.
  rewrite storagePath_ensure. cbn.
  rewrite lookup_insert_eq. cbn. apply ensureStorageDir_home.
Qed.

(** Reading after a write returns what was written, once its schema
    version is accepted. *)
Lemma read_after_write {T} `{Document T} (n : string) (d t : T) (w : World) :
  wf (JObj (to_json t)) = true ->
  fst (readStore n d (atomicWrite n t w))
  = match of_json (accept_version
              (get_field "schema_version" (to_json d)) (to_json t)) with
    | Some parsed => parsed
    | None => d
    end.
Proof.
  intros W. rewrite readStore_fst. unfold storagePath, STORAGE_DIR.
  rewrite atomicWrite_home.
  change (path_join [path_join [w_home w; ".claude"; "orchestrator"]%string; n])
    with (storagePath n w).
  rewrite atomicWrite_target. cbn [load].
  now rewrite (JSONFacts.parse_stringify _ W).
Qed.

Lemma get_set_other (k k' : string) (v : json) (ms : list (string * json)) :
  k <> k' -> get_field k (set_field k' v ms) = get_field k ms.
Proof.
  intros Hne. induction ms as [|[a x] ms IH]; cbn.
  - destruct (String.eqb_spec k' k); [congruence | reflexivity].
  - destruct (String.eqb_spec a k') as [->|Ha]; cbn.
    + destruct (String.eqb_spec k' k); [congruence | reflexivity].
    + now rewrite IH.
Qed.

Lemma get_remove_other (k k' : string) (ms : list (string * json)) :
  k <> k' -> get_field k (remove_field k' ms) = get_field k ms.
Proof.
  intros Hne. induction ms as [|[a x] ms IH]; cbn; [reflexivity|].
  destruct (String.eqb_spec a k') as [->|Ha]; cbn.
  - destruct (String.eqb_spec k' k); [congruence | exact IH].
  - now rewrite IH.
Qed.

(** The version check touches no other field. *)
Lemma accept_version_other (k : string) (expected : option json)
    (ms : list (string * json)) :
  k <> "schema_version"%string ->
  get_field k (accept_version expected ms) = get_field k ms.
Proof.
  intros Hne. unfold accept_version, assign_field.
  destruct (strict_neq _ _); [|reflexivity].
  destruct expected; [now apply get_set_other | now apply get_remove_other].
Qed.

(** C8. A document written by [atomicWrite] is read back by
    [readStore] under the same name: what is read is the document
    after the version check, which leaves every field other than
    [schema_version] as it was, and the document itself when its
    version is the expected one. *)
Theorem write_then_read (filename : string)
    (doc defaultValue : list (string * json)) (w : World)
    (Hwf : wf (JObj doc) = true) :
  fst (readStore filename defaultValue (atomicWrite filename doc w))
    = accept_version (get_field "schema_version" defaultValue) doc /\
  (forall k, k <> "schema_version"%string ->
     get_field k
       (fst (readStore filename defaultValue (atomicWrite filename doc w)))
     = get_field k doc) /\
  (strict_neq (get_field "schema_version" doc)
              (get_field "schema_version" defaultValue) = false ->
   fst (readStore filename defaultValue (atomicWrite filename doc w)) = doc).
Proof.
  rewrite (@read_after_write _ object_document filename defaultValue doc w Hwf).
  cbn.
  split; [reflexivity|]. split.
  - intros k Hk. now apply accept_version_other.
  - intros Hv. unfold accept_version. now rewrite Hv.
Qed.

(** A context store of version 0 comes back with version 1 and its
    entries. *)
Lemma write_then_read_witness :
  fst (readStore "context.json"
         [("schema_version", JNum 1); ("entries", JObj [])]%string
         (atomicWrite "context.json"
            [("schema_version", JNum 0);
             ("entries", JObj [("goal", JObj [("value", JStr "ship");
                                              ("set_at", JStr "now")])])]%string
            Samples.bare))
  = [("schema_version", JNum 1);
     ("entries", JObj [("goal", JObj [("value", JStr "ship");
                                      ("set_at", JStr "now")])])]%string.
Proof.
  refine (proj1 (write_then_read "context.json" _ _ Samples.bare _)).
  vm_compute. reflexivity.
Defined.

End StorageFacts.

(** ** The ledger *)

Module LedgerFacts.

Import JSON Storage Dispatch StorageFacts.

Lemma options_round_trip (o : Options) :
  options_of_json (options_to_json o) = Some o.
Proof. destruct o as [[y|] [t|] [d|] [f|]]; reflexivity. Qed.

Lemma options_wf (o : Options) : wf (options_to_json o) = true.
Proof. destruct o as [[y|] [t|] [d|] [f|]]; reflexivity. Qed.

Lemma model_round_trip (m : Model) : model_of_name (model_name m) = Some m.
Proof. now destruct m. Qed.

Ltac task_cases t :=
  destruct t as [i m p o sd ofile st pi ec du ou ca co er];
  unfold task_to_json, task_members, task_of_json;
  cbn [id model prompt options session_dir output_file status pid exit_code
       duration_s output created_at completed_at error];
  destruct o as [o|], pi as [pi|], ec as [ec|], du as [du|], ou as [ou|],
    co as [co|], er as [er|].

Lemma task_round_trip (t : DispatchTask) :
  task_of_json (task_to_json t) = Some t.
Proof.
  task_cases t;
    cbn -[options_of_json options_to_json model_of_name model_name];
    rewrite ?options_round_trip, ?model_round_trip; reflexivity.
Qed.

Lemma task_wf (t : DispatchTask) : wf (task_to_json t) = true.
Proof.
  task_cases t; cbn -[options_to_json]; rewrite ?options_wf; reflexivity.
Qed.

Lemma tasks_round_trip (l : list DispatchTask) :
  tasks_of_json (map task_to_json l) = Some l.
Proof.
  induction l as [|t l IH]; [reflexivity|].
  cbn [map tasks_of_json]. rewrite task_round_trip. cbn. rewrite IH.
  reflexivity.
Qed.

Lemma store_round_trip (s : DispatchesStore) :
  store_of_json (store_to_json s) = Some s.
Proof.
  destruct s as [v ts]. unfold store_of_json, store_to_json. cbn.
  now rewrite tasks_round_trip.
Qed.

Lemma store_wf (s : DispatchesStore) : wf (JObj (store_to_json s)) = true.
Proof.
  destruct s as [v ts]. cbn. rewrite andb_true_r.
  induction ts as [|t ts IH]; [reflexivity|].
  cbn [map forallb]. now rewrite task_wf, IH.
Qed.

(** A store of version 1 passes the version check unchanged. *)
Lemma accept_store (s : DispatchesStore) :
  schema_version s = 1%Z ->
  accept_version (get_field "schema_version" (to_json DEFAULT)) (to_json s)
  = to_json s.
Proof. destruct s as [v ts]. cbn. now intros ->. Qed.

Lemma get_set_field (k : string) (v : json) (ms : list (string * json)) :
  get_field k (set_field k v ms) = Some v.
Proof.
  induction ms as [|[k' v'] ms IH]; cbn.
  - now rewrite String.eqb_refl.
  - destruct (String.eqb k' k) eqn:E; cbn; now rewrite E.
Qed.

Lemma accepted_version (n : Z) (ms : list (string * json)) :
  get_field "schema_version" (accept_version (Some (JNum n)) ms)
  = Some (JNum n).
Proof.
  unfold accept_version.
  destruct (strict_neq _ _) eqn:E; [apply get_set_field|].
  destruct (get_field "schema_version" ms) as [[ | |x| | | ]|];
    try discriminate E.
  cbn in E. apply negb_false_iff, Z.eqb_eq in E. now subst.
Qed.

(** Whatever the file holds, the handlers see a store of version 1. *)
Lemma ledger_version (w : World) : schema_version (ledger w) = 1%Z.
Proof.
  unfold ledger. rewrite readStore_fst. unfold load.
  destruct (w_files w !! _) as [raw|]; [|reflexivity].
  destruct (parse raw) as [[ | | | | |ms]|]; try reflexivity.
  destruct (of_json _) as [s|] eqn:E; [|reflexivity].
  cbn in E. unfold store_of_json, required in E.
  change (get_field "schema_version" (store_to_json DEFAULT))
    with (Some (JNum 1)) in E.
  rewrite accepted_version in E. cbn in E.
  destruct (get_field "tasks" _) as [[ | | | |l| ]|]; try discriminate E.
  destruct (tasks_of_json l); cbn in E; [|discriminate E].
  now injection E as <-.
Qed.

(** The ledger is a function of the home directory and of one file. *)
Lemma ledger_depends (w w' : World) :
  w_home w' = w_home w ->
  w_files w' !! storagePath FILE w = w_files w !! storagePath FILE w ->
  ledger w' = ledger w.
Proof.
  intros Hh Hf. unfold ledger. rewrite !readStore_fst.
  replace (storagePath FILE w') with (storagePath FILE w).
  - now rewrite Hf.
  - unfold storagePath, STORAGE_DIR. now rewrite Hh.
Qed.

Lemma ledger_ensure (w : World) : ledger (ensureStorageDir w) = ledger w.
Proof.
  apply ledger_depends;
    [apply ensureStorageDir_home | now rewrite ensureStorageDir_files].
Qed.

(** [updateStore] on the ledger applies the updater to what is read. *)
Lemma ledger_update (f : DispatchesStore -> DispatchesStore) (w : World) :
  schema_version (f (ledger w)) = 1%Z ->
  ledger (snd (updateStore FILE DEFAULT f w)) = f (ledger w).
Proof.
  intros Hv. unfold updateStore.
  pose proof (readStore_snd FILE DEFAULT w) as Hs.
  destruct (readStore FILE DEFAULT w) as [current w1] eqn:E.
  assert (current = ledger w) as -> by (unfold ledger; now rewrite E).
  cbn [snd] in *. unfold ledger at 1.
  rewrite read_after_write by apply store_wf.
  now rewrite (accept_store _ Hv), store_round_trip.
Qed.

End LedgerFacts.

(** ** Startup recovery and reconciliation *)

Module DispatchFacts.

Import JSON Storage Dispatch StorageFacts LedgerFacts.

Lemma readMarker_files (sd i : string) (w : World) :
  readMarker sd i w = trim <$> w_files w !! markerPath sd i.
Proof.
  unfold readMarker, existsSync, readFileSync.
  destruct (w_files w !! markerPath sd i); cbn; [reflexivity|].
  now destruct (bool_decide _).
Qed.

Lemma readOutputFile_files (p : string) (w w' : World) :
  w_files w' = w_files w -> readOutputFile p w' = readOutputFile p w.
Proof.
  intros Hf. unfold readOutputFile, existsSync, readFileSync. rewrite Hf.
  destruct (w_files w !! p); cbn; [reflexivity|].
  now destruct (bool_decide _), (bool_decide _).
Qed.

(** A row is recovered from the files, the process table and the
    clock. *)
Lemma recover_task_ext (w w' : World) (t : DispatchTask) :
  w_files w' = w_files w -> w_procs w' = w_procs w -> w_now w' = w_now w ->
  recover_task w' t = recover_task w t.
Proof.
  intros Hf Hp Hn. unfold recover_task, pid_alive, isProcessAlive, kill0, nowISO.
  rewrite !readMarker_files, Hf, Hp, Hn.
  now rewrite !(readOutputFile_files _ w w' Hf).
Qed.

Lemma recover_task_settled (w : World) (t : DispatchTask) :
  is_active (status t) = false -> recover_task w t = t.
Proof.
  unfold is_active, recover_task. intros H.
  apply orb_false_elim in H as [-> ->]. reflexivity.
Qed.

(** The scan maps [recover_task] over the rows of the ledger. *)
Lemma ledger_after_recovery (w : World) :
  tasks (ledger (recoverOrphanedTasks w))
  = map (recover_task w) (tasks (ledger w)).
Proof.
  unfold recoverOrphanedTasks.
  pose proof (readStore_snd FILE DEFAULT w) as Hs.
  destruct (readStore FILE DEFAULT w) as [store w1] eqn:E.
  assert (store = ledger w) as -> by (unfold ledger; now rewrite E).
  cbn [snd] in Hs. subst w1.
  destruct (length _ =? 0)%nat eqn:Hlen.
  - rewrite ledger_ensure. apply Nat.eqb_eq, length_zero_iff_nil in Hlen.
    symmetry. erewrite map_ext_in; [apply map_id|].
    intros t Hin. apply recover_task_settled.
    destruct (is_active (status t)) eqn:Ha; [|reflexivity].
    assert (In t (List.filter (fun t => is_active (status t))
                    (tasks (ledger w)))) as Hf
      by (apply filter_In; split; assumption).
    rewrite Hlen in Hf. destruct Hf.
  - rewrite ledger_update by apply ledger_version.
    rewrite ledger_ensure. cbn [with_tasks tasks].
    apply map_ext. intros t. apply recover_task_ext.
    + apply ensureStorageDir_files.
    + apply ensureStorageDir_procs.
    + apply ensureStorageDir_now.
Qed.

Lemma terminal_not_active (st : string) :
  is_terminal st = true -> is_active st = false.
Proof.
  unfold is_terminal, is_active. intros H.
  repeat (apply orb_prop in H as [H|H]);
    apply String.eqb_eq in H; subst; reflexivity.
Qed.

Lemma unsettled_marker (o : option string) :
  (forall m, o = Some m -> is_terminal m = false) -> settled_marker o = None.
Proof.
  intros H. destruct o as [m|]; [|reflexivity]. cbn.
  specialize (H m eq_refl). unfold is_terminal in H.
  apply orb_false_elim in H as [H _]. apply orb_false_elim in H as [H _].
  now rewrite H.
Qed.

Lemma pid_alive_process (t : DispatchTask) (w : World) :
  pid_alive t w = true ->
  exists p, pid t = Some p /\ p <> 0%Z /\ w_procs w !! p = Some Signalable.
Proof.
  unfold pid_alive, isProcessAlive, kill0.
  destruct (pid t) as [p|]; [|discriminate].
  intros H. apply andb_prop in H as [Hz Ha]. exists p.
  split; [reflexivity|]. split.
  - now apply negb_true_iff, Z.eqb_neq in Hz.
  - now destruct (w_procs w !! p) as [[]|].
Qed.

Lemma pid_dead_process (t : DispatchTask) (w : World) :
  (forall p, pid t = Some p -> ~ process_exists p w) -> pid_alive t w = false.
Proof.
  unfold pid_alive, isProcessAlive, kill0, process_exists. intros H.
  destruct (pid t) as [p|]; [|reflexivity].
  specialize (H p eq_refl).
  destruct (w_procs w !! p) as [st|]; [|apply andb_false_r].
  exfalso. apply H. now exists st.
Qed.

(** C1. Startup recovery fails every orphan: a row in status [running]
    or [created] whose marker holds no terminal value and whose pid
    denotes no process becomes [failed], with the error "Orphaned task
    recovered on startup (process not alive)", the orphaned error of
    the specification up to the case of its first letter; and a row
    that is still [running] or [created] after the scan has a pid
    whose process answered the probe. *)
Theorem recovery_fails_orphans (w : World) (i : nat) (t : DispatchTask)
    (Hrow : tasks (ledger w) !! i = Some t)
    (Hactive : is_active (status t) = true)
    (Hmarker : forall m, readMarker (session_dir t) (id t) w = Some m ->
                         is_terminal m = false)
    (Hdead : forall p, pid t = Some p -> ~ process_exists p w) :
  (exists t',
     tasks (ledger (recoverOrphanedTasks w)) !! i = Some t' /\
     status t' = "failed"%string /\
     error t' = Some orphan_error /\
     includes "orphaned" (toLowerCase orphan_error) = true /\
     completed_at t' = Some (nowISO w) /\
     id t' = id t /\ pid t' = pid t) /\
  (forall j t',
     tasks (ledger (recoverOrphanedTasks w)) !! j = Some t' ->
     is_active (status t') = true ->
     exists p, pid t' = Some p /\ kill0 p w = inr tt /\ process_exists p w).
Proof.
  rewrite ledger_after_recovery. split.
  - rewrite list_lookup_fmap, Hrow. cbn [fmap option_fmap option_map].
    eexists. split; [reflexivity|].
    unfold recover_task.
    rewrite (unsettled_marker _ Hmarker), (pid_dead_process _ _ Hdead).
    unfold is_active in Hactive.
    destruct (String.eqb (status t) "running"),
             (String.eqb (status t) "created");
      try discriminate Hactive; cbn; repeat split; reflexivity.
  - intros j t' Hj Ha. rewrite list_lookup_fmap in Hj.
    destruct (tasks (ledger w) !! j) as [u|]; [|discriminate Hj].
    cbn in Hj. injection Hj as <-.
    unfold recover_task in *.
    destruct (negb (String.eqb (status u) "running") &&
              negb (String.eqb (status u) "created")) eqn:Hu.
    + unfold is_active in Ha. apply andb_prop in Hu as [H1 H2].
      apply negb_true_iff in H1, H2. now rewrite H1, H2 in Ha.
    + destruct (settled_marker _) as [m|] eqn:Hm.
      * cbn [status] in Ha. revert Hm. unfold settled_marker.
        destruct (readMarker (session_dir u) (id u) w) as [m'|];
          [|discriminate].
        destruct (String.eqb m' "completed" || String.eqb m' "failed") eqn:Ht;
          [|discriminate].
        intros [= <-].
        assert (is_terminal m' = true) as Hterm
          by (unfold is_terminal; now rewrite Ht).
        now rewrite (terminal_not_active _ Hterm) in Ha.
      * destruct (pid_alive u w) eqn:Hp; [|cbn in Ha; discriminate Ha].
        destruct (pid_alive_process _ _ Hp) as (p & Hpid & _ & Hproc).
        exists p. split; [exact Hpid|]. unfold kill0, process_exists.
        rewrite Hproc. split; [reflexivity | now eexists].
Qed.

(** One running row, no marker, no process 4242. *)
Lemma recovery_fails_orphans_witness :
  exists t',
    tasks (ledger (recoverOrphanedTasks Samples.orphan_world)) !! 0%nat
      = Some t' /\
    status t' = "failed"%string /\
    error t' = Some orphan_error /\
    includes "orphaned" (toLowerCase orphan_error) = true /\
    completed_at t' = Some (nowISO Samples.orphan_world) /\
    id t' = Samples.job_id /\ pid t' = Some 4242%Z.
Proof.
  refine (proj1 (recovery_fails_orphans Samples.orphan_world 0
                   (Samples.job "running" (Some 4242%Z)) _ _ _ _)).
  - vm_compute. reflexivity.
  - vm_compute. reflexivity.
  - intros m H.
    assert (readMarker (session_dir (Samples.job "running" (Some 4242%Z)))
              (id (Samples.job "running" (Some 4242%Z)))
              Samples.orphan_world = None) as E by (vm_compute; reflexivity).
    rewrite E in H. discriminate H.
  - intros p H [st Hst]. injection H as <-.
    assert (w_procs Samples.orphan_world !! 4242%Z = None) as E
      by (vm_compute; reflexivity).
    rewrite E in Hst. discriminate Hst.
Defined.

(** C2. The startup scan does not adopt every terminal marker: on a
    running row whose marker holds [cancelled] it writes [failed] with
    the orphan error, where [get_dispatch_result] adopts [cancelled];
    and with the marker [timeout] and a live worker it leaves the row
    [running].  With the marker [completed] and an artifact that holds
    hello, [get_dispatch_result] reports [completed] and hello. *)
Theorem scan_drops_cancelled_and_timeout_markers :
  readMarker Samples.session Samples.job_id (Samples.marked "cancelled")
    = Some "cancelled"%string /\
  (status <$>
     tasks (ledger (recoverOrphanedTasks (Samples.marked "cancelled")))
       !! 0%nat) = Some "failed"%string /\
  (error <$>
     tasks (ledger (recoverOrphanedTasks (Samples.marked "cancelled")))
       !! 0%nat) = Some (Some orphan_error) /\
  (status <$>
     tasks (ledger (snd (get_dispatch_result (Some Samples.job_id)
                           (Samples.marked "cancelled"))))
       !! 0%nat) = Some "cancelled"%string /\
  (status <$>
     tasks (ledger (recoverOrphanedTasks
                      (with_procs {[4242%Z := Signalable]}
                                  (Samples.marked "timeout"))))
       !! 0%nat) = Some "running"%string /\
  (let '(r, w) := get_dispatch_result (Some Samples.job_id)
                    Samples.hello_world in
   isError r = false /\
   (status <$> tasks (ledger w) !! 0%nat) = Some "completed"%string /\
   (output <$> tasks (ledger w) !! 0%nat) = Some (Some "hello"%string) /\
   forallb (includes "hello") (content r) = true /\
   forallb (includes "**Status**: completed") (content r) = true).
Proof. vm_compute. repeat split; reflexivity. Qed.

(** Every error of the probe reads as dead. *)
Lemma probe_error (p : Z) (w : World) (e : kill_error) :
  kill0 p w = inl e -> isProcessAlive p w = false.
Proof. unfold isProcessAlive. now intros ->. Qed.

(** C5, as the code has it.  The probe [isProcessAlive] answers true
    only when the zero signal is delivered; any error, "no such
    process" and "not permitted" alike, reads as not alive, and the
    scan fails a running row with such a pid and no settled marker. *)
Theorem probe_error_is_dead (w : World) (i : nat) (t : DispatchTask)
    (p : Z) (e : kill_error)
    (Hrow : tasks (ledger w) !! i = Some t)
    (Hrun : status t = "running"%string)
    (Hpid : pid t = Some p)
    (Hkill : kill0 p w = inl e)
    (Hmarker : settled_marker (readMarker (session_dir t) (id t) w) = None) :
  isProcessAlive p w = false /\
  exists t',
    tasks (ledger (recoverOrphanedTasks w)) !! i = Some t' /\
    status t' = "failed"%string /\ error t' = Some orphan_error.
Proof.
  pose proof (probe_error _ _ _ Hkill) as Hdead. split; [exact Hdead|].
  rewrite ledger_after_recovery, list_lookup_fmap, Hrow. cbn.
  eexists. split; [reflexivity|].
  unfold recover_task, pid_alive.
  rewrite Hrun, Hmarker, Hpid, Hdead, andb_false_r. cbn. now split.
Qed.

(** Process 4242 belongs to another user. *)
Lemma probe_error_is_dead_witness :
  kill0 4242 Samples.foreign_world = inl EPERM /\
  process_exists 4242 Samples.foreign_world /\
  isProcessAlive 4242 Samples.foreign_world = false /\
  exists t',
    tasks (ledger (recoverOrphanedTasks Samples.foreign_world)) !! 0%nat
      = Some t' /\
    status t' = "failed"%string /\ error t' = Some orphan_error.
Proof.
  split; [vm_compute; reflexivity|].
  split; [exists Foreign; vm_compute; reflexivity|].
  refine (probe_error_is_dead Samples.foreign_world 0
            (Samples.job "running" (Some 4242%Z)) 4242 EPERM _ _ _ _ _);
    vm_compute; reflexivity.
Defined.

(** C5, as stated, fails: the worker exists under another user, the
    probe gets the permission error, and the row does not stay
    [running]. *)
Lemma permission_error_is_not_alive :
  process_exists 4242 Samples.foreign_world /\
  kill0 4242 Samples.foreign_world = inl EPERM /\
  ~ (isProcessAlive 4242 Samples.foreign_world = true) /\
  ~ ((status <$>
        tasks (ledger (recoverOrphanedTasks Samples.foreign_world)) !! 0%nat)
     = Some "running"%string).
Proof.
  split; [exists Foreign; vm_compute; reflexivity|].
  split; [vm_compute; reflexivity|].
  assert (isProcessAlive 4242 Samples.foreign_world = false) as ->
    by (vm_compute; reflexivity).
  assert ((status <$>
             tasks (ledger (recoverOrphanedTasks Samples.foreign_world))
               !! 0%nat) = Some "failed"%string) as ->
    by (vm_compute; reflexivity).
  split; discriminate.
Qed.

Lemma recover_task_id (w : World) (t : DispatchTask) :
  id (recover_task w t) = id t.
Proof.
  unfold recover_task. destruct (_ && _); [reflexivity|].
  destruct (settled_marker _); [reflexivity|].
  now destruct (pid_alive t w).
Qed.

Lemma find_task_map (tid : string) (g : DispatchTask -> DispatchTask)
    (s : DispatchesStore) :
  (forall t, id (g t) = id t) ->
  find_task tid (with_tasks (map g (tasks s)) s) = g <$> find_task tid s.
Proof.
  intros Hid. unfold find_task. cbn [tasks with_tasks].
  induction (tasks s) as [|t l IH]; [reflexivity|].
  cbn [map find]. rewrite Hid.
  now destruct (String.eqb (id t) tid).
Qed.

(** Rows of another id are left alone by [update_rows]. *)
Lemma find_task_update_rows (tid tid' : string)
    (f : DispatchTask -> DispatchTask) (s : DispatchesStore) :
  tid <> tid' ->
  (forall t, id (f t) = id t) ->
  find_task tid (update_rows tid' f s) = find_task tid s.
Proof.
  intros Hne Hid. unfold update_rows.
  rewrite find_task_map.
  - destruct (find_task tid s) as [t|] eqn:E; [|reflexivity].
    cbn. unfold find_task in E. apply find_some in E as [_ E].
    apply String.eqb_eq in E.
    destruct (String.eqb_spec (id t) tid'); [congruence | reflexivity].
  - intros t. now destruct (String.eqb (id t) tid').
Qed.

Lemma refetch_snd (tid : string) (t : DispatchTask) (w : World) :
  snd (refetch tid t w) = ensureStorageDir w.
Proof.
  unfold refetch. pose proof (readStore_snd FILE DEFAULT w) as Hs.
  now destruct (readStore FILE DEFAULT w).
Qed.

Lemma update_rows_version (tid : string) (f : DispatchTask -> DispatchTask)
    (s : DispatchesStore) :
  schema_version (update_rows tid f s) = schema_version s.
Proof. reflexivity. Qed.

(** What [reconcile] does to the ledger: nothing, or one
    [update_rows] on a row that was [running]. *)
Lemma ledger_after_reconcile (tid : string) (task : DispatchTask) (w : World) :
  ledger (snd (reconcile tid task w)) = ledger w \/
  (status task = "running"%string /\
   exists f, (forall t, id (f t) = id t) /\
             ledger (snd (reconcile tid task w)) = update_rows tid f (ledger w)).
Proof.
  unfold reconcile.
  destruct (String.eqb_spec (status task) "running") as [Hrun|];
    [|now left].
  destruct (foreign_marker _) as [marker|].
  - right. split; [exact Hrun|]. eexists. split; cycle 1.
    + rewrite refetch_snd, ledger_ensure, ledger_update;
        [reflexivity | apply ledger_version].
    + reflexivity.
  - destruct (pid_dead task w); [|now left].
    right. split; [exact Hrun|]. eexists. split; cycle 1.
    + rewrite refetch_snd, ledger_ensure, ledger_update;
        [reflexivity | apply ledger_version].
    + reflexivity.
Qed.

Lemma ledger_after_query (task_id : option string) (w : World) :
  ledger (snd (get_dispatch_result task_id w)) = ledger w \/
  exists tid task f,
    find_task tid (ledger w) = Some task /\
    status task = "running"%string /\
    (forall t, id (f t) = id t) /\
    ledger (snd (get_dispatch_result task_id w)) = update_rows tid f (ledger w).
Proof.
  unfold get_dispatch_result.
  destruct (nonempty task_id) as [tid|]; [|now left].
  pose proof (readStore_snd FILE DEFAULT w) as Hs.
  destruct (readStore FILE DEFAULT w) as [store w1] eqn:E.
  assert (store = ledger w) as -> by (unfold ledger; now rewrite E).
  cbn [snd] in Hs. subst w1.
  destruct (find_task tid (ledger w)) as [task|] eqn:Hfind.
  - pose proof (ledger_after_reconcile tid task (ensureStorageDir w)) as H.
    destruct (reconcile tid task (ensureStorageDir w)) as [task' w2].
    cbn [snd] in *. rewrite ledger_ensure in H.
    destruct H as [H|(Hrun & f & Hid & H)]; [now left|].
    right. now exists tid, task, f.
  - left. cbn [snd]. apply ledger_ensure.
Qed.

Lemma running_not_terminal (st : string) :
  st = "running"%string -> is_terminal st = false.
Proof. now intros ->. Qed.

(** One step keeps the terminal row that an id addresses. *)
Lemma step_keeps_terminal (w w' : World) (tid : string) (t : DispatchTask) :
  reconcile_step w w' ->
  find_task tid (ledger w) = Some t ->
  is_terminal (status t) = true ->
  find_task tid (ledger w') = Some t.
Proof.
  intros Hstep Hfind Hterm. destruct Hstep as [w|w task_id|w w' Hh Hf].
  - assert (ledger (recoverOrphanedTasks w)
            = with_tasks (map (recover_task w) (tasks (ledger w))) (ledger w))
      as ->.
    { pose proof (ledger_after_recovery w) as Ht.
      pose proof (ledger_version w) as Hv.
      pose proof (ledger_version (recoverOrphanedTasks w)) as Hv'.
      destruct (ledger (recoverOrphanedTasks w)) as [v ts].
      cbn in Ht, Hv'. subst v ts. unfold with_tasks. now rewrite Hv. }
    rewrite find_task_map by apply recover_task_id.
    rewrite Hfind. cbn.
    now rewrite recover_task_settled by now apply terminal_not_active.
  - destruct (ledger_after_query task_id w)
      as [->|(tid' & task & f & Hfind' & Hrun & Hid & ->)]; [exact Hfind|].
    rewrite find_task_update_rows; [exact Hfind| |exact Hid].
    intros <-. rewrite Hfind in Hfind'. injection Hfind' as <-.
    now rewrite (running_not_terminal _ Hrun) in Hterm.
  - now rewrite (ledger_depends _ _ Hh Hf).
Qed.

(** What the scan does with a marker that is neither [completed] nor
    [failed], [cancelled] and [timeout] among them: the row stays as
    it is while the worker answers the probe, and is failed as an
    orphan otherwise. *)
Lemma scan_on_other_marker (w : World) (i : nat) (t : DispatchTask)
    (m : string) :
  tasks (ledger w) !! i = Some t ->
  is_active (status t) = true ->
  readMarker (session_dir t) (id t) w = Some m ->
  String.eqb m "completed" || String.eqb m "failed" = false ->
  tasks (ledger (recoverOrphanedTasks w)) !! i
  = Some (if pid_alive t w then t
          else mkTask (id t) (model t) (prompt t) (options t) (session_dir t)
                 (output_file t) "failed" (pid t) (exit_code t) (duration_s t)
                 (output t) (created_at t) (Some (nowISO w))
                 (Some orphan_error)).
Proof.
  intros Hrow Ha Hm Hne.
  rewrite ledger_after_recovery, list_lookup_fmap, Hrow. cbn. f_equal.
  unfold recover_task, settled_marker. rewrite Hm, Hne.
  unfold is_active in Ha.
  destruct (String.eqb (status t) "running"),
           (String.eqb (status t) "created"); try discriminate Ha;
    reflexivity.
Qed.

Lemma find_task_update_same (tid : string)
    (f : DispatchTask -> DispatchTask) (s : DispatchesStore) :
  (forall t, id (f t) = id t) ->
  find_task tid (update_rows tid f s) = f <$> find_task tid s.
Proof.
  intros Hid. unfold update_rows. rewrite find_task_map.
  - destruct (find_task tid s) as [t|] eqn:E; [|reflexivity].
    cbn. unfold find_task in E. apply find_some in E as [_ E]. now rewrite E.
  - intros t. now destruct (String.eqb (id t) tid).
Qed.

(** What [get_dispatch_result] does with a marker that is not empty
    and not [running]: the row takes the marker as its status, and the
    artifact as its output when the marker is [completed]. *)
Lemma query_adopts_marker (w : World) (tid : string) (t : DispatchTask)
    (m : string) :
  is_empty tid = false ->
  find_task tid (ledger w) = Some t ->
  status t = "running"%string ->
  readMarker (session_dir t) (id t) w = Some m ->
  is_empty m || String.eqb m "running" = false ->
  find_task tid (ledger (snd (get_dispatch_result (Some tid) w)))
  = Some (mkTask (id t) (model t) (prompt t) (options t) (session_dir t)
            (output_file t) m (pid t) (exit_code t) (duration_s t)
            (if String.eqb m "completed"
             then readOutputFile (output_file t) w else None)
            (created_at t) (Some (nowISO w)) (error t)).
Proof.
  intros Htid Hfind Hrun Hm Hne. unfold get_dispatch_result. cbn [nonempty].
  rewrite Htid.
  pose proof (readStore_snd FILE DEFAULT w) as Hs.
  destruct (readStore FILE DEFAULT w) as [store w1] eqn:E.
  assert (store = ledger w) as -> by (unfold ledger; now rewrite E).
  cbn [snd] in Hs. subst w1. rewrite Hfind.
  assert (snd (reconcile tid t (ensureStorageDir w))
          = ensureStorageDir
              (snd (updateStore FILE DEFAULT
                      (update_rows tid (fun u =>
                         mkTask (id u) (model u) (prompt u) (options u)
                           (session_dir u) (output_file u) m (pid u)
                           (exit_code u) (duration_s u)
                           (if String.eqb m "completed"
                            then readOutputFile (output_file t) w else None)
                           (created_at u) (Some (nowISO w)) (error u)))
                      (ensureStorageDir w)))) as Hrec.
  { unfold reconcile. rewrite Hrun, String.eqb_refl.
    rewrite readMarker_files, ensureStorageDir_files, <- readMarker_files, Hm.
    unfold foreign_marker. rewrite Hne, refetch_snd.
    rewrite (readOutputFile_files _ w) by apply ensureStorageDir_files.
    unfold nowISO. now rewrite ensureStorageDir_now. }
  destruct (reconcile tid t (ensureStorageDir w)) as [t' w2].
  cbn [snd] in *. subst w2.
  rewrite ledger_ensure, ledger_update by apply ledger_version.
  rewrite ledger_ensure, find_task_update_same by reflexivity.
  now rewrite Hfind.
Qed.

(** C9. A task in a terminal status is left as it is by
    reconciliation: after any number of startup scans and
    [get_dispatch_result] calls, for any ids and in any order, and
    whatever happens to markers, artifacts and processes in between,
    its id addresses the same, unchanged record. *)
Theorem terminal_rows_are_kept (w w' : World) (tid : string)
    (t : DispatchTask)
    (Hsteps : rtc reconcile_step w w')
    (Hfind : find_task tid (ledger w) = Some t)
    (Hterm : is_terminal (status t) = true) :
  find_task tid (ledger w') = Some t.
Proof.
  induction Hsteps as [w|w w1 w' Hstep _ IH]; [exact Hfind|].
  apply IH. now apply (step_keeps_terminal w).
Qed.

(** A cancelled row through two scans and two queries. *)
Lemma terminal_rows_are_kept_witness :
  find_task Samples.job_id
    (ledger (snd (get_dispatch_result (Some Samples.job_id)
                    (recoverOrphanedTasks
                       (snd (get_dispatch_result (Some Samples.job_id)
                               (recoverOrphanedTasks
                                  (Samples.seeded
                                     [Samples.job "cancelled" (Some 4242%Z)]))))))))
  = Some (Samples.job "cancelled" (Some 4242%Z)).
Proof.
  refine (terminal_rows_are_kept
            (Samples.seeded [Samples.job "cancelled" (Some 4242%Z)])
            _ Samples.job_id _ _ _ _).
  - eapply rtc_l; [apply scan_step|].
    eapply rtc_l; [apply query_step|].
    eapply rtc_l; [apply scan_step|].
    eapply rtc_l; [apply query_step|]. apply rtc_refl.
  - vm_compute. reflexivity.
  - vm_compute. reflexivity.
Defined.

Lemma filter_twice {A} (f g : A -> bool) (l : list A) :
  List.filter g (List.filter f l) = List.filter (fun x => f x && g x) l.
Proof.
  induction l as [|x l IH]; [reflexivity|]. cbn.
  destruct (f x); cbn; [|exact IH]. destruct (g x); now rewrite IH.
Qed.

Lemma filter_all {A} (l : list A) : List.filter (fun _ => true) l = l.
Proof. induction l as [|x l IH]; [reflexivity|]. cbn. now rewrite IH. Qed.

Lemma filtered_wanted (args : ListArgs) (s : DispatchesStore) :
  filtered args s
  = List.filter
      (fun t =>
         match nonempty (list_model args) with
         | Some m => String.eqb (model_name (model t)) m
         | None => true
         end &&
         match nonempty (list_status args) with
         | Some st => String.eqb (status t) st
         | None => true
         end) (rev (tasks s)).
Proof.
  unfold filtered.
  destruct (nonempty (list_model args)) as [m|],
           (nonempty (list_status args)) as [st|].
  - apply filter_twice.
  - apply filter_ext. intros t. now rewrite andb_true_r.
  - reflexivity.
  - symmetry. apply filter_all.
Qed.

(** What [list_dispatches] answers, by the rows it shows. *)
Lemma list_reply (args : ListArgs) (w : World) :
  list_dispatches args w
  = (match listed args (ledger w) with
     | [] => ok "No dispatch tasks found"
     | shown =>
         ok (join_with (str1 newline)
               (map list_line shown ++
                [list_footer (length shown) (length (tasks (ledger w)))]))
     end, ensureStorageDir w).
Proof.
  unfold list_dispatches, ledger.
  pose proof (readStore_snd FILE DEFAULT w) as Hs.
  destruct (readStore FILE DEFAULT w) as [store w1]. cbn [fst snd] in *.
  subst w1. now destruct (listed args store).
Qed.

(** C10. A limit that is falsy (absent, 0, [NaN], [null], [false] or
    the empty string) is replaced by the default of 20.  The handler
    then shows the 20 newest of the rows of the ledger that pass its
    filters, or all of them when they are fewer: its answer lists
    these rows, one line each, and counts them, and it is the answer
    that "No dispatch tasks found" only when no row passes the
    filters.  It is the answer to the limit 20. *)
Theorem zero_limit_means_twenty (m st : option string)
    (limit : option limit_arg) (w : World)
    (Hfalsy : no_limit limit = true) :
  let args := mkListArgs m st limit in
  let wanted t :=
    match nonempty m with
    | Some name => String.eqb (model_name (model t)) name
    | None => true
    end &&
    match nonempty st with
    | Some name => String.eqb (status t) name
    | None => true
    end in
  let matching := List.filter wanted (rev (tasks (ledger w))) in
  let shown := firstn 20 matching in
  given_limit limit = 20%Z /\
  length shown = Nat.min 20 (length matching) /\
  (matching = [] ->
   fst (list_dispatches args w) = ok "No dispatch tasks found") /\
  (matching <> [] ->
   shown <> [] /\
   fst (list_dispatches args w)
   = ok (join_with (str1 newline)
           (map list_line shown ++
            [list_footer (length shown) (length (tasks (ledger w)))]))) /\
  list_dispatches args w
    = list_dispatches (mkListArgs m st (Some (Limit 20))) w.
Proof.
  cbv zeta.
  assert (given_limit limit = 20%Z) as Hl.
  { destruct limit as [[n| | | |]|]; try reflexivity.
    cbn in Hfalsy. apply Z.eqb_eq in Hfalsy. now subst n. }
  pose proof (filtered_wanted (mkListArgs m st limit) (ledger w)) as Hf.
  cbn [list_model list_status] in Hf. rewrite <- Hf.
  assert (listed (mkListArgs m st limit) (ledger w)
          = firstn 20 (filtered (mkListArgs m st limit) (ledger w))) as Hshown.
  { unfold listed. cbn [list_limit]. now rewrite Hl. }
  split; [exact Hl|].
  split; [apply length_firstn|]. split; [|split].
  - intros Hnone. rewrite list_reply, Hshown, Hnone. reflexivity.
  - intros Hsome. rewrite list_reply, Hshown.
    destruct (filtered (mkListArgs m st limit) (ledger w)) as [|t rest];
      [now destruct Hsome|].
    split; [discriminate | reflexivity].
  - rewrite !list_reply. unfold listed. cbn [list_limit]. now rewrite Hl.
Qed.

(** A ledger of one row, asked with the limit 0: the row is shown. *)
Lemma zero_limit_means_twenty_witness :
  fst (list_dispatches (mkListArgs None None (Some (Limit 0)))
         (Samples.seeded [Samples.job "running" None]))
  = ok (join_with (str1 newline)
          [list_line (Samples.job "running" None); list_footer 1 1]).
Proof.
  pose proof (zero_limit_means_twenty None None (Some (Limit 0))
                (Samples.seeded [Samples.job "running" None]) eq_refl) as H.
  cbv zeta in H.
  assert (ledger (Samples.seeded [Samples.job "running" None])
          = mkStore 1 [Samples.job "running" None]) as E
    by (vm_compute; reflexivity).
  rewrite E in H.
  refine (proj2 (proj1 (proj2 (proj2 (proj2 H))) _)).
  discriminate.
Defined.

Lemma append_assoc (a b c : string) : (a +:+ b) +:+ c = a +:+ (b +:+ c).
Proof.
  induction a as [|x a IH]; [reflexivity|].
  change (String x ((a +:+ b) +:+ c) = String x (a +:+ (b +:+ c))).
  now f_equal.
Qed.

Lemma storagePath_eq (n : string) (w : World) :
  storagePath n w = w_home w +:+ ("/.claude/orchestrator/" +:+ n).
Proof.
  unfold storagePath, STORAGE_DIR, path_join, join_with.
  now rewrite !append_assoc.
Qed.

Lemma session_file_eq (tid rest : string) (w : World) :
  path_join [path_join [SESSION_BASE w; tid]; rest]
  = w_home w +:+ ("/.claude/orchestration/sessions/" +:+ (tid +:+ String "/" rest)).
Proof.
  unfold SESSION_BASE, ORCHESTRATION, path_join, join_with.
  now rewrite !append_assoc.
Qed.

(** No file of a session is the ledger. *)
Lemma session_file_not_ledger (tid rest : string) (w : World) :
  path_join [path_join [SESSION_BASE w; tid]; rest] <> storagePath FILE w.
Proof.
  rewrite session_file_eq, storagePath_eq. intros H.
  apply String.app_inj in H. vm_compute in H. discriminate H.
Qed.

Lemma ensure_trace (w : World) :
  exists l, w_trace (ensureStorageDir w) = w_trace w ++ l /\
            Forall (fun e => touches (storagePath FILE w) e = false) l /\
            Forall (fun e => is_spawn e = false) l.
Proof.
  unfold ensureStorageDir. destruct (negb _).
  - eexists [_]. cbn. split; [reflexivity|]. split; repeat constructor.
  - exists []. rewrite app_nil_r. split; [reflexivity|]. split; constructor.
Qed.

Lemma atomicWrite_trace {T} `{Document T} (n : string) (t : T) (w : World) :
  w_trace (atomicWrite n t w)
  = w_trace (ensureStorageDir w) ++
    [EvWriteFile (storagePath n w +:+ ".tmp") (stringify (JObj (to_json t)));
     EvFsync (storagePath n w +:+ ".tmp");
     EvRename (storagePath n w +:+ ".tmp") (storagePath n w)].
Proof.
  unfold atomicWrite. rewrite storagePath_ensure.
  unfold renameSync, fsync, writeFileSync, log, with_files. cbn.
  rewrite lookup_insert_eq. cbn. now rewrite <- !app_assoc.
Qed.

(** The ledger is written last, by one rename, after any spawn. *)
Lemma updateStore_trace (f : DispatchesStore -> DispatchesStore) (w : World) :
  exists post,
    w_trace (snd (updateStore FILE DEFAULT f w)) = w_trace w ++ post /\
    In (EvRename (storagePath FILE w +:+ ".tmp") (storagePath FILE w)) post /\
    Forall (fun e => is_spawn e = false) post.
Proof.
  unfold updateStore.
  pose proof (readStore_snd FILE DEFAULT w) as Hs.
  destruct (readStore FILE DEFAULT w) as [current w1]. cbn [snd] in *. subst w1.
  rewrite atomicWrite_trace, storagePath_ensure.
  destruct (ensure_trace w) as (l1 & H1 & _ & S1).
  destruct (ensure_trace (ensureStorageDir w)) as (l2 & H2 & _ & S2).
  rewrite H2, H1.
  eexists. rewrite <- !app_assoc. split; [reflexivity|]. split.
  - apply in_or_app. right. apply in_or_app. right. cbn. auto.
  - rewrite !Forall_app. repeat split; try assumption; repeat constructor.
Qed.

Lemma launch_row (m : Model) (p : string) (o : Options) (w : World) :
  fst (launch m p o w) = launched_row m p o w.
Proof.
  unfold launch, launched_row, spawn.
  change (w_spawn (writeFileSync _ _ (mkdirSync _ w))) with (w_spawn w).
  now destruct (w_spawn w) as [[child|]|message].
Qed.

Lemma launch_home (m : Model) (p : string) (o : Options) (w : World) :
  w_home (snd (launch m p o w)) = w_home w.
Proof.
  unfold launch, spawn.
  change (w_spawn (writeFileSync _ _ (mkdirSync _ w))) with (w_spawn w).
  now destruct (w_spawn w) as [[child|]|message].
Qed.

Lemma launch_files (m : Model) (p : string) (o : Options) (w : World)
    (q : string) :
  q <> prompt_path (new_session w) ->
  q <> markerPath (new_session w) (genId "dsp" w) ->
  w_files (snd (launch m p o w)) !! q = w_files w !! q.
Proof.
  intros H1 H2. unfold launch, spawn.
  change (w_spawn (writeFileSync _ _ (mkdirSync _ w))) with (w_spawn w).
  assert (markerPath (new_session w) (genId "dsp" w) <> q) as H2'
    by (intros E; apply H2; symmetry; exact E).
  assert (prompt_path (new_session w) <> q) as H1'
    by (intros E; apply H1; symmetry; exact E).
  destruct (w_spawn w) as [[child|]|message];
    cbn [snd w_files writeMarker writeFileSync mkdirSync log with_files
         with_dirs with_procs];
    rewrite ?(lookup_insert_ne _ _ _ _ H2');
    exact (lookup_insert_ne _ _ _ _ H1').
Qed.

(** The events of [launch]: the spawn comes third, and with a child
    the marker follows it. *)
Lemma launch_trace (m : Model) (p : string) (o : Options) (w : World) :
  exists argv env,
    nth_error argv 4 = Some p /\
    In ("ORCH_PROMPT"%string, p) env /\
    w_trace (snd (launch m p o w))
    = w_trace w ++
      [EvMkdir (new_session w); EvWriteFile (prompt_path (new_session w)) p;
       EvSpawn "bash" argv env] ++
      match w_spawn w with
      | Spawned _ =>
          [EvWriteFile (markerPath (new_session w) (genId "dsp" w)) "running"]
      | SpawnThrows _ => []
      end.
Proof.
  unfold launch, spawn.
  change (w_spawn (writeFileSync _ _ (mkdirSync _ w))) with (w_spawn w).
  eexists _, _. split; [|split]; cycle 2.
  - destruct (w_spawn w) as [[child|]|message];
      cbn [snd w_trace writeMarker writeFileSync mkdirSync log with_files
           with_dirs with_procs];
      rewrite <- !app_assoc; reflexivity.
  - reflexivity.
  - cbn. auto.
Qed.

(** [launch] leaves the ledger as it found it. *)
Lemma launch_ledger (m : Model) (p : string) (o : Options) (w : World) :
  ledger (snd (launch m p o w)) = ledger w.
Proof.
  apply ledger_depends; [apply launch_home|]. apply launch_files.
  - intros E. symmetry in E. now apply session_file_not_ledger in E.
  - intros E. symmetry in E. now apply session_file_not_ledger in E.
Qed.

(** A call that passes the checks launches, then saves the row. *)
Lemma dispatch_passes (m : Model) (p : string) (oo : option Options)
    (w : World) :
  is_empty p = false ->
  validate_model m w = None ->
  existsSync (WRAPPER_PATH w) w = true ->
  let o := match oo with Some o => o | None => no_options end in
  let task := fst (launch m p o w) in
  dispatch (mkDispatchArgs (Some m) (Some p) oo) w
  = (dispatch_reply task,
     snd (updateStore FILE DEFAULT
            (fun s => with_tasks (tasks s ++ [task]) s)
            (snd (launch m p o w)))).
Proof.
  intros Hp Hv Hw o task. unfold dispatch.
  cbn [arg_model arg_prompt arg_options]. rewrite Hp, Hv, Hw. cbn [negb].
  subst task. fold o. destruct (launch m p o w) as [task w3]. cbn [fst snd].
  now destruct (updateStore _ _ _ w3).
Qed.

(** What a call that passes the checks leaves behind. *)
Lemma dispatch_effects (m : Model) (p : string) (oo : option Options)
    (w : World) :
  is_empty p = false ->
  validate_model m w = None ->
  existsSync (WRAPPER_PATH w) w = true ->
  let o := match oo with Some o => o | None => no_options end in
  let out := dispatch (mkDispatchArgs (Some m) (Some p) oo) w in
  fst out = dispatch_reply (launched_row m p o w) /\
  tasks (ledger (snd out)) = tasks (ledger w) ++ [launched_row m p o w] /\
  exists argv env post,
    nth_error argv 4 = Some p /\
    w_trace (snd out)
    = w_trace w ++
      [EvMkdir (new_session w); EvWriteFile (prompt_path (new_session w)) p] ++
      [EvSpawn "bash" argv env] ++ post /\
    Forall (fun e => is_spawn e = false) post /\
    In (EvRename (storagePath FILE w +:+ ".tmp") (storagePath FILE w)) post.
Proof.
  intros Hp Hv Hw o out. subst out.
  rewrite (dispatch_passes m p oo w Hp Hv Hw). fold o.
  cbn [fst snd]. rewrite launch_row. split; [reflexivity|]. split.
  - rewrite ledger_update by apply ledger_version.
    cbn [with_tasks tasks]. now rewrite launch_ledger.
  - destruct (launch_trace m p o w) as (argv & env & Hargv & _ & Htr).
    destruct (updateStore_trace
                (fun s => with_tasks (tasks s ++ [launched_row m p o w]) s)
                (snd (launch m p o w))) as (post & Hpost & Hin & Hsp).
    exists argv, env. eexists. split; [exact Hargv|].
    rewrite Hpost, Htr, <- !app_assoc. split; [reflexivity|].
    assert (storagePath FILE (snd (launch m p o w)) = storagePath FILE w) as Hpath
      by (unfold storagePath, STORAGE_DIR; now rewrite launch_home).
    rewrite Hpath in Hin. split.
    + apply Forall_app. split; [|exact Hsp].
      destruct (w_spawn w); repeat constructor.
    + apply in_or_app. now right.
Qed.

Lemma dispatch_reply_running (t : DispatchTask) :
  isError (dispatch_reply t) = false -> status t <> "failed"%string.
Proof.
  unfold dispatch_reply. intros H E. rewrite E in H. discriminate H.
Qed.

(** A call that does not answer with an error has passed the checks. *)
Lemma dispatch_checks (args : DispatchArgs) (w : World) :
  isError (fst (dispatch args w)) = false ->
  exists m p oo,
    args = mkDispatchArgs (Some m) (Some p) oo /\
    is_empty p = false /\
    validate_model m w = None /\
    existsSync (WRAPPER_PATH w) w = true.
Proof.
  destruct args as [[m|] [p|] oo]; unfold dispatch;
    cbn [arg_model arg_prompt arg_options];
    try (intros H; discriminate H).
  destruct (is_empty p) eqn:Hp; [intros H; discriminate H|].
  destruct (validate_model m w) eqn:Hv; [intros H; discriminate H|].
  destruct (existsSync (WRAPPER_PATH w) w) eqn:Hw; [|intros H; discriminate H].
  intros _. now exists m, p, oo.
Qed.

(** C3, as stated, fails: on a successful call the ledger is not
    touched before the spawn, it holds no row when the worker is
    spawned, and the row that is then saved is [running], not
    [created]. *)
Lemma no_created_row_before_spawn :
  let w := Samples.installed Samples.bare in
  let out := dispatch Samples.say_hi w in
  isError (fst out) = false /\
  tasks (ledger w) = [] /\
  existsb is_spawn (w_trace (snd out)) = true /\
  existsb (touches (storagePath FILE w)) (before_spawn (w_trace (snd out)))
    = false /\
  (status <$> tasks (ledger (snd out))) = ["running"%string] /\
  ~ In "created"%string (status <$> tasks (ledger (snd out))).
Proof.
  cbv zeta.
  assert ((status <$>
             tasks (ledger (snd (dispatch Samples.say_hi
                                   (Samples.installed Samples.bare)))))
          = ["running"%string]) as -> by (vm_compute; reflexivity).
  repeat split; try (vm_compute; reflexivity).
  intros [H|[]]. discriminate H.
Qed.

(** C6.  A fork that the system refuses is not recorded.  [spawn]
    then returns a child without a pid and tells the failure later,
    by an event that the handler does not listen to: the call
    answers that the task was dispatched, with the pid [undefined],
    and the ledger gains a row in status [running], without pid and
    without error.  Only a failure that [spawn] throws is answered
    with an error and recorded as a [failed] row that carries the
    message. *)
Theorem refused_fork_is_not_recorded (m : Model) (p : string)
    (oo : option Options) (w : World)
    (Hp : is_empty p = false)
    (Hv : validate_model m w = None)
    (Hw : existsSync (WRAPPER_PATH w) w = true) :
  let out := dispatch (mkDispatchArgs (Some m) (Some p) oo) w in
  (w_spawn w = Spawned None ->
   exists task,
     fst out
       = ok ("Dispatched to " +:+ model_name m +:+ " — task_id: **" +:+
             genId "dsp" w +:+ "** (PID: undefined)" +:+
             String newline ("Session: " +:+ new_session w)) /\
     isError (fst out) = false /\
     tasks (ledger (snd out)) = tasks (ledger w) ++ [task] /\
     id task = genId "dsp" w /\
     status task = "running"%string /\
     is_terminal (status task) = false /\
     pid task = None /\
     error task = None) /\
  (forall message,
     w_spawn w = SpawnThrows message ->
     exists task,
       fst out = err ("Dispatch failed: Failed to spawn: " +:+ message) /\
       tasks (ledger (snd out)) = tasks (ledger w) ++ [task] /\
       id task = genId "dsp" w /\
       status task = "failed"%string /\
       is_terminal (status task) = true /\
       error task = Some ("Failed to spawn: " +:+ message)).
Proof.
  cbv zeta.
  destruct (dispatch_effects m p oo w Hp Hv Hw) as (Hreply & Hledger & _).
  split.
  - intros Hs. eexists. rewrite Hreply.
    split; [|split; [|split; [exact Hledger|]]];
      unfold launched_row; rewrite Hs; try reflexivity.
    repeat split; reflexivity.
  - intros message Hs. eexists. split; [|split; [exact Hledger|]].
    + rewrite Hreply. unfold launched_row. now rewrite Hs.
    + unfold launched_row. rewrite Hs. repeat split; reflexivity.
Qed.

(** The wrapper is installed and the fork is refused. *)
Lemma refused_fork_is_not_recorded_witness :
  isError (fst (dispatch Samples.say_hi
                  (Samples.refused (Samples.installed Samples.bare))))
  = false /\
  (status <$>
     tasks (ledger (snd (dispatch Samples.say_hi
                           (Samples.refused (Samples.installed Samples.bare))))))
  = ["running"%string].
Proof.
  destruct (proj1 (refused_fork_is_not_recorded codex "say hi" None
                     (Samples.refused (Samples.installed Samples.bare))
                     eq_refl ltac:(vm_compute; reflexivity)
                     ltac:(vm_compute; reflexivity)) eq_refl)
    as (task & _ & Hok & Hledger & _ & Hst & _).
  split; [exact Hok|]. unfold Samples.say_hi. rewrite Hledger.
  assert (tasks (ledger (Samples.refused (Samples.installed Samples.bare)))
          = []) as -> by (vm_compute; reflexivity).
  cbn. now rewrite Hst.
Defined.

(** When the wrapper is missing the caller gets the error and the
    ledger gets no row, as the second step of the operation asks. *)
Lemma missing_wrapper_leaves_no_row :
  let out := dispatch Samples.say_hi Samples.bare in
  existsSync (WRAPPER_PATH Samples.bare) Samples.bare = false /\
  isError (fst out) = true /\
  snd out = Samples.bare /\
  tasks (ledger (snd out)) = [] /\
  w_files (snd out) !! storagePath FILE Samples.bare = None.
Proof. vm_compute. repeat split; reflexivity. Qed.

(** C4. [retry_dispatch] hands [dispatch] the prompt of the row, and
    the row holds the prompt cut to 500 characters: a prompt of 501
    characters whose spawn threw is retried with 497 of them and three
    dots, as the argument of the spawn and in the new prompt file,
    while the first prompt file still holds all 501.  The retry adds a
    row under a new id and leaves the first row as it was. *)
Theorem retry_sends_the_stored_prompt :
  let first := dispatch (mkDispatchArgs (Some codex)
                           (Some Samples.long_prompt) None)
                 (Samples.throwing "spawn EAGAIN"
                    (Samples.installed Samples.bare)) in
  let again := retry_dispatch (Some "dsp_deadbeef"%string)
                 (Samples.rolled 195939070 (snd first)) in
  isError (fst first) = true /\
  (status <$> tasks (ledger (snd first))) = ["failed"%string] /\
  (id <$> tasks (ledger (snd again)))
    = ["dsp_deadbeef"; "dsp_0badcafe"]%string /\
  tasks (ledger (snd again)) !! 0%nat = tasks (ledger (snd first)) !! 0%nat /\
  slen Samples.long_prompt = 501%Z /\
  readFileSync (prompt_path (new_session (snd first))) (snd again)
    = Some Samples.long_prompt /\
  readFileSync (prompt_path (new_session (Samples.rolled 195939070 (snd first))))
               (snd again)
    = Some (stored_prompt Samples.long_prompt) /\
  spawned_prompts (w_trace (snd again))
    = [Some Samples.long_prompt; Some (stored_prompt Samples.long_prompt)] /\
  stored_prompt Samples.long_prompt
    = str_slice0 497 Samples.long_prompt +:+ "..." /\
  slen (stored_prompt Samples.long_prompt) = 500%Z /\
  String.eqb (stored_prompt Samples.long_prompt) Samples.long_prompt = false.
Proof. vm_compute. repeat split; reflexivity. Qed.

End DispatchFacts.

Module TextFacts.

Lemma length_append (a b : string) :
  String.length (a +:+ b) = String.length a + String.length b.
Proof.
  induction a as [|c a IH]; [reflexivity|].
  change (S (String.length (a +:+ b)) = S (String.length a + String.length b)).
  now rewrite IH.
Qed.

Lemma slen_append (a b : string) : slen (a +:+ b) = (slen a + slen b)%Z.
Proof. unfold slen. rewrite length_append. lia. Qed.

Lemma append_nil_r (a : string) : a +:+ "" = a.
Proof.
  induction a as [|c a IH]; [reflexivity|].
  change (String c (a +:+ "") = String c a). now rewrite IH.
Qed.

Lemma append_cons (c : ascii) (a b : string) :
  String c a +:+ b = String c (a +:+ b).
Proof. reflexivity. Qed.

(** A string is not its own proper extension. *)
Lemma append_fresh (a b : string) : b <> ""%string -> a +:+ b <> a.
Proof.
  intros Hb E. apply (f_equal String.length) in E.
  rewrite length_append in E. destruct b; [now apply Hb|]. cbn in E. lia.
Qed.

Lemma append_inv_l (a b c : string) : a +:+ b = a +:+ c -> b = c.
Proof.
  induction a as [|x a IH]; [trivial|].
  rewrite !append_cons. intros [= E]. now apply IH.
Qed.

Lemma append_inv_r (a b c : string) : a +:+ c = b +:+ c -> a = b.
Proof.
  revert b. induction a as [|x a IH]; intros [|y b] E.
  - reflexivity.
  - exfalso. apply (f_equal String.length) in E.
    rewrite !length_append in E. cbn in E. lia.
  - exfalso. apply (f_equal String.length) in E.
    rewrite !length_append in E. cbn in E. lia.
  - rewrite !append_cons in E. injection E as -> E. f_equal. now apply IH.
Qed.

Lemma take_str_length (n : nat) (s : string) :
  String.length (take_str n s) = Nat.min n (String.length s).
Proof.
  revert s. induction n as [|n IH]; intros [|c s]; cbn; try reflexivity.
  now rewrite IH.
Qed.

Lemma take_str_all (n : nat) (s : string) :
  String.length s <= n -> take_str n s = s.
Proof.
  revert s. induction n as [|n IH]; intros [|c s] H; cbn in *;
    try reflexivity; try lia.
  f_equal. apply IH. lia.
Qed.

Lemma take_str_append (n : nat) (a b : string) :
  n <= String.length a -> take_str n (a +:+ b) = take_str n a.
Proof.
  revert a. induction n as [|n IH]; intros [|c a] H; cbn in *;
    try reflexivity; try lia.
  rewrite append_cons. cbn. f_equal. apply IH. lia.
Qed.

Lemma take_str_prefix (n : nat) (s : string) :
  is_prefix (take_str n s) s = true.
Proof.
  revert s. induction n as [|n IH]; intros [|c s]; cbn; try reflexivity.
  now rewrite Ascii.eqb_refl, IH.
Qed.

Lemma str_slice0_length (n : Z) (s : string) :
  (0 <= n)%Z -> slen (str_slice0 n s) = Z.min n (slen s).
Proof.
  intros Hn. unfold slen, str_slice0. rewrite take_str_length. lia.
Qed.

(** *** trim *)

Lemma trim_start_space (pre s : string) :
  all_space pre = true -> trim_start (pre +:+ s) = trim_start s.
Proof.
  induction pre as [|c pre IH]; [reflexivity|].
  unfold all_space. cbn [list_ascii_of_string forallb].
  intros H. apply andb_prop in H as [Hc Hp].
  rewrite append_cons. cbn [trim_start]. rewrite Hc. now apply IH.
Qed.

Lemma trim_end_all_space (s : string) :
  all_space s = true -> trim_end s = ""%string.
Proof.
  induction s as [|c s IH]; [reflexivity|].
  unfold all_space. cbn [list_ascii_of_string forallb].
  intros H. apply andb_prop in H as [Hc Hp].
  cbn [trim_end]. rewrite (IH Hp). now rewrite Hc.
Qed.

Lemma trim_end_space (s post : string) :
  all_space post = true -> trim_end (s +:+ post) = trim_end s.
Proof.
  intros Hp. induction s as [|c s IH].
  - now apply trim_end_all_space.
  - rewrite append_cons. cbn [trim_end]. now rewrite IH.
Qed.

Lemma trim_start_all_space (s : string) :
  all_space s = true -> trim_start s = ""%string.
Proof.
  induction s as [|c s IH]; [reflexivity|].
  unfold all_space. cbn [list_ascii_of_string forallb].
  intros H. apply andb_prop in H as [Hc Hp].
  cbn [trim_start]. rewrite Hc. now apply IH.
Qed.

(** What [trim_start] leaves is the string without a run of spaces at
    its head. *)
Lemma trim_start_split (s : string) :
  exists pre, all_space pre = true /\ s = pre +:+ trim_start s /\
    match trim_start s with
    | String c _ => is_js_space c = false
    | EmptyString => True
    end.
Proof.
  induction s as [|c s (pre & Hp & Hs & Hh)].
  - exists ""%string. repeat split.
  - cbn [trim_start]. destruct (is_js_space c) eqn:Hc.
    + exists (String c pre). split; [|split].
      * unfold all_space. cbn. now rewrite Hc.
      * rewrite append_cons. now f_equal.
      * exact Hh.
    + exists ""%string. repeat split. exact Hc.
Qed.

Lemma trim_start_append (s post : string) :
  all_space post = true ->
  trim_start (s +:+ post)
  = match trim_start s with
    | EmptyString => EmptyString
    | t => t +:+ post
    end.
Proof.
  intros Hp. induction s as [|c s IH].
  - cbn. now apply trim_start_all_space.
  - rewrite append_cons. cbn [trim_start].
    destruct (is_js_space c); [exact IH|reflexivity].
Qed.

Lemma trim_surrounded (pre s post : string) :
  all_space pre = true -> all_space post = true ->
  trim (pre +:+ s +:+ post) = trim s.
Proof.
  intros Hpre Hpost. unfold trim.
  rewrite trim_start_space by exact Hpre.
  rewrite trim_start_append by exact Hpost.
  destruct (trim_start s) as [|c t]; [reflexivity|].
  now apply trim_end_space.
Qed.

(** [trim_end] keeps the head of a string that starts with no space. *)
Lemma trim_end_head (c : ascii) (s : string) :
  is_js_space c = false ->
  exists t, trim_end (String c s) = String c t.
Proof.
  intros Hc. cbn [trim_end]. destruct (trim_end s) as [|d t].
  - rewrite Hc. now exists ""%string.
  - now exists (String d t).
Qed.

Lemma trim_end_idem (s : string) : trim_end (trim_end s) = trim_end s.
Proof.
  induction s as [|c s IH]; [reflexivity|].
  cbn [trim_end]. destruct (trim_end s) as [|d t] eqn:E.
  - destruct (is_js_space c) eqn:Hc; [reflexivity|].
    cbn. now rewrite Hc.
  - cbn [trim_end] in *. now rewrite IH.
Qed.

Lemma trim_start_tight (s : string) :
  match s with
  | String c _ => is_js_space c = false
  | EmptyString => True
  end -> trim_start s = s.
Proof. destruct s as [|c s]; [reflexivity|]. cbn. now intros ->. Qed.

Lemma trim_idem (s : string) : trim (trim s) = trim s.
Proof.
  unfold trim.
  destruct (trim_start_split s) as (pre & _ & _ & Hh).
  destruct (trim_start s) as [|c t] eqn:E; [reflexivity|].
  destruct (trim_end_head c t Hh) as (u & Hu).
  rewrite Hu. rewrite trim_start_tight by exact Hh.
  rewrite <- Hu. apply trim_end_idem.
Qed.

End TextFacts.

Module StoreFacts.

Import JSON Storage StorageFacts TextFacts.

Lemma tmp_not_target (n : string) (w : World) :
  storagePath n w +:+ ".tmp" <> storagePath n w.
Proof. now apply append_fresh. Qed.

Lemma readStore_files {T} `{Document T} (n : string) (d : T) (w : World) :
  w_files (snd (readStore n d w)) = w_files w.
Proof. rewrite readStore_snd. apply ensureStorageDir_files. Qed.

(** What a reader makes of a world is settled by the home directory and
    the backing file. *)
Lemma readStore_depends {T} `{Document T} (n : string) (d : T) (w w' : World) :
  w_home w' = w_home w ->
  w_files w' !! storagePath n w = w_files w !! storagePath n w ->
  fst (readStore n d w') = fst (readStore n d w).
Proof.
  intros Hh Hf. rewrite !readStore_fst.
  replace (storagePath n w') with (storagePath n w).
  - now rewrite Hf.
  - unfold storagePath, STORAGE_DIR. now rewrite Hh.
Qed.

Lemma atomicWrite_files {T} `{Document T} (n : string) (data : T) (w : World) :
  w_files (atomicWrite n data w)
  = <[storagePath n w := stringify (JObj (to_json data))]>
      (delete (storagePath n w +:+ ".tmp") (w_files w)).
Proof.
  unfold atomicWrite, renameSync, fsync, writeFileSync.
  rewrite storagePath_ensure. cbn.
  rewrite lookup_insert_eq. cbn. rewrite ensureStorageDir_files.
  now rewrite delete_insert_eq.
Qed.

(** A crash before the rename leaves every file but the temporary
    one as it was. *)
Lemma crashed_files {T} `{Document T} (n : string) (data : T)
    (point : write_point) (w : World) (q : string) :
  q <> storagePath n w +:+ ".tmp" ->
  w_files (crashed_atomicWrite n data point w) !! q = w_files w !! q.
Proof.
  intros Hq. unfold crashed_atomicWrite. rewrite storagePath_ensure.
  destruct point as [|k| |]; cbn; rewrite ?ensureStorageDir_files;
    try reflexivity;
    apply lookup_insert_ne; intros E; now apply Hq.
Qed.

Lemma crashed_home {T} `{Document T} (n : string) (data : T)
    (point : write_point) (w : World) :
  w_home (crashed_atomicWrite n data point w) = w_home w.
Proof.
  unfold crashed_atomicWrite.
  destruct point as [|k| |]; cbn; apply ensureStorageDir_home.
Qed.

(** X1. [atomicWrite] replaces the backing file in one step, the
    rename.  Wherever a crash stops it before the rename, while the
    temporary file is written included, the backing file holds what
    it held before the call, [readStore] answers with the document it
    answered with before, and no file but the temporary one has
    changed; the temporary file then holds a prefix of the new text.
    The rename of the synced temporary file ends the call: the backing
    file then holds the whole new text, the temporary file is gone,
    and no other file has changed. *)
Theorem atomicWrite_is_atomic {T} `{Document T} (n : string) (d data : T)
    (w : World) :
  let target := storagePath n w in
  let tmp := target +:+ ".tmp" in
  let text := stringify (JObj (to_json data)) in
  (forall point,
     let crashed := crashed_atomicWrite n data point w in
     w_files crashed !! target = w_files w !! target /\
     fst (readStore n d crashed) = fst (readStore n d w) /\
     (forall q, q <> tmp -> w_files crashed !! q = w_files w !! q) /\
     (w_files crashed !! tmp = w_files w !! tmp \/
      exists k, w_files crashed !! tmp = Some (take_str k text))) /\
  w_files (crashed_atomicWrite n data Synced w) !! tmp = Some text /\
  renameSync tmp target (crashed_atomicWrite n data Synced w)
    = atomicWrite n data w /\
  w_files (atomicWrite n data w) !! target = Some text /\
  w_files (atomicWrite n data w) !! tmp = None /\
  (forall q, q <> target -> q <> tmp ->
     w_files (atomicWrite n data w) !! q = w_files w !! q).
Proof.
  cbv zeta. pose proof (tmp_not_target n w) as Hne.
  split; [|split; [|split; [|split; [|split]]]].
  - intros point.
    assert (w_files (crashed_atomicWrite n data point w) !! storagePath n w
            = w_files w !! storagePath n w) as Hold
      by (apply crashed_files; intros E; now apply Hne).
    split; [exact Hold|]. split; [|split].
    + apply readStore_depends; [apply crashed_home | exact Hold].
    + intros q Hq. now apply crashed_files.
    + unfold crashed_atomicWrite. rewrite storagePath_ensure.
      destruct point as [|k| |]; cbn; rewrite ?ensureStorageDir_files.
      * now left.
      * right. exists k. apply lookup_insert_eq.
      * right. exists (String.length (stringify (JObj (to_json data)))).
        rewrite take_str_all by apply le_n. apply lookup_insert_eq.
      * right. exists (String.length (stringify (JObj (to_json data)))).
        rewrite take_str_all by apply le_n. apply lookup_insert_eq.
  - unfold crashed_atomicWrite. rewrite storagePath_ensure. cbn.
    apply lookup_insert_eq.
  - unfold crashed_atomicWrite, atomicWrite. now rewrite storagePath_ensure.
  - apply atomicWrite_target.
  - rewrite atomicWrite_files, lookup_insert_ne by (intros E; now apply Hne).
    apply lookup_delete_eq.
  - intros q Hq Htmp. rewrite atomicWrite_files.
    rewrite lookup_insert_ne by (intros E; now apply Hq).
    apply lookup_delete_ne. intros E. now apply Htmp.
Qed.

Lemma get_remove_field (k : string) (ms : list (string * json)) :
  get_field k (remove_field k ms) = None.
Proof.
  induction ms as [|[a x] ms IH]; [reflexivity|]. cbn.
  destruct (String.eqb a k) eqn:E; [exact IH|]. cbn. now rewrite E.
Qed.

Lemma accept_version_sets (expected : option json)
    (ms : list (string * json)) :
  get_field "schema_version" (accept_version expected ms) = expected.
Proof.
  unfold accept_version, assign_field.
  destruct (strict_neq _ _) eqn:E.
  - destruct expected; [apply LedgerFacts.get_set_field|apply get_remove_field].
  - destruct (get_field "schema_version" ms) as [[ |a|a|a| | ]|],
      expected as [[ |b|b|b| | ]|]; try discriminate E; try reflexivity;
      cbn in E; apply negb_false_iff in E.
    + apply Bool.eqb_prop in E. now subst.
    + apply Z.eqb_eq in E. now subst.
    + apply String.eqb_eq in E. now subst.
Qed.

(** X2. [readStore] answers a document of another schema version with
    the version of the default put in its place, every other field as
    the file has it; the file itself is not rewritten. *)
Theorem readStore_takes_the_default_version (filename raw : string)
    (defaultValue ms : list (string * json)) (w : World)
    (Hfile : w_files w !! storagePath filename w = Some raw)
    (Hparse : parse raw = Some (JObj ms)) :
  get_field "schema_version" (fst (readStore filename defaultValue w))
    = get_field "schema_version" defaultValue /\
  (forall k, k <> "schema_version"%string ->
     get_field k (fst (readStore filename defaultValue w)) = get_field k ms) /\
  w_files (snd (readStore filename defaultValue w)) = w_files w.
Proof.
  rewrite readStore_fst, Hfile. cbn [load]. rewrite Hparse. cbn.
  split; [apply accept_version_sets|]. split.
  - intros k Hk. now apply accept_version_other.
  - apply readStore_files.
Qed.

(** A context store left by a later version of the plugin. *)
Lemma readStore_takes_the_default_version_witness :
  get_field "schema_version"
    (fst (readStore "context.json" [("schema_version", JNum 1)]%string
            (writeFileSync (storagePath "context.json" Samples.bare)
               (stringify (JObj [("schema_version", JNum 7);
                                 ("entries", JObj [])]%string))
               Samples.bare)))
  = Some (JNum 1).
Proof.
  refine (proj1 (readStore_takes_the_default_version "context.json"
                   (stringify (JObj [("schema_version", JNum 7);
                                     ("entries", JObj [])]%string))
                   [("schema_version", JNum 1)]%string
                   [("schema_version", JNum 7); ("entries", JObj [])]%string
                   _ _ _)); vm_compute; reflexivity.
Defined.

(** X3. [updateStore] is a read-modify-write: the updater is applied to
    what [readStore] returns, its result is returned, and it is what
    the next [readStore] returns. *)
Theorem updateStore_applies_the_updater (filename : string)
    (defaultValue : list (string * json))
    (updater : list (string * json) -> list (string * json)) (w : World)
    (Hwf : wf (JObj (updater (fst (readStore filename defaultValue w)))) = true)
    (Hver : strict_neq
              (get_field "schema_version"
                 (updater (fst (readStore filename defaultValue w))))
              (get_field "schema_version" defaultValue) = false) :
  fst (updateStore filename defaultValue updater w)
    = updater (fst (readStore filename defaultValue w)) /\
  fst (readStore filename defaultValue
         (snd (updateStore filename defaultValue updater w)))
    = updater (fst (readStore filename defaultValue w)).
Proof.
  unfold updateStore.
  pose proof (readStore_snd filename defaultValue w) as Hs.
  destruct (readStore filename defaultValue w) as [current w1].
  cbn [fst snd] in *. subst w1. split; [reflexivity|].
  rewrite (@read_after_write _ object_document) by exact Hwf.
  cbn. unfold accept_version. now rewrite Hver.
Qed.

Lemma updateStore_applies_the_updater_witness :
  fst (readStore "context.json" [("schema_version", JNum 1)]%string
         (snd (updateStore "context.json" [("schema_version", JNum 1)]%string
                 (set_field "entries" (JObj [])) Samples.bare)))
  = [("schema_version", JNum 1); ("entries", JObj [])]%string.
Proof.
  refine (proj2 (updateStore_applies_the_updater "context.json"
                   [("schema_version", JNum 1)]%string
                   (set_field "entries" (JObj [])) Samples.bare _ _));
    vm_compute; reflexivity.
Defined.

(** [ensureStorageDir] makes the storage directory when it is
    missing and does nothing otherwise: after it the directory exists,
    a second call changes nothing, and no file is touched.
    [getStorageDir] returns the path of that directory. *)
Theorem ensureStorageDir_is_idempotent (w : World) :
  existsSync (STORAGE_DIR w) (ensureStorageDir w) = true /\
  ensureStorageDir (ensureStorageDir w) = ensureStorageDir w /\
  w_files (ensureStorageDir w) = w_files w /\
  (existsSync (STORAGE_DIR w) w = true -> ensureStorageDir w = w) /\
  getStorageDir w
    = (w_home w +:+ "/.claude/orchestrator", ensureStorageDir w).
Proof.
  assert (existsSync (STORAGE_DIR w) (ensureStorageDir w) = true) as Hex.
  { unfold ensureStorageDir.
    destruct (existsSync (STORAGE_DIR w) w) eqn:E; cbn [negb]; [exact E|].
    unfold existsSync in *. cbn [mkdirSync log with_dirs w_files w_dirs].
    destruct (w_files w !! STORAGE_DIR w); [discriminate E|].
    apply bool_decide_eq_true. set_solver. }
  split; [exact Hex|]. split; [|split; [|split]].
  - unfold ensureStorageDir at 1.
    replace (STORAGE_DIR (ensureStorageDir w)) with (STORAGE_DIR w)
      by (unfold STORAGE_DIR; now rewrite ensureStorageDir_home).
    now rewrite Hex.
  - apply ensureStorageDir_files.
  - intros E. unfold ensureStorageDir. now rewrite E.
  - reflexivity.
Qed.

End StoreFacts.

(** ** What is read is JSON *)

Module GrammarFacts.

Import Decimal Numeral JSON.

Lemma nzhead_head (u v : uint) : nzhead u <> D0 v.
Proof.
  induction u as [|u IH|u IH|u IH|u IH|u IH|u IH|u IH|u IH|u IH|u IH];
    cbn; try discriminate. exact IH.
Qed.

(** A numeral that is its own normal form and starts with [0] is
    [0]. *)
Lemma unorm_zero (u : uint) : unorm (D0 u) = D0 u -> u = Nil.
Proof.
  unfold unorm. cbn. destruct (nzhead u) eqn:E.
  - now intros [= <-].
  - intros H. exfalso. rewrite <- E in H. now apply nzhead_head in H.
  - discriminate.
  - discriminate.
  - discriminate.
  - discriminate.
  - discriminate.
  - discriminate.
  - discriminate.
  - discriminate.
  - discriminate.
Qed.

Lemma uint_beq_eq (u v : uint) : uint_beq u v = true -> u = v.
Proof. apply internal_uint_dec_bl. Qed.

Lemma digit_of_cases (c : ascii) (d : uint -> uint) :
  digit_of c = Some d ->
  (forall u, d u <> Nil) /\ (Ascii.eqb c "0" = true <-> d = D0).
Proof.
  destruct c as [[] [] [] [] [] [] [] []]; cbn; try discriminate;
    intros [= <-];
    (split; [discriminate | split; [first [reflexivity | discriminate]|]]);
    first [reflexivity
          | intros H; apply (f_equal (fun f => f Nil)) in H; discriminate H].
Qed.

Lemma lex_digits_nil (s : string) :
  fst (lex_digits s) = Nil -> snd (lex_digits s) = s.
Proof.
  destruct s as [|c r]; [reflexivity|]. cbn.
  destruct (digit_of c) as [d|] eqn:Hd; [|reflexivity].
  destruct (lex_digits r) as [u r']. cbn. intros H.
  now apply (proj1 (digit_of_cases c d Hd)) in H.
Qed.

Lemma digit_zero (c : ascii) (d : uint -> uint) :
  digit_of c = Some d -> (Ascii.eqb c "0" = true <-> d = D0).
Proof. intros H. apply (digit_of_cases c d H). Qed.

(** The integer part that [lex_int] reads is one of the grammar. *)
Lemma lex_digits_int (s : string) (u : uint) (r : string) :
  lex_digits s = (u, r) -> unorm u = u -> skip_int s = Some r.
Proof.
  destruct s as [|c s']; cbn.
  - intros [= <- <-]. discriminate.
  - unfold skip_digits, is_digit.
    destruct (digit_of c) as [d|] eqn:Hd.
    + destruct (lex_digits s') as [u' r'] eqn:E. intros [= <- <-] Hn.
      destruct (Ascii.eqb c "0") eqn:Hz.
      * apply (digit_zero c d Hd) in Hz. subst d.
        apply unorm_zero in Hn. subst u'.
        pose proof (lex_digits_nil s') as H0. rewrite E in H0.
        cbn in H0. now rewrite H0.
      * reflexivity.
    + intros [= <- <-]. discriminate.
Qed.

Lemma lex_int_number (s : string) (n : Z) (r : string) :
  lex_int s = Some (n, r) -> ends_number r -> skip_number s = Some r.
Proof.
  unfold lex_int, skip_number.
  set (body := match s with
               | String c r0 => if Ascii.eqb c "-" then r0 else s
               | EmptyString => s
               end).
  assert ((let '(neg, b) :=
             match s with
             | String c r0 => if Ascii.eqb c "-" then (true, r0) else (false, s)
             | EmptyString => (false, s)
             end in b) = body) as Hb.
  { destruct s as [|c r0]; [reflexivity|]. subst body.
    now destruct (Ascii.eqb c "-"). }
  destruct (match s with
            | String c r0 => if Ascii.eqb c "-" then (true, r0) else (false, s)
            | EmptyString => (false, s)
            end) as [neg b]. cbn in Hb. subst b.
  destruct (lex_digits body) as [u rest] eqn:E.
  destruct (uint_beq (unorm u) u) eqn:Hn; [|discriminate].
  intros [= _ <-] Hend. apply uint_beq_eq in Hn.
  rewrite (lex_digits_int body u rest E Hn). cbn.
  unfold skip_fraction, skip_exponent.
  destruct rest as [|c rest']; [reflexivity|].
  destruct Hend as (H1 & H2 & H3). cbn. rewrite H1. cbn.
  rewrite H2, H3. reflexivity.
Qed.

Lemma unicode_escape_hex (h1 h2 h3 h4 x : ascii) :
  unicode_escape h1 h2 h3 h4 = Some x ->
  is_hex h1 && is_hex h2 && is_hex h3 && is_hex h4 = true.
Proof.
  unfold unicode_escape, is_hex.
  destruct (hex_val h1), (hex_val h2), (hex_val h3), (hex_val h4);
    try discriminate. reflexivity.
Qed.

Lemma push_char_rest (c : ascii) (o : option (string * string))
    (t r : string) :
  push_char c o = Some (t, r) -> exists t', o = Some (t', r).
Proof.
  destruct o as [[t' r']|]; cbn; [|discriminate].
  intros [= _ <-]. now exists t'.
Qed.

Lemma lex_string_skip_within (n : nat) (s t r : string) :
  String.length s <= n -> lex_string s = Some (t, r) ->
  skip_string s = Some r.
Proof.
  revert s t r. induction n as [|n IH]; intros s t r Hlen.
  - destruct s; [discriminate|cbn in Hlen; lia].
  - destruct s as [|c s1]; [discriminate|]. cbn in Hlen. cbn.
    destruct (Ascii.eqb c dquote); [now intros [= _ <-]|].
    destruct (Ascii.eqb c backslash).
    + destruct s1 as [|e s2]; [discriminate|]. cbn in Hlen.
      destruct (Ascii.eqb e "u").
      * destruct s2 as [|h1 [|h2 [|h3 [|h4 s3]]]]; try discriminate.
        cbn in Hlen.
        destruct (unicode_escape h1 h2 h3 h4) as [x|] eqn:Hu; [|discriminate].
        rewrite (unicode_escape_hex _ _ _ _ _ Hu).
        intros H. apply push_char_rest in H as [t' H].
        apply (IH s3 t' r); [lia | exact H].
      * destruct (simple_escape e); [|discriminate].
        intros H. apply push_char_rest in H as [t' H].
        apply (IH s2 t' r); [lia | exact H].
    + destruct (N_of_ascii c <? 32)%N; [discriminate|].
      intros H. apply push_char_rest in H as [t' H].
      apply (IH s1 t' r); [lia | exact H].
Qed.

Lemma lex_string_skip (s t r : string) :
  lex_string s = Some (t, r) -> skip_string s = Some r.
Proof. apply (lex_string_skip_within (String.length s)). apply le_n. Qed.

Lemma expect_skip (lit : string) (v v' : json) (s r : string) :
  expect lit v s = Some (v', r) -> strip_prefix lit s = Some r.
Proof.
  unfold expect. destruct (strip_prefix lit s); [|discriminate].
  now intros [= _ <-].
Qed.

(** After white space, a comma or a closing bracket ends a number. *)
Lemma separator_ends_number (r r' : string) (c : ascii) :
  skip_ws r = String c r' ->
  Ascii.eqb c "," = true \/ Ascii.eqb c "]" = true \/ Ascii.eqb c "}" = true ->
  ends_number r.
Proof.
  destruct r as [|a r0]; [discriminate|]. cbn.
  destruct (is_json_ws a) eqn:Hws.
  - intros _ _. unfold is_json_ws in Hws.
    destruct (Ascii.eqb_spec a ".") as [->|_]; [discriminate Hws|].
    destruct (Ascii.eqb_spec a "e") as [->|_]; [discriminate Hws|].
    destruct (Ascii.eqb_spec a "E") as [->|_]; [discriminate Hws|].
    repeat split.
  - intros [= <- <-] Hc.
    destruct (Ascii.eqb_spec a ".") as [->|_];
      [destruct Hc as [H|[H|H]]; discriminate H|].
    destruct (Ascii.eqb_spec a "e") as [->|_];
      [destruct Hc as [H|[H|H]]; discriminate H|].
    destruct (Ascii.eqb_spec a "E") as [->|_];
      [destruct Hc as [H|[H|H]]; discriminate H|].
    repeat split.
Qed.

Lemma blank_ends_number (r : string) :
  skip_ws r = EmptyString -> ends_number r.
Proof.
  destruct r as [|a r0]; [reflexivity|]. cbn.
  destruct (is_json_ws a) eqn:Hws; [|discriminate].
  intros _. unfold is_json_ws in Hws.
  destruct (Ascii.eqb_spec a ".") as [->|_]; [discriminate Hws|].
  destruct (Ascii.eqb_spec a "e") as [->|_]; [discriminate Hws|].
  destruct (Ascii.eqb_spec a "E") as [->|_]; [discriminate Hws|].
  repeat split.
Qed.

(** What [parse] reads, [valid] recognises. *)
Lemma parse_skip (fuel : nat) :
  (forall s v r, parse_value fuel s = Some (v, r) -> ends_number r ->
                 skip_value fuel s = Some r) /\
  (forall s vs r, parse_elems fuel s = Some (vs, r) ->
                  skip_elems fuel s = Some r) /\
  (forall s ms r, parse_members fuel s = Some (ms, r) ->
                  skip_members fuel s = Some r).
Proof.
  induction fuel as [|f (IHv & IHe & IHm)];
    [repeat split; intros; discriminate|].
  split; [|split].
  - intros s v r. cbn [parse_value skip_value].
    destruct (skip_ws s) as [|c r0]; [discriminate|].
    destruct (is_digit c || Ascii.eqb c "-").
    { destruct (lex_int (String c r0)) as [[n r']|] eqn:E; [|discriminate].
      intros [= _ <-] Hend. now apply (lex_int_number _ n). }
    destruct (Ascii.eqb c dquote).
    { destruct (lex_string r0) as [[t r']|] eqn:E; [|discriminate].
      intros [= _ <-] _. now apply (lex_string_skip _ t). }
    destruct (Ascii.eqb c "n"); [intros H _; now apply expect_skip in H|].
    destruct (Ascii.eqb c "t"); [intros H _; now apply expect_skip in H|].
    destruct (Ascii.eqb c "f"); [intros H _; now apply expect_skip in H|].
    destruct (Ascii.eqb c "[").
    { destruct (skip_ws r0) as [|c' r']; [discriminate|].
      destruct (Ascii.eqb c' "]"); [now intros [= _ <-]|].
      destruct (parse_elems f r0) as [[xs r'']|] eqn:E; [|discriminate].
      intros [= _ <-] _. now apply (IHe _ xs). }
    destruct (Ascii.eqb c "{"); [|discriminate].
    destruct (skip_ws r0) as [|c' r']; [discriminate|].
    destruct (Ascii.eqb c' "}"); [now intros [= _ <-]|].
    destruct (parse_members f r0) as [[ms r'']|] eqn:E; [|discriminate].
    intros [= _ <-] _. now apply (IHm _ ms).
  - intros s vs r. cbn [parse_elems skip_elems].
    destruct (parse_value f s) as [[v r1]|] eqn:Ev; [|discriminate].
    destruct (skip_ws r1) as [|c r2] eqn:Ews; [discriminate|].
    destruct (Ascii.eqb c ",") eqn:Hcomma.
    + rewrite (IHv s v r1 Ev)
        by (apply (separator_ends_number r1 r2 c Ews); now left).
      rewrite Ews, Hcomma.
      destruct (parse_elems f r2) as [[vs' r3]|] eqn:Ee; [|discriminate].
      intros [= _ <-]. now apply (IHe _ vs').
    + destruct (Ascii.eqb c "]") eqn:Hclose; [|discriminate].
      rewrite (IHv s v r1 Ev)
        by (apply (separator_ends_number r1 r2 c Ews); right; now left).
      rewrite Ews, Hcomma, Hclose. now intros [= _ <-].
  - intros s ms r. cbn [parse_members skip_members].
    destruct (skip_ws s) as [|q r0]; [discriminate|].
    destruct (Ascii.eqb q dquote); [|discriminate].
    destruct (lex_string r0) as [[key r1]|] eqn:Ek; [|discriminate].
    rewrite (lex_string_skip _ _ _ Ek).
    destruct (skip_ws r1) as [|c r2]; [discriminate|].
    destruct (Ascii.eqb c ":"); [|discriminate].
    destruct (parse_value f r2) as [[v r3]|] eqn:Ev; [|discriminate].
    destruct (skip_ws r3) as [|d r4] eqn:Ews; [discriminate|].
    destruct (Ascii.eqb d ",") eqn:Hcomma.
    + rewrite (IHv r2 v r3 Ev)
        by (apply (separator_ends_number r3 r4 d Ews); now left).
      rewrite Ews, Hcomma.
      destruct (parse_members f r4) as [[ms' r5]|] eqn:Em; [|discriminate].
      intros [= _ <-]. now apply (IHm _ ms').
    + destruct (Ascii.eqb d "}") eqn:Hclose; [|discriminate].
      rewrite (IHv r2 v r3 Ev)
        by (apply (separator_ends_number r3 r4 d Ews); right; now right).
      rewrite Ews, Hcomma, Hclose. now intros [= _ <-].
Qed.

(** A text that [parse] reads is JSON. *)
Lemma parse_valid (s : string) (v : json) : parse s = Some v -> valid s = true.
Proof.
  unfold parse, valid.
  destruct (parse_value (S (String.length s)) s) as [[v' r]|] eqn:E;
    [|discriminate].
  destruct (skip_ws r) eqn:Ews; [|discriminate]. intros _.
  rewrite (proj1 (parse_skip _) s v' r E (blank_ends_number r Ews)).
  now rewrite Ews.
Qed.

(** A text that is no JSON is a SyntaxError. *)
Lemma invalid_text (s : string) : valid s = false -> parse_text s = Invalid.
Proof.
  intros Hv. unfold parse_text.
  destruct (parse s) as [v|] eqn:E; [|now rewrite Hv].
  apply parse_valid in E. congruence.
Qed.

End GrammarFacts.

(** ** The store, where a call may throw *)

Module RaisingFacts.

Import JSON Storage StorageFacts TextFacts StoreFacts.

(** When [ensureStorageDir] returns, it leaves the world that
    [Storage.ensureStorageDir] gives. *)
Lemma ensureStorageDir_returns (w w1 : World) :
  Raising.ensureStorageDir w = inr w1 -> w1 = ensureStorageDir w.
Proof.
  unfold Raising.ensureStorageDir, ensureStorageDir, Raising.mkdirSync.
  destruct (negb _); [destruct (mkdir_error _ _); [discriminate|]|];
    now intros [= <-].
Qed.

Lemma storagePath_not_dir (n : string) (w : World) :
  storagePath n w <> STORAGE_DIR w.
Proof.
  unfold storagePath, path_join. cbn [join_with].
  apply append_fresh. discriminate.
Qed.

(** Ensuring the directory does not make the backing file. *)
Lemma existsSync_ensure (n : string) (w : World) :
  existsSync (storagePath n w) (ensureStorageDir w)
  = existsSync (storagePath n w) w.
Proof.
  unfold existsSync. rewrite ensureStorageDir_files.
  destruct (w_files w !! storagePath n w); [reflexivity|].
  unfold ensureStorageDir. destruct (negb _); [|reflexivity]. cbn.
  apply bool_decide_ext. rewrite elem_of_union, elem_of_singleton.
  pose proof (storagePath_not_dir n w). tauto.
Qed.

(** On a document of its type the two readings agree. *)
Lemma readStore_agrees {T} `{Document T} (strict : bool) (n : string)
    (d t : T) (w w1 : World) (raw : string) (ms : list (string * json)) :
  Raising.ensureStorageDir w = inr w1 ->
  w_files w !! storagePath n w = Some raw ->
  parse raw = Some (JObj ms) ->
  of_json (accept_version (get_field "schema_version" (to_json d)) ms)
    = Some t ->
  Raising.readStore strict n (to_json d) w
    = inr (Some (JObj (accept_version
                         (get_field "schema_version" (to_json d)) ms)), w1) /\
  readStore n d w = (t, w1).
Proof.
  intros He Hfile Hparse Hof.
  pose proof (ensureStorageDir_returns w w1 He) as ->.
  split.
  - unfold Raising.readStore. rewrite He, storagePath_ensure, existsSync_ensure.
    unfold existsSync, readFileSync.
    rewrite ensureStorageDir_files, Hfile. cbn [negb].
    unfold Raising.read_text, parse_text. now rewrite Hparse.
  - pose proof (readStore_snd n d w) as Hs.
    pose proof (readStore_fst n d w) as Hf.
    rewrite Hfile in Hf. cbn [load] in Hf. rewrite Hparse, Hof in Hf.
    destruct (readStore n d w). cbn in *. congruence.
Qed.

Lemma blocked_path (n : string) :
  w_files Samples.blocked !! storagePath n Samples.blocked = None.
Proof.
  assert (storagePath n Samples.blocked
          = "/home/u/.claude" +:+ ("/orchestrator/" +:+ n)) as ->
    by reflexivity.
  apply lookup_singleton_ne. intros E. symmetry in E. revert E.
  apply append_fresh. discriminate.
Qed.

Lemma read_text_value (strict : bool) (expected : option json)
    (raw : string) (v : json) :
  parse raw = Some v ->
  Raising.read_text strict expected raw
  = match Raising.version_checked strict expected v with
    | inr v' => inr (Some v')
    | inl e => inl e
    end.
Proof. intros Hp. unfold Raising.read_text, parse_text. now rewrite Hp. Qed.

(** What [readStore] returns once the directory is ensured. *)
Lemma readStore_returns (strict : bool) (filename : string)
    (defaultValue : list (string * json)) (w w1 : World) :
  Raising.ensureStorageDir w = inr w1 ->
  Raising.readStore strict filename defaultValue w
  = inr (match w_files w !! storagePath filename w with
         | Some raw =>
             match Raising.read_text strict
                     (get_field "schema_version" defaultValue) raw with
             | inr v => v
             | inl _ => Some (JObj defaultValue)
             end
         | None => Some (JObj defaultValue)
         end, w1).
Proof.
  intros He. pose proof (ensureStorageDir_returns w w1 He) as ->.
  unfold Raising.readStore.
  rewrite He, storagePath_ensure, existsSync_ensure.
  unfold existsSync, readFileSync. rewrite ensureStorageDir_files.
  destruct (w_files w !! storagePath filename w) as [raw|]; cbn [negb].
  - now destruct (Raising.read_text _ _ raw).
  - now destruct (bool_decide _).
Qed.

(** C7. [readStore] raises when the storage directory is missing and
    cannot be made: [ensureStorageDir] is called before the [try], and
    what [mkdirSync] throws is thrown to the caller.  So it is in a
    home where [.claude] is a file: the backing file is missing and
    the call throws ENOTDIR.  When the directory is there or can be
    made, the call returns: the default when the backing file is
    missing and when its content is no JSON, the object of the file
    after the version check, and an array of the file as it is. *)
Theorem readStore_raises_without_its_directory (strict : bool)
    (filename : string) (defaultValue : list (string * json)) (w : World) :
  (forall e,
     Raising.ensureStorageDir w = inl e ->
     Raising.readStore strict filename defaultValue w = inl e) /\
  (forall w1,
     Raising.ensureStorageDir w = inr w1 ->
     exists v,
       Raising.readStore strict filename defaultValue w = inr (v, w1) /\
       (existsSync (storagePath filename w) w = false ->
        v = Some (JObj defaultValue)) /\
       (forall raw,
          w_files w !! storagePath filename w = Some raw ->
          (valid raw = false -> v = Some (JObj defaultValue)) /\
          (forall ms,
             parse raw = Some (JObj ms) ->
             v = Some (JObj (accept_version
                               (get_field "schema_version" defaultValue)
                               ms))) /\
          (forall xs, parse raw = Some (JArr xs) -> v = Some (JArr xs)))) /\
  existsSync (storagePath filename Samples.blocked) Samples.blocked = false /\
  existsSync (STORAGE_DIR Samples.blocked) Samples.blocked = false /\
  mkdir_error (STORAGE_DIR Samples.blocked) Samples.blocked = Some ENOTDIR /\
  Raising.readStore strict filename defaultValue Samples.blocked
    = inl ENOTDIR.
Proof.
  split; [|split; [|split; [|split; [|split]]]].
  - intros e He. unfold Raising.readStore. now rewrite He.
  - intros w1 He. rewrite (readStore_returns strict _ _ _ _ He).
    eexists. split; [reflexivity|]. split.
    + unfold existsSync.
      destruct (w_files w !! storagePath filename w); [discriminate|].
      reflexivity.
    + intros raw ->. split; [|split].
      * intros Hbad. apply GrammarFacts.invalid_text in Hbad.
        unfold Raising.read_text. now rewrite Hbad.
      * intros ms Hp. now rewrite (read_text_value _ _ _ _ Hp).
      * intros xs Hp. now rewrite (read_text_value _ _ _ _ Hp).
  - unfold existsSync. rewrite blocked_path. reflexivity.
  - reflexivity.
  - reflexivity.
  - unfold Raising.readStore.
    assert (Raising.ensureStorageDir Samples.blocked = inl ENOTDIR) as ->
      by reflexivity.
    reflexivity.
Qed.

End RaisingFacts.

(** ** The ledger during a dispatch *)

Module TraceFacts.

Import JSON Storage Dispatch StorageFacts LedgerFacts DispatchFacts TextFacts
       StoreFacts.

Lemma replay_app (es1 es2 : list event) (f : gmap string string) :
  replay (es1 ++ es2) f = replay es2 (replay es1 f).
Proof. apply fold_left_app. Qed.

Lemma follows_refl (w : World) : follows w w [].
Proof. repeat split. cbn. now rewrite app_nil_r. Qed.

Lemma follows_trans (w0 w1 w2 : World) (es1 es2 : list event) :
  follows w0 w1 es1 -> follows w1 w2 es2 -> follows w0 w2 (es1 ++ es2).
Proof.
  intros (T1 & F1 & H1) (T2 & F2 & H2). repeat split.
  - now rewrite T2, T1, app_assoc.
  - now rewrite F2, F1, replay_app.
  - now rewrite H2.
Qed.

Lemma follows_mkdirSync (p : string) (w : World) :
  follows w (mkdirSync p w) [EvMkdir p].
Proof. repeat split. Qed.

Lemma follows_writeFileSync (p c : string) (w : World) :
  follows w (writeFileSync p c w) [EvWriteFile p c].
Proof. repeat split. Qed.

Lemma follows_ensure (w : World) :
  exists l, follows w (ensureStorageDir w) l /\
            (l = [] \/ l = [EvMkdir (STORAGE_DIR w)]).
Proof.
  unfold ensureStorageDir. destruct (negb _).
  - eexists. split; [apply follows_mkdirSync | now right].
  - exists []. split; [apply follows_refl | now left].
Qed.

Lemma follows_atomicWrite {T} `{Document T} (n : string) (t : T) (w : World) :
  exists l,
    follows w (atomicWrite n t w)
      (l ++ [EvWriteFile (storagePath n w +:+ ".tmp")
               (stringify (JObj (to_json t)));
             EvFsync (storagePath n w +:+ ".tmp");
             EvRename (storagePath n w +:+ ".tmp") (storagePath n w)]) /\
    (l = [] \/ l = [EvMkdir (STORAGE_DIR w)]).
Proof.
  destruct (follows_ensure w) as (l & Hl & Hcase).
  exists l. split; [|exact Hcase].
  eapply follows_trans; [exact Hl|].
  unfold atomicWrite. rewrite storagePath_ensure.
  unfold renameSync, fsync, writeFileSync, log, with_files. cbn.
  rewrite lookup_insert_eq. repeat split; cbn.
  - now rewrite <- !app_assoc.
  - now rewrite lookup_insert_eq.
Qed.

Lemma follows_updateStore (f : DispatchesStore -> DispatchesStore)
    (w : World) :
  exists l,
    follows w (snd (updateStore FILE DEFAULT f w))
      (l ++ [EvWriteFile (storagePath FILE w +:+ ".tmp")
               (stringify (JObj (to_json (f (ledger w)))));
             EvFsync (storagePath FILE w +:+ ".tmp");
             EvRename (storagePath FILE w +:+ ".tmp") (storagePath FILE w)]) /\
    Forall (fun e => exists d, e = EvMkdir d) l.
Proof.
  unfold updateStore, ledger.
  pose proof (readStore_snd FILE DEFAULT w) as Hs.
  destruct (readStore FILE DEFAULT w) as [current w1]. cbn [fst snd] in *.
  subst w1.
  destruct (follows_ensure w) as (l1 & H1 & C1).
  destruct (follows_atomicWrite FILE (f current) (ensureStorageDir w))
    as (l2 & H2 & C2).
  rewrite storagePath_ensure in H2.
  exists (l1 ++ l2). split.
  - rewrite <- app_assoc. eapply follows_trans; [exact H1 | exact H2].
  - apply Forall_app. split.
    + destruct C1 as [-> | ->]; repeat constructor. now eexists.
    + destruct C2 as [-> | ->]; repeat constructor. now eexists.
Qed.

Lemma follows_launch (m : Model) (p : string) (o : Options) (w : World) :
  exists argv env marker,
    follows w (snd (launch m p o w))
      ([EvMkdir (new_session w);
        EvWriteFile (prompt_path (new_session w)) p;
        EvSpawn "bash" argv env] ++ marker) /\
    (marker = [] \/
     marker = [EvWriteFile (markerPath (new_session w) (genId "dsp" w))
                 "running"]).
Proof.
  unfold launch, spawn.
  change (w_spawn (writeFileSync _ _ (mkdirSync _ w))) with (w_spawn w).
  eexists _, _. destruct (w_spawn w) as [[child|]|message].
  - eexists. split; [|now right].
    repeat split; cbn; now rewrite <- ?app_assoc.
  - eexists. split; [|now right].
    repeat split; cbn; now rewrite <- ?app_assoc.
  - exists []. split; [|now left].
    repeat split; cbn; now rewrite <- ?app_assoc.
Qed.

Lemma leaves_mkdir (path d : string) : leaves path (EvMkdir d).
Proof. now intros f. Qed.

Lemma leaves_fsync (path p : string) : leaves path (EvFsync p).
Proof. now intros f. Qed.

Lemma leaves_spawn (path c : string) (argv : list string)
    (env : list (string * string)) : leaves path (EvSpawn c argv env).
Proof. now intros f. Qed.

Lemma leaves_write (path p c : string) :
  p <> path -> leaves path (EvWriteFile p c).
Proof. intros Hne f. cbn. now apply lookup_insert_ne. Qed.

(** The files at [path] during events that leave it. *)
Lemma replay_leaves (path : string) (quiet rest : list event) (k : nat)
    (f : gmap string string) :
  Forall (leaves path) quiet -> k <= length quiet ->
  replay (firstn k (quiet ++ rest)) f !! path = f !! path.
Proof.
  intros Hq. revert k f.
  induction Hq as [|e quiet He Hq IH]; intros k f Hk.
  - cbn in Hk. assert (k = 0) as -> by lia. reflexivity.
  - destruct k as [|k]; [reflexivity|]. cbn in Hk |- *.
    unfold replay in *. cbn [fold_left]. rewrite IH by lia. apply He.
Qed.

(** C3, as the code has it.  A successful [dispatch] writes the
    ledger once, by its last event, the rename of the temporary file
    onto it, after the spawn: no other event of the call puts a file
    at the path of the ledger.  What a reader finds between two
    events of the call is the ledger as it was before the call, up
    to that rename; after it, the ledger with one more row, which is
    in status [running]: the row is never found in status
    [created]. *)
Theorem ledger_written_after_spawn (args : DispatchArgs) (w : World)
    (Hok : isError (fst (dispatch args w)) = false) :
  exists task pre argv env mid,
    let target := storagePath FILE w in
    let events :=
      pre ++ [EvSpawn "bash" argv env] ++ mid ++
      [EvRename (target +:+ ".tmp") target] in
    w_trace (snd (dispatch args w)) = w_trace w ++ events /\
    w_files (snd (dispatch args w)) = replay events (w_files w) /\
    Forall (fun e => is_spawn e = false) (pre ++ mid) /\
    Forall (fun e => touches target e = false)
           (pre ++ [EvSpawn "bash" argv env] ++ mid) /\
    (forall k, k < length events ->
       ledger_among (replay (firstn k events) (w_files w)) w = ledger w) /\
    ledger_among (replay events (w_files w)) w
      = ledger (snd (dispatch args w)) /\
    tasks (ledger (snd (dispatch args w))) = tasks (ledger w) ++ [task] /\
    status task = "running"%string /\
    id task = genId "dsp" w.
Proof.
  destruct (dispatch_checks args w Hok) as (m & p & oo & -> & Hp & Hv & Hw).
  pose proof (dispatch_passes m p oo w Hp Hv Hw) as Hpass. cbv zeta in Hpass.
  destruct (dispatch_effects m p oo w Hp Hv Hw) as (Hreply & Hledger & _).
  rewrite Hreply in Hok. apply dispatch_reply_running in Hok.
  set (o := match oo with Some o => o | None => no_options end) in *.
  destruct (follows_launch m p o w)
    as (argv & env & marker & Hlaunch & Hmarker).
  destruct (follows_updateStore
              (fun s => with_tasks (tasks s ++ [fst (launch m p o w)]) s)
              (snd (launch m p o w))) as (dirs & Hsave & Hdirs).
  assert (storagePath FILE (snd (launch m p o w)) = storagePath FILE w)
    as Hpath
    by (unfold storagePath, STORAGE_DIR; now rewrite launch_home).
  rewrite Hpath in Hsave.
  pose proof (follows_trans _ _ _ _ _ Hlaunch Hsave) as Hall.
  assert (snd (dispatch (mkDispatchArgs (Some m) (Some p) oo) w)
          = snd (updateStore FILE DEFAULT
                   (fun s => with_tasks (tasks s ++ [fst (launch m p o w)]) s)
                   (snd (launch m p o w)))) as Hsnd
    by now rewrite Hpass.
  rewrite <- Hsnd in Hall.
  set (target := storagePath FILE w) in *.
  set (text := stringify _) in *.
  exists (launched_row m p o w),
         [EvMkdir (new_session w); EvWriteFile (prompt_path (new_session w)) p],
         argv, env,
         (marker ++ dirs ++
          [EvWriteFile (target +:+ ".tmp") text; EvFsync (target +:+ ".tmp")]).
  cbv zeta.
  assert (([EvMkdir (new_session w);
            EvWriteFile (prompt_path (new_session w)) p;
            EvSpawn "bash" argv env] ++ marker) ++
          dirs ++
          [EvWriteFile (target +:+ ".tmp") text; EvFsync (target +:+ ".tmp");
           EvRename (target +:+ ".tmp") target]
          = [EvMkdir (new_session w);
             EvWriteFile (prompt_path (new_session w)) p] ++
            [EvSpawn "bash" argv env] ++
            (marker ++ dirs ++
             [EvWriteFile (target +:+ ".tmp") text;
              EvFsync (target +:+ ".tmp")]) ++
            [EvRename (target +:+ ".tmp") target]) as Hshape
    by (cbn; rewrite <- !app_assoc; reflexivity).
  rewrite Hshape in Hall. clear Hshape.
  destruct Hall as (Htrace & Hfiles & Hhome).
  assert (Forall (leaves target)
            ([EvMkdir (new_session w);
              EvWriteFile (prompt_path (new_session w)) p] ++
             [EvSpawn "bash" argv env] ++
             marker ++ dirs ++
             [EvWriteFile (target +:+ ".tmp") text;
              EvFsync (target +:+ ".tmp")])) as Hquiet.
  { repeat (apply Forall_app; split); repeat apply List.Forall_cons;
      try apply List.Forall_nil;
      try apply leaves_mkdir; try apply leaves_fsync; try apply leaves_spawn.
    - apply leaves_write. apply session_file_not_ledger.
    - destruct Hmarker as [-> | ->]; repeat constructor.
      apply leaves_write. apply session_file_not_ledger.
    - eapply List.Forall_impl; [|exact Hdirs].
      intros e [d ->]. apply leaves_mkdir.
    - apply leaves_write. apply tmp_not_target. }
  split; [exact Htrace|]. split; [exact Hfiles|].
  split; [|split; [|split; [|split; [|split; [exact Hledger|]]]]].
  - repeat (apply Forall_app; split); repeat apply List.Forall_cons;
      try apply List.Forall_nil; try reflexivity.
    + destruct Hmarker as [-> | ->]; repeat constructor.
    + eapply List.Forall_impl; [|exact Hdirs]. now intros e [d ->].
  - repeat (apply Forall_app; split); repeat apply List.Forall_cons;
      try apply List.Forall_nil; try reflexivity.
    + cbn. apply String.eqb_neq. apply session_file_not_ledger.
    + destruct Hmarker as [-> | ->]; repeat constructor.
      cbn. apply String.eqb_neq. apply session_file_not_ledger.
    + eapply List.Forall_impl; [|exact Hdirs]. now intros e [d ->].
    + cbn. apply String.eqb_neq. apply tmp_not_target.
  - intros k Hk. unfold ledger_among, ledger. rewrite readStore_fst.
    f_equal. fold target.
    assert ([EvMkdir (new_session w);
             EvWriteFile (prompt_path (new_session w)) p] ++
            [EvSpawn "bash" argv env] ++
            (marker ++ dirs ++
             [EvWriteFile (target +:+ ".tmp") text;
              EvFsync (target +:+ ".tmp")]) ++
            [EvRename (target +:+ ".tmp") target]
            = ([EvMkdir (new_session w);
                EvWriteFile (prompt_path (new_session w)) p] ++
               [EvSpawn "bash" argv env] ++
               marker ++ dirs ++
               [EvWriteFile (target +:+ ".tmp") text;
                EvFsync (target +:+ ".tmp")]) ++
              [EvRename (target +:+ ".tmp") target]) as Hsplit
      by (cbn; rewrite <- !app_assoc; reflexivity).
    rewrite Hsplit in Hk |- *.
    apply replay_leaves; [exact Hquiet|].
    rewrite length_app in Hk. cbn [length] in Hk. lia.
  - unfold ledger_among, ledger. rewrite readStore_fst, <- Hfiles.
    unfold storagePath, STORAGE_DIR. now rewrite Hhome.
  - unfold launched_row in *.
    destruct (w_spawn w); [now split | now cbn in Hok].
Qed.

(** A first dispatch on a machine with the wrapper installed. *)
Lemma ledger_written_after_spawn_witness :
  exists task,
    tasks (ledger (snd (dispatch Samples.say_hi
                          (Samples.installed Samples.bare))))
      = tasks (ledger (Samples.installed Samples.bare)) ++ [task] /\
    status task = "running"%string.
Proof.
  destruct (ledger_written_after_spawn Samples.say_hi
              (Samples.installed Samples.bare)
              ltac:(vm_compute; reflexivity))
    as (task & pre & argv & env & mid & H).
  cbv zeta in H. destruct H as (_ & _ & _ & _ & _ & _ & Hrows & Hst & _).
  exists task. split; [exact Hrows | exact Hst].
Defined.

End TraceFacts.

Module UtilFacts.

Import JSON TextFacts.

Lemma hex_digits_app (n : nat) (x : N) (k : string) :
  hex_digits n x k = hex_digits n x "" +:+ k.
Proof.
  revert x k. induction n as [|n IH]; intros x k; [reflexivity|].
  cbn [hex_digits]. rewrite IH, (IH _ (String _ "")).
  now rewrite DispatchFacts.append_assoc.
Qed.

Lemma hex_digits_length (n : nat) (x : N) :
  String.length (hex_digits n x "") = n.
Proof.
  revert x. induction n as [|n IH]; intros x; [reflexivity|].
  cbn [hex_digits]. rewrite hex_digits_app, length_append, IH. cbn. lia.
Qed.

Lemma hex_digit_code (n : N) :
  (n < 16)%N ->
  N_of_ascii (hex_digit n) = (if (n <? 10)%N then 48 + n else 87 + n)%N.
Proof.
  intros Hn. unfold hex_digit.
  destruct (n <? 10)%N eqn:E; apply N_ascii_embedding; lia.
Qed.

Lemma hex_digit_inj (a b : N) :
  (a < 16)%N -> (b < 16)%N -> hex_digit a = hex_digit b -> a = b.
Proof.
  intros Ha Hb E. apply (f_equal N_of_ascii) in E.
  rewrite !hex_digit_code in E by assumption.
  destruct (a <? 10)%N eqn:Ea, (b <? 10)%N eqn:Eb;
    rewrite ?N.ltb_lt, ?N.ltb_ge in *; lia.
Qed.

Lemma hex_digit_in (n : N) : (n < 16)%N -> In (hex_digit n) hex_alphabet.
Proof.
  intros Hn. rewrite <- (N2Nat.id n).
  assert (N.to_nat n < 16) as Hk by lia. revert Hk.
  generalize (N.to_nat n). intros k Hk.
  do 16 (destruct k as [|k]; [vm_compute; tauto|]). lia.
Qed.

Lemma hex_digits_alphabet (n : nat) (x : N) :
  Forall (fun c => In c hex_alphabet)
         (list_ascii_of_string (hex_digits n x "")).
Proof.
  revert x. induction n as [|n IH]; intros x; [constructor|].
  cbn [hex_digits]. rewrite hex_digits_app.
  assert (forall a b, list_ascii_of_string (a +:+ b)
                      = list_ascii_of_string a ++ list_ascii_of_string b) as Happ.
  { intros a b. induction a as [|c a IHa]; [reflexivity|].
    rewrite append_cons. cbn. now rewrite IHa. }
  rewrite Happ. apply Forall_app. split; [apply IH|].
  apply List.Forall_cons; [|apply List.Forall_nil].
  apply hex_digit_in. apply N.mod_lt. discriminate.
Qed.

Lemma append_same_length (a b c d : string) :
  String.length a = String.length b -> a +:+ c = b +:+ d -> a = b /\ c = d.
Proof.
  revert b. induction a as [|x a IH]; intros [|y b] Hl E;
    try discriminate Hl.
  - now split.
  - rewrite !append_cons in E. injection E as -> E. injection Hl as Hl.
    destruct (IH b Hl E) as [-> ->]. now split.
Qed.

Lemma hex_digits_inj (n : nat) (x y : N) :
  (x < 16 ^ N.of_nat n)%N -> (y < 16 ^ N.of_nat n)%N ->
  hex_digits n x "" = hex_digits n y "" -> x = y.
Proof.
  revert x y. induction n as [|n IH]; intros x y Hx Hy E.
  - cbn in Hx, Hy. lia.
  - cbn [hex_digits] in E.
    rewrite (hex_digits_app n (x / 16)), (hex_digits_app n (y / 16)) in E.
    apply append_same_length in E as [E1 E2];
      [|now rewrite !hex_digits_length].
    injection E2 as E2.
    rewrite Nat2N.inj_succ, N.pow_succ_r' in Hx, Hy.
    apply hex_digit_inj in E2; try (apply N.mod_lt; discriminate).
    apply IH in E1.
    + rewrite (N.div_mod x 16), (N.div_mod y 16) by discriminate. lia.
    + apply N.Div0.div_lt_upper_bound. lia.
    + apply N.Div0.div_lt_upper_bound. lia.
Qed.

(** X4. An id is its prefix, an underscore and eight lower-case
    hexadecimal digits, and two draws of four random bytes that differ
    give ids that differ. *)
Theorem genId_is_prefix_and_eight_hex_digits (prefix : string) (w w' : World) :
  (exists h,
     genId prefix w = prefix +:+ "_" +:+ h /\
     String.length h = 8 /\
     Forall (fun c => In c hex_alphabet) (list_ascii_of_string h)) /\
  slen (genId prefix w) = (slen prefix + 9)%Z /\
  ((w_random w < 2 ^ 32)%N -> (w_random w' < 2 ^ 32)%N ->
   genId prefix w = genId prefix w' -> w_random w = w_random w').
Proof.
  unfold genId, random_hex. split; [|split].
  - exists (hex_digits 8 (w_random w) ""). split; [reflexivity|].
    split; [apply hex_digits_length | apply hex_digits_alphabet].
  - rewrite !slen_append. unfold slen at 2 3. rewrite hex_digits_length.
    cbn. lia.
  - intros Hw Hw' E. apply append_inv_l in E. apply append_inv_l in E.
    now apply (hex_digits_inj 8).
Qed.

End UtilFacts.

Module MarkerFacts.

Import JSON Storage Dispatch StorageFacts LedgerFacts DispatchFacts
       TextFacts StoreFacts.

(** *** Paths *)

Lemma append_last_inj (a b : string) (c d : ascii) :
  a +:+ str1 c = b +:+ str1 d -> c = d.
Proof.
  revert b. induction a as [|x a IH]; intros [|y b] E.
  - now injection E.
  - exfalso. apply (f_equal String.length) in E.
    rewrite !length_append in E. cbn in E. lia.
  - exfalso. apply (f_equal String.length) in E.
    rewrite !length_append in E. cbn in E. lia.
  - rewrite !append_cons in E. injection E as _ E. now apply IH in E.
Qed.

Lemma markerPath_eq (sd i : string) :
  markerPath sd i = (sd +:+ "/.task-" +:+ i +:+ ".stat") +:+ str1 "e".
Proof.
  unfold markerPath, path_join, join_with. now rewrite !append_assoc.
Qed.

Lemma ledger_path_eq (w : World) :
  storagePath FILE w
  = (w_home w +:+ "/.claude/orchestrator/dispatches.jso") +:+ str1 "n".
Proof. rewrite storagePath_eq. now rewrite !append_assoc. Qed.

Lemma ledger_tmp_eq (w : World) :
  storagePath FILE w +:+ ".tmp"
  = (w_home w +:+ "/.claude/orchestrator/dispatches.json.tm") +:+ str1 "p".
Proof. rewrite storagePath_eq. now rewrite !append_assoc. Qed.

(** No marker is the ledger or its temporary file. *)
Lemma marker_not_ledger (sd i : string) (w : World) :
  markerPath sd i <> storagePath FILE w /\
  markerPath sd i <> storagePath FILE w +:+ ".tmp".
Proof.
  rewrite markerPath_eq, ledger_tmp_eq, ledger_path_eq.
  split; intros E; apply append_last_inj in E; discriminate E.
Qed.

Lemma markerPath_inj (sd i j : string) :
  markerPath sd i = markerPath sd j -> i = j.
Proof.
  unfold markerPath, path_join, join_with. intros E.
  do 3 apply append_inv_l in E. now apply append_inv_r in E.
Qed.

(** *** Markers *)

Lemma status_is_tight (st : string) :
  is_terminal st || is_active st = true -> trim st = st.
Proof.
  unfold is_terminal, is_active. intros H.
  repeat (apply orb_prop in H as [H|H]);
    apply String.eqb_eq in H; subst; reflexivity.
Qed.

Lemma readMarker_written (sd i st : string) (w : World) :
  readMarker sd i (writeMarker sd i st w) = Some (trim st).
Proof.
  rewrite readMarker_files. unfold writeMarker, writeFileSync. cbn.
  now rewrite lookup_insert_eq.
Qed.

(** X5. A marker that is written is the marker that is read: the text
    without the white space around it, which for the six statuses is
    the status itself; the markers of the other tasks of the session
    are left alone. *)
Theorem marker_written_is_marker_read (sessionDir taskId st : string)
    (w : World) :
  readMarker sessionDir taskId (writeMarker sessionDir taskId st w)
    = Some (trim st) /\
  (is_terminal st || is_active st = true ->
   readMarker sessionDir taskId (writeMarker sessionDir taskId st w)
     = Some st) /\
  (forall other, other <> taskId ->
     readMarker sessionDir other (writeMarker sessionDir taskId st w)
     = readMarker sessionDir other w).
Proof.
  pose proof (readMarker_written sessionDir taskId st w) as Hread.
  split; [exact Hread|]. split.
  - intros Hst. now rewrite Hread, (status_is_tight st Hst).
  - intros other Hne. rewrite !readMarker_files.
    unfold writeMarker, writeFileSync. cbn.
    rewrite lookup_insert_ne; [reflexivity|].
    intros E. apply markerPath_inj in E. now apply Hne.
Qed.

(** X6. White space around the status in a marker file is not read: a
    marker that holds a status between runs of blanks and line ends
    reads as that status. *)
Theorem marker_is_read_without_blanks (sessionDir taskId pre st post : string)
    (w : World)
    (Hfile : w_files w !! markerPath sessionDir taskId
             = Some (pre +:+ st +:+ post))
    (Hpre : all_space pre = true)
    (Hpost : all_space post = true) :
  readMarker sessionDir taskId w = Some (trim st) /\
  trim (trim st) = trim st /\
  (is_terminal st || is_active st = true ->
   readMarker sessionDir taskId w = Some st).
Proof.
  assert (readMarker sessionDir taskId w = Some (trim st)) as Hread.
  { rewrite readMarker_files, Hfile. cbn.
    now rewrite trim_surrounded. }
  split; [exact Hread|]. split; [apply trim_idem|].
  intros Hst. now rewrite Hread, (status_is_tight st Hst).
Qed.

(** The marker that a shell writes with [echo]. *)
Lemma marker_is_read_without_blanks_witness :
  readMarker Samples.session Samples.job_id
    (writeFileSync (markerPath Samples.session Samples.job_id)
       (" " +:+ "completed" +:+ str1 newline) Samples.orphan_world)
  = Some "completed"%string.
Proof.
  refine (proj2 (proj2 (marker_is_read_without_blanks
                          Samples.session Samples.job_id " " "completed"
                          (str1 newline) _ _ _ _)) _);
    vm_compute; reflexivity.
Defined.

(** *** Outputs and prompts *)

(** X7. The output that is stored is the artifact when it has at most
    50000 characters, and otherwise its first 50000 characters and the
    truncation mark: never more than 50015 characters.  A missing
    artifact gives no output. *)
Theorem readOutputFile_is_bounded (path : string) (w : World) :
  match readOutputFile path w with
  | Some out =>
      (slen out <= 50015)%Z /\
      exists content,
        w_files w !! path = Some content /\
        ((slen content <= 50000)%Z -> out = content) /\
        ((50000 < slen content)%Z ->
         out = str_slice0 50000 content +:+ truncated_mark /\
         slen out = 50015%Z /\
         is_prefix (str_slice0 50000 content) content = true)
  | None => w_files w !! path = None
  end.
Proof.
  unfold readOutputFile, existsSync, readFileSync.
  destruct (w_files w !! path) as [content|] eqn:E; cbn;
    [|now destruct (bool_decide _)].
  assert (slen truncated_mark = 15%Z) as Hmark by reflexivity.
  destruct (50000 <? slen content)%Z eqn:Hlen.
  - apply Z.ltb_lt in Hlen.
    assert (slen (str_slice0 50000 content +:+ truncated_mark) = 50015%Z) as Hl.
    { rewrite slen_append, str_slice0_length, Hmark by lia. lia. }
    split; [lia|]. exists content. split; [reflexivity|]. split; [lia|].
    intros _. split; [reflexivity|]. split; [exact Hl|].
    apply take_str_prefix.
  - apply Z.ltb_ge in Hlen. split; [lia|].
    exists content. split; [reflexivity|]. split; [reflexivity|lia].
Qed.

Lemma stored_prompt_length (p : string) : (slen (stored_prompt p) <= 500)%Z.
Proof.
  unfold stored_prompt. destruct (500 <? slen p)%Z eqn:Hlen.
  - apply Z.ltb_lt in Hlen. rewrite slen_append, str_slice0_length by lia.
    change (slen "...") with 3%Z. lia.
  - now apply Z.ltb_ge in Hlen.
Qed.

(** X8. The prompt that a row keeps has at most 500 characters: the
    prompt itself when it is that short, and otherwise its first 497
    characters and three dots.  Cutting a prompt that is already cut
    changes nothing. *)
Theorem stored_prompt_is_bounded (p : string) :
  (slen (stored_prompt p) <= 500)%Z /\
  ((slen p <= 500)%Z -> stored_prompt p = p) /\
  ((500 < slen p)%Z ->
   stored_prompt p = str_slice0 497 p +:+ "..." /\
   slen (stored_prompt p) = 500%Z /\
   is_prefix (str_slice0 497 p) p = true) /\
  stored_prompt (stored_prompt p) = stored_prompt p.
Proof.
  assert ((500 < slen p)%Z ->
          slen (str_slice0 497 p +:+ "...") = 500%Z) as Hcut.
  { intros H. rewrite slen_append, str_slice0_length by lia.
    change (slen "...") with 3%Z. lia. }
  destruct (500 <? slen p)%Z eqn:Hlen.
  - assert (stored_prompt p = str_slice0 497 p +:+ "...") as Hs
      by (unfold stored_prompt; now rewrite Hlen).
    apply Z.ltb_lt in Hlen. specialize (Hcut Hlen). rewrite !Hs.
    split; [lia|]. split; [lia|]. split.
    + intros _. split; [reflexivity|]. split; [exact Hcut|].
      apply take_str_prefix.
    + unfold stored_prompt. rewrite Hcut. reflexivity.
  - assert (stored_prompt p = p) as Hs
      by (unfold stored_prompt; now rewrite Hlen).
    apply Z.ltb_ge in Hlen. rewrite !Hs.
    split; [lia|]. split; [reflexivity|]. split; [lia|reflexivity].
Qed.

End MarkerFacts.

Module CancelFacts.

Import JSON Storage Dispatch StorageFacts LedgerFacts DispatchFacts
       TextFacts StoreFacts MarkerFacts.

(** *** What a write to the ledger leaves alone *)

Lemma updateStore_snd {T} `{Document T} (n : string) (d : T) (f : T -> T)
    (w : World) :
  snd (updateStore n d f w)
  = atomicWrite n (f (fst (readStore n d w))) (ensureStorageDir w).
Proof.
  unfold updateStore. pose proof (readStore_snd n d w) as Hs.
  destruct (readStore n d w) as [current w1]. cbn [fst snd] in *. now subst.
Qed.

Lemma updateStore_other {T} `{Document T} (n : string) (d : T) (f : T -> T)
    (w : World) (q : string) :
  q <> storagePath n w -> q <> storagePath n w +:+ ".tmp" ->
  w_files (snd (updateStore n d f w)) !! q = w_files w !! q.
Proof.
  intros Hq Htmp. rewrite updateStore_snd, atomicWrite_files.
  rewrite storagePath_ensure, ensureStorageDir_files.
  rewrite lookup_insert_ne by (intros E; now apply Hq).
  apply lookup_delete_ne. intros E. now apply Htmp.
Qed.

Lemma updateStore_procs {T} `{Document T} (n : string) (d : T) (f : T -> T)
    (w : World) :
  w_procs (snd (updateStore n d f w)) = w_procs w.
Proof.
  rewrite updateStore_snd. unfold atomicWrite, renameSync, fsync, writeFileSync.
  cbn. rewrite lookup_insert_eq. cbn. now rewrite !ensureStorageDir_procs.
Qed.

Lemma updateStore_now {T} `{Document T} (n : string) (d : T) (f : T -> T)
    (w : World) :
  w_now (snd (updateStore n d f w)) = w_now w.
Proof.
  rewrite updateStore_snd. unfold atomicWrite, renameSync, fsync, writeFileSync.
  cbn. rewrite lookup_insert_eq. cbn. now rewrite !ensureStorageDir_now.
Qed.

Lemma updateStore_home {T} `{Document T} (n : string) (d : T) (f : T -> T)
    (w : World) :
  w_home (snd (updateStore n d f w)) = w_home w.
Proof.
  rewrite updateStore_snd, atomicWrite_home. apply ensureStorageDir_home.
Qed.

Lemma marker_after_update (sd i : string)
    (f : DispatchesStore -> DispatchesStore) (w : World) :
  readMarker sd i (snd (updateStore FILE DEFAULT f w)) = readMarker sd i w.
Proof.
  rewrite !readMarker_files.
  destruct (marker_not_ledger sd i w) as [H1 H2].
  now rewrite updateStore_other.
Qed.

Lemma ledger_after_marker (sd i st : string) (w : World) :
  ledger (writeMarker sd i st w) = ledger w.
Proof.
  apply ledger_depends; [reflexivity|].
  unfold writeMarker, writeFileSync. cbn.
  apply lookup_insert_ne. apply (marker_not_ledger sd i w).
Qed.

Lemma ledger_read (w : World) :
  readStore FILE DEFAULT w = (ledger w, ensureStorageDir w).
Proof.
  pose proof (readStore_snd FILE DEFAULT w) as Hs. unfold ledger.
  destruct (readStore FILE DEFAULT w). cbn in *. now subst.
Qed.

Lemma store_eq (s s' : DispatchesStore) :
  schema_version s = schema_version s' -> tasks s = tasks s' -> s = s'.
Proof. destruct s, s'. cbn. now intros -> ->. Qed.

(** *** cancel_dispatch *)

Lemma cancel_signals_procs (t : DispatchTask) (w w' : World) :
  w_procs w' = w_procs w -> cancel_signals t w' = cancel_signals t w.
Proof.
  intros Hp. unfold cancel_signals, kill_term, kill0. now rewrite Hp.
Qed.

(** What [cancel_dispatch] does with a task that it may cancel, by
    whether the marker can be written. *)
Lemma cancel_shape (taskId : string) (t : DispatchTask) (w : World) :
  is_empty taskId = false ->
  find_task taskId (ledger w) = Some t ->
  is_active (status t) = true ->
  cancel_dispatch (Some taskId) w
  = match write_error (markerPath (session_dir t) taskId)
            (ensureStorageDir w) with
    | Some e => ((inl e, cancel_signals t w), ensureStorageDir w)
    | None =>
        ((inr (ok ("Task " +:+ quoted taskId +:+ " cancelled")),
          cancel_signals t w),
         snd (updateStore FILE DEFAULT
                (update_rows taskId (fun u =>
                   mkTask (id u) (model u) (prompt u) (options u)
                     (session_dir u) (output_file u) "cancelled" (pid u)
                     (exit_code u) (duration_s u) (output u)
                     (created_at u) (Some (nowISO w)) (error u)))
                (writeMarker (session_dir t) taskId "cancelled"
                   (ensureStorageDir w))))
    end.
Proof.
  intros Hid Hfind Hactive.
  unfold cancel_dispatch. cbn [nonempty]. rewrite Hid, ledger_read, Hfind.
  unfold is_active in Hactive. unfold Raising.writeFileSync.
  destruct (String.eqb (status t) "running"),
           (String.eqb (status t) "created"); try discriminate Hactive;
    cbn [negb andb];
    rewrite (cancel_signals_procs t w) by apply ensureStorageDir_procs;
    (destruct (write_error _ _); [reflexivity|]);
    fold (writeMarker (session_dir t) taskId "cancelled" (ensureStorageDir w));
    destruct (updateStore _ _ _ _) as [s w3] eqn:E; cbn [snd];
    change (nowISO (writeMarker (session_dir t) taskId "cancelled"
                      (ensureStorageDir w)))
      with (w_now (ensureStorageDir w)) in E;
    rewrite ensureStorageDir_now in E; unfold nowISO; now rewrite E.
Qed.

(** X9. Cancelling a task that is [running] or [created].  The group
    of the recorded worker is signalled first, the worker alone only
    when that fails, and nothing when no pid is recorded.  Then the
    marker [cancelled] is written into the session directory of the
    row.  When that write returns, the rows of the id are set to
    [cancelled] with the time of completion, every other field and
    every other row as before, and the call answers that the task is
    cancelled, whether or not a signal could be delivered.  When the
    write throws, the session directory not being there, the call
    throws after the signals are sent: no marker and no row is
    written, and the ledger still holds the task as it was. *)
Theorem cancel_marks_the_task_cancelled (taskId : string) (t : DispatchTask)
    (w : World)
    (Hid : is_empty taskId = false)
    (Hfind : find_task taskId (ledger w) = Some t)
    (Hactive : is_active (status t) = true) :
  let out := cancel_dispatch (Some taskId) w in
  let marker := markerPath (session_dir t) taskId in
  snd (fst out) = cancel_signals t w /\
  (pid t = None -> snd (fst out) = []) /\
  (forall p, pid t = Some p -> p <> 0%Z ->
     (kill0 (Z.abs p) w = inr tt -> snd (fst out) = [(- p)%Z]) /\
     (forall e, kill0 (Z.abs p) w = inl e -> snd (fst out) = [(- p)%Z; p])) /\
  (write_error marker (ensureStorageDir w) = None ->
   fst (fst out) = inr (ok ("Task " +:+ quoted taskId +:+ " cancelled")) /\
   readMarker (session_dir t) taskId (snd out) = Some "cancelled"%string /\
   find_task taskId (ledger (snd out))
     = Some (mkTask (id t) (model t) (prompt t) (options t) (session_dir t)
               (output_file t) "cancelled" (pid t) (exit_code t)
               (duration_s t) (output t) (created_at t) (Some (nowISO w))
               (error t)) /\
   (forall other, other <> taskId ->
      find_task other (ledger (snd out)) = find_task other (ledger w)) /\
   length (tasks (ledger (snd out))) = length (tasks (ledger w))) /\
  (forall e, write_error marker (ensureStorageDir w) = Some e ->
   fst (fst out) = inl e /\
   snd out = ensureStorageDir w /\
   w_files (snd out) = w_files w /\
   ledger (snd out) = ledger w /\
   find_task taskId (ledger (snd out)) = Some t).
Proof.
  cbv zeta. rewrite (cancel_shape taskId t w Hid Hfind Hactive).
  assert ((pid t = None -> cancel_signals t w = []) /\
          (forall p, pid t = Some p -> p <> 0%Z ->
             (kill0 (Z.abs p) w = inr tt -> cancel_signals t w = [(- p)%Z]) /\
             (forall e, kill0 (Z.abs p) w = inl e ->
                cancel_signals t w = [(- p)%Z; p]))) as [Hnone Hsome].
  { unfold cancel_signals, kill_term. split.
    - now intros ->.
    - intros p -> Hp. apply Z.eqb_neq in Hp. rewrite Hp, Z.abs_opp. split.
      + now intros ->.
      + now intros e ->. }
  destruct (write_error (markerPath (session_dir t) taskId)
              (ensureStorageDir w)) as [e0|] eqn:Hwrite;
    cbn [fst snd];
    (split; [reflexivity|]); (split; [exact Hnone|]);
    (split; [exact Hsome|]); split.
  - intros H. discriminate H.
  - intros e [= <-]. rewrite ensureStorageDir_files, ledger_ensure.
    repeat split; try reflexivity. exact Hfind.
  - intros _.
    assert (ledger
              (snd (updateStore FILE DEFAULT
                      (update_rows taskId (fun u =>
                         mkTask (id u) (model u) (prompt u) (options u)
                           (session_dir u) (output_file u) "cancelled" (pid u)
                           (exit_code u) (duration_s u) (output u)
                           (created_at u) (Some (nowISO w)) (error u)))
                      (writeMarker (session_dir t) taskId "cancelled"
                         (ensureStorageDir w))))
            = update_rows taskId (fun u =>
                mkTask (id u) (model u) (prompt u) (options u)
                  (session_dir u) (output_file u) "cancelled" (pid u)
                  (exit_code u) (duration_s u) (output u)
                  (created_at u) (Some (nowISO w)) (error u)) (ledger w)) as Hl.
    { rewrite ledger_update by apply ledger_version.
      now rewrite ledger_after_marker, ledger_ensure. }
    rewrite Hl. split; [reflexivity|]. split; [|split; [|split]].
    + rewrite marker_after_update. now rewrite readMarker_written.
    + rewrite find_task_update_same by reflexivity. now rewrite Hfind.
    + intros other Hne. now apply find_task_update_rows.
    + unfold update_rows. cbn. now rewrite length_map.
  - intros e H. discriminate H.
Qed.

End CancelFacts.

Module ReconcileFacts.

Import JSON Storage Dispatch StorageFacts LedgerFacts DispatchFacts
       TextFacts StoreFacts MarkerFacts CancelFacts.

(** [cancel_dispatch] refuses a task that is not [running] or
    [created], and a task it does not find: it answers with an error,
    sends no signal, and writes no marker and no row. *)
Theorem cancel_refuses_a_settled_task (taskId : string) (w : World)
    (Hid : is_empty taskId = false)
    (Hsettled : forall t, find_task taskId (ledger w) = Some t ->
                          is_active (status t) = false) :
  let out := cancel_dispatch (Some taskId) w in
  (exists message, fst (fst out) = inr (err message)) /\
  snd (fst out) = [] /\
  snd out = ensureStorageDir w /\
  w_files (snd out) = w_files w /\
  ledger (snd out) = ledger w /\
  (find_task taskId (ledger w) = None ->
   fst (fst out) = inr (err ("Task " +:+ quoted taskId +:+ " not found"))) /\
  (forall t, find_task taskId (ledger w) = Some t ->
     fst (fst out)
     = inr (err ("Task " +:+ quoted taskId +:+ " is " +:+ status t +:+
                 ", cannot cancel"))).
Proof.
  cbv zeta. unfold cancel_dispatch. cbn [nonempty].
  rewrite Hid, ledger_read.
  destruct (find_task taskId (ledger w)) as [t|] eqn:Hfind.
  - specialize (Hsettled t eq_refl). unfold is_active in Hsettled.
    apply orb_false_elim in Hsettled as [-> ->]. cbn [negb andb fst snd].
    rewrite ensureStorageDir_files, ledger_ensure.
    split; [eexists; reflexivity|].
    repeat split; try reflexivity.
    + intros H. discriminate H.
    + now intros t' [= <-].
  - cbn [fst snd]. rewrite ensureStorageDir_files, ledger_ensure.
    split; [eexists; reflexivity|].
    repeat split; try reflexivity. intros t H. discriminate H.
Qed.

(** A task that was cancelled is not cancelled twice. *)
Lemma cancel_refuses_a_settled_task_witness :
  snd (fst (cancel_dispatch (Some Samples.job_id)
              (Samples.seeded [Samples.job "cancelled" None])))
  = [].
Proof.
  refine (proj1 (proj2 (cancel_refuses_a_settled_task Samples.job_id
                   (Samples.seeded [Samples.job "cancelled" None]) _ _))).
  - reflexivity.
  - intros t Ht.
    assert (find_task Samples.job_id
              (ledger (Samples.seeded [Samples.job "cancelled" None]))
            = Some (Samples.job "cancelled" None)) as E
      by (vm_compute; reflexivity).
    rewrite E in Ht. injection Ht as <-. reflexivity.
Defined.

(** *** The exit listener *)

(** X10. The exit listener rewrites the rows of its task whatever their
    status, a [cancelled] row included: the status becomes [completed]
    on exit code 0 and [failed] on any other code and on a signal, the
    exit code is recorded (1 for a signal), the artifact is stored on
    completion and the error on failure; the marker says the same, and
    the other rows are left alone. *)
Theorem exit_listener_overwrites_the_row (taskId sessionDir outputFile : string)
    (code : option Z) (t : DispatchTask) (w : World)
    (Hfind : find_task taskId (ledger w) = Some t) :
  let w' := on_exit taskId sessionDir outputFile code w in
  find_task taskId (ledger w')
    = Some (mkTask (id t) (model t) (prompt t) (options t) (session_dir t)
              (output_file t) (exit_status code) (pid t)
              (Some (match code with Some c => c | None => 1%Z end))
              (duration_s t)
              (if String.eqb (exit_status code) "completed"
               then readOutputFile outputFile
                      (writeMarker sessionDir taskId (exit_status code) w)
               else None)
              (created_at t) (Some (nowISO w))
              (if String.eqb (exit_status code) "failed"
               then Some ("Process exited with code " +:+ show_code code)
               else None)) /\
  (exit_status code = "completed"%string <-> code = Some 0%Z) /\
  (exit_status code = "failed"%string <-> code <> Some 0%Z) /\
  readMarker sessionDir taskId w' = Some (exit_status code) /\
  (forall other, other <> taskId ->
     find_task other (ledger w') = find_task other (ledger w)).
Proof.
  cbv zeta. unfold on_exit.
  rewrite ledger_update by apply ledger_version.
  rewrite ledger_after_marker.
  split; [|split; [|split; [|split]]].
  - rewrite find_task_update_same by reflexivity. now rewrite Hfind.
  - destruct code as [[|c|c]|]; cbn; split; intros E;
      try reflexivity; discriminate E.
  - destruct code as [[|c|c]|]; cbn; split; intros E;
      try reflexivity; try discriminate E; try (now exfalso; apply E);
      intros E'; discriminate E'.
  - rewrite marker_after_update, readMarker_written.
    now destruct code as [[|c|c]|].
  - intros other Hne. now apply find_task_update_rows.
Qed.

(** The worker of a cancelled task ends on the signal: the row that
    was [cancelled] is [failed]. *)
Lemma exit_listener_overwrites_the_row_witness :
  status <$>
    find_task Samples.job_id
      (ledger (on_exit Samples.job_id Samples.session Samples.artifact None
                 (snd (cancel_dispatch (Some Samples.job_id)
                         (Samples.housed Samples.orphan_world)))))
  = Some "failed"%string.
Proof.
  assert (find_task Samples.job_id
            (ledger (snd (cancel_dispatch (Some Samples.job_id)
                            (Samples.housed Samples.orphan_world))))
          = Some (mkTask Samples.job_id codex "say hi" (Some no_options)
                    Samples.session Samples.artifact "cancelled"
                    (Some 4242%Z) None None None "2026-02-09T09:00:00.000Z"
                    (Some "2026-02-09T10:00:00.000Z"%string) None)) as Hfind
    by (vm_compute; reflexivity).
  rewrite (proj1 (exit_listener_overwrites_the_row Samples.job_id
                    Samples.session Samples.artifact None _ _ Hfind)).
  reflexivity.
Defined.

(** *** get_dispatch_result *)

Lemma query_shape (taskId : string) (t : DispatchTask) (w : World) :
  is_empty taskId = false ->
  find_task taskId (ledger w) = Some t ->
  get_dispatch_result (Some taskId) w
  = (ok (report (fst (reconcile taskId t (ensureStorageDir w)))
                (snd (reconcile taskId t (ensureStorageDir w)))),
     snd (reconcile taskId t (ensureStorageDir w))).
Proof.
  intros Hid Hfind. unfold get_dispatch_result. cbn [nonempty].
  rewrite Hid, ledger_read, Hfind.
  now destruct (reconcile taskId t (ensureStorageDir w)).
Qed.

Lemma pid_dead_ensure (t : DispatchTask) (w : World) :
  pid_dead t (ensureStorageDir w) = pid_dead t w.
Proof.
  unfold pid_dead, isProcessAlive, kill0. now rewrite ensureStorageDir_procs.
Qed.

Lemma readMarker_ensure (sd i : string) (w : World) :
  readMarker sd i (ensureStorageDir w) = readMarker sd i w.
Proof. now rewrite !readMarker_files, ensureStorageDir_files. Qed.

Lemma readOutputFile_ensure (p : string) (w : World) :
  readOutputFile p (ensureStorageDir w) = readOutputFile p w.
Proof. apply readOutputFile_files, ensureStorageDir_files. Qed.

(** X11. A worker that died without a marker is settled by
    [get_dispatch_result]: when the row is [running], its marker is
    missing, empty or [running], and its pid answers the probe with an
    error, the row becomes [completed] with the artifact as output when
    the artifact is there and not empty, and [failed] with the error
    "Process exited without marker" otherwise. *)
Theorem query_settles_a_dead_worker (taskId : string) (t : DispatchTask)
    (w : World)
    (Hid : is_empty taskId = false)
    (Hfind : find_task taskId (ledger w) = Some t)
    (Hrun : status t = "running"%string)
    (Hmarker : foreign_marker (readMarker (session_dir t) (id t) w) = None)
    (Hdead : pid_dead t w = true) :
  let out := readOutputFile (output_file t) w in
  let w' := snd (get_dispatch_result (Some taskId) w) in
  find_task taskId (ledger w')
    = Some (mkTask (id t) (model t) (prompt t) (options t) (session_dir t)
              (output_file t)
              (match nonempty out with
               | Some _ => "completed"
               | None => "failed"
               end)
              (pid t) (exit_code t) (duration_s t) out (created_at t)
              (Some (nowISO w))
              (match nonempty out with
               | Some _ => None
               | None => Some "Process exited without marker"%string
               end)) /\
  (forall p, pid t = Some p -> exists e, kill0 p w = inl e).
Proof.
  cbv zeta. rewrite (query_shape taskId t w Hid Hfind). cbn [snd]. split.
  - unfold reconcile. rewrite Hrun, String.eqb_refl.
    rewrite readMarker_ensure, Hmarker, pid_dead_ensure, Hdead.
    rewrite refetch_snd, ledger_ensure.
    rewrite ledger_update by apply ledger_version.
    rewrite ledger_ensure, find_task_update_same by reflexivity.
    rewrite Hfind, readOutputFile_ensure. cbn [fmap option_fmap option_map].
    unfold nowISO. rewrite ensureStorageDir_now.
    now destruct (nonempty (readOutputFile (output_file t) w)).
  - intros p Hp. unfold pid_dead, isProcessAlive in Hdead. rewrite Hp in Hdead.
    apply andb_prop in Hdead as [_ Hd].
    destruct (kill0 p w) as [e|[]]; [now exists e | discriminate Hd].
Qed.

(** The worker is gone and has left its artifact. *)
Lemma query_settles_a_dead_worker_witness :
  status <$>
    find_task Samples.job_id
      (ledger (snd (get_dispatch_result (Some Samples.job_id)
                      (writeFileSync Samples.artifact "hello"
                         Samples.orphan_world))))
  = Some "completed"%string.
Proof.
  rewrite (proj1 (query_settles_a_dead_worker Samples.job_id
                    (Samples.job "running" (Some 4242%Z))
                    (writeFileSync Samples.artifact "hello"
                       Samples.orphan_world)
                    eq_refl ltac:(vm_compute; reflexivity) eq_refl
                    ltac:(vm_compute; reflexivity)
                    ltac:(vm_compute; reflexivity))).
  vm_compute. reflexivity.
Defined.

(** X12. [get_dispatch_result] writes nothing when there is nothing to
    settle: for a row that is not [running], and for a [running] row
    whose marker is missing, empty or [running] and whose worker
    answers the probe or has no recorded pid, it reports the row as
    the ledger has it and leaves every file as it was. *)
Theorem query_of_a_live_task_writes_nothing (taskId : string)
    (t : DispatchTask) (w : World)
    (Hid : is_empty taskId = false)
    (Hfind : find_task taskId (ledger w) = Some t)
    (Hquiet : status t <> "running"%string \/
              (foreign_marker (readMarker (session_dir t) (id t) w) = None /\
               pid_dead t w = false)) :
  get_dispatch_result (Some taskId) w
    = (ok (report t (ensureStorageDir w)), ensureStorageDir w) /\
  w_files (snd (get_dispatch_result (Some taskId) w)) = w_files w /\
  ledger (snd (get_dispatch_result (Some taskId) w)) = ledger w.
Proof.
  assert (reconcile taskId t (ensureStorageDir w) = (t, ensureStorageDir w))
    as Hrec.
  { unfold reconcile. destruct Hquiet as [Hst|[Hm Hp]].
    - apply String.eqb_neq in Hst. now rewrite Hst.
    - rewrite readMarker_ensure, Hm, pid_dead_ensure, Hp.
      now destruct (String.eqb (status t) "running"). }
  rewrite (query_shape taskId t w Hid Hfind), Hrec. cbn [fst snd].
  split; [reflexivity|]. split; [apply ensureStorageDir_files|].
  apply ledger_ensure.
Qed.

(** A running row without a pid stays [running] under queries. *)
Lemma query_of_a_live_task_writes_nothing_witness :
  ledger (snd (get_dispatch_result (Some Samples.job_id)
                 (Samples.seeded [Samples.job "running" None])))
  = ledger (Samples.seeded [Samples.job "running" None]).
Proof.
  refine (proj2 (proj2 (query_of_a_live_task_writes_nothing Samples.job_id
                          (Samples.job "running" None)
                          (Samples.seeded [Samples.job "running" None])
                          eq_refl _ _))).
  - vm_compute. reflexivity.
  - right. split; vm_compute; reflexivity.
Defined.

(** X13. A query changes no row but those of the task it asks for: the
    rows of every other id and the ids of the rows, in their order,
    are as before. *)
Theorem query_changes_one_task (task_id : option string) (w : World) :
  (forall other, task_id <> Some other ->
     find_task other (ledger (snd (get_dispatch_result task_id w)))
     = find_task other (ledger w)) /\
  map id (tasks (ledger (snd (get_dispatch_result task_id w))))
    = map id (tasks (ledger w)).
Proof.
  unfold get_dispatch_result.
  destruct task_id as [tid|]; cbn [nonempty]; [|now split].
  destruct (is_empty tid); [now split|].
  rewrite ledger_read.
  destruct (find_task tid (ledger w)) as [t|] eqn:Hfind;
    [|cbn [snd]; rewrite ledger_ensure; now split].
  pose proof (ledger_after_reconcile tid t (ensureStorageDir w)) as Hl.
  destruct (reconcile tid t (ensureStorageDir w)) as [t' w2].
  cbn [snd] in *. rewrite ledger_ensure in Hl.
  destruct Hl as [->|(_ & f & Hf & ->)]; [now split|]. split.
  - intros other Hne. apply find_task_update_rows; [|exact Hf].
    intros E. apply Hne. now subst.
  - unfold update_rows. cbn [tasks with_tasks]. rewrite map_map.
    apply map_ext. intros u. now destruct (String.eqb (id u) tid).
Qed.

End ReconcileFacts.

Module ScanFacts.

Import JSON Storage Dispatch StorageFacts LedgerFacts DispatchFacts
       TextFacts StoreFacts MarkerFacts CancelFacts ReconcileFacts.

(** X14. The startup scan adopts the markers [completed] and [failed] of
    a row that is [running] or [created], before it looks at the
    worker: the row takes the marker as its status and the time of
    completion; with [completed] it takes the artifact as output and
    loses its error, with [failed] it takes the error "Recovered from
    orphaned state" and loses its output. *)
Theorem recovery_adopts_a_settled_marker (w : World) (i : nat)
    (t : DispatchTask) (m : string)
    (Hrow : tasks (ledger w) !! i = Some t)
    (Hactive : is_active (status t) = true)
    (Hmarker : readMarker (session_dir t) (id t) w = Some m)
    (Hsettled : m = "completed"%string \/ m = "failed"%string) :
  tasks (ledger (recoverOrphanedTasks w)) !! i
  = Some (mkTask (id t) (model t) (prompt t) (options t) (session_dir t)
            (output_file t) m (pid t) (exit_code t) (duration_s t)
            (if String.eqb m "completed"
             then readOutputFile (output_file t) w else None)
            (created_at t) (Some (nowISO w))
            (if String.eqb m "failed"
             then Some "Recovered from orphaned state"%string else None)).
Proof.
  rewrite ledger_after_recovery, list_lookup_fmap, Hrow. cbn. f_equal.
  unfold recover_task, settled_marker. rewrite Hmarker.
  unfold is_active in Hactive.
  assert (String.eqb m "completed" || String.eqb m "failed" = true) as ->
    by (destruct Hsettled as [-> | ->]; reflexivity).
  destruct (String.eqb (status t) "running"),
           (String.eqb (status t) "created"); try discriminate Hactive;
    reflexivity.
Qed.

(** The worker has written its marker and is still there. *)
Lemma recovery_adopts_a_settled_marker_witness :
  status <$>
    tasks (ledger (recoverOrphanedTasks
                     (with_procs {[4242%Z := Signalable]}
                        (Samples.marked "completed")))) !! 0%nat
  = Some "completed"%string.
Proof.
  rewrite (recovery_adopts_a_settled_marker
             (with_procs {[4242%Z := Signalable]} (Samples.marked "completed"))
             0 (Samples.job "running" (Some 4242%Z)) "completed"
             ltac:(vm_compute; reflexivity) eq_refl
             ltac:(vm_compute; reflexivity) (or_introl eq_refl)).
  reflexivity.
Defined.

Lemma scan_world (w : World) :
  recoverOrphanedTasks w = ensureStorageDir w \/
  exists f, recoverOrphanedTasks w
            = snd (updateStore FILE DEFAULT f (ensureStorageDir w)).
Proof.
  unfold recoverOrphanedTasks. rewrite ledger_read.
  destruct (length _ =? 0)%nat; [now left|right]. now eexists.
Qed.

Lemma scan_other (w : World) (q : string) :
  q <> storagePath FILE w -> q <> storagePath FILE w +:+ ".tmp" ->
  w_files (recoverOrphanedTasks w) !! q = w_files w !! q.
Proof.
  intros Hq Htmp. destruct (scan_world w) as [->|(f & ->)].
  - now rewrite ensureStorageDir_files.
  - rewrite updateStore_other; rewrite ?storagePath_ensure; try assumption.
    now rewrite ensureStorageDir_files.
Qed.

Lemma scan_procs (w : World) : w_procs (recoverOrphanedTasks w) = w_procs w.
Proof.
  destruct (scan_world w) as [->|(f & ->)];
    rewrite ?updateStore_procs; apply ensureStorageDir_procs.
Qed.

Lemma settled_marker_settled (o : option string) (m : string) :
  settled_marker o = Some m -> is_active m = false.
Proof.
  unfold settled_marker. destruct o as [m'|]; [|discriminate].
  destruct (String.eqb m' "completed") eqn:E1; cbn.
  - intros [= <-]. apply String.eqb_eq in E1. now subst.
  - destruct (String.eqb m' "failed") eqn:E2; [|discriminate].
    intros [= <-]. apply String.eqb_eq in E2. now subst.
Qed.

Lemma recover_twice (w : World) (t : DispatchTask) :
  recover_task (recoverOrphanedTasks w) (recover_task w t) = recover_task w t.
Proof.
  destruct (is_active (status t)) eqn:Ha.
  2:{ rewrite (recover_task_settled w t Ha). now apply recover_task_settled. }
  unfold recover_task at 2 3.
  assert (negb (String.eqb (status t) "running") &&
          negb (String.eqb (status t) "created") = false) as ->.
  { unfold is_active in Ha.
    destruct (String.eqb (status t) "running"),
             (String.eqb (status t) "created"); try discriminate Ha;
      reflexivity. }
  destruct (settled_marker _) as [m|] eqn:Hm.
  - apply recover_task_settled. cbn [status].
    now apply settled_marker_settled in Hm.
  - destruct (pid_alive t w) eqn:Hp; [|now apply recover_task_settled].
    unfold recover_task.
    assert (readMarker (session_dir t) (id t) (recoverOrphanedTasks w)
            = readMarker (session_dir t) (id t) w) as ->.
    { rewrite !readMarker_files.
      destruct (marker_not_ledger (session_dir t) (id t) w) as [H1 H2].
      now rewrite scan_other. }
    rewrite Hm.
    assert (pid_alive t (recoverOrphanedTasks w) = true) as ->.
    { revert Hp. unfold pid_alive, isProcessAlive, kill0.
      now rewrite scan_procs. }
    now destruct (_ && _).
Qed.

(** X15. A second startup scan changes nothing: after a scan, a scan of
    the same markers and processes leaves the ledger as the first one
    left it.  When no row is [running] or [created] the scan writes no
    file at all. *)
Theorem recovery_is_idempotent (w : World) :
  ledger (recoverOrphanedTasks (recoverOrphanedTasks w))
    = ledger (recoverOrphanedTasks w) /\
  (Forall (fun t => is_active (status t) = false) (tasks (ledger w)) ->
   recoverOrphanedTasks w = ensureStorageDir w /\
   w_files (recoverOrphanedTasks w) = w_files w).
Proof.
  split.
  - apply store_eq; [now rewrite !ledger_version|].
    rewrite (ledger_after_recovery (recoverOrphanedTasks w)).
    rewrite ledger_after_recovery, map_map.
    apply map_ext. intros t. apply recover_twice.
  - intros Hall. unfold recoverOrphanedTasks. rewrite ledger_read.
    assert (List.filter (fun t => is_active (status t)) (tasks (ledger w)) = [])
      as ->.
    { induction Hall as [|t l Ht _ IH]; [reflexivity|].
      cbn. now rewrite Ht. }
    cbn. split; [reflexivity | apply ensureStorageDir_files].
Qed.

End ScanFacts.

Module HandlerFacts.

Import JSON Storage Dispatch StorageFacts LedgerFacts DispatchFacts
       TextFacts StoreFacts MarkerFacts CancelFacts ReconcileFacts ScanFacts.

(** *** The checks of dispatch *)

Lemma readBridgeConfig_files (w : World) :
  readBridgeConfig w = w_files w !! BRIDGE_CONFIG_PATH w ≫= parse.
Proof.
  unfold readBridgeConfig, existsSync, readFileSync.
  destruct (w_files w !! BRIDGE_CONFIG_PATH w); cbn; [reflexivity|].
  now destruct (bool_decide _).
Qed.

Lemma validate_model_ensure (m : Model) (w : World) :
  validate_model m (ensureStorageDir w) = validate_model m w.
Proof.
  unfold validate_model. rewrite !readBridgeConfig_files.
  unfold BRIDGE_CONFIG_PATH, ORCHESTRATION.
  now rewrite ensureStorageDir_home, ensureStorageDir_files.
Qed.

Lemma wrapper_not_storage (w : World) : WRAPPER_PATH w <> STORAGE_DIR w.
Proof.
  unfold WRAPPER_PATH, ORCHESTRATION, STORAGE_DIR, path_join, join_with.
  rewrite !append_assoc. intros E. apply append_inv_l in E. discriminate E.
Qed.

Lemma wrapper_ensure (w : World) :
  existsSync (WRAPPER_PATH (ensureStorageDir w)) (ensureStorageDir w)
  = existsSync (WRAPPER_PATH w) w.
Proof.
  replace (WRAPPER_PATH (ensureStorageDir w)) with (WRAPPER_PATH w)
    by (unfold WRAPPER_PATH, ORCHESTRATION; now rewrite ensureStorageDir_home).
  unfold existsSync. rewrite ensureStorageDir_files.
  destruct (w_files w !! WRAPPER_PATH w); [reflexivity|].
  unfold ensureStorageDir. destruct (negb _); [|reflexivity].
  cbn. apply bool_decide_ext. rewrite elem_of_union, elem_of_singleton.
  split; [|now right]. intros [E|E]; [|exact E].
  now apply wrapper_not_storage in E.
Qed.

Lemma launched_row_ensure (m : Model) (p : string) (o : Options) (w : World) :
  launched_row m p o (ensureStorageDir w) = launched_row m p o w.
Proof.
  unfold launched_row, genId, random_hex, new_session, SESSION_BASE,
    ORCHESTRATION, nowISO, ensureStorageDir.
  now destruct (negb _).
Qed.



(** *** What the worker is given *)

Lemma prompt_path_eq (sd : string) :
  prompt_path sd = (sd +:+ "/prompt.tx") +:+ str1 "t".
Proof. unfold prompt_path, path_join, join_with. now rewrite !append_assoc. Qed.

Lemma prompt_not_marker (sd sd' i : string) :
  prompt_path sd <> markerPath sd' i.
Proof.
  rewrite prompt_path_eq, markerPath_eq. intros E.
  apply append_last_inj in E. discriminate E.
Qed.

Lemma prompt_not_ledger (sd : string) (w : World) :
  prompt_path sd <> storagePath FILE w /\
  prompt_path sd <> storagePath FILE w +:+ ".tmp".
Proof.
  rewrite prompt_path_eq, ledger_tmp_eq, ledger_path_eq.
  split; intros E; apply append_last_inj in E; discriminate E.
Qed.

Lemma launch_spawns (m : Model) (p : string) (o : Options) (w : World) :
  In (EvSpawn "bash"
        (wrapper_argv m (new_session w) (output_path (new_session w) m) p o w)
        (worker_env (genId "dsp" w) (new_session w) p))
     (w_trace (snd (launch m p o w))) /\
  w_files (snd (launch m p o w)) !! prompt_path (new_session w) = Some p.
Proof.
  unfold launch, spawn.
  change (w_spawn (writeFileSync _ _ (mkdirSync _ w))) with (w_spawn w).
  pose proof (prompt_not_marker (new_session w) (new_session w)
                (genId "dsp" w)) as Hne.
  assert (markerPath (new_session w) (genId "dsp" w)
          <> prompt_path (new_session w)) as Hne'
    by (intros E; now apply Hne).
  destruct (w_spawn w) as [[child|]|message];
    cbn [snd w_trace w_files writeMarker writeFileSync mkdirSync log
         with_files with_dirs with_procs];
    (split; [rewrite !in_app_iff; cbn; tauto|]);
    rewrite ?(lookup_insert_ne _ _ _ _ Hne'); apply lookup_insert_eq.
Qed.

Lemma updateStore_trace_keeps {T} `{Document T} (n : string) (d : T)
    (f : T -> T) (w : World) (e : event) :
  In e (w_trace w) -> In e (w_trace (snd (updateStore n d f w))).
Proof.
  intros Hin. rewrite updateStore_snd, atomicWrite_trace.
  assert (forall w0, In e (w_trace w0) -> In e (w_trace (ensureStorageDir w0)))
    as Hens.
  { intros w0 H0. unfold ensureStorageDir. destruct (negb _); [|exact H0].
    cbn. apply in_or_app. now left. }
  apply in_or_app. left. now apply Hens, Hens.
Qed.

(** X18. The worker is given the whole prompt, whatever its length: a
    call that passes the checks spawns [bash] with the wrapper, the
    model, the session directory, the working directory and the prompt
    as its first five arguments and [--output] with the artifact as its
    last two, puts the prompt in [ORCH_PROMPT], and leaves it in
    [prompt.txt] of the session; only the row of the ledger holds the
    prompt cut to 500 characters. *)
Theorem dispatch_hands_over_the_whole_prompt (m : Model) (p : string)
    (oo : option Options) (w : World)
    (Hp : is_empty p = false)
    (Hv : validate_model m w = None)
    (Hw : existsSync (WRAPPER_PATH w) w = true) :
  let o := match oo with Some o => o | None => no_options end in
  let out := dispatch (mkDispatchArgs (Some m) (Some p) oo) w in
  let argv := wrapper_argv m (new_session w) (output_path (new_session w) m)
                p o w in
  In (EvSpawn "bash" argv (worker_env (genId "dsp" w) (new_session w) p))
     (w_trace (snd out)) /\
  (exists workdir flags,
     argv = [WRAPPER_PATH w; model_name m; new_session w; workdir; p] ++
            flags ++ ["--output"%string; output_path (new_session w) m]) /\
  nth_error argv 4 = Some p /\
  readFileSync (prompt_path (new_session w)) (snd out) = Some p /\
  exists row,
    tasks (ledger (snd out)) = tasks (ledger w) ++ [row] /\
    prompt row = stored_prompt p /\
    ((500 < slen p)%Z -> prompt row <> p).
Proof.
  cbv zeta.
  destruct (dispatch_effects m p oo w Hp Hv Hw) as (_ & Hledger & _).
  rewrite (dispatch_passes m p oo w Hp Hv Hw) in *. cbn [snd] in *.
  destruct (launch_spawns m p (match oo with Some o => o | None => no_options end)
              w) as [Hspawn Hfile].
  split; [now apply updateStore_trace_keeps|].
  split; [|split; [reflexivity|split]].
  - unfold wrapper_argv.
    eexists _, ((if flag (yolo _) then _ else _) ++
                match timeout _ with Some n => _ | None => _ end ++
                (if flag (follow_up _) then _ else _)).
    cbn [app]. now rewrite <- !app_assoc.
  - unfold readFileSync.
    destruct (prompt_not_ledger (new_session w)
                (snd (launch m p (match oo with Some o => o | None => no_options end) w)))
      as [H1 H2].
    now rewrite updateStore_other.
  - eexists. split; [exact Hledger|].
    split; [unfold launched_row; now destruct (w_spawn w)|].
    intros Hlong E.
    assert (prompt (launched_row m p
                      (match oo with Some o => o | None => no_options end) w)
            = stored_prompt p) as Hrow
      by (unfold launched_row; now destruct (w_spawn w)).
    rewrite Hrow in E. apply (f_equal slen) in E.
    pose proof (stored_prompt_length p). lia.
Qed.

End HandlerFacts.

Module RetryFacts.

Import JSON Storage Dispatch StorageFacts LedgerFacts DispatchFacts
       TextFacts StoreFacts MarkerFacts CancelFacts ReconcileFacts ScanFacts
       HandlerFacts.

(** A worker under another user, with its session directory: the
    group and the worker are signalled, in vain, and the task is
    cancelled.  The same without the session directory: the call
    throws and the task stays [running]. *)
Lemma cancel_marks_the_task_cancelled_witness :
  (readMarker Samples.session Samples.job_id
     (snd (cancel_dispatch (Some Samples.job_id)
             (Samples.housed Samples.foreign_world)))
     = Some "cancelled"%string /\
   snd (fst (cancel_dispatch (Some Samples.job_id)
               (Samples.housed Samples.foreign_world)))
     = [(-4242)%Z; 4242%Z]) /\
  (fst (fst (cancel_dispatch (Some Samples.job_id) Samples.foreign_world))
     = inl ENOENT /\
   find_task Samples.job_id
     (ledger (snd (cancel_dispatch (Some Samples.job_id)
                     Samples.foreign_world)))
     = Some (Samples.job "running" (Some 4242%Z))).
Proof.
  split.
  - pose proof (cancel_marks_the_task_cancelled Samples.job_id
                  (Samples.job "running" (Some 4242%Z))
                  (Samples.housed Samples.foreign_world)
                  eq_refl ltac:(vm_compute; reflexivity) eq_refl) as H.
    cbv zeta in H. destruct H as (_ & _ & Hs & Hdone & _).
    split.
    + refine (proj1 (proj2 (Hdone _))). vm_compute. reflexivity.
    + refine (proj2 (Hs 4242%Z eq_refl _) EPERM _);
        [discriminate | vm_compute; reflexivity].
  - pose proof (cancel_marks_the_task_cancelled Samples.job_id
                  (Samples.job "running" (Some 4242%Z)) Samples.foreign_world
                  eq_refl ltac:(vm_compute; reflexivity) eq_refl) as H.
    cbv zeta in H. destruct H as (_ & _ & _ & _ & Hthrown).
    destruct (Hthrown ENOENT ltac:(vm_compute; reflexivity))
      as (Hout & _ & _ & _ & Hrow).
    split; [exact Hout | exact Hrow].
Defined.

Lemma dispatch_hands_over_the_whole_prompt_witness :
  readFileSync (prompt_path (new_session (Samples.installed Samples.bare)))
    (snd (dispatch (mkDispatchArgs (Some codex) (Some Samples.long_prompt) None)
            (Samples.installed Samples.bare)))
  = Some Samples.long_prompt.
Proof.
  pose proof (dispatch_hands_over_the_whole_prompt codex Samples.long_prompt
                None (Samples.installed Samples.bare)
                eq_refl ltac:(vm_compute; reflexivity)
                ltac:(vm_compute; reflexivity)) as H.
  cbv zeta in H. exact (proj1 (proj2 (proj2 (proj2 H)))).
Defined.

(** *** retry_dispatch *)

Lemma find_task_app (taskId : string) (s : DispatchesStore)
    (t row : DispatchTask) :
  find_task taskId s = Some t ->
  find_task taskId (with_tasks (tasks s ++ [row]) s) = Some t.
Proof.
  unfold find_task. cbn [tasks with_tasks].
  induction (tasks s) as [|u l IH]; [discriminate|]. cbn.
  destruct (String.eqb (id u) taskId); [trivial|exact IH].
Qed.

(** X19. [retry_dispatch] is a new [dispatch] with the model, the
    options and the prompt of the row, as the row holds them: for a
    row that is [failed] or [cancelled] it answers as that call does,
    the ledger gains one row under a generated id, and the row that is
    retried stays as it was. *)
Theorem retry_dispatches_the_row_again (taskId : string) (t : DispatchTask)
    (w : World)
    (Hid : is_empty taskId = false)
    (Hfind : find_task taskId (ledger w) = Some t)
    (Hstatus : status t = "failed"%string \/ status t = "cancelled"%string) :
  let args := mkDispatchArgs (Some (model t)) (Some (prompt t))
                (Some (match options t with
                       | Some o => o
                       | None => no_options
                       end)) in
  retry_dispatch (Some taskId) w = dispatch args (ensureStorageDir w) /\
  (is_empty (prompt t) = false ->
   validate_model (model t) w = None ->
   existsSync (WRAPPER_PATH w) w = true ->
   exists row,
     tasks (ledger (snd (retry_dispatch (Some taskId) w)))
       = tasks (ledger w) ++ [row] /\
     find_task taskId (ledger (snd (retry_dispatch (Some taskId) w)))
       = Some t /\
     id row = genId "dsp" w /\
     model row = model t /\
     prompt row = stored_prompt (prompt t) /\
     ((slen (prompt t) <= 500)%Z -> prompt row = prompt t) /\
     options row = Some (match options t with
                         | Some o => o
                         | None => no_options
                         end) /\
     fst (retry_dispatch (Some taskId) w) = dispatch_reply row).
Proof.
  cbv zeta.
  assert (retry_dispatch (Some taskId) w
          = dispatch (mkDispatchArgs (Some (model t)) (Some (prompt t))
                        (Some (match options t with
                               | Some o => o
                               | None => no_options
                               end))) (ensureStorageDir w)) as Hshape.
  { unfold retry_dispatch. cbn [nonempty]. rewrite Hid, ledger_read, Hfind.
    now destruct Hstatus as [-> | ->]. }
  split; [exact Hshape|]. intros Hp Hv Hw. rewrite Hshape.
  rewrite <- validate_model_ensure in Hv. rewrite <- wrapper_ensure in Hw.
  destruct (dispatch_effects (model t) (prompt t)
              (Some (match options t with
                     | Some o => o
                     | None => no_options
                     end)) (ensureStorageDir w) Hp Hv Hw)
    as (Hreply & Hledger & _).
  cbv zeta in Hreply, Hledger.
  rewrite launched_row_ensure, ledger_ensure in *.
  eexists. split; [exact Hledger|]. split.
  - unfold find_task. rewrite Hledger.
    apply (find_task_app taskId (ledger w) t _ Hfind).
  - split; [|split; [|split; [|split; [|split; [|exact Hreply]]]]];
      unfold launched_row; destruct (w_spawn w); try reflexivity;
      cbn [prompt]; intros Hlen; unfold stored_prompt;
      apply Z.ltb_ge in Hlen; now rewrite Hlen.
Qed.

Lemma retry_dispatches_the_row_again_witness :
  retry_dispatch (Some Samples.job_id)
    (Samples.seeded [Samples.job "cancelled" None])
  = dispatch (mkDispatchArgs (Some codex) (Some "say hi"%string)
                (Some no_options))
      (ensureStorageDir (Samples.seeded [Samples.job "cancelled" None])).
Proof.
  exact (proj1 (retry_dispatches_the_row_again Samples.job_id
                  (Samples.job "cancelled" None)
                  (Samples.seeded [Samples.job "cancelled" None])
                  eq_refl ltac:(vm_compute; reflexivity)
                  (or_intror eq_refl))).
Defined.

End RetryFacts.

Module ListFacts.

Import JSON Storage Dispatch StorageFacts LedgerFacts DispatchFacts
       TextFacts StoreFacts MarkerFacts CancelFacts ReconcileFacts ScanFacts
       HandlerFacts RetryFacts.

(** [retry_dispatch] refuses a task that is not [failed] or
    [cancelled], and a task it does not find: it answers with an
    error, spawns nothing and writes no file. *)
Theorem retry_refuses_other_statuses (taskId : string) (w : World)
    (Hid : is_empty taskId = false)
    (Hother : forall t, find_task taskId (ledger w) = Some t ->
                status t <> "failed"%string /\
                status t <> "cancelled"%string) :
  isError (fst (retry_dispatch (Some taskId) w)) = true /\
  snd (retry_dispatch (Some taskId) w) = ensureStorageDir w /\
  w_files (snd (retry_dispatch (Some taskId) w)) = w_files w /\
  existsb is_spawn (w_trace (snd (retry_dispatch (Some taskId) w)))
    = existsb is_spawn (w_trace w) /\
  (find_task taskId (ledger w) = None ->
   fst (retry_dispatch (Some taskId) w) = not_found taskId) /\
  (forall t, find_task taskId (ledger w) = Some t ->
     fst (retry_dispatch (Some taskId) w)
     = err ("Task " +:+ quoted taskId +:+ " is " +:+ status t +:+
            ", can only retry failed/cancelled tasks")).
Proof.
  assert (existsb is_spawn (w_trace (ensureStorageDir w))
          = existsb is_spawn (w_trace w)) as Htrace.
  { unfold ensureStorageDir. destruct (negb _); [|reflexivity].
    cbn. rewrite existsb_app. cbn. now rewrite !orb_false_r. }
  unfold retry_dispatch. cbn [nonempty]. rewrite Hid, ledger_read.
  destruct (find_task taskId (ledger w)) as [t|] eqn:Hfind.
  - destruct (Hother t eq_refl) as [H1 H2].
    apply String.eqb_neq in H1, H2. rewrite H1, H2. cbn [negb andb fst snd].
    rewrite ensureStorageDir_files.
    repeat split; try reflexivity; try exact Htrace.
    + intros H. discriminate H.
    + now intros t' [= <-].
  - cbn [fst snd]. rewrite ensureStorageDir_files.
    repeat split; try reflexivity; try exact Htrace.
    intros t H. discriminate H.
Qed.

(** A task that is still running is not retried. *)
Lemma retry_refuses_other_statuses_witness :
  isError (fst (retry_dispatch (Some Samples.job_id) Samples.orphan_world))
  = true.
Proof.
  refine (proj1 (retry_refuses_other_statuses Samples.job_id
                   Samples.orphan_world eq_refl _)).
  intros t Ht.
  assert (find_task Samples.job_id (ledger Samples.orphan_world)
          = Some (Samples.job "running" (Some 4242%Z))) as E
    by (vm_compute; reflexivity).
  rewrite E in Ht. injection Ht as <-. split; discriminate.
Defined.

(** *** list_dispatches *)

(** X20. [list_dispatches] answers with the rows of the ledger that
    pass its filters, the newest first.  The rows that match are
    those of the model and of the status that are asked for, in the
    reverse of the order of the ledger; the rows that are shown are
    the head of them: as many as a positive limit says, all but as
    many as a negative limit says, and 20 without a limit.  The
    answer has one line for each row that is shown and a last line
    that counts them, and is "No dispatch tasks found" when none is
    shown; the call writes no file. *)
Theorem list_shows_the_newest_matching_rows (args : ListArgs) (w : World) :
  let wanted t :=
    match nonempty (list_model args) with
    | Some m => String.eqb (model_name (model t)) m
    | None => true
    end &&
    match nonempty (list_status args) with
    | Some st => String.eqb (status t) st
    | None => true
    end in
  let matching := List.filter wanted (rev (tasks (ledger w))) in
  exists shown rest,
    matching = shown ++ rest /\
    (forall n, list_limit args = Some (Limit n) -> (0 < n)%Z ->
       shown = firstn (Z.to_nat n) matching) /\
    (forall n, list_limit args = Some (Limit n) -> (n < 0)%Z ->
       shown = firstn (length matching - Z.to_nat (- n)) matching) /\
    (no_limit (list_limit args) = true -> shown = firstn 20 matching) /\
    (forall t, In t shown -> In t (tasks (ledger w)) /\ wanted t = true) /\
    fst (list_dispatches args w)
      = match shown with
        | [] => ok "No dispatch tasks found"
        | _ :: _ =>
            ok (join_with (str1 newline)
                  (map list_line shown ++
                   [list_footer (length shown)
                      (length (tasks (ledger w)))]))
        end /\
    snd (list_dispatches args w) = ensureStorageDir w /\
    w_files (snd (list_dispatches args w)) = w_files w.
Proof.
  cbv zeta. rewrite list_reply. cbn [fst snd].
  rewrite ensureStorageDir_files.
  assert (exists k, listed args (ledger w)
                    = firstn k (filtered args (ledger w))) as [k Hk].
  { unfold listed, slice0. destruct (_ <? 0)%Z; eexists; reflexivity. }
  exists (listed args (ledger w)), (skipn k (filtered args (ledger w))).
  rewrite <- filtered_wanted.
  split; [rewrite Hk; symmetry; apply firstn_skipn|].
  split; [|split; [|split; [|split]]].
  - intros n Hn Hpos. unfold listed, slice0, given_limit, effective_limit.
    rewrite Hn.
    assert ((n =? 0)%Z = false) as -> by (apply Z.eqb_neq; lia).
    assert ((n <? 0)%Z = false) as -> by (apply Z.ltb_ge; lia).
    reflexivity.
  - intros n Hn Hneg. unfold listed, slice0, given_limit, effective_limit.
    rewrite Hn.
    assert ((n =? 0)%Z = false) as -> by (apply Z.eqb_neq; lia).
    assert ((n <? 0)%Z = true) as -> by (apply Z.ltb_lt; lia).
    f_equal. lia.
  - intros Hno. unfold listed.
    assert (given_limit (list_limit args) = 20%Z) as ->; [|reflexivity].
    destruct (list_limit args) as [[n| | | |]|]; try reflexivity.
    cbn in Hno. apply Z.eqb_eq in Hno. now subst n.
  - intros t Hin. rewrite Hk in Hin.
    assert (In t (filtered args (ledger w))) as Hin'
      by (rewrite <- (firstn_skipn k); apply in_or_app; now left).
    rewrite filtered_wanted in Hin'. apply filter_In in Hin' as [Hin' Hw].
    split; [now apply in_rev | exact Hw].
  - split; [|split; reflexivity]. now destruct (listed args (ledger w)).
Qed.

End ListFacts.

(** ** The tools: what they share *)

Module ToolFacts.

Import JSON Storage Tool JSONFacts StorageFacts StoreFacts CancelFacts.

(** *** Objects used as maps *)

Lemma assoc_set_prop {A} (k : string) (x : A) (r : list (string * A)) :
  assoc k (set_prop k x r) = Some x.
Proof.
  induction r as [|[k' x'] r IH]; cbn.
  - now rewrite String.eqb_refl.
  - destruct (String.eqb k' k) eqn:E; cbn; now rewrite E.
Qed.

Lemma assoc_set_other {A} (k k' : string) (x : A) (r : list (string * A)) :
  k <> k' -> assoc k (set_prop k' x r) = assoc k r.
Proof.
  intros Hne. induction r as [|[a y] r IH]; cbn.
  - destruct (String.eqb_spec k' k); [congruence | reflexivity].
  - destruct (String.eqb_spec a k') as [->|Ha]; cbn.
    + destruct (String.eqb_spec k' k); [congruence | reflexivity].
    + now rewrite IH.
Qed.

Lemma assoc_remove_prop {A} (k : string) (r : list (string * A)) :
  assoc k (remove_prop k r) = None.
Proof.
  induction r as [|[a y] r IH]; [reflexivity|]. cbn.
  destruct (String.eqb a k) eqn:E; [exact IH|]. cbn. now rewrite E.
Qed.

Lemma assoc_remove_other {A} (k k' : string) (r : list (string * A)) :
  k <> k' -> assoc k (remove_prop k' r) = assoc k r.
Proof.
  intros Hne. induction r as [|[a y] r IH]; [reflexivity|]. cbn.
  destruct (String.eqb_spec a k') as [->|Ha]; cbn.
  - destruct (String.eqb_spec k' k); [congruence | exact IH].
  - now rewrite IH.
Qed.

Lemma lookup_own {A} (k : string) (r : list (string * A)) (x : A) :
  assoc k r = Some x -> lookup_prop k r = Own x.
Proof. unfold lookup_prop. now intros ->. Qed.

Lemma keys_set_prop_in {A} (k : string) (x : A) (r : list (string * A)) :
  existsb (String.eqb k) (map fst r) = true ->
  map fst (set_prop k x r) = map fst r.
Proof.
  induction r as [|[a y] r IH]; [discriminate|]. cbn.
  destruct (String.eqb_spec a k) as [->|Ha]; [reflexivity|].
  rewrite String.eqb_sym. destruct (String.eqb_spec a k); [contradiction|].
  cbn. intros H. now rewrite IH.
Qed.

Lemma keys_set_prop_fresh {A} (k : string) (x : A) (r : list (string * A)) :
  existsb (String.eqb k) (map fst r) = false ->
  map fst (set_prop k x r) = map fst r ++ [k].
Proof.
  induction r as [|[a y] r IH]; [reflexivity|]. cbn.
  rewrite String.eqb_sym.
  destruct (String.eqb a k); [discriminate|]. cbn. intros H. now rewrite IH.
Qed.

Lemma existsb_app_one (k k' : string) (l : list string) :
  existsb (String.eqb k) (l ++ [k'])
  = existsb (String.eqb k) l || String.eqb k k'.
Proof. rewrite existsb_app. cbn. now rewrite orb_false_r. Qed.

Lemma distinct_app_one (l : list string) (k : string) :
  distinct l = true -> existsb (String.eqb k) l = false ->
  distinct (l ++ [k]) = true.
Proof.
  induction l as [|a l IH]; [reflexivity|]. cbn.
  intros Hd Hk. apply andb_prop in Hd as [Ha Hd].
  apply orb_false_elim in Hk as [Hka Hk].
  rewrite existsb_app_one, (IH Hd Hk).
  apply negb_true_iff in Ha. rewrite Ha.
  rewrite String.eqb_sym, Hka. reflexivity.
Qed.

Lemma distinct_set_prop {A} (k : string) (x : A) (r : list (string * A)) :
  distinct (map fst r) = true -> distinct (map fst (set_prop k x r)) = true.
Proof.
  intros Hd. destruct (existsb (String.eqb k) (map fst r)) eqn:E.
  - now rewrite keys_set_prop_in.
  - rewrite keys_set_prop_fresh by exact E. now apply distinct_app_one.
Qed.

Lemma existsb_remove_prop {A} (a k : string) (r : list (string * A)) :
  existsb (String.eqb a) (map fst r) = false ->
  existsb (String.eqb a) (map fst (remove_prop k r)) = false.
Proof.
  induction r as [|[b y] r IH]; [reflexivity|]. cbn.
  intros H. apply orb_false_elim in H as [Hab H].
  destruct (String.eqb b k); [now apply IH|]. cbn. now rewrite Hab, IH.
Qed.

Lemma distinct_remove_prop {A} (k : string) (r : list (string * A)) :
  distinct (map fst r) = true -> distinct (map fst (remove_prop k r)) = true.
Proof.
  induction r as [|[a y] r IH]; [reflexivity|]. cbn.
  intros Hd. apply andb_prop in Hd as [Ha Hd].
  destruct (String.eqb a k); [now apply IH|]. cbn.
  rewrite (IH Hd), andb_true_r. apply negb_true_iff.
  apply existsb_remove_prop. now apply negb_true_iff.
Qed.

Lemma find_app {A} (f : A -> bool) (l l' : list A) :
  List.find f (l ++ l')
  = match List.find f l with
    | Some x => Some x
    | None => List.find f l'
    end.
Proof.
  induction l as [|x l IH]; [reflexivity|]. cbn.
  now destruct (f x).
Qed.

(** *** Decoders *)

Section RoundTrip.
Context {A : Type} (enc : A -> json) (dec : json -> option A).
Hypothesis dec_enc : forall x, dec (enc x) = Some x.

Lemma list_round_trip (l : list A) :
  list_of_json dec (map enc l) = Some l.
Proof.
  induction l as [|x l IH]; [reflexivity|].
  cbn. now rewrite dec_enc; cbn; rewrite IH.
Qed.

Lemma record_round_trip (r : list (string * A)) :
  record_of_json dec (map (fun m => (fst m, enc (snd m))) r) = Some r.
Proof.
  induction r as [|[k x] r IH]; [reflexivity|].
  cbn. now rewrite dec_enc; cbn; rewrite IH.
Qed.

End RoundTrip.

Lemma list_wf {A} (enc : A -> json) (l : list A) :
  (forall x, In x l -> wf (enc x) = true) -> wf (JArr (map enc l)) = true.
Proof.
  intros H. cbn. apply forallb_forall. intros j Hj.
  apply in_map_iff in Hj as (x & <- & Hx). now apply H.
Qed.

Lemma record_wf {A} (enc : A -> json) (r : list (string * A)) :
  distinct (map fst r) = true ->
  (forall k x, In (k, x) r -> wf (enc x) = true) ->
  wf (record_to_json enc r) = true.
Proof.
  intros Hd H. unfold record_to_json. cbn [wf].
  apply andb_true_intro. split.
  - unfold keys. rewrite map_map.
    now replace (map (fun m => fst (fst m, enc (snd m))) r) with (map fst r)
      by (apply map_ext; reflexivity).
  - apply forallb_forall. intros [k j] Hj.
    apply in_map_iff in Hj as ([k' x] & [= <- <-] & Hx). cbn.
    now apply (H k').
Qed.

Lemma record_keys {A} (dec : json -> option A) (ms : list (string * json))
    (r : list (string * A)) :
  record_of_json dec ms = Some r -> map fst r = map fst ms.
Proof.
  revert r. induction ms as [|[k j] ms IH]; intros r; cbn.
  - now intros [= <-].
  - destruct (dec j) as [x|]; [|discriminate]. cbn.
    destruct (record_of_json dec ms) as [xs|]; [|discriminate]. cbn.
    intros [= <-]. cbn. f_equal. now apply IH.
Qed.

(** *** What [JSON.parse] builds is well formed *)

Lemma set_field_values (P : json -> bool) (k : string) (v : json)
    (ms : list (string * json)) :
  P v = true -> forallb (fun m => P (snd m)) ms = true ->
  forallb (fun m => P (snd m)) (set_field k v ms) = true.
Proof.
  intros Hv. induction ms as [|[a x] ms IH]; cbn.
  - now rewrite Hv.
  - intros H. apply andb_prop in H as [Hx H].
    destruct (String.eqb a k); cbn.
    + now rewrite Hv, H.
    + now rewrite Hx, IH.
Qed.

Lemma mk_object_values (P : json -> bool) (ms : list (string * json)) :
  forallb (fun m => P (snd m)) ms = true ->
  forallb (fun m => P (snd m)) (mk_object ms) = true.
Proof.
  unfold mk_object.
  assert (forall acc,
            forallb (fun m => P (snd m)) acc = true ->
            forallb (fun m => P (snd m)) ms = true ->
            forallb (fun m => P (snd m))
              (fold_left (fun acc m => set_field (fst m) (snd m) acc) ms acc)
            = true) as H.
  { induction ms as [|[k v] ms IH]; intros acc Hacc Hms; [exact Hacc|].
    cbn in *. apply andb_prop in Hms as [Hv Hms].
    apply IH; [|exact Hms]. now apply set_field_values. }
  now apply H.
Qed.

Lemma distinct_set_field (k : string) (v : json) (ms : list (string * json)) :
  distinct (keys ms) = true -> distinct (keys (set_field k v ms)) = true.
Proof.
  assert (set_field k v ms = set_prop k v ms) as ->.
  { induction ms as [|[a x] ms IH]; [reflexivity|]. cbn.
    destruct (String.eqb a k); [reflexivity | now f_equal]. }
  apply distinct_set_prop.
Qed.

Lemma mk_object_keys (ms : list (string * json)) :
  distinct (keys (mk_object ms)) = true.
Proof.
  unfold mk_object.
  assert (forall acc, distinct (keys acc) = true ->
            distinct (keys (fold_left
                              (fun acc m => set_field (fst m) (snd m) acc)
                              ms acc)) = true) as H.
  { induction ms as [|[k v] ms IH]; intros acc Hacc; [exact Hacc|].
    cbn. apply IH. now apply distinct_set_field. }
  now apply H.
Qed.

Lemma parse_fuel_wf (fuel : nat) :
  (forall s v r, parse_value fuel s = Some (v, r) -> wf v = true) /\
  (forall s vs r, parse_elems fuel s = Some (vs, r) -> forallb wf vs = true) /\
  (forall s ms r, parse_members fuel s = Some (ms, r) ->
                  forallb (fun m => wf (snd m)) ms = true).
Proof.
  induction fuel as [|f (IHv & IHe & IHm)];
    [repeat split; intros; discriminate|].
  split; [|split].
  - intros s v r. cbn [parse_value].
    destruct (skip_ws s) as [|c s']; [discriminate|].
    destruct (Numeral.is_digit c || Ascii.eqb c "-").
    { destruct (Numeral.lex_int _) as [[n r']|]; [|discriminate].
      now intros [= <- <-]. }
    destruct (Ascii.eqb c dquote).
    { destruct (lex_string s') as [[t r']|]; [|discriminate].
      now intros [= <- <-]. }
    unfold expect.
    destruct (Ascii.eqb c "n").
    { destruct (strip_prefix _ _); [|discriminate]. now intros [= <- <-]. }
    destruct (Ascii.eqb c "t").
    { destruct (strip_prefix _ _); [|discriminate]. now intros [= <- <-]. }
    destruct (Ascii.eqb c "f").
    { destruct (strip_prefix _ _); [|discriminate]. now intros [= <- <-]. }
    destruct (Ascii.eqb c "[").
    { destruct (skip_ws s') as [|c' r']; [discriminate|].
      destruct (Ascii.eqb c' "]"); [now intros [= <- <-]|].
      destruct (parse_elems f s') as [[xs r'']|] eqn:E; [|discriminate].
      intros [= <- <-]. cbn. now apply (IHe _ _ _ E). }
    destruct (Ascii.eqb c "{"); [|discriminate].
    destruct (skip_ws s') as [|c' r']; [discriminate|].
    destruct (Ascii.eqb c' "}"); [now intros [= <- <-]|].
    destruct (parse_members f s') as [[ms r'']|] eqn:E; [|discriminate].
    intros [= <- <-]. cbn [wf]. rewrite mk_object_keys. cbn.
    apply mk_object_values. now apply (IHm _ _ _ E).
  - intros s vs r. cbn [parse_elems].
    destruct (parse_value f s) as [[v r1]|] eqn:Ev; [|discriminate].
    destruct (skip_ws r1) as [|c r']; [discriminate|].
    destruct (Ascii.eqb c ",").
    { destruct (parse_elems f r') as [[xs r'']|] eqn:E; [|discriminate].
      intros [= <- <-]. cbn. now rewrite (IHv _ _ _ Ev), (IHe _ _ _ E). }
    destruct (Ascii.eqb c "]"); [|discriminate].
    intros [= <- <-]. cbn. now rewrite (IHv _ _ _ Ev).
  - intros s ms r. cbn [parse_members].
    destruct (skip_ws s) as [|q r0]; [discriminate|].
    destruct (Ascii.eqb q dquote); [|discriminate].
    destruct (lex_string r0) as [[key r1]|]; [|discriminate].
    destruct (skip_ws r1) as [|c r2]; [discriminate|].
    destruct (Ascii.eqb c ":"); [|discriminate].
    destruct (parse_value f r2) as [[v r3]|] eqn:Ev; [|discriminate].
    destruct (skip_ws r3) as [|d r4]; [discriminate|].
    destruct (Ascii.eqb d ",").
    { destruct (parse_members f r4) as [[xs r5]|] eqn:E; [|discriminate].
      intros [= <- <-]. cbn. now rewrite (IHv _ _ _ Ev), (IHm _ _ _ E). }
    destruct (Ascii.eqb d "}"); [|discriminate].
    intros [= <- <-]. cbn. now rewrite (IHv _ _ _ Ev).
Qed.

Lemma parse_wf (s : string) (v : json) : parse s = Some v -> wf v = true.
Proof.
  unfold parse.
  destruct (parse_value _ s) as [[v' r]|] eqn:E; [|discriminate].
  destruct (skip_ws r); [|discriminate]. intros [= <-].
  now apply (proj1 (parse_fuel_wf _) _ _ _ E).
Qed.

Lemma wf_member (k : string) (ms : list (string * json)) (j : json) :
  wf (JObj ms) = true -> get_field k ms = Some j -> wf j = true.
Proof.
  cbn. intros H. apply andb_prop in H as [_ H]. revert H.
  induction ms as [|[a x] ms IH]; [discriminate|]. cbn.
  intros H. apply andb_prop in H as [Hx H].
  destruct (String.eqb a k); [now intros [= <-] | now apply IH].
Qed.

Lemma distinct_remove_field (k : string) (ms : list (string * json)) :
  distinct (keys ms) = true -> distinct (keys (remove_field k ms)) = true.
Proof.
  assert (remove_field k ms = remove_prop k ms) as ->.
  { induction ms as [|[a x] ms IH]; [reflexivity|]. cbn.
    destruct (String.eqb a k); [exact IH | now f_equal]. }
  apply distinct_remove_prop.
Qed.

Lemma remove_field_values (P : json -> bool) (k : string)
    (ms : list (string * json)) :
  forallb (fun m => P (snd m)) ms = true ->
  forallb (fun m => P (snd m)) (remove_field k ms) = true.
Proof.
  induction ms as [|[a x] ms IH]; [reflexivity|]. cbn.
  intros H. apply andb_prop in H as [Hx H].
  destruct (String.eqb a k); [now apply IH|]. cbn. now rewrite Hx, IH.
Qed.

(** The version check keeps a well-formed object well formed, as long
    as the version of the default is. *)
Lemma accept_version_wf (expected : option json) (ms : list (string * json)) :
  match expected with Some v => wf v = true | None => True end ->
  wf (JObj ms) = true -> wf (JObj (accept_version expected ms)) = true.
Proof.
  intros He H. unfold accept_version, assign_field.
  destruct (strict_neq _ _); [|exact H].
  cbn in *. apply andb_prop in H as [Hd Hv].
  destruct expected as [v|].
  - now rewrite distinct_set_field, set_field_values.
  - now rewrite distinct_remove_field, remove_field_values.
Qed.

(** *** Typed stores *)

(** What a store holds is the default or the image of a well-formed
    object that carries the version of the default. *)
Lemma load_cases {T} `{Document T} (d : T) (file : option string) :
  match get_field "schema_version" (to_json d) with
  | Some v => wf v = true
  | None => True
  end ->
  load d file = d \/
  exists ms, wf (JObj ms) = true /\
             get_field "schema_version" ms
             = get_field "schema_version" (to_json d) /\
             of_json ms = Some (load d file).
Proof.
  intros Hd. unfold load. destruct file as [raw|]; [|now left].
  destruct (parse raw) as [[ | | | | |ms]|] eqn:Hp; try (now left).
  destruct (of_json _) as [s|] eqn:E; [|now left].
  right. eexists. split; [|split; [|exact E]].
  - apply accept_version_wf; [exact Hd|]. now apply parse_wf in Hp.
  - apply accept_version_sets.
Qed.

(** [updateStore] on a typed store applies the updater to what is
    read, when the result is written as a well-formed object that
    reads back as itself. *)
Lemma typed_update {T} `{Document T} (n : string) (d : T) (f : T -> T)
    (w : World) :
  wf (JObj (to_json (f (fst (readStore n d w))))) = true ->
  of_json (accept_version (get_field "schema_version" (to_json d))
             (to_json (f (fst (readStore n d w)))))
  = Some (f (fst (readStore n d w))) ->
  fst (readStore n d (snd (updateStore n d f w))) = f (fst (readStore n d w)).
Proof.
  intros Hwf Hof. rewrite updateStore_snd, read_after_write by exact Hwf.
  now rewrite Hof.
Qed.

Lemma typed_read {T} `{Document T} (n : string) (d : T) (w : World) :
  readStore n d w = (fst (readStore n d w), ensureStorageDir w).
Proof.
  pose proof (readStore_snd n d w) as Hs.
  destruct (readStore n d w). cbn in *. now subst.
Qed.

Lemma typed_ensure {T} `{Document T} (n : string) (d : T) (w : World) :
  fst (readStore n d (ensureStorageDir w)) = fst (readStore n d w).
Proof.
  apply readStore_depends;
    [apply ensureStorageDir_home | now rewrite ensureStorageDir_files].
Qed.

End ToolFacts.

(** ** Teams *)

Module TeamsFacts.

Import JSON Storage Tool Teams StorageFacts StoreFacts ToolFacts.

Lemma agent_round_trip (a : TeamAgent) : agent_of_json (agent_to_json a) = Some a.
Proof. destruct a as [n r [m|]]; reflexivity. Qed.

Lemma agent_wf (a : TeamAgent) : wf (agent_to_json a) = true.
Proof. destruct a as [n r [m|]]; reflexivity. Qed.

Lemma team_round_trip (t : Team) : team_of_json (team_to_json t) = Some t.
Proof.
  destruct t as [i g a st ca [co|]]; unfold team_of_json, team_to_json;
    cbn -[agent_of_json agent_to_json list_of_json];
    rewrite (list_round_trip _ _ agent_round_trip); reflexivity.
Qed.

Lemma team_wf (t : Team) : wf (team_to_json t) = true.
Proof.
  assert (forallb wf (map agent_to_json (agents t)) = true) as Ha
    by (apply (list_wf agent_to_json); intros; apply agent_wf).
  destruct t as [i g a st ca [co|]]; cbn in *; now rewrite Ha.
Qed.

Lemma teams_round_trip (s : TeamsStore) : store_of_json (store_to_json s) = Some s.
Proof.
  destruct s as [v ts]. unfold store_of_json, store_to_json.
  cbn -[team_of_json team_to_json list_of_json].
  now rewrite (list_round_trip _ _ team_round_trip).
Qed.

Lemma teams_wf (s : TeamsStore) : wf (JObj (store_to_json s)) = true.
Proof.
  destruct s as [v ts]. cbn. rewrite andb_true_r.
  apply (list_wf team_to_json). intros. apply team_wf.
Qed.

Lemma teams_version (w : World) : schema_version (store w) = 1%Z.
Proof.
  unfold store. rewrite readStore_fst.
  generalize (w_files w !! storagePath FILE w). intros file.
  destruct (load_cases DEFAULT file) as [E|(ms & _ & Hv & Hof)];
    [reflexivity | now rewrite E |].
  cbn in Hof, Hv. unfold store_of_json, Dispatch.required in Hof.
  rewrite Hv in Hof. cbn in Hof.
  destruct (get_field "teams" ms) as [j|]; [|discriminate Hof].
  destruct (as_list team_of_json j); cbn in Hof; [|discriminate Hof].
  now injection Hof as <-.
Qed.

(** [updateStore] on the store of teams applies the updater to what
    is read. *)
Lemma teams_update (f : TeamsStore -> TeamsStore) (w : World) :
  schema_version (f (store w)) = 1%Z ->
  store (snd (updateStore FILE DEFAULT f w)) = f (store w).
Proof.
  intros Hv. unfold store. apply typed_update; [apply teams_wf|].
  fold (store w). destruct (f (store w)) as [v ts] eqn:E. cbn in Hv. subst v.
  cbn -[team_of_json team_to_json list_of_json].
  change (store_of_json (store_to_json (mkStore 1 ts)) = Some (mkStore 1 ts)).
  apply teams_round_trip.
Qed.






(** [create_team] adds one active team at the end of the store,
    under a generated id and with the goal and the agents it is given, and
    leaves the teams before it as they were; without a goal or without
    agents it answers with an error and writes nothing. *)
Theorem team_is_created_active (arg_goal : option string)
    (arg_agents : option (list TeamAgent)) (w : World) :
  (forall g a rest,
     nonempty arg_goal = Some g -> arg_agents = Some (a :: rest) ->
     teams (store (snd (create_team arg_goal arg_agents w)))
       = teams (store w) ++
         [mkTeam (genId "team" w) g (a :: rest) "active" (nowISO w) None] /\
     isError (fst (create_team arg_goal arg_agents w)) = false) /\
  (nonempty arg_goal = None \/ arg_agents = None \/ arg_agents = Some [] ->
   create_team arg_goal arg_agents w
     = (err "goal and agents[] are required", w)).
Proof.
  split.
  - intros g a rest Hg Ha. unfold create_team. rewrite Hg, Ha.
    pose proof (teams_update
                  (fun s => with_teams
                              (teams s ++
                               [mkTeam (genId "team" w) g (a :: rest) "active"
                                  (nowISO w) None]) s) w
                  (teams_version w)) as Hs.
    destruct (updateStore _ _ _ w) as [s w1]. cbn [fst snd] in *.
    now rewrite Hs.
  - unfold create_team. intros [Hg|[Ha|Ha]]; rewrite ?Hg, ?Ha;
      try reflexivity; now destruct (nonempty arg_goal).
Qed.

End TeamsFacts.

(** ** Reminders *)

Module RemindersFacts.

Import JSON Storage Tool Reminders StorageFacts StoreFacts ToolFacts.

Lemma trigger_round_trip (t : ReminderTrigger) :
  trigger_of_json (trigger_to_json t) = Some t.
Proof. destruct t as [ty [v|]]; reflexivity. Qed.

Lemma trigger_wf (t : ReminderTrigger) : wf (trigger_to_json t) = true.
Proof. destruct t as [ty [v|]]; reflexivity. Qed.

Lemma reminder_round_trip (r : Reminder) :
  reminder_of_json (reminder_to_json r) = Some r.
Proof.
  destruct r as [i t m [c|] ca n [l|]];
    unfold reminder_of_json, reminder_to_json;
    cbn -[trigger_of_json trigger_to_json];
    rewrite trigger_round_trip; reflexivity.
Qed.

Lemma reminder_wf (r : Reminder) : wf (reminder_to_json r) = true.
Proof.
  destruct r as [i t m [c|] ca n [l|]]; cbn -[trigger_to_json];
    rewrite trigger_wf; reflexivity.
Qed.

Lemma reminders_round_trip (s : RemindersStore) :
  store_of_json (store_to_json s) = Some s.
Proof.
  destruct s as [v rs]. unfold store_of_json, store_to_json.
  cbn -[reminder_of_json reminder_to_json list_of_json].
  now rewrite (list_round_trip _ _ reminder_round_trip).
Qed.

Lemma reminders_wf (s : RemindersStore) : wf (JObj (store_to_json s)) = true.
Proof.
  destruct s as [v rs]. cbn. rewrite andb_true_r.
  apply (list_wf reminder_to_json). intros. apply reminder_wf.
Qed.

Lemma reminders_version (w : World) : schema_version (store w) = 1%Z.
Proof.
  unfold store. rewrite readStore_fst.
  generalize (w_files w !! storagePath FILE w). intros file.
  destruct (load_cases DEFAULT file) as [E|(ms & _ & Hv & Hof)];
    [reflexivity | now rewrite E |].
  cbn in Hof, Hv. unfold store_of_json, Dispatch.required in Hof.
  rewrite Hv in Hof. cbn in Hof.
  destruct (get_field "reminders" ms) as [j|]; [|discriminate Hof].
  destruct (as_list reminder_of_json j); cbn in Hof; [|discriminate Hof].
  now injection Hof as <-.
Qed.

Lemma reminders_update (f : RemindersStore -> RemindersStore) (w : World) :
  schema_version (f (store w)) = 1%Z ->
  store (snd (updateStore FILE DEFAULT f w)) = f (store w).
Proof.
  intros Hv. unfold store. apply typed_update; [apply reminders_wf|].
  fold (store w). destruct (f (store w)) as [v rs] eqn:E. cbn in Hv. subst v.
  change (store_of_json (store_to_json (mkStore 1 rs)) = Some (mkStore 1 rs)).
  apply reminders_round_trip.
Qed.

Lemma reminders_ensure (w : World) : store (ensureStorageDir w) = store w.
Proof. apply typed_ensure. Qed.

Lemma reminders_read (w : World) :
  readStore FILE DEFAULT w = (store w, ensureStorageDir w).
Proof. apply typed_read. Qed.

(** X22. A context fires the reminders that match it, and only counts
    them.  With a context, [list_reminders] adds one to [fired_count]
    and sets [last_fired_at] for every reminder whose id is that of a
    reminder of the asked type that fires: an [always] reminder, and a
    [keyword] or [event] reminder whose value is contained in the
    context, letter case aside.  Every other reminder is left as it
    was.  The limit bounds what is shown, not what is counted, and the
    answer shows the counts as they were before the call.  Without a
    context nothing is written. *)
Theorem context_fires_matching_reminders (arg_filter : option string)
    (c : string) (arg_limit : option Z) (w : World)
    (Hc : is_empty c = false) :
  let matched :=
    List.filter (fires (toLowerCase c))
      (of_type arg_filter (reminders (store w))) in
  reminders (store (snd (list_reminders arg_filter (Some c) arg_limit w)))
    = map (fire matched (nowISO w)) (reminders (store w)) /\
  (forall r, In r matched ->
     fire matched (nowISO w) r
     = mkReminder (id r) (trigger r) (message r) (context r) (created_at r)
         (fired_count r + 1) (Some (nowISO w))) /\
  (forall r, ~ In (id r) (map id matched) -> fire matched (nowISO w) r = r) /\
  (forall r, type (trigger r) = "always"%string ->
     fires (toLowerCase c) r = true) /\
  (forall r v,
     type (trigger r) = "keyword"%string \/ type (trigger r) = "event"%string ->
     value (trigger r) = Some v -> is_empty v = false ->
     fires (toLowerCase c) r = includes (toLowerCase v) (toLowerCase c)) /\
  (page arg_limit matched <> [] ->
   fst (list_reminders arg_filter (Some c) arg_limit w)
   = ok (unlines (map reminder_line (page arg_limit matched)))) /\
  snd (list_reminders arg_filter None arg_limit w) = ensureStorageDir w.
Proof.
  cbv zeta. set (matched := List.filter _ _).
  assert (forall r, In r matched ->
            existsb (fun x => String.eqb (id x) (id r)) matched = true) as Hin.
  { intros r Hr. apply existsb_exists. exists r. split; [exact Hr|].
    apply String.eqb_refl. }
  split; [|split; [|split; [|split; [|split; [|split]]]]].
  - unfold list_reminders. rewrite reminders_read. cbn [Dispatch.nonempty].
    rewrite Hc. fold matched. unfold nowISO. rewrite ensureStorageDir_now.
    fold (nowISO w).
    destruct (0 <? length matched)%nat eqn:Hlen.
    + assert (store (snd (updateStore FILE DEFAULT
                        (fun s => with_reminders
                                    (map (fire matched (nowISO w))
                                         (reminders s)) s)
                        (ensureStorageDir w)))
              = with_reminders
                  (map (fire matched (nowISO w)) (reminders (store w)))
                  (store w)) as Hs.
      { rewrite reminders_update; rewrite reminders_ensure; [reflexivity|].
        apply reminders_version. }
      destruct (page arg_limit matched); cbn [snd]; now rewrite Hs.
    + assert (matched = []) as Hnil
        by (destruct matched; [reflexivity | discriminate Hlen]).
      assert (store (snd (match page arg_limit matched with
                          | [] => (ok "No matching reminders for this context",
                                   ensureStorageDir w)
                          | r :: l =>
                              (ok (unlines (map reminder_line (r :: l))),
                               ensureStorageDir w)
                          end)) = store w) as Hs
        by (destruct (page arg_limit matched); cbn [snd]; apply reminders_ensure).
      rewrite Hs, Hnil. symmetry. erewrite map_ext; [apply map_id|].
      intros r. reflexivity.
  - intros r Hr. unfold fire. now rewrite (Hin r Hr).
  - intros r Hr. unfold fire.
    destruct (existsb _ matched) eqn:E; [|reflexivity].
    exfalso. apply Hr. apply existsb_exists in E as (x & Hx & Ex).
    apply String.eqb_eq in Ex. rewrite <- Ex. now apply in_map.
  - intros r Hr. unfold fires. now rewrite Hr.
  - intros r v Hty Hv Hne. unfold fires. rewrite Hv. cbn [Dispatch.nonempty].
    rewrite Hne. now destruct Hty as [-> | ->].
  - intros Hshown. unfold list_reminders. rewrite reminders_read.
    cbn [Dispatch.nonempty]. rewrite Hc. fold matched.
    destruct (page arg_limit matched) as [|r l]; [now contradiction Hshown|].
    reflexivity.
  - unfold list_reminders. rewrite reminders_read. cbn [Dispatch.nonempty].
    now destruct (page arg_limit _).
Qed.

(** Two reminders, one answer line: both are counted. *)
Lemma context_fires_matching_reminders_witness :
  let w0 := snd (set_reminder (Some (mkTrigger "always" None))
                   (Some "stretch"%string) None Samples.bare) in
  let w1 := snd (set_reminder (Some (mkTrigger "keyword" (Some "Deploy"%string)))
                   (Some "run the tests"%string) None
                   (Samples.rolled 195939070 w0)) in
  map fired_count
    (reminders (store (snd (list_reminders None (Some "before DEPLOYING"%string)
                              (Some 1%Z) w1))))
  = [1%Z; 1%Z].
Proof.
  cbv zeta.
  rewrite (proj1 (context_fires_matching_reminders None "before DEPLOYING"
                    (Some 1%Z) _ eq_refl)).
  vm_compute. reflexivity.
Defined.

Lemma find_reminder_none (i : string) (rs : list Reminder) :
  List.find (fun r => String.eqb (id r) i) rs = None ->
  List.filter (fun r => negb (String.eqb (id r) i)) rs = rs.
Proof.
  induction rs as [|r rs IH]; [reflexivity|]. cbn.
  destruct (String.eqb (id r) i); [discriminate|]. cbn.
  intros H. now rewrite IH.
Qed.

Lemma genId_not_empty (prefix : string) (w : World) :
  is_empty (genId prefix w) = false.
Proof.
  unfold genId. destruct prefix; reflexivity.
Qed.

(** X23. A reminder that is set can be dismissed.  [set_reminder] adds
    one reminder at the end of the store, under a generated id and with a
    count of 0; [dismiss_reminder] removes the reminders of the id it
    is given and no other, so that dismissing a reminder that was just
    set under an unused id gives back the store as it was; an id that
    no reminder has is answered with an error and nothing is
    written. *)
Theorem reminder_is_set_and_dismissed (t : ReminderTrigger)
    (m : string) (c : option string) (i : string) (w : World)
    (Ht : is_empty (type t) = false)
    (Hm : is_empty m = false)
    (Hi : is_empty i = false) :
  let w1 := snd (set_reminder (Some t) (Some m) c w) in
  reminders (store w1)
    = reminders (store w) ++
      [mkReminder (genId "rem" w) t m c (nowISO w) 0 None] /\
  (find_reminder i (store w) <> None ->
   reminders (store (snd (dismiss_reminder (Some i) w)))
     = List.filter (fun r => negb (String.eqb (id r) i)) (reminders (store w)) /\
   find_reminder i (store (snd (dismiss_reminder (Some i) w))) = None /\
   fst (dismiss_reminder (Some i) w)
     = ok ("Reminder " +:+ quoted i +:+ " dismissed")) /\
  (find_reminder i (store w) = None ->
   dismiss_reminder (Some i) w
     = (err ("Reminder " +:+ quoted i +:+ " not found"), ensureStorageDir w)) /\
  (find_reminder (genId "rem" w) (store w) = None ->
   reminders (store (snd (dismiss_reminder (Some (genId "rem" w)) w1)))
     = reminders (store w)).
Proof.
  cbv zeta.
  assert (reminders (store (snd (set_reminder (Some t) (Some m) c w)))
          = reminders (store w) ++
            [mkReminder (genId "rem" w) t m c (nowISO w) 0 None]) as Hset.
  { unfold set_reminder. cbn [Dispatch.nonempty]. rewrite Hm, Ht.
    pose proof (reminders_update
                  (fun s => with_reminders
                              (reminders s ++
                               [mkReminder (genId "rem" w) t m c (nowISO w) 0
                                  None]) s) w (reminders_version w)) as Hs.
    destruct (updateStore _ _ _ w) as [s w1]. cbn [fst snd] in *.
    now rewrite Hs. }
  assert (forall j w0, is_empty j = false ->
            find_reminder j (store w0) <> None ->
            reminders (store (snd (dismiss_reminder (Some j) w0)))
            = List.filter (fun r => negb (String.eqb (id r) j))
                (reminders (store w0)) /\
            fst (dismiss_reminder (Some j) w0)
            = ok ("Reminder " +:+ quoted j +:+ " dismissed")) as Hdis.
  { intros j w0 Hj Hfound. unfold dismiss_reminder. cbn [Dispatch.nonempty].
    rewrite Hj, reminders_read.
    destruct (find_reminder j (store w0)); [|now contradiction Hfound].
    pose proof (reminders_update
                  (fun s => with_reminders
                              (List.filter
                                 (fun r => negb (String.eqb (id r) j))
                                 (reminders s)) s)
                  (ensureStorageDir w0)) as Hs.
    rewrite reminders_ensure in Hs. specialize (Hs (reminders_version w0)).
    destruct (updateStore _ _ _ _) as [s w2]. cbn [fst snd] in *.
    now rewrite Hs. }
  split; [exact Hset|]. split; [|split].
  - intros Hfound. destruct (Hdis i w Hi Hfound) as [Hrs Hreply].
    split; [exact Hrs|]. split; [|exact Hreply].
    unfold find_reminder. rewrite Hrs.
    destruct (List.find _ (List.filter _ _)) as [r|] eqn:E; [|reflexivity].
    apply find_some in E as [Hin E]. apply filter_In in Hin as [_ Hne].
    now rewrite E in Hne.
  - intros Hnone. unfold dismiss_reminder. cbn [Dispatch.nonempty].
    now rewrite Hi, reminders_read, Hnone.
  - intros Hfresh.
    destruct (Hdis (genId "rem" w) (snd (set_reminder (Some t) (Some m) c w))
                (genId_not_empty "rem" w)) as [Hrs _].
    { unfold find_reminder. rewrite Hset, find_app.
      unfold find_reminder in Hfresh. rewrite Hfresh. cbn.
      now rewrite String.eqb_refl. }
    rewrite Hrs, Hset, List.filter_app. cbn. rewrite String.eqb_refl. cbn.
    rewrite app_nil_r. now apply find_reminder_none.
Qed.

(** The reminder of the sample, set and dismissed. *)
Lemma reminder_is_set_and_dismissed_witness :
  reminders (store (snd (dismiss_reminder (Some (genId "rem" Samples.bare))
                           (snd (set_reminder
                                   (Some (mkTrigger "always" None))
                                   (Some "stretch"%string) None
                                   Samples.bare)))))
  = reminders (store Samples.bare).
Proof.
  pose proof (reminder_is_set_and_dismissed (mkTrigger "always" None)
                "stretch" None "rem_deadbeef" Samples.bare
                eq_refl eq_refl eq_refl) as H.
  cbv zeta in H. destruct H as (_ & _ & _ & H).
  apply H. vm_compute. reflexivity.
Defined.

End RemindersFacts.

(** ** Learnings *)

Module LearningFacts.

Import JSON Storage Tool Learning StorageFacts StoreFacts ToolFacts.

Lemma learning_round_trip (l : Learning) :
  learning_of_json (learning_to_json l) = Some l.
Proof. now destruct l. Qed.

Lemma learning_wf (l : Learning) : wf (learning_to_json l) = true.
Proof. now destruct l. Qed.

Lemma skill_round_trip (sk : Skill) : skill_of_json (skill_to_json sk) = Some sk.
Proof.
  destruct sk as [obs]. unfold skill_of_json, skill_to_json.
  cbn -[learning_of_json learning_to_json list_of_json].
  now rewrite (list_round_trip _ _ learning_round_trip).
Qed.

Lemma skill_wf (sk : Skill) : wf (skill_to_json sk) = true.
Proof.
  destruct sk as [obs]. cbn. rewrite andb_true_r.
  apply (list_wf learning_to_json). intros. apply learning_wf.
Qed.

Lemma learnings_round_trip (s : LearningsStore) :
  store_of_json (store_to_json s) = Some s.
Proof.
  destruct s as [v sk]. unfold store_of_json, store_to_json.
  cbn -[skill_of_json skill_to_json record_of_json].
  now rewrite (record_round_trip _ _ skill_round_trip).
Qed.

Lemma learnings_wf (s : LearningsStore) :
  distinct (map fst (skills s)) = true -> wf (JObj (store_to_json s)) = true.
Proof.
  intros Hd. destruct s as [v sk].
  assert (wf (record_to_json skill_to_json sk) = true) as H
    by (apply record_wf; [exact Hd | intros; apply skill_wf]).
  unfold store_to_json. cbn [schema_version skills].
  cbn -[record_to_json]. now rewrite H.
Qed.

(** What is read has version 1 and no two skills of one name. *)
Lemma learnings_invariant (w : World) :
  schema_version (store w) = 1%Z /\
  distinct (map fst (skills (store w))) = true.
Proof.
  unfold store. rewrite readStore_fst.
  generalize (w_files w !! storagePath FILE w). intros file.
  destruct (load_cases DEFAULT file) as [E|(ms & Hwf & Hv & Hof)];
    [reflexivity | now rewrite E |].
  cbn in Hof, Hv. unfold store_of_json, Dispatch.required in Hof.
  rewrite Hv in Hof. cbn in Hof.
  destruct (get_field "skills" ms) as [j|] eqn:Hj; [|discriminate Hof].
  destruct (as_record skill_of_json j) as [sk|] eqn:Hsk; cbn in Hof;
    [|discriminate Hof].
  injection Hof as <-. split; [reflexivity|]. cbn [skills].
  pose proof (wf_member _ _ _ Hwf Hj) as Hwj.
  destruct j as [ | | | | |sms]; try discriminate Hsk.
  cbn in Hsk. rewrite (record_keys _ _ _ Hsk).
  cbn in Hwj. now apply andb_prop in Hwj as [Hd _].
Qed.

Lemma learnings_update (f : LearningsStore -> LearningsStore) (w : World) :
  schema_version (f (store w)) = 1%Z ->
  distinct (map fst (skills (f (store w)))) = true ->
  store (snd (updateStore FILE DEFAULT f w)) = f (store w).
Proof.
  intros Hv Hd. unfold store. apply typed_update; [now apply learnings_wf|].
  fold (store w). destruct (f (store w)) as [v sk] eqn:E. cbn in Hv. subst v.
  change (store_of_json (store_to_json (mkStore 1 sk)) = Some (mkStore 1 sk)).
  apply learnings_round_trip.
Qed.

Lemma learnings_ensure (w : World) : store (ensureStorageDir w) = store w.
Proof. apply typed_ensure. Qed.

Lemma learnings_read (w : World) :
  readStore FILE DEFAULT w = (store w, ensureStorageDir w).
Proof. apply typed_read. Qed.

Lemma fold_folded (unfolded : list Learning) (o : Learning) :
  (folded o = false -> In o unfolded) -> folded (fold unfolded o) = true.
Proof.
  intros H. unfold fold.
  destruct (existsb _ unfolded) eqn:E; [reflexivity|].
  destruct (folded o) eqn:Hf; [reflexivity|].
  assert (existsb (fun u => String.eqb (id u) (id o)) unfolded = true) as E'.
  { apply existsb_exists. exists o. split; [now apply H|].
    apply String.eqb_refl. }
  congruence.
Qed.

(** X24. Folding marks every observation of the skill.  When a skill
    has observations that are not folded, [fold_learnings] answers
    with the suggestion that lists them and sets [folded] on every
    observation of the skill, their ids, texts and dates as before and
    the other skills untouched; asked again, it answers that all are
    folded and writes nothing. *)
Theorem fold_marks_every_observation (skill : string) (data : Skill)
    (w : World)
    (Hskill : is_empty skill = false)
    (Hown : assoc skill (skills (store w)) = Some data)
    (Hsome : List.filter (fun o => negb (folded o)) (observations data) <> [])
    (Hfile : existsSync (path_join [SKILLS_DIR w; skill; "SKILL.md"]%string)
               (ensureStorageDir w) = true ->
             w_files w !! path_join [SKILLS_DIR w; skill; "SKILL.md"]%string
             <> None) :
  let w' := snd (fold_learnings (Some skill) w) in
  let unfolded := List.filter (fun o => negb (folded o)) (observations data) in
  (exists md,
     fst (fold_learnings (Some skill) w)
     = Returned (ok (suggestion skill
                       (path_join [SKILLS_DIR w; skill; "SKILL.md"]%string)
                       md unfolded))) /\
  (exists data',
     assoc skill (skills (store w')) = Some data' /\
     Forall (fun o => folded o = true) (observations data') /\
     map id (observations data') = map id (observations data) /\
     map observation (observations data')
       = map observation (observations data) /\
     map created_at (observations data')
       = map created_at (observations data)) /\
  (forall other, other <> skill ->
     assoc other (skills (store w')) = assoc other (skills (store w))) /\
  fold_learnings (Some skill) w'
    = (Returned (ok ("All learnings for " +:+ quoted skill +:+
                     " are already folded")), ensureStorageDir w').
Proof.
  cbv zeta. set (unfolded := List.filter _ _) in *.
  destruct (learnings_invariant w) as [Hv Hd].
  set (path := path_join [SKILLS_DIR w; skill; "SKILL.md"]%string) in *.
  assert (exists md,
            fold_learnings (Some skill) w
            = (Returned (ok (suggestion skill path md unfolded)),
               snd (updateStore FILE DEFAULT
                      (fun s =>
                         with_skills
                           (set_prop skill
                              (mkSkill (map (fold unfolded) (observations data)))
                              (skills s)) s)
                      (ensureStorageDir w)))) as [md Hshape].
  { unfold fold_learnings. cbn [Dispatch.nonempty].
    rewrite Hskill, learnings_read, (lookup_own _ _ _ Hown). fold unfolded.
    destruct unfolded as [|u us] eqn:Hu; [now contradiction Hsome|].
    replace (SKILLS_DIR (ensureStorageDir w)) with (SKILLS_DIR w)
      by (unfold SKILLS_DIR; now rewrite ensureStorageDir_home).
    fold path. unfold readFileSync. rewrite ensureStorageDir_files.
    destruct (existsSync path (ensureStorageDir w)) eqn:Hex.
    - destruct (w_files w !! path) as [md|] eqn:Hmd;
        [|now contradiction (Hfile eq_refl)].
      exists md. now destruct (updateStore _ _ _ _).
    - exists ""%string. now destruct (updateStore _ _ _ _). }
  rewrite Hshape. cbn [fst snd].
  assert (store (snd (updateStore FILE DEFAULT
                    (fun s =>
                       with_skills
                         (set_prop skill
                            (mkSkill (map (fold unfolded) (observations data)))
                            (skills s)) s)
                    (ensureStorageDir w)))
          = with_skills
              (set_prop skill
                 (mkSkill (map (fold unfolded) (observations data)))
                 (skills (store w))) (store w)) as Hstore.
  { rewrite learnings_update; rewrite learnings_ensure; try reflexivity;
      [exact Hv | now apply distinct_set_prop]. }
  set (w' := snd (updateStore _ _ _ _)) in *.
  assert (Forall (fun o => folded o = true)
            (map (fold unfolded) (observations data))) as Hall.
  { apply List.Forall_forall. intros o' Hin.
    apply in_map_iff in Hin as (o & <- & Hin). apply fold_folded.
    intros Hf. apply filter_In. split; [exact Hin | now rewrite Hf]. }
  split; [now exists md|]. split; [|split].
  - eexists. rewrite Hstore. cbn [skills with_skills].
    split; [apply assoc_set_prop|]. cbn [observations].
    split; [exact Hall|]. rewrite !map_map.
    repeat split; apply map_ext; intros o; unfold fold;
      now destruct (existsb _ unfolded).
  - intros other Hne. rewrite Hstore. cbn [skills with_skills].
    now apply assoc_set_other.
  - unfold fold_learnings. cbn [Dispatch.nonempty].
    rewrite Hskill, learnings_read, Hstore. cbn [skills with_skills].
    rewrite (lookup_own _ _ _ (assoc_set_prop _ _ _)). cbn [observations].
    assert (List.filter (fun o => negb (folded o))
              (map (fold unfolded) (observations data)) = []) as ->.
    { revert Hall. generalize (map (fold unfolded) (observations data)).
      intros l Hl. induction Hl as [|o l Ho _ IH]; [reflexivity|].
      cbn. now rewrite Ho. }
    reflexivity.
Qed.

(** One observation, folded and folded again. *)
Lemma fold_marks_every_observation_witness :
  fst (fold_learnings (Some "rocq"%string)
         (snd (fold_learnings (Some "rocq"%string)
                 (snd (note_learning (Some "rocq"%string)
                         (Some "name the hypotheses"%string) Samples.bare)))))
  = Returned (ok ("All learnings for " +:+ quoted "rocq" +:+
                  " are already folded")).
Proof.
  pose proof (fold_marks_every_observation "rocq"
                (mkSkill [mkLearning "lrn_deadbeef" "name the hypotheses"
                            "2026-02-09T10:00:00.000Z" false])
                (snd (note_learning (Some "rocq"%string)
                        (Some "name the hypotheses"%string) Samples.bare))
                eq_refl ltac:(vm_compute; reflexivity)
                ltac:(discriminate)
                ltac:(intros H; vm_compute in H; discriminate H)) as H.
  cbv zeta in H. destruct H as (_ & _ & _ & H).
  rewrite H. reflexivity.
Defined.

(** [note_learning] adds the observation at the end of the
    observations of the skill, not folded and under a generated id, and
    makes the skill when the store has none of that name; the other
    skills are left as they were.  Without a skill or without an
    observation it answers with an error and writes nothing. *)
Theorem learning_is_noted_last (skill obs : string) (w : World)
    (Hskill : is_empty skill = false)
    (Hobs : is_empty obs = false) :
  let w' := snd (note_learning (Some skill) (Some obs) w) in
  let learning := mkLearning (genId "lrn" w) obs (nowISO w) false in
  (forall data, assoc skill (skills (store w)) = Some data ->
     assoc skill (skills (store w'))
     = Some (mkSkill (observations data ++ [learning]))) /\
  (assoc skill (skills (store w)) = None ->
   assoc skill (skills (store w')) = Some (mkSkill [learning])) /\
  (forall other, other <> skill ->
     assoc other (skills (store w')) = assoc other (skills (store w))) /\
  (forall o, note_learning None o w
             = (err "skill and observation are required", w)) /\
  (forall k, note_learning k None w
             = (err "skill and observation are required", w)).
Proof.
  cbv zeta. destruct (learnings_invariant w) as [Hv Hd].
  assert (store (snd (note_learning (Some skill) (Some obs) w))
          = with_skills
              (set_prop skill
                 (mkSkill (existing skill (store w) ++
                           [mkLearning (genId "lrn" w) obs (nowISO w) false]))
                 (skills (store w))) (store w)) as Hstore.
  { unfold note_learning. cbn [Dispatch.nonempty]. rewrite Hskill, Hobs.
    pose proof (learnings_update
                  (fun s =>
                     with_skills
                       (set_prop skill
                          (mkSkill (existing skill s ++
                                    [mkLearning (genId "lrn" w) obs (nowISO w)
                                       false]))
                          (skills s)) s) w Hv) as Hs.
    destruct (updateStore _ _ _ w) as [s w1]. cbn [fst snd] in *.
    apply Hs. cbn [skills with_skills]. now apply distinct_set_prop. }
  rewrite Hstore. cbn [skills with_skills].
  split; [|split; [|split; [|split]]].
  - intros data Hown. rewrite assoc_set_prop. unfold existing.
    now rewrite (lookup_own _ _ _ Hown).
  - intros Hnone. rewrite assoc_set_prop. unfold existing, lookup_prop.
    rewrite Hnone. now destruct (inherited skill).
  - intros other Hne. now apply assoc_set_other.
  - reflexivity.
  - intros k. unfold note_learning. now destruct (nonempty k).
Qed.

(** The first observation of a skill. *)
Lemma learning_is_noted_last_witness :
  assoc "rocq"
    (skills (store (snd (note_learning (Some "rocq"%string)
                           (Some "name the hypotheses"%string) Samples.bare))))
  = Some (mkSkill [mkLearning "lrn_deadbeef" "name the hypotheses"
                     "2026-02-09T10:00:00.000Z" false]).
Proof.
  pose proof (learning_is_noted_last "rocq" "name the hypotheses" Samples.bare
                eq_refl eq_refl) as H.
  cbv zeta in H. destruct H as (_ & H & _).
  apply H. vm_compute. reflexivity.
Defined.

(** X25. A skill named like a property that every object inherits
    (constructor, toString, __proto__ and the like) is taken for a
    skill of the store although the store has none of that name: on a
    store that is not empty [get_learnings] for it throws, on any
    store [fold_learnings] for it throws, where a name that is neither
    owned nor inherited is answered with "No learnings for". *)
Theorem inherited_name_is_taken_for_a_skill (skill : string)
    (arg_limit : option Z) (w : World)
    (Hskill : is_empty skill = false)
    (Hnone : assoc skill (skills (store w)) = None) :
  (inherited skill = true ->
   fold_learnings (Some skill) w = (Thrown TypeError, ensureStorageDir w) /\
   (skills (store w) <> [] ->
    get_learnings (Some skill) arg_limit w
      = (Thrown TypeError, ensureStorageDir w))) /\
  (inherited skill = false ->
   fold_learnings (Some skill) w
     = (Returned (err ("No learnings for skill " +:+ quoted skill)),
        ensureStorageDir w) /\
   (skills (store w) <> [] ->
    get_learnings (Some skill) arg_limit w
      = (Returned (ok ("No learnings for " +:+ quoted skill)),
         ensureStorageDir w))).
Proof.
  unfold fold_learnings, get_learnings. cbn [Dispatch.nonempty].
  rewrite Hskill, learnings_read. cbn [sections]. unfold lookup_prop.
  rewrite Hnone.
  split; intros ->; (split; [reflexivity|]); intros Hne;
    now destruct (skills (store w)).
Qed.

(** The skill called constructor. *)
Lemma inherited_name_is_taken_for_a_skill_witness :
  fst (fold_learnings (Some "constructor"%string) Samples.bare)
  = Thrown TypeError.
Proof.
  pose proof (inherited_name_is_taken_for_a_skill "constructor" None
                Samples.bare eq_refl ltac:(vm_compute; reflexivity)) as H.
  destruct H as [H _]. destruct (H eq_refl) as [E _].
  rewrite E. reflexivity.
Defined.

End LearningFacts.

(** ** Session context *)

Module ContextFacts.

Import JSON Storage Tool Context StorageFacts StoreFacts ToolFacts.

Lemma entry_round_trip (e : ContextEntry) :
  entry_of_json (entry_to_json e) = Some e.
Proof. destruct e as [[v|] s]; reflexivity. Qed.

Lemma entry_wf (e : ContextEntry) :
  (forall v, value e = Some v -> wf v = true) -> wf (entry_to_json e) = true.
Proof.
  destruct e as [[v|] s]; cbn; [|reflexivity].
  intros H. now rewrite (H v eq_refl).
Qed.

Lemma context_round_trip (s : ContextStore) :
  store_of_json (store_to_json s) = Some s.
Proof.
  destruct s as [v es]. unfold store_of_json, store_to_json.
  cbn -[entry_of_json entry_to_json record_of_json].
  now rewrite (record_round_trip _ _ entry_round_trip).
Qed.

Lemma context_wf (s : ContextStore) :
  distinct (map fst (entries s)) = true -> values_wf (entries s) ->
  wf (JObj (store_to_json s)) = true.
Proof.
  intros Hd Hv. destruct s as [v es].
  assert (wf (record_to_json entry_to_json es) = true) as H.
  { apply record_wf; [exact Hd|]. intros k e Hin. apply entry_wf.
    intros j Hj. now apply (Hv k e j). }
  unfold store_to_json. cbn [schema_version entries].
  cbn -[record_to_json]. now rewrite H.
Qed.

Lemma record_values (ms : list (string * json))
    (es : list (string * ContextEntry)) :
  record_of_json entry_of_json ms = Some es ->
  forallb (fun m => wf (snd m)) ms = true -> values_wf es.
Proof.
  revert es. induction ms as [|[k j] ms IH]; intros es; cbn.
  - intros [= <-] _ k e v [].
  - destruct (entry_of_json j) as [e|] eqn:He; [|discriminate]. cbn.
    destruct (record_of_json entry_of_json ms) as [es'|]; [|discriminate].
    cbn. intros [= <-] Hwf. apply andb_prop in Hwf as [Hj Hms].
    intros k' e' v [[= <- <-]|Hin] Hv.
    + destruct j as [ | | | | |jms]; try discriminate He. cbn in He.
      destruct (Dispatch.required _ _ _); [|discriminate He].
      cbn in He. injection He as <-. cbn in Hv.
      now apply (wf_member "value" jms).
    + now apply (IH es' eq_refl Hms k' e' v).
Qed.

(** What is read has version 1, no two entries of one name, and well
    formed values. *)
Lemma context_invariant (w : World) :
  schema_version (store w) = 1%Z /\
  distinct (map fst (entries (store w))) = true /\
  values_wf (entries (store w)).
Proof.
  unfold store. rewrite readStore_fst.
  generalize (w_files w !! storagePath FILE w). intros file.
  destruct (load_cases DEFAULT file) as [E|(ms & Hwf & Hv & Hof)];
    [reflexivity | rewrite E; repeat split; intros k e v [] |].
  cbn in Hof, Hv. unfold store_of_json, Dispatch.required in Hof.
  rewrite Hv in Hof. cbn in Hof.
  destruct (get_field "entries" ms) as [j|] eqn:Hj; [|discriminate Hof].
  destruct (as_record entry_of_json j) as [es|] eqn:Hes; cbn in Hof;
    [|discriminate Hof].
  injection Hof as <-. split; [reflexivity|]. cbn [entries].
  pose proof (wf_member _ _ _ Hwf Hj) as Hwj.
  destruct j as [ | | | | |ems]; try discriminate Hes.
  cbn in Hes, Hwj. apply andb_prop in Hwj as [Hd Hvals]. split.
  - now rewrite (record_keys _ _ _ Hes).
  - now apply (record_values ems).
Qed.

Lemma context_update (f : ContextStore -> ContextStore) (w : World) :
  schema_version (f (store w)) = 1%Z ->
  distinct (map fst (entries (f (store w)))) = true ->
  values_wf (entries (f (store w))) ->
  store (snd (updateStore FILE DEFAULT f w)) = f (store w).
Proof.
  intros Hv Hd Hw. unfold store. apply typed_update; [now apply context_wf|].
  fold (store w). destruct (f (store w)) as [v es] eqn:E. cbn in Hv. subst v.
  change (store_of_json (store_to_json (mkStore 1 es)) = Some (mkStore 1 es)).
  apply context_round_trip.
Qed.

Lemma context_ensure (w : World) : store (ensureStorageDir w) = store w.
Proof. apply typed_ensure. Qed.

Lemma context_read (w : World) :
  readStore FILE DEFAULT w = (store w, ensureStorageDir w).
Proof. apply typed_read. Qed.

Lemma in_set_prop {A} (k k' : string) (x y : A) (r : list (string * A)) :
  In (k', y) (set_prop k x r) -> (k' = k /\ y = x) \/ In (k', y) r.
Proof.
  induction r as [|[a z] r IH]; cbn.
  - intros [[= <- <-]|[]]. now left.
  - destruct (String.eqb_spec a k) as [->|Ha]; cbn.
    + intros [[= <- <-]|Hin]; [now left | right; now right].
    + intros [E|Hin]; [right; now left|].
      destruct (IH Hin) as [H|H]; [now left | right; now right].
Qed.

Lemma in_remove_prop {A} (k k' : string) (y : A) (r : list (string * A)) :
  In (k', y) (remove_prop k r) -> In (k', y) r.
Proof.
  induction r as [|[a z] r IH]; cbn; [trivial|].
  destruct (String.eqb a k); cbn.
  - intros H. right. now apply IH.
  - intros [E|H]; [now left | right; now apply IH].
Qed.

(** X26. A value that is set under a key is the value that is got.
    After [set_context], the store holds the value and the time under
    the key, the entries of the other keys as before, and
    [get_context] of the key answers with the key, the value and the
    time, printed as JSON. *)
Theorem context_set_is_context_got (key : string) (v : option json)
    (w : World)
    (Hkey : is_empty key = false)
    (Hwf : forall j, v = Some j -> wf j = true) :
  let w' := snd (set_context (Some key) v w) in
  fst (set_context (Some key) v w) = ok ("Context " +:+ quoted key +:+ " set") /\
  assoc key (entries (store w')) = Some (mkEntry v (nowISO w)) /\
  (forall other, other <> key ->
     assoc other (entries (store w')) = assoc other (entries (store w))) /\
  get_context (Some key) w'
    = (Returned
         (ok (stringify
                (JObj (("key", JStr key) ::
                       opt_member "value" v [("set_at", JStr (nowISO w))])))),
       ensureStorageDir w').
Proof.
  cbv zeta. destruct (context_invariant w) as (Hv & Hd & Hvals).
  assert (set_context (Some key) v w
          = (ok ("Context " +:+ quoted key +:+ " set"),
             snd (updateStore FILE DEFAULT
                    (fun s =>
                       with_entries
                         (set_prop key (mkEntry v (nowISO w)) (entries s)) s)
                    w))) as Hshape.
  { unfold set_context. cbn [Dispatch.nonempty]. rewrite Hkey.
    now destruct (updateStore _ _ _ w). }
  rewrite Hshape. cbn [fst snd].
  assert (store (snd (updateStore FILE DEFAULT
                    (fun s =>
                       with_entries
                         (set_prop key (mkEntry v (nowISO w)) (entries s)) s)
                    w))
          = with_entries
              (set_prop key (mkEntry v (nowISO w)) (entries (store w)))
              (store w)) as Hstore.
  { apply (context_update
             (fun s => with_entries
                         (set_prop key (mkEntry v (nowISO w)) (entries s)) s));
      cbn [entries with_entries schema_version];
      [exact Hv | now apply distinct_set_prop |].
    intros k e j Hin Hj. apply in_set_prop in Hin as [[_ ->]|Hin].
    - now apply Hwf.
    - now apply (Hvals k e j). }
  set (w' := snd (updateStore _ _ _ _)) in *.
  split; [reflexivity|]. split; [|split].
  - rewrite Hstore. apply assoc_set_prop.
  - intros other Hne. rewrite Hstore. now apply assoc_set_other.
  - unfold get_context. rewrite context_read. cbn [Dispatch.nonempty].
    rewrite Hkey, Hstore. cbn [entries with_entries].
    now rewrite (lookup_own _ _ _ (assoc_set_prop _ _ _)).
Qed.

(** A goal, set and got. *)
Lemma context_set_is_context_got_witness :
  assoc "goal"
    (entries (store (snd (set_context (Some "goal"%string)
                            (Some (JArr [JStr "ship"; JNum 2])) Samples.bare))))
  = Some (mkEntry (Some (JArr [JStr "ship"; JNum 2]))
            "2026-02-09T10:00:00.000Z").
Proof.
  pose proof (context_set_is_context_got "goal"
                (Some (JArr [JStr "ship"; JNum 2])) Samples.bare eq_refl) as H.
  cbv zeta in H. refine (proj1 (proj2 (H _))).
  intros j [= <-]. reflexivity.
Defined.

(** X27. [clear_context] removes the entry of the key and no other:
    afterwards [get_context] has no entry for the key and the other
    entries are as before.  A key that the store does not own is
    answered with an error and nothing is written, unless the key is
    the name of a property that every object inherits: then the call
    answers that the key is cleared, and the entries are as they
    were. *)
Theorem clear_removes_the_entry (key : string) (w : World)
    (Hkey : is_empty key = false) :
  let w' := snd (clear_context (Some key) w) in
  (forall e, assoc key (entries (store w)) = Some e ->
     fst (clear_context (Some key) w)
       = ok ("Context " +:+ quoted key +:+ " cleared") /\
     assoc key (entries (store w')) = None /\
     (forall other, other <> key ->
        assoc other (entries (store w')) = assoc other (entries (store w))) /\
     (inherited key = false ->
      get_context (Some key) w' = (Returned (no_entry key), ensureStorageDir w'))) /\
  (assoc key (entries (store w)) = None -> inherited key = false ->
   clear_context (Some key) w = (no_entry key, ensureStorageDir w)) /\
  (assoc key (entries (store w)) = None -> inherited key = true ->
   fst (clear_context (Some key) w)
     = ok ("Context " +:+ quoted key +:+ " cleared") /\
   entries (store w') = entries (store w)).
Proof.
  cbv zeta. destruct (context_invariant w) as (Hv & Hd & Hvals).
  assert (forall rest,
            distinct (map fst rest) = true -> values_wf rest ->
            store (snd (updateStore FILE DEFAULT (fun s => with_entries rest s)
                          (ensureStorageDir w)))
            = with_entries rest (store w)) as Hupd.
  { intros rest Hdr Hvr. rewrite context_update; rewrite context_ensure;
      try reflexivity; assumption. }
  assert (values_wf (remove_prop key (entries (store w)))) as Hrest.
  { intros k e j Hin Hj. apply in_remove_prop in Hin.
    now apply (Hvals k e j). }
  assert (lookup_prop key (entries (store w)) <> Absent ->
          clear_context (Some key) w
          = (ok ("Context " +:+ quoted key +:+ " cleared"),
             snd (updateStore FILE DEFAULT
                    (fun s => with_entries
                                (remove_prop key (entries (store w))) s)
                    (ensureStorageDir w)))) as Hshape.
  { intros Hl. unfold clear_context. cbn [Dispatch.nonempty].
    rewrite Hkey, context_read.
    destruct (lookup_prop key (entries (store w)));
      [| |now contradiction Hl]; now destruct (updateStore _ _ _ _). }
  split; [|split].
  - intros e Hown.
    rewrite Hshape by (rewrite (lookup_own _ _ _ Hown); discriminate).
    cbn [fst snd].
    rewrite Hupd by (try apply distinct_remove_prop; assumption).
    cbn [entries with_entries].
    split; [reflexivity|]. split; [apply assoc_remove_prop|]. split.
    + intros other Hne. now apply assoc_remove_other.
    + intros Hinh. unfold get_context. rewrite context_read.
      cbn [Dispatch.nonempty]. rewrite Hkey.
      rewrite Hupd by (try apply distinct_remove_prop; assumption).
      cbn [entries with_entries]. unfold lookup_prop.
      now rewrite assoc_remove_prop, Hinh.
  - intros Hnone Hinh. unfold clear_context. cbn [Dispatch.nonempty].
    rewrite Hkey, context_read. unfold lookup_prop. now rewrite Hnone, Hinh.
  - intros Hnone Hinh.
    rewrite Hshape by (unfold lookup_prop; rewrite Hnone, Hinh; discriminate).
    cbn [fst snd]. split; [reflexivity|].
    rewrite Hupd by (try apply distinct_remove_prop; assumption).
    cbn [entries with_entries].
    clear - Hnone. induction (entries (store w)) as [|[a x] r IH];
      [reflexivity|]. cbn in *.
    destruct (String.eqb a key); [discriminate Hnone|]. now rewrite IH.
Qed.

(** The goal of the sample, cleared; and the key toString. *)
Lemma clear_removes_the_entry_witness :
  assoc "goal"
    (entries (store (snd (clear_context (Some "goal"%string)
                            (snd (set_context (Some "goal"%string)
                                    (Some (JStr "ship")) Samples.bare))))))
  = None /\
  fst (clear_context (Some "toString"%string) Samples.bare)
  = ok ("Context " +:+ quoted "toString" +:+ " cleared").
Proof.
  split.
  - pose proof (clear_removes_the_entry "goal"
                  (snd (set_context (Some "goal"%string) (Some (JStr "ship"))
                          Samples.bare)) eq_refl) as H.
    cbv zeta in H. destruct H as (H & _).
    refine (proj1 (proj2 (H (mkEntry (Some (JStr "ship"))
                               "2026-02-09T10:00:00.000Z") _))).
    vm_compute. reflexivity.
  - pose proof (clear_removes_the_entry "toString" Samples.bare eq_refl) as H.
    cbv zeta in H. destruct H as (_ & _ & H).
    refine (proj1 (H _ _)); vm_compute; reflexivity.
Defined.

End ContextFacts.

(** ** Workflows *)

Module WorkflowFacts.

Import JSON Storage Tool Workflow StorageFacts StoreFacts ToolFacts.

Lemma step_round_trip (s : Step.t) : step_of_json (step_to_json s) = Some s.
Proof. destruct s as [d st [n|] [c|]]; reflexivity. Qed.

Lemma step_wf (s : Step.t) : wf (step_to_json s) = true.
Proof. destruct s as [d st [n|] [c|]]; reflexivity. Qed.

Lemma as_str_round_trip (s : string) : as_str (JStr s) = Some s.
Proof. reflexivity. Qed.

Lemma template_round_trip (t : Template.t) :
  template_of_json (template_to_json t) = Some t.
Proof.
  destruct t as [n st]. unfold template_of_json, template_to_json.
  cbn -[list_of_json].
  now rewrite (list_round_trip _ _ as_str_round_trip).
Qed.

Lemma template_wf (t : Template.t) : wf (template_to_json t) = true.
Proof.
  destruct t as [n st]. cbn. rewrite andb_true_r.
  apply (list_wf JStr). reflexivity.
Qed.

Lemma active_round_trip (a : ActiveWorkflow) :
  active_of_json (active_to_json a) = Some a.
Proof.
  destruct a as [[n|] c st sa [co|]];
    unfold active_of_json, active_to_json, active_members;
    cbn -[step_of_json step_to_json list_of_json];
    rewrite (list_round_trip _ _ step_round_trip); reflexivity.
Qed.

Lemma active_wf (a : ActiveWorkflow) : wf (active_to_json a) = true.
Proof.
  assert (forallb wf (map step_to_json (steps a)) = true) as Hs
    by (apply (list_wf step_to_json); intros; apply step_wf).
  destruct a as [[n|] c st sa [co|]]; cbn in *; now rewrite Hs.
Qed.

Lemma workflows_round_trip (s : WorkflowsStore) :
  store_of_json (store_to_json s) = Some s.
Proof.
  destruct s as [v ts [a|]]; unfold store_of_json, store_to_json, store_members;
    cbn -[template_of_json template_to_json record_of_json
          active_of_json active_to_json];
    rewrite (record_round_trip _ _ template_round_trip);
    cbn -[active_of_json active_to_json];
    [now rewrite active_round_trip | reflexivity].
Qed.

Lemma workflows_wf (s : WorkflowsStore) :
  distinct (map fst (templates s)) = true ->
  wf (JObj (store_to_json s)) = true.
Proof.
  intros Hd.
  assert (wf (record_to_json template_to_json (templates s)) = true) as H
    by (apply record_wf; [exact Hd | intros; apply template_wf]).
  destruct s as [v ts [a|]]; unfold store_to_json, store_members;
    cbn -[record_to_json active_to_json] in *; rewrite H;
    cbn -[active_to_json];
    [now rewrite active_wf | reflexivity].
Qed.

(** What is read has version 1 and no two templates of one name. *)
Lemma workflows_invariant (w : World) :
  schema_version (store w) = 1%Z /\
  distinct (map fst (templates (store w))) = true.
Proof.
  unfold store. rewrite readStore_fst.
  generalize (w_files w !! storagePath FILE w). intros file.
  destruct (load_cases DEFAULT file) as [E|(ms & Hwf & Hv & Hof)];
    [reflexivity | now rewrite E |].
  cbn in Hof, Hv. unfold store_of_json, Dispatch.required in Hof.
  rewrite Hv in Hof. cbn in Hof.
  destruct (get_field "templates" ms) as [j|] eqn:Hj; [|discriminate Hof].
  destruct (as_record template_of_json j) as [ts|] eqn:Hts; cbn in Hof;
    [|discriminate Hof].
  destruct (Dispatch.optional active_of_json "active" ms) as [a|];
    cbn in Hof; [|discriminate Hof].
  injection Hof as <-. split; [reflexivity|]. cbn [templates].
  pose proof (wf_member _ _ _ Hwf Hj) as Hwj.
  destruct j as [ | | | | |tms]; try discriminate Hts.
  cbn in Hts, Hwj. apply andb_prop in Hwj as [Hd _].
  now rewrite (record_keys _ _ _ Hts).
Qed.

Lemma workflows_update (f : WorkflowsStore -> WorkflowsStore) (w : World) :
  schema_version (f (store w)) = 1%Z ->
  distinct (map fst (templates (f (store w)))) = true ->
  store (snd (updateStore FILE DEFAULT f w)) = f (store w).
Proof.
  intros Hv Hd. unfold store. apply typed_update; [now apply workflows_wf|].
  fold (store w). destruct (f (store w)) as [v ts a] eqn:E. cbn in Hv. subst v.
  change (store_of_json (store_to_json (mkStore 1 ts a))
          = Some (mkStore 1 ts a)).
  apply workflows_round_trip.
Qed.

Lemma workflows_ensure (w : World) : store (ensureStorageDir w) = store w.
Proof. apply typed_ensure. Qed.

Lemma workflows_read (w : World) :
  readStore FILE DEFAULT w = (store w, ensureStorageDir w).
Proof. apply typed_read. Qed.

(** Writing an active workflow leaves the templates. *)
Lemma workflows_set_active (a : ActiveWorkflow) (w : World) :
  store (snd (updateStore FILE DEFAULT (with_active a) w))
  = with_active a (store w).
Proof.
  destruct (workflows_invariant w) as [Hv Hd].
  now apply (workflows_update (with_active a)).
Qed.

Lemma running_active (s : WorkflowsStore) (a : ActiveWorkflow) :
  active s = Some a -> nonempty (completed_at a) = None -> running s = Some a.
Proof. unfold running. now intros -> ->. Qed.

(** [start_workflow] refuses while a workflow is running. *)
Lemma start_refused (arg_name : option string)
    (arg_steps : option (list string)) (a : ActiveWorkflow) (w : World) :
  running (store w) = Some a ->
  exists message,
    start_workflow arg_name arg_steps w
    = (Returned (err message), ensureStorageDir w).
Proof.
  intros Hrun. unfold start_workflow. rewrite workflows_read, Hrun.
  eexists. reflexivity.
Qed.

Lemma start_world (arg_name : option string)
    (arg_steps : option (list string)) (d : string) (ds : list string)
    (w : World) :
  running (store w) = None ->
  resolve arg_name arg_steps (store w) = Steps (d :: ds) ->
  snd (start_workflow arg_name arg_steps w)
  = snd (updateStore FILE DEFAULT
           (with_active (mkActive arg_name 0 (fresh_steps d ds) (nowISO w)
                           None))
           (ensureStorageDir w)).
Proof.
  intros Hrun Hres. unfold start_workflow.
  rewrite workflows_read, Hrun, Hres.
  assert (nowISO (ensureStorageDir w) = nowISO w) as ->
    by apply ensureStorageDir_now.
  now destruct (updateStore _ _ _ _).
Qed.

Lemma fresh_descriptions (d : string) (ds : list string) :
  map Step.description (fresh_steps d ds) = d :: ds.
Proof.
  unfold fresh_steps. cbn. f_equal. rewrite map_map. cbn. apply map_id.
Qed.

Lemma fresh_statuses (d : string) (ds : list string) :
  map Step.status (fresh_steps d ds)
  = "in_progress"%string :: repeat "pending"%string (length ds).
Proof.
  unfold fresh_steps. cbn. f_equal. induction ds as [|x ds IH]; cbn; congruence.
Qed.

Lemma status_at (f : Step.t -> Step.t) (c : string) (i : nat)
    (l : list Step.t) :
  (forall s, Step.status (f s) = c) ->
  map Step.status (at_index i f l) = <[i := c]> (map Step.status l).
Proof.
  intros Hf. unfold at_index. revert i.
  induction l as [|x l IH]; intros [|i]; cbn; try reflexivity.
  - now rewrite Hf.
  - f_equal. apply IH.
Qed.

Lemma description_at (f : Step.t -> Step.t) (i : nat) (l : list Step.t) :
  (forall s, Step.description (f s) = Step.description s) ->
  map Step.description (at_index i f l) = map Step.description l.
Proof.
  intros Hf. unfold at_index. revert i.
  induction l as [|x l IH]; intros [|i]; cbn; try reflexivity.
  - now rewrite Hf.
  - f_equal. apply IH.
Qed.

Lemma at_index_length (f : Step.t -> Step.t) (i : nat) (l : list Step.t) :
  length (at_index i f l) = length l.
Proof. apply length_alter. Qed.

Lemma at_index_other (f : Step.t -> Step.t) (i j : nat) (l : list Step.t) :
  i <> j -> at_index i f l !! j = l !! j.
Proof. intros H. unfold at_index. now apply list_lookup_alter_ne. Qed.

Lemma at_index_same (f : Step.t -> Step.t) (i : nat) (l : list Step.t) :
  at_index i f l !! i = f <$> l !! i.
Proof. unfold at_index. apply list_lookup_alter_eq. Qed.

(** Setting the status after [k] completed steps. *)
Lemma insert_after_completed (k : nat) (c x : string) (rest : list string) :
  <[k := c]> (repeat "completed"%string k ++ x :: rest)
  = repeat "completed"%string k ++ c :: rest.
Proof.
  induction k as [|k IH]; cbn; [reflexivity|]. f_equal. exact IH.
Qed.

Lemma repeat_snoc (c : string) (k : nat) (rest : list string) :
  repeat c k ++ c :: rest = repeat c (S k) ++ rest.
Proof. induction k as [|k IH]; cbn; [reflexivity|]. now rewrite IH. Qed.

(** The world that [advance_step] leaves when the current step is one
    of the steps. *)
Lemma advance_world (arg_notes : option string) (a : ActiveWorkflow)
    (k : nat) (w : World) :
  active (store w) = Some a ->
  nonempty (completed_at a) = None ->
  current_step a = Z.of_nat k ->
  k < length (steps a) ->
  (Z.of_nat (length (steps a)) < 4294967295)%Z ->
  let done := at_index k (complete_step arg_notes (nowISO w)) (steps a) in
  snd (advance_step arg_notes w)
  = snd (updateStore FILE DEFAULT
           (with_active
              (if S k <? length (steps a)
               then mkActive (name a) (Z.of_nat (S k))
                      (at_index (S k) begin_step done) (started_at a)
                      (completed_at a)
               else mkActive (name a) (Z.of_nat k) done (started_at a)
                      (Some (nowISO w))))
           (ensureStorageDir w)).
Proof.
  intros Hact Hopen Hcur Hk Hlen. cbv zeta. unfold advance_step.
  rewrite workflows_read, Hact, Hopen, Hcur.
  assert (nowISO (ensureStorageDir w) = nowISO w) as ->
    by apply ensureStorageDir_now.
  assert (is_index (Z.of_nat k) = true) as ->
    by (unfold is_index; apply andb_true_intro; split;
        [apply Z.leb_le | apply Z.ltb_lt]; lia).
  assert ((Z.of_nat (length (steps a)) <=? Z.of_nat k)%Z = false) as ->
    by (apply Z.leb_gt; lia).
  cbn [andb]. rewrite Nat2Z.id.
  destruct (S k <? length (steps a)) eqn:Hnext.
  - apply Nat.ltb_lt in Hnext.
    assert ((Z.of_nat k + 1 <? Z.of_nat (length (steps a)))%Z = true) as ->
      by (apply Z.ltb_lt; lia).
    assert (is_index (Z.of_nat k + 1) = true) as ->
      by (unfold is_index; apply andb_true_intro; split;
          [apply Z.leb_le | apply Z.ltb_lt]; lia).
    replace (Z.to_nat (Z.of_nat k + 1)) with (S k) by lia.
    replace (Z.of_nat k + 1)%Z with (Z.of_nat (S k)) by lia.
    now destruct (updateStore _ _ _ _).
  - apply Nat.ltb_ge in Hnext.
    assert ((Z.of_nat k + 1 <? Z.of_nat (length (steps a)))%Z = false) as ->
      by (apply Z.ltb_ge; lia).
    now destruct (updateStore _ _ _ _).
Qed.

Lemma on_track_length (k : nat) (a : ActiveWorkflow) :
  on_track k a -> k < length (steps a).
Proof.
  intros (_ & (p & Hst) & _).
  apply (f_equal (@length string)) in Hst.
  rewrite length_map, length_app, repeat_length in Hst. cbn in Hst. lia.
Qed.

(** X28. A workflow starts on its first step.  When no workflow is
    running and the steps resolve to a list that is not empty (the
    custom steps, else those of the template of the name),
    [start_workflow] stores a workflow of the name with these steps,
    the first in progress and the others pending, without notes or
    times of completion, and leaves the templates; a second
    [start_workflow] is then refused, whatever its arguments, and
    writes nothing. *)
Theorem workflow_starts_on_its_first_step (arg_name : option string)
    (arg_steps : option (list string)) (d : string) (ds : list string)
    (w : World)
    (Hrun : running (store w) = None)
    (Hres : resolve arg_name arg_steps (store w) = Steps (d :: ds)) :
  let w' := snd (start_workflow arg_name arg_steps w) in
  let a := mkActive arg_name 0 (fresh_steps d ds) (nowISO w) None in
  active (store w') = Some a /\
  templates (store w') = templates (store w) /\
  map Step.description (steps a) = d :: ds /\
  on_track 0 a /\
  (forall n st, exists message,
     start_workflow n st w' = (Returned (err message), ensureStorageDir w')).
Proof.
  cbv zeta. rewrite (start_world _ _ d ds) by assumption.
  set (a := mkActive arg_name 0 (fresh_steps d ds) (nowISO w) None).
  assert (store (snd (updateStore FILE DEFAULT (with_active a)
                        (ensureStorageDir w)))
          = with_active a (store w)) as Hstore
    by now rewrite workflows_set_active, workflows_ensure.
  split; [now rewrite Hstore|]. split; [now rewrite Hstore|].
  split; [apply fresh_descriptions|]. split.
  - split; [reflexivity|]. split; [|reflexivity].
    exists (length ds). apply fresh_statuses.
  - intros n st. apply (start_refused n st a).
    apply running_active; [now rewrite Hstore | reflexivity].
Qed.

(** X29. [advance_step] moves a workflow one step.  Of a workflow whose
    first [k] steps are completed and whose next step is in progress,
    it completes that step, with the notes it was given and the time
    of the call, and leaves the name, the descriptions and the other
    steps before it; when steps are left the next one is in progress
    and the workflow is on its way at [k + 1], else every step is
    completed and the workflow has the time of the call as its time of
    completion. *)
Theorem advance_moves_the_workflow_one_step (arg_notes : option string)
    (a : ActiveWorkflow) (k : nat) (w : World)
    (Hact : active (store w) = Some a)
    (Htrack : on_track k a)
    (Hlen : (Z.of_nat (length (steps a)) < 4294967295)%Z) :
  let w' := snd (advance_step arg_notes w) in
  exists a',
    active (store w') = Some a' /\
    templates (store w') = templates (store w) /\
    name a' = name a /\ started_at a' = started_at a /\
    map Step.description (steps a') = map Step.description (steps a) /\
    (forall i, i < k -> steps a' !! i = steps a !! i) /\
    (complete_step arg_notes (nowISO w) <$> steps a !! k) = steps a' !! k /\
    (if S k <? length (steps a)
     then on_track (S k) a'
     else current_step a' = Z.of_nat k /\
          Forall (fun s => Step.status s = "completed"%string) (steps a') /\
          completed_at a' = Some (nowISO w)).
Proof.
  cbv zeta. pose proof (on_track_length k a Htrack) as Hk.
  destruct Htrack as (Hcur & (p & Hst) & Hopen).
  rewrite (advance_world arg_notes a k w Hact Hopen Hcur Hk Hlen).
  set (done := at_index k (complete_step arg_notes (nowISO w)) (steps a)).
  set (a' := if S k <? length (steps a) then _ else _).
  assert (store (snd (updateStore FILE DEFAULT (with_active a')
                        (ensureStorageDir w)))
          = with_active a' (store w)) as Hstore
    by now rewrite workflows_set_active, workflows_ensure.
  assert (map Step.status done
          = repeat "completed"%string (S k) ++ repeat "pending"%string p)
    as Hdone.
  { unfold done.
    rewrite (status_at _ "completed") by reflexivity.
    now rewrite Hst, insert_after_completed, repeat_snoc. }
  assert (map Step.description done = map Step.description (steps a))
    as Hdesc by (apply description_at; reflexivity).
  exists a'. split; [now rewrite Hstore|]. split; [now rewrite Hstore|].
  assert (length (steps a) = k + S p) as Hn.
  { apply (f_equal (@length string)) in Hst.
    rewrite length_map, length_app, repeat_length in Hst. cbn in Hst.
    now rewrite repeat_length in Hst. }
  unfold a'. destruct (S k <? length (steps a)) eqn:Hnext;
    cbn [name started_at steps current_step completed_at].
  - apply Nat.ltb_lt in Hnext.
    split; [reflexivity|]. split; [reflexivity|].
    split; [rewrite description_at by reflexivity; exact Hdesc|].
    split; [|split].
    + intros i Hi. rewrite at_index_other by lia.
      unfold done. apply at_index_other. lia.
    + rewrite at_index_other by lia. unfold done. now rewrite at_index_same.
    + destruct p as [|p]; [lia|].
      unfold on_track. cbn [steps current_step completed_at].
      split; [reflexivity|]. split; [|exact Hopen].
      exists p. rewrite (status_at _ "in_progress") by reflexivity.
      rewrite Hdone.
      change (repeat "pending"%string (S p))
        with ("pending"%string :: repeat "pending"%string p).
      apply insert_after_completed.
  - apply Nat.ltb_ge in Hnext.
    split; [reflexivity|]. split; [reflexivity|].
    split; [exact Hdesc|]. split; [|split].
    + intros i Hi. unfold done. apply at_index_other. lia.
    + unfold done. now rewrite at_index_same.
    + split; [reflexivity|]. split; [|reflexivity].
      assert (p = 0) as -> by lia.
      change (repeat "pending"%string 0) with (@nil string) in Hdone.
      rewrite app_nil_r in Hdone.
      apply List.Forall_forall. intros s Hin.
      apply (in_map Step.status) in Hin. rewrite Hdone in Hin.
      now apply repeat_spec in Hin.
Qed.

(** The built-in template of a new skill, started in a home without a
    store. *)
Lemma workflow_starts_on_its_first_step_witness :
  active (store (snd (start_workflow (Some "new-skill"%string) None
                        Samples.bare)))
  = Some (mkActive (Some "new-skill"%string) 0
            (fresh_steps "Gather examples and requirements"
               ["Plan skill structure and SKILL.md";
                "Create skill directory and files";
                "Write SKILL.md with instructions";
                "Test the skill end-to-end";
                "Push to GitHub"]%string)
            (nowISO Samples.bare) None).
Proof.
  assert (running (store Samples.bare) = None) as Hrun
    by (vm_compute; reflexivity).
  assert (resolve (Some "new-skill"%string) None (store Samples.bare)
          = Steps ["Gather examples and requirements";
                   "Plan skill structure and SKILL.md";
                   "Create skill directory and files";
                   "Write SKILL.md with instructions";
                   "Test the skill end-to-end";
                   "Push to GitHub"]%string) as Hres
    by (vm_compute; reflexivity).
  exact (proj1 (workflow_starts_on_its_first_step _ _ _ _ _ Hrun Hres)).
Defined.

(** A workflow of two steps, advanced once. *)
Lemma advance_moves_the_workflow_one_step_witness :
  exists a',
    active (store (snd (advance_step (Some "drafted"%string)
                          (snd (start_workflow (Some "note"%string)
                                  (Some ["draft"; "send"]%string)
                                  Samples.bare)))))
    = Some a' /\
    on_track 1 a'.
Proof.
  set (w := snd (start_workflow (Some "note"%string)
                   (Some ["draft"; "send"]%string) Samples.bare)).
  set (a := mkActive (Some "note"%string) 0 (fresh_steps "draft" ["send"])
              (nowISO Samples.bare) None).
  assert (active (store w) = Some a) as Hact by (vm_compute; reflexivity).
  assert (on_track 0 a) as Htrack.
  { split; [reflexivity|]. split; [|reflexivity]. exists 1. reflexivity. }
  assert (Z.of_nat (length (steps a)) < 4294967295)%Z as Hlen
    by (vm_compute; reflexivity).
  destruct (advance_moves_the_workflow_one_step (Some "drafted"%string) a 0 w
              Hact Htrack Hlen) as (a' & Ha' & _ & _ & _ & _ & _ & _ & Hnext).
  exists a'. split; [exact Ha' | exact Hnext].
Defined.

(** X30. A template that is defined is the one that is started.
    [define_workflow] with a name and steps that are not empty stores
    the template under the name, in place of one of that name, and
    leaves the other templates and the workflow; [start_workflow] of
    the name without steps of its own then starts a workflow with the
    steps that were defined, when none is running. *)
Theorem defined_template_is_started (n d : string) (ds : list string)
    (w : World)
    (Hname : is_empty n = false)
    (Hrun : running (store w) = None) :
  let w1 := snd (define_workflow (Some n) (Some (d :: ds)) w) in
  let w2 := snd (start_workflow (Some n) None w1) in
  assoc n (templates (store w1)) = Some (Template.make n (d :: ds)) /\
  (forall other, other <> n ->
     assoc other (templates (store w1)) = assoc other (templates (store w))) /\
  active (store w1) = active (store w) /\
  active (store w2)
  = Some (mkActive (Some n) 0 (fresh_steps d ds) (nowISO w) None).
Proof.
  cbv zeta. destruct (workflows_invariant w) as [Hv Hd].
  assert (snd (define_workflow (Some n) (Some (d :: ds)) w)
          = snd (updateStore FILE DEFAULT
                   (fun s =>
                      with_templates
                        (set_prop n (Template.make n (d :: ds)) (templates s))
                        s)
                   w)) as Hshape.
  { unfold define_workflow. cbn [Dispatch.nonempty]. rewrite Hname.
    now destruct (updateStore _ _ _ w). }
  rewrite Hshape.
  assert (store (snd (updateStore FILE DEFAULT
                   (fun s =>
                      with_templates
                        (set_prop n (Template.make n (d :: ds)) (templates s))
                        s)
                   w))
          = with_templates
              (set_prop n (Template.make n (d :: ds)) (templates (store w)))
              (store w)) as Hstore.
  { apply (workflows_update
             (fun s =>
                with_templates
                  (set_prop n (Template.make n (d :: ds)) (templates s)) s));
      cbn [with_templates schema_version templates];
      [exact Hv | now apply distinct_set_prop]. }
  set (w1 := snd (updateStore _ _ _ w)) in *.
  split; [rewrite Hstore; apply assoc_set_prop|].
  split; [intros other Hne; rewrite Hstore; now apply assoc_set_other|].
  split; [now rewrite Hstore|].
  assert (running (store w1) = None) as Hrun1
    by (rewrite Hstore; exact Hrun).
  assert (resolve (Some n) None (store w1) = Steps (d :: ds)) as Hres.
  { unfold resolve. cbn [show]. rewrite Hstore. cbn [templates with_templates].
    now rewrite (lookup_own _ _ _ (assoc_set_prop _ _ _)). }
  rewrite (start_world _ _ d ds w1 Hrun1 Hres).
  rewrite workflows_set_active, workflows_ensure. cbn [active with_active].
  unfold nowISO, w1. now rewrite CancelFacts.updateStore_now.
Qed.

(** A template of two steps, defined and started. *)
Lemma defined_template_is_started_witness :
  active (store (snd (start_workflow (Some "note"%string) None
                        (snd (define_workflow (Some "note"%string)
                                (Some ["draft"; "send"]%string)
                                Samples.bare)))))
  = Some (mkActive (Some "note"%string) 0 (fresh_steps "draft" ["send"])
            (nowISO Samples.bare) None).
Proof.
  assert (running (store Samples.bare) = None) as Hrun
    by (vm_compute; reflexivity).
  exact (proj2 (proj2 (proj2
           (defined_template_is_started "note" "draft" ["send"%string]
              Samples.bare eq_refl Hrun)))).
Defined.

End WorkflowFacts.
